(* ===== verification/_CoqProject ===== *)
-Q . S2P
Prelude.v
Ieee.v
Xstream.v
Bound.v
IblName.v
IblPath.v
V3dData.v
V3dWrite.v
V3dLoad.v
LoadSafety.v
LoadCut.v
RoundTrip.v
Model.v
Renderer.v
DeviceMemory.v
FrameSync.v
FrameProtocol.v
Manager.v
PageView.v
HitTest.v
Input.v
Mesh.v
Tess.v
TessProps.v
TessTotal.v
Polyline.v
Objects.v
Solids.v
QueueMesh.v
QueueSafety.v
LoadShape.v
Frames.v
QueueProps.v
Appends.v
Upload.v
Marks.v
Sync.v
Shown.v
Determined.v
Render.v
IblDownload.v
Session.v
Requests.v
SessionProps.v
Pictures.v
TwoDocuments.v
Gunzip.v
V3dGenerator.v
PdfGenerator.v
Generators.v
PdfProps.v
Workgroup.v
PrefixSum.v
Transparency.v
BlendSort.v
TransparentFrame.v
