(* ===== verification/Prelude.v ===== *)
(** * Okular's v3d plugins: a verification development

    The program shows the 3D figures that Asymptote embeds in documents.  Asymptote
    writes a figure as a v3d file (XDR, usually compressed); the plugins load it,
    keep a camera for it, turn it into vertex buffers whenever the page is painted
    and render them without a window through Vulkan; the image goes to Okular.  All
    of the program's own code is C++: [src/v3d-Common], the files of [src/asymptote] that
    it is compiled with, and two generators of the copy of Okular under [src/build].

    ** The parts and the files that model them

    Streams and data.
    - [Ieee]: [float] and [double] as exact binary32 and binary64 ([SpecFloat]).
    - [Xstream]: [asymptote/xstream.{h,cc}], the stream classes with their sticky
      state, over the interface [XdrIn]/[XdrOut] of an XDR library, with two
      implementations: stdio and [win32xdr].
    - [V3dData], [V3dWrite], [V3dLoad]: the records of a file, the writer
      ([asymptote/v3dfile.cc]) and the loader ([V3dFile/V3dFile.cpp] and the
      constructors of [V3dObjects.cpp]).  [Bound]: the boxes the loader computes
      ([asymptote/bound.cc]).
    - [LoadSafety], [LoadCut], [LoadShape], [RoundTrip]: what holds of the loader on any
      bytes, which bytes make it read what was never stored, the shape of the objects it
      stores, and that it reads what the writer writes.

    From a file to a picture.
    - [Mesh], [Tess]: vertex buffers ([asymptote/render.h]), the screen test
      ([bbox2.h]) and the subdivision of curves and surfaces ([beziercurve.cc],
      [bezierpatch.{h,cc}]).  [TessProps], [TessTotal], [Polyline]: what a
      subdivision leaves in its buffer, when it ends, and which points it draws.
    - [Objects], [Solids], [QueueMesh]: [QueueMesh] of every class of
      [V3dObjects.cpp], and of a file with its billboards ([V3dFile.cpp]).  An
      object's state between frames is an [ObjectState] beside it.
    - [QueueSafety], [Frames], [Determined], [QueueProps], [Appends]: every index
      refers to a vertex; a completely read file is queued without undefined
      behaviour; the mesh that is reused is the one that would be built; queueing
      only appends.
    - [Upload], [Marks], [Sync], [Shown]: which buffers a frame copies to the device
      and what its draw calls read ([Rendering/renderheadless.cpp]); that this is
      what was queued, in a frame with [remesh] and in any history of frames.
    - [Renderer]: the state the host side of [HeadlessRenderer] keeps between
      frames, with the answers of the GPU ([Device]) as arguments.  [DeviceMemory]: which
      images and buffers of the device are alive, on every path of refused allocations
      and of calls that throw.
    - [FrameSync], [FrameProtocol]: the order in which a frame resets, records,
      submits and waits, beside a GPU that runs at its own pace; Vulkan's queue is
      the interface [Vulkan], and the program logic [wp] proves every call valid and
      every frame finite.
    - [Workgroup], [PrefixSum]: the compute pass that gives the transparent fragments
      of each pixel their place: [recordComputeCommandBuffer] with the shaders
      [sum1.glsl], [sum2.glsl] and [sum3.glsl] of [asymptote/base/shaders].
      [Transparency], [BlendSort], [TransparentFrame]: counting, placing and blending
      them ([count.glsl], [fragment.glsl], [blend.glsl]), up to whole frames with the
      host's resizing in between.

    The viewer.
    - [Model]: the camera of one figure ([V3dModel.cpp], [Utility/Arcball.cpp]).
    - [Manager], [PageView], [HitTest], [Input]: [V3dModelManager.cpp] with its
      documents, request caches, windows, page geometry and events.
    - [Render]: [RenderModel], from a request to an image.  [Pictures]: the same with
      the real [QueueMesh] and upload, through whole sessions: every picture shows
      what is queued.  [TwoDocuments]: two managers in one process, which share the
      last page and model.
    - [IblName], [IblPath], [IblDownload]: the environment maps that a document may
      name: validation of the name, where the image is looked for, the download.
    - [Session], [SessionProps], [Requests]: the manager as a transition system,
      its invariant, and what depends on the order of events.

    Okular.
    - [Gunzip]: [gzip-hpp], which unpacks an embedded file.
    - [V3dGenerator]: the generator for v3d files
      ([build/26.04/okular/generators/v3d]); [PdfGenerator]: what the generator for PDF
      files does about figures ([build/26.04/okular/generators/pdf]): opening a
      document with its figures, and composing page images with its two caches.
    - [Generators], [PdfProps]: their sessions, which are sessions of the manager, and
      what a page shows.

    Interaction: Okular calls a generator, which owns a manager; the manager owns the
    models, each with its file; [RenderModel] runs [file_QueueMesh] into the vertex
    buffers shared by the process, hands these to the renderer and copies the frame
    out.  [Render] takes what [QueueMesh] leaves in the
    buffers as the function [queueMesh]; [Shown.frame] is that part of
    [RenderModel] with the real [file_QueueMesh] and [draw_buffers], and
    [Pictures.paints] joins the two beside the state of every model.

    ** How code is represented

    - A value that may be uninitialised is an [option]; reading [None], an index out
      of range or a signed overflow is the outcome [Undef].
    - Recursion without a structural bound takes fuel, and too little is the outcome
      [NoFuel].  The loader needs one iteration for each remaining byte and one more
      ([LoadCut.load_total]); the boxes of [Bound] the depth 53 of the source; a page is
      doubled at most ten times; decompression takes a round for every [2 * size] bytes
      of its bound.  The subdivision of the source has no bound: [TessTotal] compares it
      with the depth at which every piece passes its tests.  The name scanner needs no
      fuel: it recurs on the order of the positions.
    - Machine integers are [Z] with their wrap-around written out ([wrapw], [to_int]).
    - The manager's handlers, the loader (monad [M]) and [QueueMesh] (monad of
      [outcome]) pass their state explicitly; sessions and the GPU are step relations.

    ** Parameters

    Code that is not in the repository is a class whose laws, where it has any, are
    documented behaviour: [XdrIn]/[XdrOut] (libtirpc; [win32xdr] and stdio are
    instances), [Glm] and [Libm] (matrices, elementary functions), [MeshMath]
    (the vector functions of glm, [hypot], [cos], [sin]), [Images] (the environment
    images), [Growth] (how a vector grows), [Device] (the answers of the GPU),
    [Vulkan] (the queue), [Zlib] ([inflate]), [Poppler] (documents, pages and the
    painter), [World], [DownloadWorld] and [Env] (clock, widgets, network,
    environment).

    ** What the theorems show

    - Files: write and load are inverse ([RoundTrip.write_load_roundtrip]); on
      arbitrary bytes the loader ends, with undefined behaviour exactly when an object
      that it has begun is cut short before its counts or its control points
      ([LoadCut.load_total]), stays within its caps, and leaves at most the last
      object and material incomplete ([LoadSafety]).
    - Boxes: [Bound.bound_encloses], what the subdivision of a patch finds.
    - Names: [IblName.iblNameOK_spec] and [IblPath.resolveIBLPath_sound]: no accepted
      name leaves the image library.
    - Meshes: [TessProps.surface_mesh], [Polyline.curve_polyline],
      [QueueProps.reused_mesh_same]; [Frames.every_frame_valid] and
      [Determined.complete_file_determined] for whole files.
    - Pictures: [Shown.every_frame_draws_queue] and
      [Marks.remesh_frame_draws_queue] for the frames of a file,
      [Pictures.session_draws_queue] for every request of a session, with the classes
      of objects left out that have files for which the code fails
      ([Shown.stale_classes], [Shown.rotation_with_a_curve_reads_out_of_bounds]), and a
      session of two documents in which it fails ([TwoDocuments.two_documents_stale]).
    - GPU: [FrameProtocol.protocol_valid] (every call is valid as long as none fails)
      and [FrameProtocol.frame_completes] (no frame hangs);
      [FrameProtocol.exception_destroys_pending] (what a failing call comes to);
      [DeviceMemory.session_objects] (nothing is destroyed twice, and what leaks), with
      the failures for which this does not hold
      ([DeviceMemory.out_of_memory_destroys_twice]).
    - Transparency: the sums are right for any order of the workgroups, as long as the
      buffers hold at most 2^30 elements and need no more workgroups than one dispatch
      may have ([PrefixSum.compute_gives_prefix_sums]); a pixel is blended in the order
      of depth ([BlendSort.blend_composites]) unless its list fills the fragment buffer
      to the end ([BlendSort.full_buffer_reads_past]); so, within these bounds and when
      every allocation is granted, a frame shows what it should and leaves its buffers
      ready ([TransparentFrame.transparent_frame_spec]), whatever the order of the
      device ([TransparentFrame.picture_order_independent]).
    - Okular: every request is completed at its size
      ([V3dGenerator.generatePixmap_spec]), opening never hangs
      ([V3dGenerator.loadDocument_spec]) and finds the figures
      ([PdfProps.open_models]), the cache of backgrounds changes nothing
      ([PdfProps.cache_transparent]) until the settings change.
    - Viewer: the invariant of a session, the drags,
      caches, refreshes, downloads.
    - Some theorems are about behaviour that the code should not have; their comments
      say what goes wrong and when.

    ** Not modelled

    - What the command buffers record, pipelines, image layouts and memory types: calls
      of Vulkan without a decision of the program's own.
    - Of the shaders: rasterisation, lighting, the pass with fragment shader interlock,
      and a race of the device on [maxDepth] between the workgroups of one dispatch
      other than their order.
    - zlib, poppler and Okular itself (the copies under [src/build]); of the generator
      for PDF files all that is not about figures or page images; of the exceptions
      that reach the generators only those of the parser and of [QueueMesh]; the rest of Asymptote (the language
      and its other back ends, which the plugins do not compile).
    - [Triangles::queue], [Pixel::queue] and [triangleData]: the plugins never reach
      them.  Members that are written and never read.
    - Failures of [createBuffer] for vertex buffers, a [renderCount] that
      overflows after 2^31 frames, buffers of more than 2^32 indices (the draw calls take
      32 bits of their number), and bounds of [decompress] beyond its 32-bit counters
      (the plugins keep the default of 10^9 bytes).

    ** This file

    The notations, tactics and lemmas that the components share. *)

From stdpp Require Export base tactics list option gmap strings sets.
From coqutil Require Export Byte Word.LittleEndianList.
From Stdlib Require Export ZArith Lia.
Export Stdlib.ZArith.BinInt.

(** ** Notations and the library's hint database *)

Declare Scope v3d_scope.
Delimit Scope v3d_scope with v3d.
#[global] Open Scope Z_scope.

Create HintDb v3d.
Create Rewrite HintDb v3d.

(** ** Machine integers *)

(** [wrapw w z]: [z] reduced to an unsigned integer of [w] bits. *)
Definition wrapw (w z : Z) : Z := z mod 2 ^ w.

(** [in_range w z]: [z] is a value of an unsigned integer type of [w] bits. *)
Definition in_range (w z : Z) : Prop := 0 <= z < 2 ^ w.

#[global] Instance in_range_dec w z : Decision (in_range w z).
Proof. unfold in_range. apply _. Defined.

Lemma wrapw_range w z : 0 <= w -> in_range w (wrapw w z).
Proof. intros. apply Z.mod_pos_bound. apply Z.pow_pos_nonneg; lia. Qed.

Lemma wrapw_id w z : in_range w z -> wrapw w z = z.
Proof. intros [? ?]. by apply Z.mod_small. Qed.

#[export] Hint Resolve wrapw_range wrapw_id : v3d.

(** ** Big-endian byte strings

    The XDR representation of an [n]-byte unit: most significant byte first.
    [coqutil]'s little-endian splitting read backwards. *)

Definition be_bytes (n : nat) (z : Z) : list Byte.byte := rev (le_split n z).
Definition be_value (bs : list Byte.byte) : Z := le_combine (rev bs).

Lemma length_be_bytes n z : length (be_bytes n z) = n.
Proof. unfold be_bytes. by rewrite length_rev, length_le_split. Qed.

Lemma be_value_bytes n z : in_range (Z.of_nat n * 8) z -> be_value (be_bytes n z) = z.
Proof.
  intros [? ?]. unfold be_value, be_bytes.
  rewrite rev_involutive, le_combine_split. by apply Z.mod_small.
Qed.

Lemma be_bytes_value bs : be_bytes (length bs) (be_value bs) = bs.
Proof.
  unfold be_value, be_bytes.
  rewrite (split_le_combine' (rev bs)); [apply rev_involutive | apply length_rev].
Qed.

Lemma be_value_range bs : in_range (Z.of_nat (length bs) * 8) (be_value bs).
Proof.
  unfold be_value. pose proof (le_combine_bound (rev bs)) as H.
  rewrite length_rev in H. unfold in_range. by rewrite Z.mul_comm.
Qed.

#[export] Hint Rewrite length_be_bytes : v3d.
#[export] Hint Resolve be_value_range : v3d.

(** ** Lists *)

(** A list split after its first [n] elements, when it has that many. *)
Lemma take_drop_app {A} n (l : list A) : l = take n l ++ drop n l.
Proof. symmetry. apply take_drop. Qed.

Lemma drop_add {A} n m (l : list A) : drop n (drop m l) = drop (m + n) l.
Proof. apply drop_drop. Qed.

(** [std::vector::resize(n)]: elements past the old size are [d]. *)
Definition vresize {A} (n : nat) (d : A) (l : list A) : list A :=
  take n l ++ replicate (n - length l) d.

Lemma length_vresize {A} n (d : A) l : length (vresize n d l) = n.
Proof. unfold vresize. rewrite length_app, length_take, length_replicate. lia. Qed.

(** Growing a vector keeps what it holds. *)
Lemma vresize_grow {A} n (d : A) l :
  (length l <= n)%nat -> vresize n d l = l ++ replicate (n - length l) d.
Proof. intros. unfold vresize. by rewrite take_ge. Qed.

Lemma vresize_lookup_old {A} n (d : A) l i :
  (i < length l)%nat -> (length l <= n)%nat -> vresize n d l !! i = l !! i.
Proof. intros. rewrite vresize_grow by done. by apply lookup_app_l. Qed.

#[export] Hint Rewrite @length_vresize : v3d.

(** ** Automation *)

(** Decide the Boolean integer tests of the goal and of the context. *)
Ltac zbool :=
  repeat match goal with
  | H : (_ <? _) = true |- _ => apply Z.ltb_lt in H
  | H : (_ <? _) = false |- _ => apply Z.ltb_ge in H
  | H : (_ <=? _) = true |- _ => apply Z.leb_le in H
  | H : (_ <=? _) = false |- _ => apply Z.leb_gt in H
  | H : (_ =? _) = true |- _ => apply Z.eqb_eq in H
  | H : (_ =? _) = false |- _ => apply Z.eqb_neq in H
  end.

(** Case analysis on every [if] of the goal, keeping the equations. *)
Ltac split_ifs :=
  repeat match goal with
  | |- context [if ?b then _ else _] => destruct b eqn:?
  end.
