(* ===== verification/Ieee.v ===== *)
(** * IEEE 754 numbers

    The C types [float] and [double] as the specification floats of the
    standard library ([SpecFloat]): an executable, exact description of
    binary32 and binary64 with rounding to nearest even, without axioms.
    This file adds the storage formats (bit patterns), the conversions
    [static_cast<double>(float)] and [static_cast<float>(double)], and the
    order lemmas on which the geometric theorems rely.

    A NaN has no payload here: every NaN bit pattern denotes [S754_nan]. *)

From S2P Require Import Prelude.
From Stdlib Require Export SpecFloat.

(** ** Storage formats *)

Section Format.
(** [mw]: stored mantissa bits; [ew]: exponent bits. *)
Context (mw ew : Z).
Context (Hmw : 0 < mw) (Hew : 1 < ew).

Definition fprec : Z := mw + 1.
Definition femax : Z := 2 ^ (ew - 1).
Definition femin : Z := emin fprec femax.

(** The number a bit pattern of [1 + ew + mw] bits denotes. *)
Definition of_bits (b : Z) : spec_float :=
  let s := Z.testbit b (mw + ew) in
  let m := b mod 2 ^ mw in
  let e := (b / 2 ^ mw) mod 2 ^ ew in
  if e =? 0 then
    match m with Zpos p => S754_finite s p femin | _ => S754_zero s end
  else if e =? 2 ^ ew - 1 then
    if m =? 0 then S754_infinity s else S754_nan
  else
    match m + 2 ^ mw with
    | Zpos p => S754_finite s p (femin + e - 1)
    | _ => S754_nan
    end.

(** The bit pattern of a number; a NaN is written as the quiet NaN with an
    empty payload. *)
Definition to_bits (x : spec_float) : Z :=
  let sgn (s : bool) := if s then 2 ^ (mw + ew) else 0 in
  match x with
  | S754_zero s => sgn s
  | S754_infinity s => sgn s + (2 ^ ew - 1) * 2 ^ mw
  | S754_nan => (2 ^ ew - 1) * 2 ^ mw + 2 ^ (mw - 1)
  | S754_finite s p e =>
      if Zpos p <? 2 ^ mw then sgn s + Zpos p
      else sgn s + (e - femin + 1) * 2 ^ mw + (Zpos p - 2 ^ mw)
  end.

(** *** Decoding inverts encoding *)

(** A pattern assembled from its three fields. *)
Definition pack (s : bool) (e m : Z) : Z :=
  (if s then 2 ^ (mw + ew) else 0) + e * 2 ^ mw + m.

Lemma pack_fields s e m :
  in_range mw m -> in_range ew e ->
  Z.testbit (pack s e m) (mw + ew) = s /\
  pack s e m mod 2 ^ mw = m /\
  (pack s e m / 2 ^ mw) mod 2 ^ ew = e.
Proof.
  unfold in_range, pack. intros Hm He.
  assert (0 < 2 ^ mw) by (apply Z.pow_pos_nonneg; lia).
  assert (0 < 2 ^ ew) by (apply Z.pow_pos_nonneg; lia).
  rewrite Z.pow_add_r by lia.
  replace ((if s then 2 ^ mw * 2 ^ ew else 0) + e * 2 ^ mw + m)
    with (m + ((if s then 2 ^ ew else 0) + e) * 2 ^ mw) by (destruct s; lia).
  set (h := (if s then 2 ^ ew else 0) + e).
  assert ((m + h * 2 ^ mw) / 2 ^ mw = h) as Hdiv.
  { rewrite Z.div_add, Z.div_small by lia. lia. }
  split_and!.
  - rewrite Z.testbit_eqb, Z.pow_add_r by lia.
    rewrite <- Z.div_div, Hdiv by lia. unfold h. destruct s.
    + rewrite <- (Z.mul_1_l (2 ^ ew)) at 1.
      by rewrite Z.div_add_l, Z.div_small by lia.
    + by rewrite Z.div_small by lia.
  - rewrite Z.mod_add by lia. by apply Z.mod_small.
  - rewrite Hdiv. unfold h. destruct s.
    + rewrite Z.add_comm. rewrite <- (Z.mul_1_l (2 ^ ew)) at 1.
      rewrite Z.mod_add by lia. by apply Z.mod_small.
    + by apply Z.mod_small.
Qed.

Lemma of_bits_pack s e m :
  in_range mw m -> in_range ew e ->
  of_bits (pack s e m) =
    if e =? 0 then
      match m with Zpos p => S754_finite s p femin | _ => S754_zero s end
    else if e =? 2 ^ ew - 1 then
      if m =? 0 then S754_infinity s else S754_nan
    else
      match m + 2 ^ mw with
      | Zpos p => S754_finite s p (femin + e - 1)
      | _ => S754_nan
      end.
Proof.
  intros Hm He. destruct (pack_fields s e m Hm He) as (Hs & Hmod & Hdiv).
  unfold of_bits. by rewrite Hs, Hmod, Hdiv.
Qed.

(** What the encoder writes, field by field. *)
Lemma to_bits_pack x :
  to_bits x =
    match x with
    | S754_zero s => pack s 0 0
    | S754_infinity s => pack s (2 ^ ew - 1) 0
    | S754_nan => pack false (2 ^ ew - 1) (2 ^ (mw - 1))
    | S754_finite s p e =>
        if Zpos p <? 2 ^ mw then pack s 0 (Zpos p)
        else pack s (e - femin + 1) (Zpos p - 2 ^ mw)
    end.
Proof. unfold to_bits, pack. destruct x; [lia..|]. destruct (_ <? _); lia. Qed.

Lemma digits2_pos_bound p :
  2 ^ (Zpos (digits2_pos p) - 1) <= Zpos p < 2 ^ Zpos (digits2_pos p).
Proof.
  induction p as [p IH|p IH|]; cbn [digits2_pos]; [| |by compute].
  all: change (PosDef.Pos.succ (digits2_pos p)) with (Pos.succ (digits2_pos p));
    rewrite Pos2Z.inj_succ; set (d := Zpos (digits2_pos p)) in *;
    assert (0 < d) by lia;
    replace (Z.succ d - 1) with (Z.succ (d - 1)) by lia;
    rewrite !Z.pow_succ_r by lia; lia.
Qed.

(** The shape of the finite numbers of the format: subnormals have the
    least exponent, normals have [mw + 1] mantissa bits. *)
Lemma bounded_cases p e :
  bounded fprec femax p e = true ->
  (Zpos p < 2 ^ mw /\ e = femin) \/
  (2 ^ mw <= Zpos p < 2 ^ (mw + 1) /\ 0 <= e - femin <= 2 ^ ew - 3).
Proof.
  unfold bounded, canonical_mantissa, fexp. intros [Hc He]%andb_prop.
  apply Z.eqb_eq in Hc. apply Z.leb_le in He.
  pose proof (digits2_pos_bound p) as Hd. set (d := Zpos (digits2_pos p)) in *.
  fold femin in *. unfold femin, emin, fprec, femax in *.
  assert (2 * 2 ^ (ew - 1) = 2 ^ ew) as Hp.
  { rewrite <- Z.pow_succ_r by lia. f_equal. lia. }
  destruct (Z_le_gt_dec (mw + 1) d) as [Hge|Hlt].
  - right. assert (d = mw + 1) as -> by lia.
    replace (mw + 1 - 1) with mw in Hd by lia. lia.
  - left. split; [|lia].
    assert (2 ^ d <= 2 ^ mw) by (apply Z.pow_le_mono_r; lia). lia.
Qed.

Lemma bits_roundtrip x :
  valid_binary fprec femax x = true -> of_bits (to_bits x) = x.
Proof.
  intros Hv. rewrite to_bits_pack.
  assert (0 < 2 ^ mw) by (apply Z.pow_pos_nonneg; lia).
  assert (2 ^ 2 <= 2 ^ ew) as Hew2 by (apply Z.pow_le_mono_r; lia).
  change (2 ^ 2) with 4 in Hew2.
  destruct x as [s|s| |s p e].
  - rewrite of_bits_pack by (unfold in_range; lia). done.
  - rewrite of_bits_pack by (unfold in_range; lia).
    by rewrite Z.eqb_refl, (proj2 (Z.eqb_neq _ _)) by lia.
  - assert (0 < 2 ^ (mw - 1) < 2 ^ mw).
    { split; [apply Z.pow_pos_nonneg; lia | apply Z.pow_lt_mono_r; lia]. }
    rewrite of_bits_pack by (unfold in_range; lia).
    by rewrite Z.eqb_refl, !(proj2 (Z.eqb_neq _ _)) by lia.
  - cbn [valid_binary] in Hv.
    destruct (bounded_cases p e Hv) as [[Hp ->]|[Hp He]].
    + rewrite (proj2 (Z.ltb_lt _ _)) by lia.
      by rewrite of_bits_pack by (unfold in_range; lia).
    + rewrite (proj2 (Z.ltb_ge _ _)) by lia.
      rewrite Z.pow_add_r in Hp by lia.
      rewrite of_bits_pack by (unfold in_range; lia).
      rewrite !(proj2 (Z.eqb_neq _ _)) by lia.
      replace (Zpos p - 2 ^ mw + 2 ^ mw) with (Zpos p) by lia.
      f_equal. lia.
Qed.

(** Every pattern decodes to a number of the format. *)
Lemma to_bits_range x :
  valid_binary fprec femax x = true -> in_range (1 + ew + mw) (to_bits x).
Proof.
  intros Hv. rewrite to_bits_pack.
  assert (0 < 2 ^ mw) by (apply Z.pow_pos_nonneg; lia).
  assert (2 ^ 2 <= 2 ^ ew) as Hew2 by (apply Z.pow_le_mono_r; lia).
  change (2 ^ 2) with 4 in Hew2.
  assert (forall s e m, in_range mw m -> in_range ew e ->
    in_range (1 + ew + mw) (pack s e m)) as Hpack.
  { unfold in_range, pack. intros s e m ? ?.
    rewrite !Z.pow_add_r by lia. change (2 ^ 1) with 2. destruct s; nia. }
  destruct x as [s|s| |s p e]; [apply Hpack; unfold in_range; lia..| |].
  - apply Hpack; unfold in_range; [|lia].
    split; [apply Z.pow_nonneg; lia | apply Z.pow_lt_mono_r; lia].
  - cbn [valid_binary] in Hv.
    destruct (bounded_cases p e Hv) as [[Hp ->]|[Hp He]].
    + rewrite (proj2 (Z.ltb_lt _ _)) by lia. apply Hpack; unfold in_range; lia.
    + rewrite (proj2 (Z.ltb_ge _ _)) by lia.
      rewrite Z.pow_add_r in Hp by lia. apply Hpack; unfold in_range; lia.
Qed.

End Format.

(** binary32 and binary64 *)
Definition float32 : Type := spec_float.
Definition float64 : Type := spec_float.

Definition f32_of_bits : Z -> float32 := of_bits 23 8.
Definition f32_to_bits : float32 -> Z := to_bits 23 8.
Definition f64_of_bits : Z -> float64 := of_bits 52 11.
Definition f64_to_bits : float64 -> Z := to_bits 52 11.

Definition valid32 (x : float32) : bool := valid_binary 24 128 x.
Definition valid64 (x : float64) : bool := valid_binary 53 1024 x.

(** ** Conversions *)

(** [static_cast] between the two formats: rounding to nearest even when the
    target is narrower, the same number when it is wider. *)
Definition sf_convert (prec emax : Z) (x : spec_float) : spec_float :=
  match x with
  | S754_finite s m e =>
      binary_normalize prec emax (if s then Zneg m else Zpos m) e s
  | _ => x
  end.

Definition double_of_float (x : float32) : float64 := sf_convert 53 1024 x.
Definition float_of_double (x : float64) : float32 := sf_convert 24 128 x.

(** [int] and [unsigned] operands converted to [double] or [float]. *)
Definition double_of_Z (z : Z) : float64 := binary_normalize 53 1024 z 0 false.
Definition float_of_Z (z : Z) : float32 := binary_normalize 24 128 z 0 false.

(** ** Arithmetic on [double] *)

Definition dadd : float64 -> float64 -> float64 := SFadd 53 1024.
Definition dsub : float64 -> float64 -> float64 := SFsub 53 1024.
Definition dmul : float64 -> float64 -> float64 := SFmul 53 1024.
Definition ddiv : float64 -> float64 -> float64 := SFdiv 53 1024.
Definition dsqrt : float64 -> float64 := SFsqrt 53 1024.
Definition dopp : float64 -> float64 := SFopp.

(** [float] arithmetic *)
Definition fadd : float32 -> float32 -> float32 := SFadd 24 128.
Definition fsub : float32 -> float32 -> float32 := SFsub 24 128.
Definition fmul : float32 -> float32 -> float32 := SFmul 24 128.
Definition fdiv : float32 -> float32 -> float32 := SFdiv 24 128.
Definition fsqrt : float32 -> float32 := SFsqrt 24 128.
Definition fopp : float32 -> float32 := SFopp.

(** Literals of the sources. *)
Definition d0 : float64 := S754_zero false.
Definition d1 : float64 := f64_of_bits 0x3FF0000000000000.
Definition dm1 : float64 := f64_of_bits 0xBFF0000000000000.
Definition d2 : float64 := f64_of_bits 0x4000000000000000.
Definition dhalf : float64 := f64_of_bits 0x3FE0000000000000.
Definition dquarter : float64 := f64_of_bits 0x3FD0000000000000.

(** ** Order *)

Definition sf_nan (x : spec_float) : bool :=
  match x with S754_nan => true | _ => false end.

(** Total preorder of the numbers that are not NaN. *)
Definition sf_le (x y : spec_float) : Prop := SFleb x y = true.

Lemma SFcompare_nan_l x y : sf_nan x = true -> SFcompare x y = None.
Proof. by destruct x. Qed.

Lemma SFcompare_some x y :
  sf_nan x = false -> sf_nan y = false -> is_Some (SFcompare x y).
Proof. destruct x, y; try done; cbn; eauto. Qed.

Ltac sf_cases :=
  repeat match goal with
  | s : bool |- _ => destruct s
  end;
  cbn; try done.

(** Shows the mantissa comparison of [SFcompare] as [Pos.compare]. *)
Ltac fold_compare :=
  repeat match goal with
  | |- context [PosDef.Pos.compare_cont Eq ?p ?q] =>
      change (PosDef.Pos.compare_cont Eq p q) with (Pos.compare p q)
  end.

Lemma SFcompare_refl x : sf_nan x = false -> SFcompare x x = Some Eq.
Proof.
  destruct x as [s|s| |s m e]; try done; sf_cases.
  all: fold_compare; by rewrite Z.compare_refl, Pos.compare_refl.
Qed.

Lemma sf_le_refl x : sf_nan x = false -> sf_le x x.
Proof. intros. unfold sf_le, SFleb. by rewrite SFcompare_refl. Qed.

Lemma SFcompare_antisym x y :
  SFcompare y x = option_map CompOpp (SFcompare x y).
Proof.
  destruct x as [sx|sx| |sx mx ex], y as [sy|sy| |sy my ey]; sf_cases.
  all: fold_compare; rewrite (Z.compare_antisym ex ey),
    (Pos.compare_antisym mx my); by destruct (ex ?= ey), (Pos.compare mx my).
Qed.

Lemma SFltb_SFleb x y :
  sf_nan x = false -> sf_nan y = false -> SFltb x y = negb (SFleb y x).
Proof.
  intros Hx Hy. unfold SFltb, SFleb. rewrite (SFcompare_antisym x y).
  destruct (SFcompare_some x y Hx Hy) as [c ->]. by destruct c.
Qed.

Lemma sf_le_total x y : sf_nan x = false -> sf_nan y = false -> sf_le x y \/ sf_le y x.
Proof.
  intros Hx Hy. unfold sf_le, SFleb. rewrite (SFcompare_antisym x y).
  destruct (SFcompare_some x y Hx Hy) as [c ->]. destruct c; auto.
Qed.

(** The order of the finite numbers is that of (exponent, mantissa). *)
Lemma sf_le_trans x y z : sf_le x y -> sf_le y z -> sf_le x z.
Proof.
  unfold sf_le, SFleb.
  destruct x as [sx|sx| |sx mx ex], y as [sy|sy| |sy my ey], z as [sz|sz| |sz mz ez];
    sf_cases.
  all: fold_compare;
    destruct (Z.compare_spec ex ey), (Z.compare_spec ey ez), (Z.compare_spec ex ez);
    try done; try lia;
    destruct (Pos.compare_spec mx my), (Pos.compare_spec my mz),
      (Pos.compare_spec mx mz); cbn; try done; lia.
Qed.

Lemma sf_le_nan_l x y : sf_le x y -> sf_nan x = false.
Proof. by destruct x, y. Qed.

Lemma sf_le_nan_r x y : sf_le x y -> sf_nan y = false.
Proof. by destruct x as [[]|[]| |[]], y as [[]|[]| |[]]. Qed.

#[export] Hint Resolve sf_le_refl sf_le_trans sf_le_nan_l sf_le_nan_r : v3d.

(** ** Normal numbers of [float] *)

Lemma Zdigits2_bound p d : 2 ^ (d - 1) <= Zpos p < 2 ^ d -> Zpos (digits2_pos p) = d.
Proof.
  intros H. pose proof (digits2_pos_bound p) as Hp. set (k := Zpos (digits2_pos p)) in *.
  assert (0 < d) by (destruct (Z_le_gt_dec d 0); [|lia]; destruct (Z.eq_dec d 0) as [->|];
    [cbn in H|rewrite (Z.pow_neg_r 2 d) in H by lia]; lia).
  assert (0 < k) by lia.
  destruct (Z.lt_trichotomy k d) as [Hlt|[?|Hlt]]; [|done|].
  - pose proof (Z.pow_le_mono_r 2 k (d - 1)). lia.
  - pose proof (Z.pow_le_mono_r 2 d (k - 1)). lia.
Qed.

Lemma iter_pos_succ {A} (f : A -> A) p x : iter_pos f p x = Nat.iter (Pos.to_nat p) f x.
Proof.
  revert x. induction p as [p IH|p IH|]; intros x; cbn [iter_pos]; [| |done].
  - rewrite !IH, Pos2Nat.inj_xI, <- Nat.iter_add. change (f x) with (Nat.iter 1 f x).
    rewrite <- Nat.iter_add. f_equal. lia.
  - rewrite !IH, <- Nat.iter_add. f_equal. lia.
Qed.

Lemma shr_1_half r : 0 <= shr_m r -> shr_m (shr_1 r) = shr_m r / 2.
Proof.
  destruct r as [m r s]. cbn [shr_m]. intros Hm. destruct m as [|[p|p|]|p]; try lia; cbn [shr_1 shr_m]; try done.
  - apply (Z.div_unique _ _ _ 1); lia.
  - apply (Z.div_unique _ _ _ 0); lia.
Qed.

Lemma shr_1_exact m : 0 <= m -> shr_1 (Build_shr_record (2 * m) false false) = Build_shr_record m false false.
Proof. destruct m; [done| |lia]. done. Qed.

(** [n] bits are shifted out. *)
Lemma shr_bits m n e : 0 <= m -> 0 <= n ->
  exists r s, shr (Build_shr_record m false false) e n = (Build_shr_record (m / 2 ^ n) r s, e + n) /\
    (m mod 2 ^ n = 0 -> r = false /\ s = false).
Proof.
  intros Hm Hn. assert (forall k : nat, exists r s,
    Nat.iter k shr_1 (Build_shr_record m false false) = Build_shr_record (m / 2 ^ Z.of_nat k) r s /\
    (m mod 2 ^ Z.of_nat k = 0 -> r = false /\ s = false)) as H.
  { induction k as [|k (r & s & IH & Hx)].
    - exists false, false. cbn. by rewrite Z.div_1_r.
    - set (q := m / 2 ^ Z.of_nat k) in *. change (Nat.iter (S k) shr_1 ?x) with (shr_1 (Nat.iter k shr_1 x)). rewrite IH.
      assert (0 <= q) by (apply Z.div_pos; [done|lia]).
      pose proof (shr_1_half (Build_shr_record q r s)) as Hh. cbn [shr_m] in Hh.
      destruct (shr_1 (Build_shr_record q r s)) as [m' r' s'] eqn:E. exists r', s'.
      rewrite Nat2Z.inj_succ, Z.pow_succ_r by lia. rewrite (Z.mul_comm 2), <- Z.div_div by lia.
      fold q. split; [f_equal; rewrite <- Hh by done; done|]. intros Hmod.
      rewrite Z.rem_mul_r in Hmod by lia. fold q in Hmod.
      pose proof (Z.mod_pos_bound m (2 ^ Z.of_nat k)). pose proof (Z.mod_pos_bound q 2).
      assert (m mod 2 ^ Z.of_nat k = 0 /\ q mod 2 = 0) as [H3 H4] by nia.
      destruct (Hx H3) as [-> ->]. apply Z.div_exact in H4; [|lia]. rewrite H4, shr_1_exact in E by (apply Z.div_pos; lia).
      by injection E as _ <- <-. }
  destruct n as [|p|p]; [| |lia].
  - exists false, false. cbn. by rewrite Z.div_1_r, Z.add_0_r.
  - destruct (H (Pos.to_nat p)) as (r & s & E & Hx). rewrite positive_nat_Z in *. exists r, s.
    cbn [shr]. by rewrite iter_pos_succ, E.
Qed.

Definition normal32 (x : float32) : Prop :=
  match x with S754_finite _ m e => 2 ^ 23 <= Zpos m < 2 ^ 24 | _ => False end.

(** Twenty-four digits are left. *)
Lemma shr_fexp_24 p ex : 2 ^ 23 <= Zpos p -> -149 <= ex ->
  let n := Zpos (digits2_pos p) - 24 in
  0 <= n /\ exists r s, shr_fexp 24 128 (Zpos p) ex loc_Exact = (Build_shr_record (Zpos p / 2 ^ n) r s, ex + n) /\
    2 ^ 23 <= Zpos p / 2 ^ n < 2 ^ 24 /\ (Zpos p mod 2 ^ n = 0 -> r = false /\ s = false).
Proof.
  intros Hp He. pose proof (digits2_pos_bound p) as Hd. intros n.
  assert (0 <= n) as Hn.
  { unfold n. destruct (Z_le_gt_dec 24 (Zpos (digits2_pos p))); [lia|].
    pose proof (Z.pow_le_mono_r 2 (Zpos (digits2_pos p)) 23). lia. }
  split; [done|]. unfold shr_fexp. cbn [shr_record_of_loc Zdigits2].
  replace (fexp 24 128 _ - ex) with n by (unfold fexp, emin, n in *; lia).
  destruct (shr_bits (Zpos p) n ex) as (r & s & E & Hx); [lia|done|]. exists r, s. split; [done|]. split; [|done].
  replace (Zpos (digits2_pos p) - 1) with (23 + n) in Hd by (unfold n; lia).
  replace (Zpos (digits2_pos p)) with (24 + n) in Hd by (unfold n; lia).
  rewrite !Z.pow_add_r in Hd by lia.
  split; [apply Z.div_le_lower_bound|apply Z.div_lt_upper_bound]; lia.
Qed.

Lemma round_normal s p ex : 2 ^ 23 <= Zpos p < 2 ^ 48 -> -149 <= ex <= 50 ->
  exists m e, binary_round_aux 24 128 s (Zpos p) ex loc_Exact = S754_finite s m e /\
    2 ^ 23 <= Zpos m < 2 ^ 24 /\ ex <= e <= ex + 25 /\
    (Zpos p mod 2 ^ (Zpos (digits2_pos p) - 24) = 0 ->
     Zpos m = Zpos p / 2 ^ (Zpos (digits2_pos p) - 24) /\ e = ex + (Zpos (digits2_pos p) - 24)).
Proof.
  intros Hp He. pose proof (digits2_pos_bound p) as Hd.
  destruct (shr_fexp_24 p ex) as (Hn & r & t & E & Hm & Hx); [lia..|].
  set (n := Zpos (digits2_pos p) - 24) in *.
  assert (n <= 24) as Hn2.
  { unfold n. destruct (Z_le_gt_dec (Zpos (digits2_pos p)) 48); [lia|].
    pose proof (Z.pow_le_mono_r 2 48 (Zpos (digits2_pos p) - 1)). lia. }
  unfold binary_round_aux. rewrite E. cbn [shr_m].
  set (q := Zpos p / 2 ^ n) in *.
  assert (exists b : bool, round_nearest_even q (loc_of_shr_record (Build_shr_record q r t)) = q + Z.b2z b /\
    (r = false /\ t = false -> b = false)) as (b & -> & Hb).
  { destruct r, t; cbn [loc_of_shr_record round_nearest_even].
    - exists true. split; [done|by intros []].
    - destruct (Z.even q); [exists false|exists true]; (split; [cbn; lia|by intros []]).
    - exists false. split; [cbn; lia|done].
    - exists false. split; [cbn; lia|done]. }
  destruct (q + Z.b2z b) as [|m'|m'] eqn:Em; [destruct b; cbn in Em; lia| |destruct b; cbn in Em; lia].
  destruct (shr_fexp_24 m' (ex + n)) as (Hn' & r' & t' & E' & Hm' & _); [destruct b; cbn in Em; lia|lia|].
  rewrite E'. cbn [shr_m]. set (n' := Zpos (digits2_pos m') - 24) in *.
  pose proof (digits2_pos_bound m') as Hd'.
  assert (n' <= 1) as Hn3.
  { unfold n'. destruct (Z_le_gt_dec (Zpos (digits2_pos m')) 25); [lia|].
    pose proof (Z.pow_le_mono_r 2 25 (Zpos (digits2_pos m') - 1)). destruct b; cbn in Em; lia. }
  destruct (Zpos m' / 2 ^ n') as [|m|m] eqn:Ed; [lia| |lia].
  rewrite (proj2 (Z.leb_le _ _)) by lia. exists m, (ex + n + n'). split; [done|]. split; [done|].
  split; [lia|]. intros Hz. specialize (Hb (Hx Hz)) as ->. cbn in Em.
  assert (n' = 0) as Hn0.
  { unfold n'. rewrite (Zdigits2_bound m' 24); lia. }
  rewrite Hn0 in Ed. change (2 ^ 0) with 1 in Ed. rewrite Z.div_1_r in Ed. lia.
Qed.

(** Twice a normal number: the exponent grows. *)
Lemma fmul_two s m e : 2 ^ 23 <= Zpos m < 2 ^ 24 -> -127 <= e <= 70 ->
  fmul (S754_finite s m e) (f32_of_bits 0x40000000) = S754_finite s m (e + 1).
Proof.
  intros Hm He. unfold fmul.
  change (f32_of_bits 0x40000000) with (S754_finite false 8388608 (-22)). cbn [SFmul]. rewrite xorb_false_r.
  assert (Zpos (m * 8388608) = Zpos m * 2 ^ 23) as Hp by (rewrite Pos2Z.inj_mul; done).
  assert (Zpos (digits2_pos (m * 8388608)) = 47) as Hd by (apply Zdigits2_bound; lia).
  destruct (round_normal s (m * 8388608) (e + -22)) as (m' & e' & -> & _ & _ & Hx); [lia..|].
  rewrite Hd, Hp in Hx. change (47 - 24) with 23 in Hx.
  destruct Hx as [H1 ->]; [by rewrite Z.mod_mul|]. rewrite Z.div_mul in H1 by done.
  f_equal; [by injection H1|lia].
Qed.

(** Conversion of the integers of 32 bits. *)
Lemma float_of_Z_normal z : 1 <= z < 2 ^ 32 ->
  exists m e, float_of_Z z = S754_finite false m e /\ 2 ^ 23 <= Zpos m < 2 ^ 24 /\ -23 <= e <= 34.
Proof.
  intros Hz. unfold float_of_Z. destruct z as [|p|p]; [lia| |lia]. cbn [binary_normalize]. unfold binary_round.
  pose proof (digits2_pos_bound p) as Hd. set (d := Zpos (digits2_pos p)) in *.
  assert (1 <= d) by (unfold d; lia).
  assert (d <= 32).
  { destruct (Z_le_gt_dec d 32); [lia|]. pose proof (Z.pow_le_mono_r 2 32 (d - 1)). lia. }
  replace (fexp 24 128 (d + 0)) with (d - 24) by (unfold fexp, emin; lia).
  unfold shl_align. destruct (d - 24 - 0) as [|k|k] eqn:Ek.
  3: { assert (Zpos (Pos.iter xO p k) = Zpos p * 2 ^ Zpos k) as Hs.
    { clear. revert k. apply Pos.peano_ind; [cbn; lia|]. intros k IH.
      rewrite Pos.iter_succ, Pos2Z.inj_succ, Z.pow_succ_r by lia. lia. }
    assert (2 ^ 23 <= Zpos (Pos.iter xO p k) < 2 ^ 24).
    { rewrite Hs. replace (2 ^ 23) with (2 ^ (d - 1) * 2 ^ Zpos k) by (rewrite <- Z.pow_add_r by lia; f_equal; lia).
      replace (2 ^ 24) with (2 ^ d * 2 ^ Zpos k) by (rewrite <- Z.pow_add_r by lia; f_equal; lia). nia. }
    destruct (round_normal false (Pos.iter xO p k) (d - 24)) as (m & e & -> & Hm & He & _); [lia..|].
    exists m, e. split; [done|]. split; [done|lia]. }
  all: assert (2 ^ 23 <= Zpos p) by (transitivity (2 ^ (d - 1)); [apply Z.pow_le_mono_r; lia|lia]).
  all: destruct (round_normal false p 0) as (m & e & -> & Hm & He & _); [lia..|].
  all: exists m, e; split; [done|]; split; [done|lia].
Qed.
