(* ===== verification/Xstream.v ===== *)
(** * XDR streams

    [asymptote/xstream.h], [asymptote/xstream.cc] and
    [asymptote/win32xdr.h]/[.cc].

    - [Stdio]: the C [FILE] operations the streams call.
    - [XdrIn]/[XdrOut]: what [xstream.cc] uses of the XDR library it is linked
      against.  On Windows that library is [win32xdr.cc] (Module [Win32]
      below, an instance of both classes); elsewhere it is libtirpc, which is
      not part of the repository and stays a parameter: every theorem of the
      development holds for any instance satisfying [XdrInOk]/[XdrOutOk], the
      XDR format of RFC 4506.
    - [ixstream]/[oxstream]: the stream classes, with their sticky state word,
      and the reading monad [M] in which the file loader is written. *)

From S2P Require Import Prelude Ieee.

(** ** Stdio *)

Module Stdio.
Record FILE := mkFILE {
  f_data : list Byte.byte;      (* contents *)
  f_pos : nat;                  (* file position indicator *)
  f_room : option nat           (* greatest size the medium can hold *)
}.

(** [fread(ptr, n, 1, f)]: a short read leaves the position at the end. *)
Definition fread (n : nat) (f : FILE) : option (list Byte.byte) * FILE :=
  let rest := drop (f_pos f) (f_data f) in
  if decide (n <= length rest)%nat
  then (Some (take n rest), mkFILE (f_data f) (f_pos f + n) (f_room f))
  else (None, mkFILE (f_data f) (Nat.max (f_pos f) (length (f_data f))) (f_room f)).

Definition fgetc (f : FILE) : option Byte.byte * FILE :=
  match fread 1 f with
  | (Some [b], f') => (Some b, f')
  | (_, f') => (None, f')
  end.

(** [fwrite(ptr, n, 1, f)] on a stream open for writing: the bytes go to the
    end; the call fails when the medium is full. *)
Definition fwrite (bs : list Byte.byte) (f : FILE) : bool * FILE :=
  let size := (length (f_data f) + length bs)%nat in
  let fits := match f_room f with None => true | Some r => bool_decide (size <= r)%nat end in
  if fits then (true, mkFILE (f_data f ++ bs) size (f_room f)) else (false, f).

Inductive whence := SEEK_SET | SEEK_CUR | SEEK_END.

Definition ftello (f : FILE) : Z := Z.of_nat (f_pos f).

Definition fseeko (off : Z) (w : whence) (f : FILE) : bool * FILE :=
  let base := match w with
              | SEEK_SET => 0
              | SEEK_CUR => Z.of_nat (f_pos f)
              | SEEK_END => Z.of_nat (length (f_data f))
              end in
  if base + off <? 0 then (false, f)
  else (true, mkFILE (f_data f) (Z.to_nat (base + off)) (f_room f)).
End Stdio.
Import Stdio.

(** ** The XDR library seen from the streams *)

(** Decoding side.  The values of [xdr_float] and [xdr_double] are the bit
    patterns; [None] is the library's FALSE. *)
Class XdrIn (S : Type) := {
  in_data : S -> list Byte.byte;
  in_pos : S -> nat;
  xdr_u_int32_t : S -> option Z * S;
  xdr_u_int64_t : S -> option Z * S;
  xdr_float : S -> option Z * S;
  xdr_double : S -> option Z * S;
  in_getc : S -> option Byte.byte * S;
  in_seek : Z -> whence -> S -> bool * S;
  in_tell : S -> Z
}.

Definition in_rest {S} `{XdrIn S} (s : S) : list Byte.byte := drop (in_pos s) (in_data s).

(** An operation that decodes [n] bytes: it yields the unit when the bytes are
    there, and otherwise fails with the input exhausted. *)
Definition decodes {S A} `{XdrIn S} (n : nat) (dec : list Byte.byte -> A)
    (op : S -> option A * S) : Prop :=
  forall s,
    in_data (op s).2 = in_data s /\
    if decide (n <= length (in_rest s))%nat
    then (op s).1 = Some (dec (take n (in_rest s))) /\ in_pos (op s).2 = (in_pos s + n)%nat
    else (op s).1 = None /\ in_rest (op s).2 = [].

Definition byte_head (bs : list Byte.byte) : Byte.byte := default Byte.x00 (head bs).

Class XdrInOk (S : Type) `{XdrIn S} : Prop := {
  u_int32_decodes : decodes 4 be_value xdr_u_int32_t;
  u_int64_decodes : decodes 8 be_value xdr_u_int64_t;
  float_decodes : decodes 4 be_value xdr_float;
  double_decodes : decodes 8 be_value xdr_double;
  getc_decodes : decodes 1 byte_head in_getc;
  tell_pos : forall s, in_tell s = Z.of_nat (in_pos s);
  seek_data : forall off w s, in_data (in_seek off w s).2 = in_data s;
  seek_set_pos : forall p s, (p <= length (in_data s))%nat ->
    (in_seek (Z.of_nat p) SEEK_SET s).1 = true /\
    in_pos (in_seek (Z.of_nat p) SEEK_SET s).2 = p;
  (* some in-memory streams ignore the seek direction *)
  seek_end_pos : forall s,
    in_pos (in_seek 0 SEEK_END s).2 = length (in_data s) \/
    in_pos (in_seek 0 SEEK_END s).2 = 0%nat
}.

(** Encoding side. *)
Class XdrOut (S : Type) := {
  out_data : S -> list Byte.byte;
  xdr_put_u_int32_t : Z -> S -> bool * S;
  xdr_put_u_int64_t : Z -> S -> bool * S;
  xdr_put_float : Z -> S -> bool * S;
  xdr_put_double : Z -> S -> bool * S;
  out_putc : Byte.byte -> S -> bool * S
}.

Definition encodes {S A} `{XdrOut S} (enc : A -> list Byte.byte)
    (op : A -> S -> bool * S) : Prop :=
  forall a s, (op a s).1 = true -> out_data (op a s).2 = out_data s ++ enc a.

Class XdrOutOk (S : Type) `{XdrOut S} : Prop := {
  put_u_int32_encodes : encodes (be_bytes 4) xdr_put_u_int32_t;
  put_u_int64_encodes : encodes (be_bytes 8) xdr_put_u_int64_t;
  put_float_encodes : encodes (be_bytes 4) xdr_put_float;
  put_double_encodes : encodes (be_bytes 8) xdr_put_double;
  putc_encodes : encodes (fun b => [b]) out_putc
}.

(** ** The repository's own XDR library: [win32xdr.cc] *)

Module Win32.
Definition W32_XDR_DECODE : Z := 0.
Definition W32_XDR_ENCODE : Z := 1.

(** [struct Win32XDR].  [nfm_data] holds the [memSize] bytes at [data];
    [nfm_cursor] is [dataCursor - data].  [nfm_oob] is not a field of the C
    structure: it records that memory outside the buffer was accessed. *)
Record Win32XDR := mkWin32XDR {
  w_file : option FILE;
  nfm_data : list Byte.byte;
  nfm_cursor : nat;
  nfm_oob : bool;
  w_fileMode : Z
}.

Definition w32_xdrstdio_create (file : FILE) (op : Z) : Win32XDR :=
  mkWin32XDR (Some file) [] 0 false op.

Definition w32_xdrmem_create (addr : list Byte.byte) (op : Z) : Win32XDR :=
  mkWin32XDR None addr 0 false op.

Definition w32_xdr_getpos (x : Win32XDR) : Z := Z.of_nat (nfm_cursor x).

Definition w32_xdr_setpos (x : Win32XDR) (pos : Z) : bool * Win32XDR :=
  (* size_t pos: a negative offset is a huge unsigned one *)
  if (0 <=? pos) && (pos <=? Z.of_nat (length (nfm_data x)))
  then (true, mkWin32XDR (w_file x) (nfm_data x) (Z.to_nat pos) (nfm_oob x) (w_fileMode x))
  else (false, x).

Definition w32_internal_xdr_read_raw_bytes (n : nat) (x : Win32XDR)
    : option (list Byte.byte) * Win32XDR :=
  match w_file x with
  | Some f => let '(r, f') := fread n f in
              (r, mkWin32XDR (Some f') (nfm_data x) (nfm_cursor x) (nfm_oob x) (w_fileMode x))
  | None =>
      (* the bytes are fetched before the bound is tested *)
      let cur := (nfm_cursor x + n)%nat in
      let inside := bool_decide (cur <= length (nfm_data x))%nat in
      (if inside then Some (take n (drop (nfm_cursor x) (nfm_data x))) else None,
       mkWin32XDR None (nfm_data x) cur (nfm_oob x || negb inside) (w_fileMode x))
  end.

Definition w32_internal_xdr_write_raw_bytes (bs : list Byte.byte) (x : Win32XDR)
    : bool * Win32XDR :=
  match w_file x with
  | Some f => let '(r, f') := fwrite bs f in
              (r, mkWin32XDR (Some f') (nfm_data x) (nfm_cursor x) (nfm_oob x) (w_fileMode x))
  | None =>
      (* memcpy without a bound test *)
      let cur := (nfm_cursor x + length bs)%nat in
      let inside := bool_decide (cur <= length (nfm_data x))%nat in
      (true,
       mkWin32XDR None
         (take (length (nfm_data x))
            (take (nfm_cursor x) (nfm_data x) ++ bs ++ drop cur (nfm_data x)))
         cur (nfm_oob x || negb inside) (w_fileMode x))
  end.

(** [w32_internal_xdr_u_type<T>] for a type of [n] bytes: returns the
    result, the pointed-to value afterwards, and the stream.  ntohs, ntohl,
    ntohll, ntohf and ntohd read the most significant byte first. *)
Definition w32_internal_xdr_u_type (n : nat) (x : Win32XDR) (ip : Z)
    : bool * Z * Win32XDR :=
  if w_fileMode x =? W32_XDR_DECODE then
    match w32_internal_xdr_read_raw_bytes n x with
    | (Some raw, x') => (true, be_value raw, x')
    | (None, x') => (false, ip, x')
    end
  else
    let '(r, x') := w32_internal_xdr_write_raw_bytes (be_bytes n ip) x in
    (r, ip, x').

Definition w32_xdr_u_int16_t := w32_internal_xdr_u_type 2.
Definition w32_xdr_u_int32_t := w32_internal_xdr_u_type 4.
Definition w32_xdr_u_int64_t := w32_internal_xdr_u_type 8.
Definition w32_xdr_float := w32_internal_xdr_u_type 4.
Definition w32_xdr_double := w32_internal_xdr_u_type 8.
Definition w32_xdr_u_char := w32_internal_xdr_u_type 1.
End Win32.
Import Win32.

(** [xdrstdio_create] followed by one call, on an open [FILE]. *)
Definition stdio_decode (call : Win32XDR -> Z -> bool * Z * Win32XDR) (f : FILE)
    : option Z * FILE :=
  let '(r, v, x) := call (w32_xdrstdio_create f W32_XDR_DECODE) 0 in
  (if r then Some v else None, default f (w_file x)).

Definition stdio_encode (call : Win32XDR -> Z -> bool * Z * Win32XDR) (v : Z) (f : FILE)
    : bool * FILE :=
  let '(r, _, x) := call (w32_xdrstdio_create f W32_XDR_ENCODE) v in
  (r, default f (w_file x)).

#[export] Instance stdio_in : XdrIn FILE := {
  in_data := f_data;
  in_pos := f_pos;
  xdr_u_int32_t := stdio_decode w32_xdr_u_int32_t;
  xdr_u_int64_t := stdio_decode w32_xdr_u_int64_t;
  xdr_float := stdio_decode w32_xdr_float;
  xdr_double := stdio_decode w32_xdr_double;
  in_getc := fgetc;
  in_seek := fseeko;
  in_tell := ftello
}.

#[export] Instance stdio_out : XdrOut FILE := {
  out_data := f_data;
  xdr_put_u_int32_t := stdio_encode w32_xdr_u_int32_t;
  xdr_put_u_int64_t := stdio_encode w32_xdr_u_int64_t;
  xdr_put_float := stdio_encode w32_xdr_float;
  xdr_put_double := stdio_encode w32_xdr_double;
  out_putc := fun b f => fwrite [b] f
}.

Lemma drop_max_nil {A} p (l : list A) : drop (Nat.max p (length l)) l = [].
Proof. apply drop_ge. lia. Qed.

Lemma stdio_decodes n : decodes n be_value (stdio_decode (w32_internal_xdr_u_type n)).
Proof.
  intros f. unfold stdio_decode, w32_internal_xdr_u_type; cbn.
  unfold w32_internal_xdr_read_raw_bytes, fread, in_rest; cbn.
  case_decide; cbn; [done|]. by rewrite drop_max_nil.
Qed.

Lemma stdio_encodes n : encodes (be_bytes n) (stdio_encode (w32_internal_xdr_u_type n)).
Proof.
  intros v f. unfold stdio_encode, w32_internal_xdr_u_type; cbn.
  unfold fwrite. by destruct (match f_room f with None => _ | _ => _ end).
Qed.

Lemma head_take_1 (l : list Byte.byte) :
  (1 <= length l)%nat -> take 1 l = [byte_head (take 1 l)].
Proof. destruct l; [cbn; lia|done]. Qed.

#[export] Instance stdio_in_ok : XdrInOk FILE.
Proof.
  split; try apply stdio_decodes; try done.
  - intros f. cbn. unfold fgetc, fread, in_rest; cbn.
    case_decide; cbn; [|by rewrite drop_max_nil].
    rewrite head_take_1 by done. cbn. by rewrite head_take_1 by done.
  - intros off w f. cbn. unfold fseeko. by destruct (_ <? 0).
  - intros p f Hp. cbn. unfold fseeko.
    rewrite (proj2 (Z.ltb_ge _ _)) by lia. cbn. split; [done|lia].
  - intros f. left. cbn. unfold fseeko.
    rewrite (proj2 (Z.ltb_ge _ _)) by lia. cbn. lia.
Qed.

#[export] Instance stdio_out_ok : XdrOutOk FILE.
Proof.
  split; try apply stdio_encodes.
  intros b f. cbn. unfold fwrite. by destruct (match f_room f with None => _ | _ => _ end).
Qed.

(** ** Stream state ([class xios]) *)

Definition goodbit : Z := 0.
Definition eofbit : Z := 1.
Definition failbit : Z := 2.
Definition badbit : Z := 4.

(** Results of the code: a value, undefined behaviour of the C++ program, or
    (loops only) a bound on the iterations that was too small. *)
Inductive outcome (A : Type) : Type :=
  | Ret (a : A)
  | Undef
  | NoFuel.
Arguments Ret {A} a.
Arguments Undef {A}.
Arguments NoFuel {A}.

(** ** Input streams *)

Record ixstream (S : Type) := mkIx {
  xi_state : Z;               (* xios::_state *)
  xi_single : bool;           (* singleprecision *)
  xi_buf : option S           (* buf and xdri; None: buf is null, xdri uninitialised *)
}.
Arguments mkIx {S}.
Arguments xi_state {S}.
Arguments xi_single {S}.
Arguments xi_buf {S}.

Section Ixstream.
Context {S : Type} `{XdrIn S}.

Definition good (x : ixstream S) : bool := xi_state x =? 0.
Definition eof (x : ixstream S) : bool := negb (Z.land (xi_state x) eofbit =? 0).
Definition fail (x : ixstream S) : bool := negb (good x).
Definition bad (x : ixstream S) : bool := negb (Z.land (xi_state x) badbit =? 0).
Definition clear (st : Z) (x : ixstream S) : ixstream S :=
  mkIx st (xi_single x) (xi_buf x).
Definition set (flag : Z) (x : ixstream S) : ixstream S :=
  mkIx (Z.lor (xi_state x) flag) (xi_single x) (xi_buf x).
Definition with_buf (f : S) (x : ixstream S) : ixstream S :=
  mkIx (xi_state x) (xi_single x) (Some f).

(** [ixstream::open], given what [fopen] (or [fmemopen] in [memixstream])
    returned. *)
Definition open_ix (single : bool) (file : option S) : ixstream S :=
  match file with
  | Some f => mkIx 0 single (Some f)
  | None => mkIx badbit single None
  end.

(** [xstream::seek] and [xstream::tell]; [ftello] of a null stream is
    undefined. *)
Definition seek (pos : Z) (dir : whence) (x : ixstream S) : ixstream S :=
  match xi_buf x with
  | Some f =>
      let '(ok, f') := in_seek pos dir f in
      let x' := clear 0 (with_buf f' x) in
      if ok then x' else set failbit x'
  | None => x
  end.

Definition tell (x : ixstream S) : outcome Z :=
  match xi_buf x with Some f => Ret (in_tell f) | None => Undef end.

(** [ixstream::closeFile]. *)
Definition closeFile (x : ixstream S) : ixstream S := mkIx (xi_state x) (xi_single x) None.

(** *** The reading monad *)

Definition M (A : Type) : Type := ixstream S -> outcome (A * ixstream S).

Definition ret {A} (a : A) : M A := fun x => Ret (a, x).
Definition bind {A B} (m : M A) (k : A -> M B) : M B := fun x =>
  match m x with
  | Ret (a, x') => k a x'
  | Undef => Undef
  | NoFuel => NoFuel
  end.

#[local] Notation "m >>= k" := (bind m k) (at level 60, right associativity).
#[local] Notation "x <- m ;; k" := (bind m (fun x => k))
  (at level 100, m at next level, right associativity).

(** Undefined behaviour when the condition on an indeterminate value is
    evaluated. *)
Definition need {A} (v : option A) : M A := fun x =>
  match v with Some a => Ret (a, x) | None => Undef end.

Definition stream_good : M bool := fun x => Ret (good x, x).

(** [*this >> x]: [old] is the content of [x] before the call, kept when the
    read fails; [conv] gives the value stored.  Reading through a stream
    whose file could not be opened uses an uninitialised XDR object. *)
Definition extract {R A} (op : S -> option R * S) (conv : R -> A) (old : A) : M A :=
  fun x =>
    match xi_buf x with
    | None => Undef
    | Some f =>
        match op f with
        | (Some v, f') => Ret (conv v, with_buf f' x)
        | (None, f') => Ret (old, set eofbit (with_buf f' x))
        end
    end.

(** [IXSTREAM(uint32_t,...)], [IXSTREAM(uint64_t,...)], [IXSTREAM(float,float)] *)
Definition get_u32 {A} (conv : Z -> A) (old : A) : M A := extract xdr_u_int32_t conv old.
Definition get_u64 {A} (conv : Z -> A) (old : A) : M A := extract xdr_u_int64_t conv old.
Definition get_float {A} (conv : float32 -> A) (old : A) : M A :=
  extract xdr_float (fun b => conv (f32_of_bits b)) old.

(** [ixstream::operator>>(double&)] into an uninitialised variable. *)
Definition get_double : M (option float64) := fun x =>
  if xi_single x
  then (f <- get_float Some None;; ret (double_of_float <$> f)) x
  else extract xdr_double (fun b => Some (f64_of_bits b)) None x.

(** [ixstream::operator>>(xbyte&)] into an uninitialised variable. *)
Definition get_xbyte : M (option Byte.byte) := extract in_getc Some None.

(** Local variables: uninitialised before the call. *)
Definition u32 : M (option Z) := get_u32 Some None.
Definition flt : M (option float32) := get_float Some None.

(** [readReal] of [V3dUtil.cpp]. *)
Definition readReal (doublePrecision : Z) : M (option float64) :=
  if negb (doublePrecision =? 0) then get_double
  else f <- flt;; ret (double_of_float <$> f).
End Ixstream.
Arguments M : clear implicits.

Notation "m >>= k" := (bind m k) (at level 60, right associativity) : v3d_scope.
Notation "x <- m ;; k" := (bind m (fun x => k))
  (at level 100, m at next level, right associativity) : v3d_scope.
#[global] Open Scope v3d_scope.

(** ** Output streams *)

Record oxstream (S : Type) := mkOx {
  xo_state : Z;
  xo_single : bool;
  xo_buf : option S
}.
Arguments mkOx {S}.
Arguments xo_state {S}.
Arguments xo_single {S}.
Arguments xo_buf {S}.

Section Oxstream.
Context {S : Type} `{XdrOut S}.

(** A sequence of [<<] operations. *)
Definition W : Type := oxstream S -> outcome (oxstream S).

Definition wskip : W := fun o => Ret o.
Definition wseq (w1 w2 : W) : W := fun o =>
  match w1 o with Ret o' => w2 o' | Undef => Undef | NoFuel => NoFuel end.

(** [OXSTREAM(T,N)]: a failed write sets the bad bit. *)
Definition insert {A} (op : A -> S -> bool * S) (a : A) : W := fun o =>
  match xo_buf o with
  | None => Undef
  | Some f =>
      let '(ok, f') := op a f in
      Ret (mkOx (if ok then xo_state o else Z.lor (xo_state o) badbit)
             (xo_single o) (Some f'))
  end.

Definition put_u32 (v : Z) : W := insert xdr_put_u_int32_t v.
Definition put_u64 (v : Z) : W := insert xdr_put_u_int64_t v.
Definition put_float (v : float32) : W := insert xdr_put_float (f32_to_bits v).

(** [oxstream::operator<<(double)] and [operator<<(xbyte)]. *)
Definition put_double (v : float64) : W := fun o =>
  if xo_single o then put_float (float_of_double v) o
  else insert xdr_put_double (f64_to_bits v) o.
Definition put_xbyte (b : Byte.byte) : W := insert out_putc b.

Fixpoint wlist {A} (w : A -> W) (l : list A) : W :=
  match l with
  | [] => wskip
  | a :: l' => wseq (w a) (wlist w l')
  end.
End Oxstream.
Arguments W : clear implicits.

Notation "w1 <;> w2" := (wseq w1 w2) (at level 65, right associativity) : v3d_scope.

(** ** Reasoning about readers *)

Section Readers.
Context {S : Type} `{XdrInOk S}.

Definition remaining (x : ixstream S) : nat :=
  match xi_buf x with Some f => length (in_rest f) | None => 0%nat end.

(** The stream is open, without error, in double precision mode, and [bs]
    is what is left to read. *)
Definition at_input (bs : list Byte.byte) (x : ixstream S) : Prop :=
  xi_state x = 0 /\ xi_single x = false /\
  exists f, xi_buf x = Some f /\ in_rest f = bs.

(** [m] reads exactly [bs] and returns [a], whatever follows [bs]. *)
Definition reads {A} (m : M S A) (bs : list Byte.byte) (a : A) : Prop :=
  forall x tl, at_input (bs ++ tl) x ->
    exists x', m x = Ret (a, x') /\ at_input tl x'.

Lemma reads_ret {A} (a : A) : reads (ret a) [] a.
Proof. intros x tl ?. by exists x. Qed.

Lemma reads_bind {A B} (m : M S A) (k : A -> M S B) bs1 bs2 a b :
  reads m bs1 a -> reads (k a) bs2 b -> reads (m >>= k) (bs1 ++ bs2) b.
Proof.
  intros Hm Hk x tl Hx. rewrite <- app_assoc in Hx.
  destruct (Hm x _ Hx) as (x1 & E1 & H1).
  destruct (Hk x1 _ H1) as (x2 & E2 & H2).
  exists x2. split; [|done]. unfold bind. by rewrite E1.
Qed.

(** The same with the part read by the continuation unknown so far. *)
Lemma reads_bind_nil {A B} (m : M S A) (k : A -> M S B) bs a b :
  reads m [] a -> reads (k a) bs b -> reads (m >>= k) bs b.
Proof. intros Hm Hk. by apply (reads_bind m k [] bs a b). Qed.

Lemma reads_bind_last {A B} (m : M S A) (k : A -> M S B) bs a b :
  reads m bs a -> reads (k a) [] b -> reads (m >>= k) bs b.
Proof. intros Hm Hk. rewrite <- (app_nil_r bs). by apply (reads_bind m k bs [] a b). Qed.

Lemma reads_need {A} (a : A) : reads (need (Some a)) [] a.
Proof. intros x tl ?. by exists x. Qed.

Lemma reads_stream_good : reads stream_good [] true.
Proof.
  intros x tl Hx. exists x. split; [|done].
  unfold stream_good, good. destruct Hx as [-> _]. done.
Qed.

Lemma reads_extract {R A} n (dec : list Byte.byte -> R) op (conv : R -> A) old bs :
  decodes n dec op -> length bs = n ->
  reads (extract op conv old) bs (conv (dec bs)).
Proof.
  intros Hop <- x tl (Hst & Hsg & f & Hf & Hrest).
  unfold extract. rewrite Hf. specialize (Hop f) as [Hd Hop].
  rewrite Hrest, length_app in Hop. rewrite decide_True in Hop by lia.
  destruct Hop as [Hr Hp]. destruct (op f) as [r f']; cbn in *; subst r.
  rewrite take_app_length.
  eexists; split; [done|]. split_and!; [done..|]. exists f'. split; [done|].
  unfold in_rest in *. rewrite Hd, Hp.
  rewrite <- drop_drop, Hrest. by rewrite drop_app_length.
Qed.

Lemma reads_get_u32 {A} (conv : Z -> A) old v :
  in_range 32 v -> reads (get_u32 conv old) (be_bytes 4 v) (conv v).
Proof.
  intros Hv. rewrite <- (be_value_bytes 4 v Hv) at 2.
  apply (reads_extract 4); [apply u_int32_decodes | apply length_be_bytes].
Qed.

Lemma reads_u32 v : in_range 32 v -> reads u32 (be_bytes 4 v) (Some v).
Proof. apply reads_get_u32. Qed.

Lemma reads_get_u64 {A} (conv : Z -> A) old v :
  in_range 64 v -> reads (get_u64 conv old) (be_bytes 8 v) (conv v).
Proof.
  intros Hv. rewrite <- (be_value_bytes 8 v Hv) at 2.
  apply (reads_extract 8); [apply u_int64_decodes | apply length_be_bytes].
Qed.

Lemma f32_bits_roundtrip v : valid32 v = true -> f32_of_bits (f32_to_bits v) = v.
Proof. intros. by apply (bits_roundtrip 23 8). Qed.
Lemma f32_bits_range v : valid32 v = true -> in_range 32 (f32_to_bits v).
Proof. intros. by apply (to_bits_range 23 8). Qed.
Lemma f64_bits_roundtrip v : valid64 v = true -> f64_of_bits (f64_to_bits v) = v.
Proof. intros. by apply (bits_roundtrip 52 11). Qed.
Lemma f64_bits_range v : valid64 v = true -> in_range 64 (f64_to_bits v).
Proof. intros. by apply (to_bits_range 52 11). Qed.

Lemma reads_get_float {A} (conv : float32 -> A) old v :
  valid32 v = true -> reads (get_float conv old) (be_bytes 4 (f32_to_bits v)) (conv v).
Proof.
  intros Hv. rewrite <- (f32_bits_roundtrip v Hv) at 2.
  rewrite <- (be_value_bytes 4 (f32_to_bits v)) at 2 by by apply f32_bits_range.
  apply (reads_extract 4 be_value xdr_float (fun b => conv (f32_of_bits b)));
    [apply float_decodes | apply length_be_bytes].
Qed.

Lemma reads_flt v : valid32 v = true -> reads flt (be_bytes 4 (f32_to_bits v)) (Some v).
Proof. apply reads_get_float. Qed.

Lemma reads_get_double v :
  valid64 v = true -> reads get_double (be_bytes 8 (f64_to_bits v)) (Some v).
Proof.
  intros Hv x tl Hx. unfold get_double. destruct (Hx) as (_ & -> & _).
  pose proof (reads_extract 8 be_value xdr_double (fun b => Some (f64_of_bits b)) None
    (be_bytes 8 (f64_to_bits v)) double_decodes (length_be_bytes 8 _)) as E.
  rewrite be_value_bytes, f64_bits_roundtrip in E by (done || by apply f64_bits_range).
  exact (E x tl Hx).
Qed.

Lemma reads_get_xbyte b : reads get_xbyte [b] (Some b).
Proof. by apply (reads_extract 1 byte_head in_getc Some None [b] getc_decodes). Qed.

(** *** Readers never invent input *)

(** The position of a stream without error is inside the file. *)
Definition inside (x : ixstream S) : Prop :=
  good x = true -> forall f, xi_buf x = Some f -> (in_pos f <= length (in_data f))%nat.

(** [m] terminates, keeps the stream open, never gives back input, and does
    not clear an error. *)
Definition tame {A} (m : M S A) : Prop :=
  forall x, inside x -> match m x with
    | Ret (_, x') =>
        (remaining x' <= remaining x)%nat /\
        (is_Some (xi_buf x) <-> is_Some (xi_buf x')) /\
        xi_single x' = xi_single x /\
        (good x = false -> good x' = false) /\
        inside x'
    | Undef => True
    | NoFuel => False
    end.

Lemma tame_ret {A} (a : A) : tame (ret a).
Proof. by intros x. Qed.

Lemma tame_need {A} (v : option A) : tame (need v).
Proof. intros x. by destruct v. Qed.

Lemma tame_stream_good : tame stream_good.
Proof. by intros x. Qed.

Lemma tame_bind {A B} (m : M S A) (k : A -> M S B) :
  tame m -> (forall a, tame (k a)) -> tame (m >>= k).
Proof.
  intros Hm Hk x Hx. unfold bind. specialize (Hm x Hx).
  destruct (m x) as [[a x1]| |]; [|done..].
  destruct Hm as (? & ? & ? & ? & Hx1).
  specialize (Hk a x1 Hx1). destruct (k a x1) as [[b x2]| |]; [|done..].
  destruct Hk as (? & ? & ? & ? & ?).
  split_and!; [lia | tauto | congruence | tauto | done].
Qed.

Lemma lor_nonzero a b : a <> 0 -> Z.lor a b <> 0.
Proof. intros Ha Hl. apply Z.lor_eq_0_iff in Hl. tauto. Qed.

Lemma good_set flag (x : ixstream S) : flag <> 0 -> good (set flag x) = false.
Proof.
  intros. unfold good, set; cbn. apply Z.eqb_neq. rewrite Z.lor_comm. by apply lor_nonzero.
Qed.

Lemma extract_cases {R A} n (dec : list Byte.byte -> R) op (conv : R -> A) old x f :
  decodes n dec op -> xi_buf x = Some f ->
  exists f', in_data f' = in_data f /\
    if decide (n <= remaining x)%nat
    then extract op conv old x = Ret (conv (dec (take n (in_rest f))), with_buf f' x) /\
         in_rest f' = drop n (in_rest f) /\ in_pos f' = (in_pos f + n)%nat
    else extract op conv old x = Ret (old, set eofbit (with_buf f' x)) /\ in_rest f' = [].
Proof.
  intros Hop Hf. specialize (Hop f) as [Hd Hop].
  unfold extract, remaining. rewrite Hf. exists (op f).2. split; [done|].
  destruct (op f) as [r f']; cbn in *.
  case_decide; destruct Hop as [-> Hp]; (split; [done|]); [|done]. split; [|done].
  unfold in_rest. rewrite Hd, Hp. by rewrite drop_drop.
Qed.

Lemma tame_extract {R A} n (dec : list Byte.byte -> R) op (conv : R -> A) old :
  decodes n dec op -> tame (extract op conv old).
Proof.
  intros Hop x Hx. destruct (xi_buf x) as [f|] eqn:Hf; [|unfold extract; by rewrite Hf].
  destruct (extract_cases n dec op conv old x f Hop Hf) as (f' & Hd & Hcase).
  case_decide as Hn; [destruct Hcase as (-> & Hr & Hp) | destruct Hcase as (-> & Hr)];
    unfold remaining in *; cbn in *; rewrite Hf in *; rewrite Hr; cbn.
  - rewrite length_drop. split_and!; [lia|split; eauto|done|done|].
    intros Hg f0 [= <-]. rewrite Hd, Hp. specialize (Hx Hg f Hf).
    unfold in_rest in Hn. rewrite length_drop in Hn. lia.
  - split_and!; [lia|split; eauto|done| |].
    + intros Hg. apply Z.eqb_neq in Hg. apply Z.eqb_neq. by apply lor_nonzero.
    + intros Hg. by rewrite good_set in Hg.
Qed.

Lemma tame_get_u32 {A} (conv : Z -> A) old : tame (get_u32 conv old).
Proof. eapply tame_extract, u_int32_decodes. Qed.
Lemma tame_get_u64 {A} (conv : Z -> A) old : tame (get_u64 conv old).
Proof. eapply tame_extract, u_int64_decodes. Qed.
Lemma tame_get_float {A} (conv : float32 -> A) old : tame (get_float conv old).
Proof. eapply tame_extract, float_decodes. Qed.
Lemma tame_get_xbyte : tame get_xbyte.
Proof. eapply tame_extract, getc_decodes. Qed.
Lemma tame_get_double : tame get_double.
Proof.
  intros x. unfold get_double.
  pose proof (tame_bind (get_float Some None)
    (fun f => ret (double_of_float <$> f)) (tame_get_float _ _) (fun _ => tame_ret _) x)
    as Hf.
  pose proof (tame_extract 8 be_value xdr_double (fun b => Some (f64_of_bits b)) None
    double_decodes x) as Hd.
  intros Hx. destruct (xi_single x); [exact (Hf Hx) | exact (Hd Hx)].
Qed.
Lemma tame_readReal dp : tame (readReal dp).
Proof.
  unfold readReal. destruct (negb _); [apply tame_get_double|].
  apply tame_bind; [apply tame_get_float | intros; apply tame_ret].
Qed.
End Readers.

#[export] Hint Resolve reads_ret reads_need reads_stream_good reads_get_u32 reads_u32
  reads_get_u64 reads_get_float reads_flt reads_get_double reads_get_xbyte : v3d.
#[export] Hint Resolve tame_ret tame_need tame_stream_good tame_get_u32 tame_get_u64
  tame_get_float tame_get_xbyte tame_get_double tame_readReal : v3d.

(** Discharges [tame] of a reader built from the operations above. *)
Ltac tame :=
  repeat first
    [ progress intros
    | solve [eauto with v3d]
    | apply tame_bind
    | match goal with |- tame (if ?b then _ else _) => destruct b end
    | match goal with |- tame (match ?o with _ => _ end) => destruct o end ].

(** ** Reasoning about writers *)

Section Writers.
Context {S : Type} `{XdrOutOk S}.

(** In precision mode [sp], [w] appends exactly [bs], unless the stream
    ends in an error state. *)
Definition writes (sp : bool) (w : W S) (bs : list Byte.byte) : Prop :=
  forall o f, xo_buf o = Some f -> xo_single o = sp ->
    exists o' f', w o = Ret o' /\ xo_buf o' = Some f' /\ xo_single o' = sp /\
      (xo_state o' = 0 -> xo_state o = 0 /\ out_data f' = out_data f ++ bs).

Lemma writes_skip sp : writes sp wskip [].
Proof. intros o f ? ?. exists o, f. by rewrite app_nil_r. Qed.

Lemma writes_seq sp w1 w2 bs1 bs2 :
  writes sp w1 bs1 -> writes sp w2 bs2 -> writes sp (wseq w1 w2) (bs1 ++ bs2).
Proof.
  intros H1 H2 o f Ho Hs.
  destruct (H1 o f Ho Hs) as (o1 & f1 & E1 & B1 & S1 & D1).
  destruct (H2 o1 f1 B1 S1) as (o2 & f2 & E2 & B2 & S2' & D2).
  exists o2, f2. unfold wseq. rewrite E1. split_and!; [done..|].
  intros Hz. destruct (D2 Hz) as [Hz1 ->]. destruct (D1 Hz1) as [Hz0 ->].
  by rewrite app_assoc.
Qed.

Lemma writes_insert {A} sp (enc : A -> list Byte.byte) op a :
  encodes enc op -> writes sp (insert op a) (enc a).
Proof.
  intros Hop o f Ho Hs. unfold insert. rewrite Ho. specialize (Hop a f).
  destruct (op a f) as [ok f']; cbn in *.
  eexists _, f'. split_and!; [done..|]. cbn. destruct ok; [auto|].
  intros Hz. apply Z.lor_eq_0_iff in Hz. by destruct Hz.
Qed.

Lemma writes_put_u32 sp v : writes sp (put_u32 v) (be_bytes 4 v).
Proof. apply (writes_insert sp (be_bytes 4)), put_u_int32_encodes. Qed.
Lemma writes_put_u64 sp v : writes sp (put_u64 v) (be_bytes 8 v).
Proof. apply (writes_insert sp (be_bytes 8)), put_u_int64_encodes. Qed.
Lemma writes_put_float sp v : writes sp (put_float v) (be_bytes 4 (f32_to_bits v)).
Proof. apply (writes_insert sp (be_bytes 4)), put_float_encodes. Qed.
Lemma writes_put_xbyte sp b : writes sp (put_xbyte b) [b].
Proof. apply (writes_insert sp (fun b => [b])), putc_encodes. Qed.

(** The representation of a [double]: one word in single precision. *)
Definition real_bytes (sp : bool) (v : float64) : list Byte.byte :=
  if sp then be_bytes 4 (f32_to_bits (float_of_double v))
  else be_bytes 8 (f64_to_bits v).

Lemma writes_put_double sp v : writes sp (put_double v) (real_bytes sp v).
Proof.
  intros o f Ho Hs. unfold put_double. rewrite Hs. destruct sp; cbn.
  - by apply writes_put_float.
  - by apply (writes_insert false (be_bytes 8)); [apply put_double_encodes|..].
Qed.

Lemma writes_list {A} sp (w : A -> W S) (enc : A -> list Byte.byte) l :
  (forall a, writes sp (w a) (enc a)) -> writes sp (wlist w l) (concat (enc <$> l)).
Proof.
  intros Hw. induction l as [|a l IH]; [apply writes_skip|].
  by apply writes_seq.
Qed.
End Writers.

#[export] Hint Resolve writes_skip writes_seq writes_put_u32 writes_put_u64
  writes_put_float writes_put_xbyte writes_put_double writes_list : v3d.

(** ** Values of the XDR streams

    The overloads of [<<] and [>>] that the v3d code uses, as one type. *)

Inductive xval :=
  | XU32 (v : Z)
  | XU64 (v : Z)
  | XFloat (v : float32)
  | XDouble (v : float64)
  | XByte (b : Byte.byte).

Definition xval_ok (v : xval) : Prop :=
  match v with
  | XU32 v => in_range 32 v
  | XU64 v => in_range 64 v
  | XFloat v => valid32 v = true
  | XDouble v => valid64 v = true
  | XByte _ => True
  end.

Definition put_xval {S} `{XdrOut S} (v : xval) : W S :=
  match v with
  | XU32 v => put_u32 v
  | XU64 v => put_u64 v
  | XFloat v => put_float v
  | XDouble v => put_double v
  | XByte b => put_xbyte b
  end.

(** Reads a value of the same type as its argument. *)
Definition get_xval {S} `{XdrIn S} (v : xval) : M S (option xval) :=
  match v with
  | XU32 _ => x <- u32;; ret (XU32 <$> x)
  | XU64 _ => x <- get_u64 Some None;; ret (XU64 <$> x)
  | XFloat _ => x <- flt;; ret (XFloat <$> x)
  | XDouble _ => x <- get_double;; ret (XDouble <$> x)
  | XByte _ => x <- get_xbyte;; ret (XByte <$> x)
  end.

Fixpoint get_xvals {S} `{XdrIn S} (vs : list xval) : M S (list (option xval)) :=
  match vs with
  | [] => ret []
  | v :: vs' => x <- get_xval v;; xs <- get_xvals vs';; ret (x :: xs)
  end.

Definition xval_bytes (v : xval) : list Byte.byte :=
  match v with
  | XU32 v => be_bytes 4 v
  | XU64 v => be_bytes 8 v
  | XFloat v => be_bytes 4 (f32_to_bits v)
  | XDouble v => be_bytes 8 (f64_to_bits v)
  | XByte b => [b]
  end.

Lemma writes_put_xval {S} `{XdrOutOk S} v : writes false (put_xval v) (xval_bytes v).
Proof. destruct v; cbn; auto with v3d. Qed.

Lemma reads_get_xval {S} `{XdrInOk S} v :
  xval_ok v -> reads (get_xval v) (xval_bytes v) (Some v).
Proof.
  intros Hv. destruct v; cbn in *; eapply reads_bind_last; eauto with v3d; apply reads_ret.
Qed.

Lemma reads_get_xvals {S} `{XdrInOk S} vs :
  Forall xval_ok vs -> reads (get_xvals vs) (concat (xval_bytes <$> vs)) (Some <$> vs).
Proof.
  induction 1 as [|v vs Hv Hvs IH]; cbn; [apply reads_ret|].
  eapply reads_bind; [by apply reads_get_xval|].
  eapply reads_bind_last; [exact IH | apply reads_ret].
Qed.

(** A medium with unlimited room never refuses a value. *)
Lemma stdio_put_xval_ok (v : xval) o f :
  xo_buf o = Some f -> f_room f = None ->
  exists o' f', put_xval v o = Ret o' /\ xo_buf o' = Some f' /\ f_room f' = None /\
    xo_state o' = xo_state o.
Proof.
  intros Hf Hr. destruct v; cbn; unfold put_u32, put_u64, put_double, put_float, put_xbyte, insert;
    rewrite ?Hf; [..|destruct (xo_single o)|]; cbn;
    unfold stdio_encode, w32_xdr_u_int32_t, w32_xdr_u_int64_t, w32_xdr_float, w32_xdr_double,
      w32_internal_xdr_u_type; cbn; unfold fwrite; rewrite ?Hf, Hr; eauto 10.
Qed.

Lemma stdio_put_xvals_ok (vs : list xval) o f :
  xo_buf o = Some f -> f_room f = None ->
  exists o', wlist put_xval vs o = Ret o' /\ xo_state o' = xo_state o.
Proof.
  revert o f. induction vs as [|v vs IH]; intros o f Hf Hr; [by exists o|].
  destruct (stdio_put_xval_ok v o f Hf Hr) as (o1 & f1 & E1 & Hf1 & Hr1 & Hs1).
  destruct (IH o1 f1 Hf1 Hr1) as (o2 & E2 & Hs2).
  exists o2. cbn. unfold wseq. by rewrite E1, Hs2, Hs1.
Qed.

(** ** Properties *)

(** Round trip of the XDR streams: any sequence of integers, floats,
    doubles and bytes written by an [oxstream] on an empty medium is accepted
    without error and is what an [ixstream] reads back from that medium, with
    nothing left over. *)
Theorem xdr_values_roundtrip vs :
  Forall xval_ok vs ->
  exists o f x,
    wlist put_xval vs (mkOx 0 false (Some (mkFILE [] 0 None))) = Ret o /\
    xo_state o = 0 /\ xo_buf o = Some f /\
    get_xvals vs (open_ix false (Some (mkFILE (f_data f) 0 None))) = Ret (Some <$> vs, x) /\
    xi_state x = 0 /\ remaining x = 0%nat.
Proof.
  intros Hvs. set (o0 := mkOx 0 false (Some (mkFILE [] 0 None))).
  destruct (writes_list false put_xval xval_bytes vs writes_put_xval o0 _ eq_refl eq_refl)
    as (o & f & Ew & Hf & _ & Hd).
  destruct (stdio_put_xvals_ok vs o0 _ eq_refl eq_refl) as (o' & Ew' & Hz).
  rewrite Ew in Ew'. injection Ew' as <-. destruct (Hd Hz) as [_ Hdata]. cbn in Hdata.
  destruct (reads_get_xvals vs Hvs (open_ix false (Some (mkFILE (f_data f) 0 None))) [])
    as (x & Er & Hx & _ & f' & Hb & Hr).
  { split_and!; [done..|]. eexists; split; [done|]. unfold in_rest; cbn.
    by rewrite Hdata, app_nil_r. }
  exists o, f, x. split_and!; [done..|]. unfold remaining. by rewrite Hb, Hr.
Qed.

(** The hypothesis holds of a concrete sequence with every kind of value. *)
Lemma xdr_values_roundtrip_witness :
  let vs := [XU32 7; XFloat (f32_of_bits 0x3FC00000); XDouble (f64_of_bits 0xC004000000000000);
             XU64 (2 ^ 40); XByte Byte.x2a] in
  Forall xval_ok vs /\
  exists o f x,
    wlist put_xval vs (mkOx 0 false (Some (mkFILE [] 0 None))) = Ret o /\
    xo_state o = 0 /\ xo_buf o = Some f /\
    get_xvals vs (open_ix false (Some (mkFILE (f_data f) 0 None))) = Ret (Some <$> vs, x) /\
    xi_state x = 0 /\ remaining x = 0%nat.
Proof.
  intros vs.
  assert (Forall xval_ok vs) as Hvs.
  { repeat constructor; cbn; try (unfold in_range; lia); reflexivity. }
  exact (conj Hvs (xdr_values_roundtrip vs Hvs)).
Defined.

(** [operator>>(uint32_t&)] on an open stream: with four bytes left it
    stores their big-endian value, consumes exactly them and leaves the state
    alone; with fewer it leaves the target as it was, sets [eofbit] and
    exhausts the input. *)
Theorem get_u32_spec {S} `{XdrInOk S} {A} (conv : Z -> A) old x f :
  xi_buf x = Some f ->
  exists a x', get_u32 conv old x = Ret (a, x') /\
    if decide (4 <= remaining x)%nat
    then a = conv (be_value (take 4 (in_rest f))) /\ xi_state x' = xi_state x /\
         remaining x' = (remaining x - 4)%nat
    else a = old /\ eof x' = true /\ remaining x' = 0%nat.
Proof.
  intros Hf.
  destruct (extract_cases 4 be_value _ conv old x f u_int32_decodes Hf) as (f' & _ & Hcase).
  unfold get_u32. unfold remaining at 3 4.
  case_decide; [destruct Hcase as (E & Hr & _)|destruct Hcase as (E & Hr)];
    eexists _, _; (split; [exact E|]); cbn; rewrite Hr.
  - split_and!; [done..|]. unfold remaining. by rewrite Hf, length_drop.
  - split_and!; [done| |done]. unfold eof, set; cbn.
    rewrite Z.land_lor_distr_l. change (Z.land eofbit eofbit) with 1.
    apply negb_true_iff, Z.eqb_neq. rewrite Z.lor_comm. by apply lor_nonzero.
Qed.

Lemma get_u32_spec_witness :
  xi_buf (open_ix false (Some (mkFILE [Byte.x00; Byte.x01] 0 None))) =
    Some (mkFILE [Byte.x00; Byte.x01] 0 None) /\
  exists a x', get_u32 (fun z => z) 9 (open_ix false (Some (mkFILE [Byte.x00; Byte.x01] 0 None)))
               = Ret (a, x') /\ a = 9 /\ eof x' = true /\ remaining x' = 0%nat.
Proof.
  split; [reflexivity|].
  destruct (get_u32_spec (fun z => z) 9
    (open_ix false (Some (mkFILE [Byte.x00; Byte.x01] 0 None))) _ eq_refl)
    as (a & x' & E & Hc).
  exists a, x'. split; [exact E|]. exact Hc.
Defined.

(** [memixstream] on the repository's own XDR library: a read of [n] bytes
    that does not fit the buffer is refused, but only after the memory past
    the buffer has been accessed. *)
Theorem w32_truncated_read_out_of_bounds n data cursor oob ip :
  (length data < cursor + n)%nat ->
  let x := mkWin32XDR None data cursor oob W32_XDR_DECODE in
  let '(r, v, x') := w32_internal_xdr_u_type n x ip in
  r = false /\ v = ip /\ nfm_oob x' = true.
Proof.
  intros Hn x. unfold w32_internal_xdr_u_type, w32_internal_xdr_read_raw_bytes; cbn.
  rewrite bool_decide_false by lia. cbn. by rewrite orb_true_r.
Qed.

Lemma w32_truncated_read_out_of_bounds_witness :
  (length [Byte.x00; Byte.x01] < 0 + 4)%nat /\
  let '(r, v, x') := w32_xdr_u_int32_t
    (mkWin32XDR None [Byte.x00; Byte.x01] 0 false W32_XDR_DECODE) 5 in
  r = false /\ v = 5 /\ nfm_oob x' = true.
Proof.
  assert (length [Byte.x00; Byte.x01] < 0 + 4)%nat as Hn by (cbn; lia).
  exact (conj Hn (w32_truncated_read_out_of_bounds 4 _ 0 false 5 Hn)).
Defined.
