(* ===== verification/Bound.v ===== *)
(** * Bounding boxes of Bezier geometry

    [asymptote/bound.h] and [asymptote/bound.cc] (recursive de Casteljau
    subdivision of patches, triangles and curves) and the three callers
    [computeBezier*Bounds] of [v3d-Common/V3dFile/V3dObjects.cpp], over the
    IEEE doubles of [Ieee].  The C recursion is driven by [int depth], counted
    down to 0; here it is the structural argument. *)

From S2P Require Import Prelude Ieee.

(** ** Points *)

(** [camp::triple]. *)
Record triple := mkTriple { tx : float64; ty : float64; tz : float64 }.

(** [triple.h]: sum, opposite and scaling. *)
Definition tadd (z w : triple) : triple :=
  mkTriple (dadd (tx z) (tx w)) (dadd (ty z) (ty w)) (dadd (tz z) (tz w)).
Definition tscale (s : float64) (z : triple) : triple :=
  mkTriple (dmul s (tx z)) (dmul s (ty z)) (dmul s (tz z)).

(** [bbox.h]: [min] and [max], as their conditional expressions. *)
Definition fmin (a b : float64) : float64 := if SFltb a b then a else b.
Definition fmax (a b : float64) : float64 := if SFltb b a then a else b.

(** [bound.cc]: constants. *)
Definition DBL_EPSILON : float64 := f64_of_bits 0x3CB0000000000000.
Definition Fuzz2 : float64 := dmul (f64_of_bits 0x408F400000000000) DBL_EPSILON.
Definition Fuzz : float64 := dsqrt Fuzz2.
Definition maxdepth : nat := 53.

(** [run::norm]: the largest magnitude of an array. *)
Definition norm (a : list float64) : float64 :=
  foldl (fun result ai =>
    let v := if SFltb ai d0 then dopp ai else ai in
    if SFltb result v then v else result) d0 a.

(** Arrays indexed by the sources' constants; out of range is never used. *)
Definition nthd (P : list float64) (i : nat) : float64 := nth i P S754_nan.

(** The shape [m(-1.0,1.0)*(b-c) >= -fuzz] of the three stopping tests. *)
Definition close_enough (m : float64 -> float64 -> float64) (b c fuzz : float64) : bool :=
  SFleb (dopp fuzz) (dmul (m dm1 d1) (dsub b c)).

(** ** Subdivision steps *)

(** [Split<double>]: the points m0..m5. *)
Record split := mkSplit
  { sm0 : float64; sm1 : float64; sm2 : float64; sm3 : float64; sm4 : float64; sm5 : float64 }.

Definition Split (z0 c0 c1 z1 : float64) : split :=
  let h a b := dmul dhalf (dadd a b) in
  let m0 := h z0 c0 in let m1 := h c0 c1 in let m2 := h c1 z1 in
  let m3 := h m0 m1 in let m4 := h m1 m2 in
  mkSplit m0 m1 m2 m3 m4 (h m3 m4).

(** The four quarters of a patch, as [bound] lays them out. *)
Definition split_patch (P : list float64) : list (list float64) :=
  let p := nthd P in
  let c0 := Split (p 0%nat) (p 1%nat) (p 2%nat) (p 3%nat) in
  let c1 := Split (p 4%nat) (p 5%nat) (p 6%nat) (p 7%nat) in
  let c2 := Split (p 8%nat) (p 9%nat) (p 10%nat) (p 11%nat) in
  let c3 := Split (p 12%nat) (p 13%nat) (p 14%nat) (p 15%nat) in
  let c4 := Split (p 12%nat) (p 8%nat) (p 4%nat) (p 0%nat) in
  let c5 := Split (sm0 c3) (sm0 c2) (sm0 c1) (sm0 c0) in
  let c6 := Split (sm3 c3) (sm3 c2) (sm3 c1) (sm3 c0) in
  let c7 := Split (sm5 c3) (sm5 c2) (sm5 c1) (sm5 c0) in
  let c8 := Split (sm4 c3) (sm4 c2) (sm4 c1) (sm4 c0) in
  let c9 := Split (sm2 c3) (sm2 c2) (sm2 c1) (sm2 c0) in
  let c10 := Split (p 15%nat) (p 11%nat) (p 7%nat) (p 3%nat) in
  [ [sm5 c4; sm5 c5; sm5 c6; sm5 c7; sm3 c4; sm3 c5; sm3 c6; sm3 c7;
     sm0 c4; sm0 c5; sm0 c6; sm0 c7; p 12%nat; sm0 c3; sm3 c3; sm5 c3];
    [p 0%nat; sm0 c0; sm3 c0; sm5 c0; sm2 c4; sm2 c5; sm2 c6; sm2 c7;
     sm4 c4; sm4 c5; sm4 c6; sm4 c7; sm5 c4; sm5 c5; sm5 c6; sm5 c7];
    [sm5 c0; sm4 c0; sm2 c0; p 3%nat; sm2 c7; sm2 c8; sm2 c9; sm2 c10;
     sm4 c7; sm4 c8; sm4 c9; sm4 c10; sm5 c7; sm5 c8; sm5 c9; sm5 c10];
    [sm5 c7; sm5 c8; sm5 c9; sm5 c10; sm3 c7; sm3 c8; sm3 c9; sm3 c10;
     sm0 c7; sm0 c8; sm0 c9; sm0 c10; sm5 c3; sm4 c3; sm2 c3; p 15%nat] ].

(** [Splittri<double>] and the four triangles [boundtri] recurses on. *)
Definition split_triangle (P : list float64) : list (list float64) :=
  let p := nthd P in
  let h a b := dmul dhalf (dadd a b) in
  let l003 := p 0%nat in let p102 := p 1%nat in let p012 := p 2%nat in
  let p201 := p 3%nat in let p111 := p 4%nat in let p021 := p 5%nat in
  let r300 := p 6%nat in let p210 := p 7%nat in let p120 := p 8%nat in
  let u030 := p 9%nat in
  let u021 := h u030 p021 in let u120 := h u030 p120 in
  let p033 := h p021 p012 in let p231 := h p120 p111 in let p330 := h p120 p210 in
  let p123 := h p012 p111 in
  let l012 := h p012 l003 in let p312 := h p111 p201 in let r210 := h p210 r300 in
  let l102 := h l003 p102 in let p303 := h p102 p201 in let r201 := h p201 r300 in
  let u012 := h u021 p033 in let u210 := h u120 p330 in
  let l021 := h p033 l012 in
  let p4xx := dadd (dmul dhalf p231) (dmul dquarter (dadd p111 p102)) in
  let r120 := h p330 r210 in
  let px4x := dadd (dmul dhalf p123) (dmul dquarter (dadd p111 p210)) in
  let pxx4 := dadd (dmul dquarter (dadd p021 p111)) (dmul dhalf p312) in
  let l201 := h l102 p303 in let r102 := h p303 r201 in
  let l210 := h px4x l201 in let r012 := h px4x r102 in let l300 := h l201 r102 in
  let r021 := h pxx4 r120 in let u201 := h u210 pxx4 in let r030 := h u210 r120 in
  let u102 := h u012 p4xx in let l120 := h l021 p4xx in let l030 := h u012 l021 in
  let l111 := h p123 l102 in let r111 := h p312 r210 in
  let u111 := h u021 p231 in
  let c111 := dmul dquarter (dadd (dadd (dadd p033 p330) p303) p111) in
  [ [l003; l102; l012; l201; l111; l021; l300; l210; l120; l030];
    [l300; r102; r012; r201; r111; r021; r300; r210; r120; r030];
    [l030; u102; u012; u201; u111; u021; r030; u210; u120; u030];
    [r030; u201; r021; u102; c111; r012; l030; l120; l210; l300] ].

(** ** Bounds *)

Section Bound.
(** The extremum computed: [fmin] or [fmax]. *)
Context (m : float64 -> float64 -> float64).

Definition cornerbound (P : list float64) : float64 :=
  let p := nthd P in m (m (m (p 0%nat) (p 3%nat)) (p 12%nat)) (p 15%nat).

Definition controlbound (P : list float64) : float64 :=
  foldl (fun b i => m b (nthd P i)) (m (nthd P 1) (nthd P 2))
    [4; 5; 6; 7; 8; 9; 10; 11; 13; 14]%nat.

Fixpoint bound (depth : nat) (P : list float64) (b fuzz : float64) : float64 :=
  let b := m b (cornerbound P) in
  if close_enough m b (controlbound P) fuzz then b
  else match depth with
       | O => b
       | S depth' =>
           let fuzz := dmul fuzz d2 in
           foldl (fun b Q => bound depth' Q b fuzz) b (split_patch P)
       end.

Definition cornerboundtri (P : list float64) : float64 :=
  m (m (nthd P 0) (nthd P 6)) (nthd P 9).

Definition controlboundtri (P : list float64) : float64 :=
  foldl (fun b i => m b (nthd P i)) (m (nthd P 1) (nthd P 2)) [3; 4; 5; 7; 8]%nat.

Fixpoint boundtri (depth : nat) (P : list float64) (b fuzz : float64) : float64 :=
  let b := m b (cornerboundtri P) in
  if close_enough m b (controlboundtri P) fuzz then b
  else match depth with
       | O => b
       | S depth' =>
           let fuzz := dmul fuzz d2 in
           foldl (fun b Q => boundtri depth' Q b fuzz) b (split_triangle P)
       end.

(** [ratiobound]: [f] is evaluated at the extreme corners of the box of the
    control points, the first two coordinates with their signs reversed
    (the function was written for the ratios x/z and y/z with z < 0). *)
Definition ratiobound (f : triple -> float64) (z0 c0 c1 z1 : triple) : float64 :=
  let ext g := m (m (m (g z0) (g c0)) (g c1)) (g z1) in
  let MX := ext (fun v => dopp (tx v)) in
  let MY := ext (fun v => dopp (ty v)) in
  let Z := ext tz in
  let MZ := ext (fun v => dopp (tz v)) in
  m (f (mkTriple (dopp MX) (dopp MY) Z)) (f (mkTriple (dopp MX) (dopp MY) (dopp MZ))).

Fixpoint boundcurve (f : triple -> float64) (depth : nat) (z0 c0 c1 z1 : triple)
    (b fuzz : float64) : float64 :=
  let b := m b (m (f z0) (f z1)) in
  if close_enough m b (ratiobound f z0 c0 c1 z1) fuzz then b
  else match depth with
       | O => b
       | S depth' =>
           let fuzz := dmul fuzz d2 in
           let h a b := tscale dhalf (tadd a b) in
           let m0 := h z0 c0 in let m1 := h c0 c1 in let m2 := h c1 z1 in
           let m3 := h m0 m1 in let m4 := h m1 m2 in let m5 := h m3 m4 in
           let b := boundcurve f depth' z0 m0 m3 m5 b fuzz in
           boundcurve f depth' m5 m4 m2 z1 b fuzz
       end.
End Bound.

(** ** The boxes of the v3d objects ([V3dObjects.cpp]) *)

Section Boxes.
(** One coordinate of a box: the initial value is the first control value,
    the tolerance is relative to the largest magnitude. *)
Definition coord_bound (bnd : (float64 -> float64 -> float64) -> nat -> list float64 ->
    float64 -> float64 -> float64) (c : list float64) : float64 * float64 :=
  let c0 := nthd c 0 in
  let fuzz := dmul Fuzz (norm c) in
  (bnd fmin maxdepth c c0 fuzz, bnd fmax maxdepth c c0 fuzz).

Definition box_of (bnd : (float64 -> float64 -> float64) -> nat -> list float64 ->
    float64 -> float64 -> float64) (controls : list triple) : triple * triple :=
  let '(x, X) := coord_bound bnd (tx <$> controls) in
  let '(y, Y) := coord_bound bnd (ty <$> controls) in
  let '(z, Z) := coord_bound bnd (tz <$> controls) in
  (mkTriple x y z, mkTriple X Y Z).

(** [computeBezierPatchBounds] (16 controls), [computeBezierTriangleBounds] (10). *)
Definition computeBezierPatchBounds : list triple -> triple * triple := box_of bound.
Definition computeBezierTriangleBounds : list triple -> triple * triple := box_of boundtri.

(** [computeBezierCurveBounds] (4 controls): the curve overload of [bound]
    with the coordinate functions [getx], [gety], [getz]. *)
Definition curve_coord_bound (f : triple -> float64) (z0 c0 c1 z1 : triple)
    : float64 * float64 :=
  let fuzz := dmul Fuzz (norm [f z0; f c0; f c1; f z1]) in
  (boundcurve fmin f maxdepth z0 c0 c1 z1 (f z0) fuzz,
   boundcurve fmax f maxdepth z0 c0 c1 z1 (f z0) fuzz).

Definition computeBezierCurveBounds (z0 c0 c1 z1 : triple) : triple * triple :=
  let '(x, X) := curve_coord_bound tx z0 c0 c1 z1 in
  let '(y, Y) := curve_coord_bound ty z0 c0 c1 z1 in
  let '(z, Z) := curve_coord_bound tz z0 c0 c1 z1 in
  (mkTriple x y z, mkTriple X Y Z).

(** The box of a segment ([V3dLineSegment]'s constructors). *)
Definition lineBounds (a b : triple) : triple * triple :=
  (mkTriple (fmin (tx a) (tx b)) (fmin (ty a) (ty b)) (fmin (tz a) (tz b)),
   mkTriple (fmax (tx a) (tx b)) (fmax (ty a) (ty b)) (fmax (tz a) (tz b))).
End Boxes.

(** ** Properties of the bounds *)

(** *** Extrema of numbers *)

Lemma fmin_num a b : sf_nan a = false -> sf_nan b = false -> sf_nan (fmin a b) = false.
Proof. intros. unfold fmin. by destruct (SFltb a b). Qed.

Lemma fmin_le_l a b : sf_nan a = false -> sf_nan b = false -> sf_le (fmin a b) a.
Proof.
  intros Ha Hb. unfold fmin. destruct (SFltb a b) eqn:E; [by apply sf_le_refl|].
  rewrite SFltb_SFleb in E by done. by apply negb_false_iff in E.
Qed.

Lemma fmin_le_r a b : sf_nan a = false -> sf_nan b = false -> sf_le (fmin a b) b.
Proof.
  intros Ha Hb. unfold fmin. destruct (SFltb a b) eqn:E; [|by apply sf_le_refl].
  destruct (sf_le_total a b Ha Hb) as [|H]; [done|].
  rewrite SFltb_SFleb in E by done. unfold sf_le in H. by rewrite H in E.
Qed.

Lemma fmax_num a b : sf_nan a = false -> sf_nan b = false -> sf_nan (fmax a b) = false.
Proof. intros. unfold fmax. by destruct (SFltb b a). Qed.

Lemma fmax_le_l a b : sf_nan a = false -> sf_nan b = false -> sf_le a (fmax a b).
Proof.
  intros Ha Hb. unfold fmax. destruct (SFltb b a) eqn:E; [by apply sf_le_refl|].
  rewrite SFltb_SFleb in E by done. by apply negb_false_iff in E.
Qed.

Lemma fmax_le_r a b : sf_nan a = false -> sf_nan b = false -> sf_le b (fmax a b).
Proof.
  intros Ha Hb. unfold fmax. destruct (SFltb b a) eqn:E; [|by apply sf_le_refl].
  destruct (sf_le_total a b Ha Hb) as [H|]; [|done].
  rewrite SFltb_SFleb in E by done. unfold sf_le in H. by rewrite H in E.
Qed.

(** What the bounding functions need of the extremum they are given: an order
    and an operation below both arguments in it. *)
Class Extremum (m : float64 -> float64 -> float64) (R : float64 -> float64 -> Prop) : Prop := {
  ext_refl : forall a, sf_nan a = false -> R a a;
  ext_trans : forall a b c, R a b -> R b c -> R a c;
  ext_num : forall a b, sf_nan a = false -> sf_nan b = false -> sf_nan (m a b) = false;
  ext_l : forall a b, sf_nan a = false -> sf_nan b = false -> R (m a b) a;
  ext_r : forall a b, sf_nan a = false -> sf_nan b = false -> R (m a b) b;
  ext_either : forall a b, m a b = a \/ m a b = b
}.

#[export] Instance fmin_extremum : Extremum fmin sf_le.
Proof.
  split; [exact sf_le_refl | exact sf_le_trans | exact fmin_num | exact fmin_le_l
         | exact fmin_le_r |].
  intros a b. unfold fmin. destruct (SFltb a b); tauto.
Qed.

#[export] Instance fmax_extremum : Extremum fmax (flip sf_le).
Proof.
  split; unfold flip;
    [exact sf_le_refl | eauto with v3d | exact fmax_num | exact fmax_le_l | exact fmax_le_r |].
  intros a b. unfold fmax. destruct (SFltb b a); tauto.
Qed.

Section BoundProps.
Context {m R} `{!Extremum m R}.

Definition numbers (P : list float64) : bool := forallb (fun v => negb (sf_nan v)) P.

(** No NaN among the control values down to the given depth, for a way [sub] of
    splitting. *)
Fixpoint number_tree (sub : list float64 -> list (list float64)) (depth : nat)
    (P : list float64) : bool :=
  numbers P &&
  match depth with
  | O => true
  | S d => forallb (number_tree sub d) (sub P)
  end.

Lemma numbers_nthd P i : numbers P = true -> (i < length P)%nat -> sf_nan (nthd P i) = false.
Proof.
  intros HP Hi. unfold numbers in HP. rewrite forallb_forall in HP.
  apply negb_true_iff, HP, nth_In, Hi.
Qed.

(** A fold of [m] over numbers stays below its start and every element. *)
Lemma ext_fold (l : list nat) P b :
  sf_nan b = false -> (forall i, In i l -> sf_nan (nthd P i) = false) ->
  let r := foldl (fun b i => m b (nthd P i)) b l in
  sf_nan r = false /\ R r b /\ (forall i, In i l -> R r (nthd P i)).
Proof.
  revert b. induction l as [|i l IH]; intros b Hb Hl; cbn.
  - split_and!; [done|by apply ext_refl|done].
  - assert (sf_nan (nthd P i) = false) as Hi by (apply Hl; by left).
    destruct (IH (m b (nthd P i)) (ext_num _ _ Hb Hi)) as (Hn & Hr & Hall).
    { intros j Hj. apply Hl. by right. }
    split_and!; [done|eapply ext_trans; [exact Hr|by apply ext_l]|].
    intros j [<-|Hj]; [eapply ext_trans; [exact Hr|by apply ext_r] | by apply Hall].
Qed.

Lemma cornerbound_spec P :
  numbers P = true -> length P = 16%nat ->
  sf_nan (cornerbound m P) = false /\
  (forall i, In i [0; 3; 12; 15]%nat -> R (cornerbound m P) (nthd P i)).
Proof.
  intros HP Hlen.
  assert (forall i, (i < 16)%nat -> sf_nan (nthd P i) = false) as Hn
    by (intros; apply numbers_nthd; [done|lia]).
  destruct (ext_fold [3; 12; 15]%nat P (nthd P 0)) as (H1 & H2 & H3).
  { apply Hn; lia. }
  { intros i Hi. apply Hn. cbn in Hi. lia. }
  split; [exact H1|]. intros i [<-|Hi]; [exact H2|by apply H3].
Qed.

Lemma split_patch_length P Q : In Q (split_patch P) -> length Q = 16%nat.
Proof. cbn. intros [<-|[<-|[<-|[<-|[]]]]]; done. Qed.

End BoundProps.

(** *** De Casteljau's algorithm

    An independent description of the quarters: the midpoints of neighbours, and of
    these again, give the control values of the two halves of a row; the rows are
    halved, then the columns of the result. *)

Module Casteljau.
Definition mid (a b : float64) : float64 := dmul dhalf (dadd a b).

Fixpoint levels (n : nat) (l : list float64) : list (list float64) :=
  match n with
  | O => []
  | S n => l :: levels n (zip_with mid l (tail l))
  end.
Definition first_half (l : list float64) : list float64 :=
  map (hd S754_nan) (levels (length l) l).
Definition second_half (l : list float64) : list float64 :=
  rev (map (fun l => List.last l S754_nan) (levels (length l) l)).

Definition rows (P : list float64) : list (list float64) :=
  map (fun i => take 4 (drop (4 * i) P)) (seq 0 4).
Definition columns (rs : list (list float64)) : list (list float64) :=
  map (fun j => map (fun r => nth j r S754_nan) rs) (seq 0 4).
Definition quarter (across down : list float64 -> list float64) (P : list float64) : list float64 :=
  concat (columns (map down (columns (map across (rows P))))).
Definition quarters (P : list float64) : list (list float64) :=
  [quarter first_half second_half P; quarter first_half first_half P;
   quarter second_half first_half P; quarter second_half second_half P].
End Casteljau.
Import Casteljau.

Lemma dadd_comm a b : dadd a b = dadd b a.
Proof.
  unfold dadd, SFadd. destruct a as [s|s| |s m e], b as [s'|s'| |s' m' e']; try done;
    try (by destruct s, s').
  by rewrite Z.min_comm, Z.add_comm.
Qed.

Lemma Split_rev a b c d :
  Split d c b a = mkSplit (sm2 (Split a b c d)) (sm1 (Split a b c d)) (sm0 (Split a b c d))
    (sm4 (Split a b c d)) (sm3 (Split a b c d)) (sm5 (Split a b c d)).
Proof.
  unfold Split. cbn [sm0 sm1 sm2 sm3 sm4 sm5].
  rewrite (dadd_comm d c), (dadd_comm c b), (dadd_comm b a).
  rewrite (dadd_comm (dmul dhalf (dadd c d))), (dadd_comm (dmul dhalf (dadd b c)) (dmul dhalf (dadd a b))).
  by rewrite (dadd_comm (dmul dhalf (dadd (dmul dhalf (dadd b c)) (dmul dhalf (dadd c d))))).
Qed.

(** The quarters that [bound] lays out are those of de Casteljau. *)
Lemma split_quarters P : length P = 16%nat -> split_patch P = quarters P.
Proof.
  intros H. do 16 (destruct P as [|? P]; [discriminate|]). destruct P; [|discriminate].
  unfold split_patch, nthd. cbn [nth].
  set (c0 := Split f f0 f1 f2). set (c1 := Split f3 f4 f5 f6).
  set (c2 := Split f7 f8 f9 f10). set (c3 := Split f11 f12 f13 f14).
  cbv zeta.
  rewrite (Split_rev f f3 f7 f11), (Split_rev f2 f6 f10 f14).
  do 5 match goal with
    | |- context [Split (?g c3) (?g c2) (?g c1) (?g c0)] =>
        rewrite (Split_rev (g c0) (g c1) (g c2) (g c3))
    end.
  by cbv -[dmul dadd dhalf].
Qed.

(** *** What the recursion finds *)

Module Enclosure.
Section Enclosure.
(** The side a bound is on, and the sign of the test: [sf_le] and -1 for a lower
    bound, its converse and 1 for an upper one. *)
Context (R : float64 -> float64 -> Prop) (sign : float64).

Definition corners : list nat := [0; 3; 12; 15]%nat.
Definition inner : list nat := [1; 2; 4; 5; 6; 7; 8; 9; 10; 11; 13; 14]%nat.

(** The test on a net, for a bound [r] found in the end: at the test the bound [b]
    is beyond the corners, and it is compared with the extreme inner control
    value [c]. *)
Definition tested (r : float64) (P : list float64) (fuzz : float64) (close : bool) : Prop :=
  exists b c,
    R r b /\ (forall i, In i corners -> R b (nthd P i)) /\
    In c (map (nthd P) inner) /\ (forall i, In i inner -> R c (nthd P i)) /\
    SFleb (dopp fuzz) (dmul sign (dsub b c)) = close.

(** A net is done with when the test holds, and is divided otherwise, with twice the
    tolerance for its quarters, unless the depth is used up. *)
Inductive enclosed (r : float64) : nat -> list float64 -> float64 -> Prop :=
| close_net n P fuzz : tested r P fuzz true -> enclosed r n P fuzz
| deepest P fuzz : tested r P fuzz false -> enclosed r 0 P fuzz
| divided n P fuzz : tested r P fuzz false ->
    (forall Q, In Q (quarters P) -> enclosed r n Q (dmul fuzz d2)) ->
    enclosed r (S n) P fuzz.

Inductive piece : nat -> list float64 -> list float64 -> Prop :=
| whole n P : piece n P P
| part n P Q S : In Q (quarters P) -> piece n Q S -> piece (Datatypes.S n) P S.

(** A bound that starts from [b] is attained: by [b], or by a corner of a net that
    the subdivision of [P] reaches. *)
Definition attained (n : nat) (P : list float64) (b r : float64) : Prop :=
  r = b \/ exists Q i, piece n P Q /\ In i corners /\ r = nthd Q i.

Definition tight (n : nat) (P : list float64) (b fuzz r : float64) : Prop :=
  R r b /\ enclosed r n P fuzz /\ attained n P b r.
End Enclosure.
End Enclosure.
Import Enclosure.

Section Tight.
Context {m R} `{!Extremum m R}.

Lemma ext_fold_either (l : list nat) P b :
  let r := foldl (fun b i => m b (nthd P i)) b l in
  r = b \/ exists i, In i l /\ r = nthd P i.
Proof.
  revert b. induction l as [|i l IH]; intros b; cbn; [by left|].
  destruct (IH (m b (nthd P i))) as [->|(j & ? & ->)]; [|right; eauto].
  destruct (ext_either b (nthd P i)) as [->| ->]; [by left|right; eauto].
Qed.

Lemma cornerbound_corner P :
  exists i, In i corners /\ cornerbound m P = nthd P i.
Proof.
  destruct (ext_fold_either [3; 12; 15]%nat P (nthd P 0)) as [H|(i & Hi & H)].
  - exists 0%nat. split; [by left|exact H].
  - exists i. split; [by right|exact H].
Qed.

Lemma controlbound_inner P :
  numbers P = true -> length P = 16%nat ->
  In (controlbound m P) (map (nthd P) inner) /\
  (forall i, In i inner -> R (controlbound m P) (nthd P i)).
Proof.
  intros HP Hlen.
  assert (forall i, (i < 16)%nat -> sf_nan (nthd P i) = false) as Hn
    by (intros; apply numbers_nthd; [done|lia]).
  set (l := [2; 4; 5; 6; 7; 8; 9; 10; 11; 13; 14]%nat).
  split.
  - apply in_map_iff.
    destruct (ext_fold_either l P (nthd P 1)) as [H|(i & Hi & H)].
    + exists 1%nat. split; [symmetry; exact H|by left].
    + exists i. split; [symmetry; exact H|by right].
  - destruct (ext_fold l P (nthd P 1)) as (_ & H2 & H3).
    { apply Hn; lia. }
    { intros i Hi. apply Hn. cbn in Hi. lia. }
    intros i [<-|Hi]; [exact H2|by apply H3].
Qed.

Lemma enclosed_mono sign r r' n P fuzz :
  R r' r -> enclosed R sign r n P fuzz -> enclosed R sign r' n P fuzz.
Proof.
  intros Hr. assert (forall P fuzz t, tested R sign r P fuzz t -> tested R sign r' P fuzz t)
    as Ht by (intros ??? (b & c & ? & ?); exists b, c; split; [by eapply ext_trans|done]).
  induction 1; [apply close_net|apply deepest|apply divided]; auto.
Qed.

Lemma attained_quarter n P Q b r :
  In Q (quarters P) -> attained n Q b r -> attained (S n) P b r.
Proof.
  intros HQ [->|(S & i & HS & ?)]; [by left|]. right. exists S, i.
  split; [by eapply part|done].
Qed.

(** A run over the quarters: the bound of the last one is beyond all of them. *)
Lemma tight_fold sign n fuzz (rec : list float64 -> float64 -> float64) P Ps b :
  (forall Q, In Q Ps -> In Q (quarters P)) ->
  (forall Q c, In Q Ps -> sf_nan c = false ->
     sf_nan (rec Q c) = false /\ tight R sign n Q c fuzz (rec Q c)) ->
  sf_nan b = false ->
  let r := foldl (fun b Q => rec Q b) b Ps in
  sf_nan r = false /\ R r b /\ (forall Q, In Q Ps -> enclosed R sign r n Q fuzz) /\
  attained (S n) P b r.
Proof.
  revert b. induction Ps as [|Q Ps IH]; intros b Hq Hrec Hb; cbn.
  - split_and!; [done|by apply ext_refl|done|by left].
  - destruct (Hrec Q b (or_introl eq_refl) Hb) as (Hn & HR & He & Ha).
    destruct (IH (rec Q b)) as (Hn' & HR' & He' & Ha'); 
      [by intros Q' ?; apply Hq; right|by intros Q' c ?; apply Hrec; right|done|].
    split_and!; [done|by eapply ext_trans| |].
    + intros Q' [<-|HQ']; [by eapply enclosed_mono|by apply He'].
    + destruct Ha' as [->|Ha']; [|by right].
      eapply attained_quarter; [|exact Ha]. apply Hq. by left.
Qed.

Lemma bound_tight depth P b fuzz :
  length P = 16%nat -> number_tree split_patch depth P = true -> sf_nan b = false ->
  sf_nan (bound m depth P b fuzz) = false /\
  tight R (m dm1 d1) depth P b fuzz (bound m depth P b fuzz).
Proof.
  revert P b fuzz. induction depth as [|d IH]; intros P b fuzz Hlen HP Hb.
  all: cbn [number_tree] in HP; apply andb_prop in HP as [HP Hsub].
  all: destruct (cornerbound_spec P HP Hlen) as [Hc Hcs].
  all: destruct (controlbound_inner P HP Hlen) as [Hin Hci].
  all: pose proof (ext_num _ _ Hb Hc) as Hb'.
  all: set (b' := m b (cornerbound m P)) in *.
  all: assert (R b' b) as Hl by by apply ext_l.
  all: assert (attained 0 P b b') as Ha.
  1,3: destruct (ext_either b (cornerbound m P)) as [E|E]; [by left|right];
    destruct (cornerbound_corner P) as (i & Hi & Ei);
    exists P, i; split; [constructor|split; [exact Hi|by rewrite <- Ei]].
  all: assert (forall r t, R r b' -> close_enough m b' (controlbound m P) fuzz = t ->
    tested R (m dm1 d1) r P fuzz t) as Ht.
  1,3: intros r t Hr Et; exists b', (controlbound m P); split_and!; try done;
    intros i Hi; eapply ext_trans; [by apply ext_r|by apply Hcs].
  all: cbn [bound]; fold b'; destruct (close_enough _ _ _ _) eqn:E.
  1,3: split; [done|split_and!; [done| |]].
  1,3: by apply close_net, Ht; [apply ext_refl|].
  1,2: destruct Ha as [?|(Q & i & HQ & ?)]; [by left|right; exists P, i];
    inversion HQ; subst; split; [constructor|done].
  - split; [done|split_and!; [done| |done]]. by apply deepest, Ht; [apply ext_refl|].
  - assert (forall Q, In Q (split_patch P) -> In Q (quarters P)) as Hq
      by by rewrite <- split_quarters.
    destruct (tight_fold (m dm1 d1) d (dmul fuzz d2)
      (fun Q c => bound m d Q c (dmul fuzz d2)) P (split_patch P) b') as (Hn & HR & He & Hat);
      [done| |done|].
    { intros Q c HQ Hcn. rewrite forallb_forall in Hsub.
      by apply IH; [eapply split_patch_length|apply Hsub|]. }
    split; [done|split_and!; [by eapply ext_trans| |]].
    + apply divided; [by apply Ht|]. rewrite <- split_quarters by done. exact He.
    + destruct Hat as [Hat|?]; [|by right]. rewrite Hat.
      destruct Ha as [?|(Q & i & HQ & ?)]; [by left|right; exists P, i].
      inversion HQ; subst; split; [constructor|done].
Qed.
End Tight.

(** C34: The recursive bound of a Bezier patch finds the enclosure it is meant to find, as
    a lower bound ([min]) and as an upper bound ([max]), at every depth and for every
    starting value and tolerance, as long as the subdivision meets no NaN.  The patch is
    divided into its four quarters by de Casteljau's algorithm on its rows and then on
    its columns, the tolerance doubles with each division, and a net is divided exactly
    when the test fails and depth is left.  The result is a number, at or beyond the
    starting value and the four corners of every net reached; and for every net that is
    left undivided although depth remains, the bound found up to there, which is at or
    beyond the corners of the net and not beyond the result, passes the test against the
    extreme one of the twelve inner control values: -fuzz <= -(b - c) for the lower
    bound, -fuzz <= b - c for the upper one.  And the result is attained: it is the
    starting value or a corner of a net of the subdivision to this depth, a point of the
    patch up to rounding. *)
Theorem bound_encloses depth P b fuzz :
  length P = 16%nat -> number_tree split_patch depth P = true -> sf_nan b = false ->
  let lo := bound fmin depth P b fuzz in
  let hi := bound fmax depth P b fuzz in
  sf_nan lo = false /\ sf_nan hi = false /\
  (sf_le lo b /\ enclosed sf_le dm1 lo depth P fuzz /\ attained depth P b lo) /\
  (sf_le b hi /\ enclosed (flip sf_le) d1 hi depth P fuzz /\ attained depth P b hi).
Proof.
  intros Hlen HP Hb lo hi.
  destruct (bound_tight (m := fmin) depth P b fuzz Hlen HP Hb) as [Hl Tl].
  destruct (bound_tight (m := fmax) depth P b fuzz Hlen HP Hb) as [Hh Th].
  exact (conj Hl (conj Hh (conj Tl Th))).
Qed.

Lemma bound_encloses_witness :
  let P := double_of_Z <$> [0; 3; -5; 1; 4; 8; 9; 2; 0; -7; 6; 1; 2; 5; 3; 4] in
  (length P = 16%nat /\ number_tree split_patch 3 P = true /\ sf_nan d0 = false) /\
  enclosed sf_le dm1 (bound fmin 3 P d0 (dmul Fuzz (norm P))) 3 P (dmul Fuzz (norm P)).
Proof.
  intros P.
  assert (length P = 16%nat) as H1 by reflexivity.
  assert (number_tree split_patch 3 P = true) as H2 by (vm_compute; reflexivity).
  assert (sf_nan d0 = false) as H3 by reflexivity.
  split; [exact (conj H1 (conj H2 H3))|].
  apply (bound_encloses 3 P d0 (dmul Fuzz (norm P)) H1 H2 H3).
Defined.

(** The box of a cubic curve is not an enclosure.  The curve overload of
    [bound] is called with the coordinate functions, for which its control
    test compares with the wrong extremum in x and y, so that it stops at the
    end points: the arch (0,0) (0,10) (1,10) (1,0) gets a box of height 0,
    although its middle point, by de Casteljau, has y = 7.5. *)
Theorem curve_box_misses_the_curve :
  let T x y := mkTriple (double_of_Z x) (double_of_Z y) d0 in
  let '(lo, hi) := computeBezierCurveBounds (T 0 0) (T 0 10) (T 1 10) (T 1 0) in
  let mid := sm5 (Split (double_of_Z 0) (double_of_Z 10) (double_of_Z 10) (double_of_Z 0)) in
  ty lo = d0 /\ ty hi = d0 /\ SFltb (ty hi) mid = true /\
  mid = ddiv (double_of_Z 15) (double_of_Z 2).
Proof. vm_compute. auto. Qed.
