(* ===== verification/IblName.v ===== *)
(** * Names of IBL images

    [normalizeIBLName], [iblNameOK] and [logRejectedIBLName] of
    [v3d-Common/V3dModelManager.cpp], [settings::iblNameOK] of
    [asymptote/settings.cc], and the path the name is resolved to.

    The names come from untrusted documents.  [iblNameOK_spec] characterises
    the scanning loops by a declarative predicate, [iblNameOK_inside] is the
    security property: walking an accepted name from the library directory
    never leaves it, whichever of [/] and [\ ] the system takes as separators. *)

From S2P Require Import Prelude.

(** [std::string]: a sequence of bytes. *)
Abbreviation string := (list Byte.byte).

#[export] Instance byte_eq_dec : EqDecision Byte.byte := Byte.byte_eq_dec.
#[export] Instance byte_countable : Countable Byte.byte :=
  inj_countable Byte.to_N Byte.of_N Byte.of_to_N.

(** ASCII text as bytes. *)
Definition bytes_of (s : String.string) : string := String.list_byte_of_string s.

Definition slash : Byte.byte := Byte.x2f.
Definition backslash : Byte.byte := Byte.x5c.
Definition percent : Byte.byte := Byte.x25.
Definition dotdot : string := [Byte.x2e; Byte.x2e].

(** ** [std::string] operations *)

Fixpoint find_first (p : Byte.byte -> bool) (s : string) : option nat :=
  match s with
  | [] => None
  | b :: s' => if p b then Some 0%nat else Datatypes.S <$> find_first p s'
  end.

(** [find_last_of], as the position counted from the front. *)
Definition find_last (p : Byte.byte -> bool) (s : string) : option nat :=
  (fun i => (length s - 1 - i)%nat) <$> find_first p (rev s).

(** [substr(pos, len)]; [None] stands for [npos]. *)
Definition substr (s : string) (pos : nat) (len : option nat) : string :=
  match len with
  | Some n => take n (drop pos s)
  | None => drop pos s
  end.

Definition is_slash (b : Byte.byte) : bool := bool_decide (b = slash).
Definition is_sep (b : Byte.byte) : bool := bool_decide (b = slash) || bool_decide (b = backslash).

(** [c < 0x20 || c == 0x7f] on an [unsigned char]. *)
Definition is_control (b : Byte.byte) : bool :=
  (byte.unsigned b <? 0x20) || (byte.unsigned b =? 0x7f).

(** ** [normalizeIBLName] *)

(** [while (!name.empty() && name.back() == '/') name.pop_back();] on the
    reversed name. *)
Fixpoint drop_slashes (r : string) : string :=
  match r with
  | b :: r' => if is_slash b then drop_slashes r' else r
  | [] => []
  end.

Definition pop_slashes (name : string) : string := rev (drop_slashes (rev name)).

Definition normalizeIBLName (imageName : string) : string :=
  let name :=
    match imageName with
    | b :: _ =>
        if is_slash b then
          match find_last is_slash imageName with
          | Some (Datatypes.S i) => substr imageName (Datatypes.S i + 1) None
          | _ => substr imageName 1 None
          end
        else imageName
    | [] => imageName
    end in
  pop_slashes name.

(** ** [iblNameOK] *)

Lemma find_first_bound p s n : find_first p s = Some n -> (n < length s)%nat.
Proof.
  revert n. induction s as [|b s IH]; intros n; cbn; [done|].
  destruct (p b); [intros [= <-]; lia|].
  destruct (find_first p s) as [m|]; [|done]. intros [= <-]. specialize (IH m eq_refl). lia.
Qed.

Lemma next_start name start n :
  find_first is_sep (drop start name) = Some n ->
  (length name - (start + n + 1) < length name - start)%nat.
Proof. intros E. apply find_first_bound in E. rewrite length_drop in E. lia. Qed.

(** An iteration of the [while (true)] loop over the components; [next] is the
    rest of the loop, which starts after the separator found. *)
Definition component_step (name : string) (start : nat)
    (next : forall start', (length name - start' < length name - start)%nat -> bool) : bool :=
  match find_first is_sep (drop start name) as end_   (* relative to start *)
      return find_first is_sep (drop start name) = end_ -> bool with
  | None => fun _ => negb (bool_decide (substr name start None = dotdot))
  | Some n => fun E =>
      if bool_decide (substr name start (Some n) = dotdot) then false
      else next (start + n + 1)%nat (next_start name start n E)
  end eq_refl.

(** The loop: a recursion on the number of bytes from [start] to the end. *)
Definition component_loop (name : string) : nat -> bool :=
  Fix (wf_guard 32 (well_founded_ltof nat (fun start => (length name - start)%nat)))
    (fun _ => bool) (component_step name).

Definition iblNameOK (name : string) : bool :=
  if existsb (fun b => bool_decide (b = percent)) name then false
  else if existsb is_control name then false
  else if match name with b :: _ => is_sep b | [] => false end then false
  else component_loop name 0.

(** ** [logRejectedIBLName] *)

Definition hex_digit (n : Z) : Byte.byte := byte.of_Z (if n <? 10 then 0x30 + n else 0x61 + (n - 10)).

Definition is_printable (b : Byte.byte) : bool :=
  (0x20 <=? byte.unsigned b) && (byte.unsigned b <=? 0x7e).

Definition escape_byte (b : Byte.byte) : string :=
  if is_printable b then [b]
  else [backslash; Byte.x78; hex_digit (Z.land (Z.shiftr (byte.unsigned b) 4) 0xf);
        hex_digit (Z.land (byte.unsigned b) 0xf)].

(** The string passed to [LOG]. *)
Definition logRejectedIBLName (name : string) : string := flat_map escape_byte name.

(** ** Components *)

(** [name] split at the bytes that satisfy [sep]. *)
Fixpoint components (sep : Byte.byte -> bool) (name : string) : list string :=
  match name with
  | [] => [[]]
  | b :: name' =>
      if sep b then [] :: components sep name'
      else match components sep name' with
           | c :: cs => (b :: c) :: cs
           | [] => [[b]]
           end
  end.

Lemma components_nonempty sep name : components sep name <> [].
Proof. destruct name as [|b name]; cbn; [done|]. split_ifs; [done|]. by destruct (components _ _). Qed.

(** The first component, found by scanning for a separator. *)
Lemma components_find sep name :
  components sep name =
    match find_first sep name with
    | None => [name]
    | Some n => take n name :: components sep (drop (Datatypes.S n) name)
    end.
Proof.
  induction name as [|b name IH]; cbn [components find_first]; [done|].
  destruct (sep b); [done|]. rewrite IH.
  by destruct (find_first sep name) as [n|].
Qed.

Lemma component_step_ext name start next next' :
  (forall start' H, next start' H = next' start' H) ->
  component_step name start next = component_step name start next'.
Proof.
  intros Hn. unfold component_step. generalize (next_start name start).
  destruct (find_first is_sep (drop start name)) as [n|]; [|done]. intros H.
  by rewrite (Hn _ (H n eq_refl)).
Qed.

(** One iteration of the loop. *)
Lemma component_loop_unfold name start :
  component_loop name start =
    let end_ := find_first is_sep (drop start name) in
    if bool_decide (substr name start end_ = dotdot) then false
    else match end_ with None => true | Some n => component_loop name (start + n + 1) end.
Proof.
  unfold component_loop at 1. rewrite Fix_eq by (intros; by apply component_step_ext).
  fold (component_loop name). unfold component_step. generalize (next_start name start). cbv zeta.
  destruct (find_first is_sep (drop start name)) as [n|]; [done|]. by case_bool_decide.
Qed.

(** The runs of the loop of the code that end: [scans name start r] when the
    loop entered with [start] returns [r]. *)
Inductive scans (name : string) : nat -> bool -> Prop :=
| scans_dotdot start :
    substr name start (find_first is_sep (drop start name)) = dotdot -> scans name start false
| scans_end start :
    substr name start None <> dotdot -> find_first is_sep (drop start name) = None ->
    scans name start true
| scans_next start n r :
    find_first is_sep (drop start name) = Some n -> substr name start (Some n) <> dotdot ->
    scans name (start + n + 1) r -> scans name start r.

(** Every run ends, with the value of [component_loop]. *)
Lemma component_loop_scans name start : scans name start (component_loop name start).
Proof.
  induction start as [start IH] using (well_founded_induction
    (well_founded_ltof nat (fun start => (length name - start)%nat))).
  rewrite component_loop_unfold. cbv zeta.
  case_bool_decide as Hd; [by constructor|].
  destruct (find_first is_sep (drop start name)) as [n|] eqn:E; [|by apply scans_end].
  apply (scans_next _ _ n); [done..|]. apply IH, (next_start name start n E).
Qed.

(** The loop of the code computes whether a component is [..]. *)
Lemma component_loop_spec name start :
  component_loop name start =
    forallb (fun c => negb (bool_decide (c = dotdot))) (components is_sep (drop start name)).
Proof.
  induction start as [start IH] using (well_founded_induction
    (well_founded_ltof nat (fun start => (length name - start)%nat))).
  rewrite component_loop_unfold, (components_find is_sep (drop start name)). cbv zeta.
  destruct (find_first is_sep (drop start name)) as [n|] eqn:E; cbn [substr forallb].
  - case_bool_decide; [done|]. rewrite (IH _ (next_start name start n E)).
    by rewrite drop_drop, Nat.add_1_r, Nat.add_succ_r.
  - by case_bool_decide.
Qed.

(** ** Lexical resolution of a path

    Components walked from a directory given by its stack of components,
    innermost last: [.] and the empty component stay, [..] goes up. *)

Definition walk1 (c : string) (dir : list string) : list string :=
  if bool_decide (c = []) || bool_decide (c = [Byte.x2e]) then dir
  else if bool_decide (c = dotdot) then removelast dir
  else dir ++ [c].

Definition walk (dir : list string) (cs : list string) : list string :=
  fold_left (fun d c => walk1 c d) cs dir.

Lemma walk_inside cs dir :
  Forall (fun c => c <> dotdot) cs -> exists sub, walk dir cs = dir ++ sub.
Proof.
  intros Hcs. revert dir. induction Hcs as [|c cs Hc Hcs IH]; intros dir; cbn.
  { exists []. by rewrite app_nil_r. }
  unfold walk in *. destruct (IH (walk1 c dir)) as [sub E]. rewrite E. unfold walk1.
  split_ifs; [eauto| |rewrite <- app_assoc; eauto].
  case_bool_decide; done.
Qed.

(** A component is a piece without separators between two separators (or the
    ends of the name). *)
Definition is_component (sep : Byte.byte -> bool) (name c : string) : Prop :=
  exists pre post, name = pre ++ c ++ post /\ Forall (fun b => sep b = false) c /\
    (pre = [] \/ exists p b, pre = p ++ [b] /\ sep b = true) /\
    (post = [] \/ exists b p, post = b :: p /\ sep b = true).

Lemma find_first_split p s n :
  find_first p s = Some n ->
  exists b, s = take n s ++ b :: drop (Datatypes.S n) s /\ p b = true /\
    Forall (fun b => p b = false) (take n s).
Proof.
  revert n. induction s as [|b s IH]; intros n; cbn; [done|].
  destruct (p b) eqn:E; [intros [= <-]; by exists b|].
  destruct (find_first p s) as [m|]; [|done]. intros [= <-].
  destruct (IH m eq_refl) as (b' & Hs & ? & ?). exists b'. cbn.
  split_and!; [by f_equal|done|by constructor].
Qed.

Lemma find_first_none p s : find_first p s = None -> Forall (fun b => p b = false) s.
Proof.
  induction s as [|b s IH]; cbn; [done|]. destruct (p b) eqn:E; [done|].
  destruct (find_first p s); [done|]. constructor; auto.
Qed.

Lemma elem_components sep name c : c ∈ components sep name -> is_component sep name c.
Proof.
  remember (length name) as n eqn:Hn. revert name Hn.
  induction (lt_wf n) as [n _ IH]. intros name ->. rewrite components_find.
  destruct (find_first sep name) as [m|] eqn:E.
  - destruct (find_first_split _ _ _ E) as (b & Hs & Hb & Hf).
    rewrite elem_of_cons. intros [->|Hin].
    + exists [], (b :: drop (Datatypes.S m) name). split_and!; eauto.
    + assert (Hl : (length (drop (Datatypes.S m) name) < length name)%nat).
      { apply find_first_bound in E. rewrite length_drop. lia. }
      destruct (IH _ Hl _ eq_refl Hin) as (pre & post & Hd & Hc & Hpre & Hpost).
      exists (take m name ++ b :: pre), post. split_and!; [|done| |done].
      * rewrite Hs at 1. rewrite Hd. by rewrite <- app_assoc.
      * right. destruct Hpre as [->|(p & b' & -> & Hb')]; [by exists (take m name), b|].
        exists (take m name ++ b :: p), b'. by rewrite <- app_assoc.
  - intros Hin. apply list_elem_of_singleton in Hin as ->.
    exists [], []. rewrite app_nil_r. split_and!; eauto using find_first_none.
Qed.

Lemma components_first sep c post :
  Forall (fun b => sep b = false) c -> (post = [] \/ exists b p, post = b :: p /\ sep b = true) ->
  exists cs, components sep (c ++ post) = c :: cs.
Proof.
  intros Hc Hpost. induction Hc as [|b c Hb Hc IH]; cbn.
  - destruct Hpost as [->|(b & p & -> & Hb)]; cbn; [by eexists|]. rewrite Hb. by eexists.
  - rewrite Hb. destruct IH as [cs ->]. by eexists.
Qed.

Lemma components_app sep pre b s :
  sep b = true -> exists c cs, components sep (pre ++ b :: s) = c :: cs ++ components sep s.
Proof.
  intros Hb. induction pre as [|a pre (c & cs & IH)]; cbn.
  - rewrite Hb. by exists [], [].
  - rewrite IH. destruct (sep a); [by exists [], (c :: cs) | by exists (a :: c), cs].
Qed.

Lemma component_elem sep name c : is_component sep name c -> c ∈ components sep name.
Proof.
  intros (pre & post & -> & Hc & Hpre & Hpost).
  destruct (components_first sep c post Hc Hpost) as [cs E].
  destruct Hpre as [->|(p & b & -> & Hb)]; cbn; [rewrite E; by left|].
  rewrite <- app_assoc. cbn [app]. destruct (components_app sep p b (c ++ post) Hb) as (c' & cs' & ->).
  right. apply elem_of_app. right. rewrite E. by left.
Qed.

(** Splitting at fewer separators: a [..] component stays one of the finer
    splitting. *)
Lemma components_coarser sep name :
  (forall b, sep b = true -> is_sep b = true) ->
  dotdot ∈ components sep name -> dotdot ∈ components is_sep name.
Proof.
  intros Hsep Hin. apply elem_components in Hin as (pre & post & Hs & _ & Hpre & Hpost).
  apply component_elem. exists pre, post. split_and!; [done | by repeat constructor | |].
  - destruct Hpre as [|(p & b & ? & ?)]; [by left | right; eauto].
  - destruct Hpost as [|(b & p & ? & ?)]; [by left | right; eauto].
Qed.

(** ** Properties of the names *)

(** What the header of [iblNameOK] promises. *)
Definition name_safe (name : string) : Prop :=
  (percent ∉ name) /\ Forall (fun b => is_control b = false) name /\
  (forall b name', name = b :: name' -> is_sep b = false) /\
  (dotdot ∉ components is_sep name).

Lemma existsb_elem (p : Byte.byte -> bool) s :
  existsb p s = false <-> Forall (fun b => p b = false) s.
Proof.
  induction s as [|b s IH]; cbn; [by split|].
  rewrite orb_false_iff, IH, Forall_cons. done.
Qed.

Lemma iblNameOK_unfold name : iblNameOK name = true <-> name_safe name.
Proof.
  unfold iblNameOK, name_safe. rewrite component_loop_spec. cbn [drop].
  assert (Hp : existsb (fun b => bool_decide (b = percent)) name = false <-> percent ∉ name).
  { rewrite existsb_elem, Forall_forall. split.
    - intros Hall Hin. specialize (Hall _ Hin). by rewrite bool_decide_true in Hall.
    - intros Hn b Hb. apply bool_decide_false. intros ->. done. }
  assert (Hd : forallb (fun c => negb (bool_decide (c = dotdot))) (components is_sep name) = true
    <-> dotdot ∉ components is_sep name).
  { rewrite forallb_forall. split.
    - intros Hall Hin. apply list_elem_of_In in Hin. specialize (Hall _ Hin).
      by rewrite bool_decide_true in Hall.
    - intros Hn c Hc. apply negb_true_iff, bool_decide_false. intros ->.
      by apply Hn, list_elem_of_In. }
  assert (Hs : (match name with b :: _ => is_sep b | [] => false end) = false <->
    (forall b name', name = b :: name' -> is_sep b = false)).
  { destruct name as [|b name]; split; try done; [intros Hb b' n' [= <- _]; done|].
    intros Hall. by apply (Hall b name). }
  rewrite <- existsb_elem, <- Hp, <- Hs, <- Hd. clear Hp Hd Hs.
  destruct (existsb _ name), (existsb is_control name),
    (match name with b :: _ => is_sep b | [] => false end);
    (split; [|intros (? & ? & ? & ?)]; naive_solver).
Qed.

(** C26: [iblNameOK] accepts exactly the names without [%], without control
    characters, without a leading separator and without a [..] component
    (separated by [/] or [\ ]); and its loop over the components ends on every
    name, accepted or not: from any start there is a finite run of iterations,
    whose result is the value of the function. *)
Theorem iblNameOK_spec name :
  (iblNameOK name = true <-> name_safe name) /\
  forall start, scans name start (component_loop name start).
Proof. exact (conj (iblNameOK_unfold name) (component_loop_scans name)). Qed.

(** Path containment: walking an accepted name from any directory, with
    [/] alone or with both [/] and [\ ] as separators, ends in that directory
    or below it. *)
Theorem iblNameOK_inside sep name dir :
  (forall b, sep b = true -> is_sep b = true) -> iblNameOK name = true ->
  exists sub, walk dir (components sep name) = dir ++ sub.
Proof.
  intros Hsep Hok. apply iblNameOK_unfold in Hok as (_ & _ & _ & Hdd).
  apply walk_inside, Forall_forall. intros c Hc ->. by apply Hdd, (components_coarser sep).
Qed.

Lemma iblNameOK_inside_witness :
  let name := bytes_of "snowyField\..x/refl0" in
  iblNameOK name = true /\
  exists sub, walk [bytes_of "ibl"] (components is_slash name) = [bytes_of "ibl"] ++ sub.
Proof.
  intros name. assert (iblNameOK name = true) as Hok by reflexivity.
  refine (conj Hok (iblNameOK_inside is_slash name [bytes_of "ibl"] _ Hok)).
  intros b Hb. unfold is_sep, is_slash in *. rewrite Hb. reflexivity.
Defined.

(** ** [normalizeIBLName] *)

Lemma find_last_split p s i :
  find_last p s = Some i ->
  exists b, s = take i s ++ b :: drop (Datatypes.S i) s /\ p b = true /\
    Forall (fun b => p b = false) (drop (Datatypes.S i) s).
Proof.
  unfold find_last. destruct (find_first p (rev s)) as [n|] eqn:E; [|done]. intros [= <-].
  destruct (find_first_split _ _ _ E) as (b & Hs & Hb & Hf).
  pose proof (find_first_bound _ _ _ E) as Hn. rewrite length_rev in Hn.
  exists b. replace (Datatypes.S (length s - 1 - n)) with (length s - n)%nat by lia.
  assert (Htake : drop (length s - n) s = rev (take n (rev s))).
  { rewrite <- (rev_involutive s) at 2. rewrite skipn_rev, length_rev.
    f_equal. f_equal. lia. }
  assert (Hs' : s = rev (drop (Datatypes.S n) (rev s)) ++ b :: drop (length s - n) s).
  { rewrite Htake. rewrite <- (rev_involutive s) at 1. rewrite Hs at 1.
    rewrite rev_app_distr. cbn. by rewrite <- app_assoc. }
  split_and!; [|done|rewrite Htake; by apply Forall_rev].
  assert (HA : length (rev (drop (Datatypes.S n) (rev s))) = (length s - 1 - n)%nat)
    by (rewrite length_rev, length_drop, length_rev; lia).
  revert Hs' HA. generalize (rev (drop (Datatypes.S n) (rev s))) as A. intros A Hs' <-.
  rewrite Hs' at 1. f_equal. rewrite Hs'. by rewrite take_app_length.
Qed.

Lemma find_first_exists p s b : b ∈ s -> p b = true -> is_Some (find_first p s).
Proof.
  intros Hin Hb. induction s as [|a s IH]; [by apply not_elem_of_nil in Hin|]. cbn.
  destruct (p a) eqn:E; [eauto|]. apply elem_of_cons in Hin as [->|Hin]; [congruence|].
  destruct (IH Hin) as [n ->]. eauto.
Qed.

Lemma drop_slashes_suffix r : exists p, r = p ++ drop_slashes r /\ Forall (fun b => is_slash b = true) p.
Proof.
  induction r as [|b r (p & E & Hp)]; cbn; [by exists []|].
  destruct (is_slash b) eqn:Eb; [|by exists []].
  exists (b :: p). split; [cbn; by f_equal | by constructor].
Qed.

Lemma drop_slashes_head r b r' : drop_slashes r = b :: r' -> is_slash b = false.
Proof.
  induction r as [|a r IH]; cbn; [done|]. destruct (is_slash a) eqn:E; [done|].
  by intros [= <- <-].
Qed.

(** Removing the trailing slashes leaves a prefix. *)
Lemma pop_slashes_prefix name :
  exists p, name = pop_slashes name ++ p /\ Forall (fun b => is_slash b = true) p.
Proof.
  destruct (drop_slashes_suffix (rev name)) as (p & E & Hp). exists (rev p).
  split; [|by apply Forall_rev]. unfold pop_slashes. rewrite <- rev_app_distr, <- E.
  by rewrite rev_involutive.
Qed.

Lemma pop_slashes_last name s b : pop_slashes name = s ++ [b] -> is_slash b = false.
Proof.
  unfold pop_slashes. intros E. apply (f_equal (@rev _)) in E.
  rewrite rev_involutive, rev_app_distr in E. by apply drop_slashes_head in E.
Qed.

Lemma pop_slashes_id name :
  (forall s b, name = s ++ [b] -> is_slash b = false) -> pop_slashes name = name.
Proof.
  intros Hn. unfold pop_slashes. destruct (rev name) as [|b r] eqn:E.
  - apply (f_equal (@rev _)) in E. rewrite rev_involutive in E. by rewrite E.
  - assert (Hb : is_slash b = false).
    { apply (Hn (rev r)). by rewrite <- (rev_involutive name), E. }
    cbn. by rewrite Hb, <- E, rev_involutive.
Qed.

(** The name without its directory part: what the first step leaves. *)
Lemma normalize_step imageName :
  exists name, normalizeIBLName imageName = pop_slashes name /\
    (forall b s, name = b :: s -> is_slash b = false) /\
    (match imageName with b :: _ => is_slash b | [] => false end = true ->
     Forall (fun b => is_slash b = false) name /\ exists pre, imageName = pre ++ slash :: name) /\
    (match imageName with b :: _ => is_slash b | [] => false end = false -> name = imageName).
Proof.
  unfold normalizeIBLName. destruct imageName as [|b s]; [by exists []|].
  destruct (is_slash b) eqn:Eb; [|exists (b :: s); split_and!; try done; by intros ? ? [= <- _]].
  assert (b = slash) as -> by (unfold is_slash in Eb; by apply bool_decide_eq_true in Eb).
  destruct (find_first_exists is_slash (rev (slash :: s)) slash) as [n En].
  { rewrite list_elem_of_In, <- in_rev. by left. } { done. }
  assert (exists i, find_last is_slash (slash :: s) = Some i) as [i Ei]
    by (unfold find_last; rewrite En; cbn; eauto).
  rewrite Ei. destruct (find_last_split _ _ _ Ei) as (b & Hs & Hb & Hf).
  assert (b = slash) as -> by (unfold is_slash in Hb; by apply bool_decide_eq_true in Hb).
  exists (drop (Datatypes.S i) (slash :: s)). split_and!.
  - destruct i; cbn [substr]; [done|]. by rewrite Nat.add_1_r.
  - intros b s' E. rewrite E in Hf. by apply Forall_cons in Hf as [? _].
  - intros _. split; [done|]. by exists (take i (slash :: s)).
  - done.
Qed.

(** [normalizeIBLName] gives a name that neither starts nor ends with [/];
    a relative name only loses its trailing slashes, and an absolute path is
    reduced to what follows its last [/], so that a second normalisation
    changes nothing. *)
Theorem normalizeIBLName_spec imageName :
  let name := normalizeIBLName imageName in
  (forall b s, name = b :: s -> is_slash b = false) /\
  (forall b s, name = s ++ [b] -> is_slash b = false) /\
  normalizeIBLName name = name /\
  (match imageName with b :: _ => is_slash b | [] => false end = true ->
     Forall (fun b => is_slash b = false) name /\ exists pre, imageName = pre ++ slash :: name) /\
  (match imageName with b :: _ => is_slash b | [] => false end = false ->
     exists tl, imageName = name ++ tl /\ Forall (fun b => is_slash b = true) tl).
Proof.
  intros name. destruct (normalize_step imageName) as (n0 & E & Hhead & Habs & Hrel).
  destruct (pop_slashes_prefix n0) as (tl & E0 & Htl).
  assert (Hh : forall b s, name = b :: s -> is_slash b = false).
  { intros b s Eb. unfold name in Eb. rewrite E in Eb. rewrite Eb in E0. by apply (Hhead b (s ++ tl)). }
  assert (Hl : forall b s, name = s ++ [b] -> is_slash b = false).
  { intros b s Eb. unfold name in Eb. rewrite E in Eb. by apply pop_slashes_last in Eb. }
  split_and!; [done | done | | |].
  - destruct (normalize_step name) as (n1 & E1 & _ & _ & Hrel1). rewrite E1.
    rewrite Hrel1; [apply pop_slashes_id; naive_solver|].
    clear -Hh. clearbody name. destruct name as [|b s]; [done|]. by apply (Hh b s).
  - intros Hs. destruct (Habs Hs) as [Hns [pre Hpre]].
    assert (Hid : pop_slashes n0 = n0).
    { apply pop_slashes_id. intros s b ->. apply Forall_app in Hns as [_ Hns].
      exact (proj1 (Forall_singleton _ _) Hns). }
    unfold name. rewrite E, Hid. eauto.
  - intros Hs. specialize (Hrel Hs). subst n0. unfold name. rewrite E. eauto.
Qed.

(** An absolute path that ends with a slash is not reduced to its file
    name but to the empty name. *)
Theorem normalize_trailing_slash dir file :
  normalizeIBLName (slash :: dir ++ slash :: file ++ [slash]) = [].
Proof.
  set (path := slash :: dir ++ slash :: file ++ [slash]).
  destruct (normalize_step path) as (n0 & E & _ & Habs & _). rewrite E.
  destruct (Habs eq_refl) as [Hns [pre Hpre]].
  assert (Hlast : last path = Some slash).
  { unfold path. change (slash :: dir ++ slash :: file ++ [slash])
      with ((slash :: dir) ++ (slash :: file) ++ [slash]).
    by rewrite app_assoc, last_snoc. }
  destruct n0 as [|b n0]; [done|]. exfalso. rewrite Hpre in Hlast.
  change (pre ++ slash :: b :: n0) with (pre ++ [slash] ++ (b :: n0)) in Hlast.
  rewrite app_assoc, last_app_cons, last_cons in Hlast.
  apply Forall_cons in Hns as [Hb Hns].
  destruct (last n0) as [c|] eqn:El; injection Hlast as ->; [|done].
  rewrite Forall_forall in Hns. by specialize (Hns slash (last_Some_elem_of _ _ El)).
Qed.

Lemma escape_printable b : forallb is_printable (escape_byte b) = true.
Proof. by destruct b. Qed.

(** The message logged for a rejected name contains printable ASCII
    characters only, and is the name itself when that is printable. *)
Theorem log_printable name :
  Forall (fun b => is_printable b = true) (logRejectedIBLName name) /\
  (Forall (fun b => is_printable b = true) name -> logRejectedIBLName name = name).
Proof.
  split.
  - unfold logRejectedIBLName. induction name as [|b name IH]; cbn; [done|].
    apply Forall_app. split; [|done]. apply Forall_forall. intros c Hc.
    pose proof (escape_printable b) as Hb. rewrite forallb_forall in Hb.
    by apply Hb, list_elem_of_In.
  - induction 1 as [|b name Hb _ IH]; cbn; [done|]. unfold escape_byte. rewrite Hb. cbn. by f_equal.
Qed.
