(* ===== verification/IblPath.v ===== *)
(** * Where IBL images are looked up and downloaded to

    [V3dModelManager::resolveIBLPath], [getIBLBase], [scheduleIBLPrompt] and
    the list of downloads of [performIBLDownload]
    ([v3d-Common/V3dModelManager.cpp]).

    The file system is the predicate [readable] (an [ifstream] on the path is
    good), the environment is the value of [OKULAR_V3D_IMAGE_DIR] and the
    directory that [QStandardPaths] returns. *)

From S2P Require Import Prelude IblName.

Record Env := mkEnv {
  OKULAR_V3D_IMAGE_DIR : option string;     (* getenv *)
  GenericDataLocation : string              (* QStandardPaths::writableLocation *)
}.

Definition getIBLBase (env : Env) : string :=
  match OKULAR_V3D_IMAGE_DIR env with
  | Some (b :: d) => b :: d
  | _ => GenericDataLocation env ++ bytes_of "/okular/ibl"
  end.

(** [std::to_string(i)] for the layers, 0 to 10. *)
Definition layers : list string :=
  bytes_of <$> ["0"; "1"; "2"; "3"; "4"; "5"; "6"; "7"; "8"; "9"; "10"]%string.

Definition diffuse_exr : string := bytes_of "diffuse.exr".
Definition refl_exr : string := bytes_of "refl.exr".
Definition layer_exr (i : string) : string := bytes_of "refl" ++ i ++ bytes_of ".exr".

Definition ends_with_slash (s : string) : bool :=
  match last s with Some b => is_slash b | None => false end.

Section Resolve.
Context (readable : string -> bool) (env : Env).

Definition tryPath (path : string) : string := if readable path then path else [].

Definition is_empty (s : string) : bool := bool_decide (s = []).

Definition tryIBLDir (dir : string) : string :=
  if negb (is_empty dir) && ends_with_slash dir then dir
  else
    let d := dir ++ [slash] in
    if is_empty (tryPath (d ++ diffuse_exr)) then []
    else if existsb (fun i => is_empty (tryPath (d ++ layer_exr i))) layers then []
    else
      let parent := substr d 0 (Some (length d - 1)%nat) in
      match find_last is_slash parent with
      | None => []
      | Some slash_pos =>
          let parentDir := substr parent 0 (Some (slash_pos + 1)%nat) in
          if is_empty (tryPath (parentDir ++ refl_exr)) then []
          else substr d 0 (Some (length d - 1)%nat)
      end.

Definition resolveIBLPath (imageName : string) : string :=
  if is_empty imageName then []
  else
    let name := normalizeIBLName imageName in
    if is_empty name then []
    else if negb (iblNameOK name) then []
    else tryIBLDir (getIBLBase env ++ [slash] ++ name).
End Resolve.

(** ** The download of [performIBLDownload] *)

Record DownloadTask := mkTask { remoteFile : string; localPath : string }.
#[export] Instance DownloadTask_eq_dec : EqDecision DownloadTask.
Proof. solve_decision. Defined.

(** [qIblBase] *)
Definition download_base (env : Env) (iblBase : string) : string :=
  if is_empty iblBase then GenericDataLocation env ++ bytes_of "/okular/ibl" else iblBase.

Definition download_tasks (base name : string) : list DownloadTask :=
  let envDir := base ++ [slash] ++ name in
  mkTask refl_exr (base ++ [slash] ++ refl_exr) ::
  mkTask (name ++ [slash] ++ diffuse_exr) (envDir ++ [slash] ++ diffuse_exr) ::
  ((fun i => mkTask (name ++ [slash] ++ layer_exr i) (envDir ++ [slash] ++ layer_exr i)) <$> layers).

(** ** [scheduleIBLPrompt]

    [pendingPrompts] is the function's static set.  The result is the set and
    the posted event, the arguments of [performIBLDownload]. *)
Definition scheduleIBLPrompt (pendingPrompts : list string) (imageName iblBase : string)
    : list string * option (string * string) :=
  if negb (iblNameOK (normalizeIBLName imageName)) then (pendingPrompts, None)
  else if bool_decide (imageName ∈ pendingPrompts) then (pendingPrompts, None)
  else (imageName :: pendingPrompts, Some (imageName, iblBase)).

(** ** Lemmas *)

Lemma is_empty_spec s : is_empty s = true <-> s = [].
Proof. unfold is_empty. by rewrite bool_decide_eq_true. Qed.

Lemma tryPath_empty readable p : p <> [] -> is_empty (tryPath readable p) = negb (readable p).
Proof.
  intros Hp. unfold tryPath. destruct (readable p); cbn; [|done].
  unfold is_empty. by apply bool_decide_false.
Qed.

Lemma find_first_app_slash p s : Forall (fun b => is_slash b = false) p ->
  find_first is_slash (p ++ slash :: s) = Some (length p).
Proof. induction 1 as [|b p Hb _ IH]; cbn; [done|]. by rewrite Hb, IH. Qed.

Lemma find_last_slash pre leaf :
  Forall (fun b => is_slash b = false) leaf ->
  find_last is_slash (pre ++ slash :: leaf) = Some (length pre).
Proof.
  intros Hl. unfold find_last. rewrite rev_app_distr. cbn [rev]. rewrite <- app_assoc. cbn [app].
  rewrite find_first_app_slash by by apply Forall_rev.
  cbn [fmap option_fmap option_map]. f_equal. rewrite length_app, length_rev. cbn. lia.
Qed.

Lemma find_last_none leaf :
  Forall (fun b => is_slash b = false) leaf -> find_last is_slash leaf = None.
Proof.
  intros Hl. unfold find_last. destruct (find_first is_slash (rev leaf)) as [n|] eqn:E; [|done].
  destruct (find_first_split _ _ _ E) as (b & Hs & Hb & _).
  apply Forall_rev in Hl. rewrite Hs in Hl. apply Forall_app in Hl as [_ Hl].
  apply Forall_cons in Hl as [Hl _]. congruence.
Qed.

Lemma app_slash_nonempty (a : string) s : a ++ slash :: s <> [].
Proof. by destruct a. Qed.

Lemma removelast_slash (dir : string) :
  substr (dir ++ [slash]) 0 (Some (length (dir ++ [slash]) - 1)%nat) = dir.
Proof.
  cbn [substr drop]. rewrite length_app. cbn [length]. rewrite Nat.add_sub. apply take_app_length.
Qed.

(** A directory that does not end in a slash, after its last one. *)
Lemma tryIBLDir_leaf readable pre leaf :
  Forall (fun b => is_slash b = false) leaf -> leaf <> [] ->
  let dir := pre ++ slash :: leaf in
  tryIBLDir readable dir =
    if readable (dir ++ slash :: diffuse_exr) &&
       forallb (fun i => readable (dir ++ slash :: layer_exr i)) layers &&
       readable (pre ++ slash :: refl_exr)
    then dir else [].
Proof.
  intros Hl Hne dir. unfold tryIBLDir.
  assert (Hend : ends_with_slash dir = false).
  { unfold ends_with_slash, dir. destruct (exists_last Hne) as (l & b & ->).
    change (pre ++ slash :: l ++ [b]) with (pre ++ (slash :: l) ++ [b]). rewrite app_assoc, last_snoc.
    apply Forall_app in Hl as [_ Hl]. exact (proj1 (Forall_singleton _ _) Hl). }
  rewrite Hend, andb_false_r. cbv zeta. rewrite removelast_slash.
  assert (Hfl : find_last is_slash dir = Some (length pre)) by by apply find_last_slash.
  rewrite Hfl.
  rewrite tryPath_empty by (rewrite <- app_assoc; apply app_slash_nonempty).
  rewrite <- !app_assoc. cbn [app].
  destruct (readable (dir ++ slash :: diffuse_exr)); cbn [negb andb]; [|done].
  assert (Hex : existsb (fun i => is_empty (tryPath readable ((dir ++ [slash]) ++ layer_exr i))) layers =
    negb (forallb (fun i => readable (dir ++ slash :: layer_exr i)) layers)).
  { generalize layers. intros ls. induction ls as [|i ls IH]; cbn [existsb forallb]; [done|].
    rewrite IH, negb_andb. f_equal. rewrite <- app_assoc. apply tryPath_empty, app_slash_nonempty. }
  rewrite Hex. destruct (forallb _ layers); cbn [negb andb]; [|done].
  assert (Hpar : substr dir 0 (Some (length pre + 1)%nat) = pre ++ [slash]).
  { unfold dir. cbn [substr drop]. change (pre ++ slash :: leaf) with (pre ++ [slash] ++ leaf).
    rewrite app_assoc. apply take_app_length'. rewrite length_app. cbn. lia. }
  rewrite Hpar, <- app_assoc. cbn [app].
  rewrite tryPath_empty by apply app_slash_nonempty.
  by destruct (readable (pre ++ slash :: refl_exr)).
Qed.

(** A name split at its last slash. *)
Lemma split_leaf name :
  (forall b s, name = s ++ [b] -> is_slash b = false) -> name <> [] ->
  Forall (fun b => is_slash b = false) name \/
  exists sub leaf, name = sub ++ slash :: leaf /\ leaf <> [] /\ Forall (fun b => is_slash b = false) leaf.
Proof.
  intros Hend Hne. destruct (find_last is_slash name) as [i|] eqn:E.
  - right. destruct (find_last_split _ _ _ E) as (b & Hs & Hb & Hl).
    assert (b = slash) as -> by (unfold is_slash in Hb; by apply bool_decide_eq_true in Hb).
    exists (take i name), (drop (Datatypes.S i) name). split_and!; [done| |done].
    intros Hnil. rewrite Hnil in Hs. apply Hend in Hs. done.
  - left. unfold find_last in E. destruct (find_first is_slash (rev name)) eqn:E2; [done|].
    apply find_first_none in E2. apply Forall_rev in E2. by rewrite rev_involutive in E2.
Qed.

(** ** Properties *)

(** All the files of an environment map are there. *)
Definition complete (readable : string -> bool) (dir parent : string) : Prop :=
  readable (dir ++ slash :: diffuse_exr) = true /\
  Forall (fun i => readable (dir ++ slash :: layer_exr i) = true) layers /\
  readable (parent ++ slash :: refl_exr) = true.

Lemma complete_spec readable dir parent :
  readable (dir ++ slash :: diffuse_exr) &&
  forallb (fun i => readable (dir ++ slash :: layer_exr i)) layers &&
  readable (parent ++ slash :: refl_exr) = true <-> complete readable dir parent.
Proof.
  unfold complete. rewrite !andb_true_iff, forallb_forall, Forall_forall.
  setoid_rewrite list_elem_of_In. tauto.
Qed.

(** The directory of a name, split at its last slash. *)
Lemma resolve_split readable env imageName :
  imageName <> [] -> normalizeIBLName imageName <> [] ->
  iblNameOK (normalizeIBLName imageName) = true ->
  exists pre leaf, getIBLBase env ++ slash :: normalizeIBLName imageName = pre ++ slash :: leaf /\
    leaf <> [] /\ Forall (fun b => is_slash b = false) leaf /\
    resolveIBLPath readable env imageName = tryIBLDir readable (pre ++ slash :: leaf).
Proof.
  intros Hi Hn Hok. unfold resolveIBLPath.
  unfold is_empty. rewrite !bool_decide_false by done. rewrite Hok. cbn [negb].
  destruct (split_leaf (normalizeIBLName imageName)) as [Hflat|(sub & leaf & E & Hne & Hl)].
  - intros b s Eb. destruct (normalize_step imageName) as (n0 & En & _).
    rewrite En in Eb. by apply pop_slashes_last in Eb.
  - done.
  - by exists (getIBLBase env), (normalizeIBLName imageName).
  - exists (getIBLBase env ++ slash :: sub), leaf. rewrite E. split_and!; [|done..|].
    + by rewrite <- app_assoc.
    + by rewrite <- app_assoc.
Qed.

(** C27: A resolved IBL path is safe and complete: it is the library directory
    followed by an accepted name, and the directory holds [diffuse.exr] and all
    eleven reflection layers, with [refl.exr] in the directory that contains it
    (the path up to its last slash).  In particular the branch of [tryIBLDir]
    that accepts a directory without looking at it is never taken. *)
Theorem resolveIBLPath_sound readable env imageName :
  resolveIBLPath readable env imageName <> [] ->
  let name := normalizeIBLName imageName in
  resolveIBLPath readable env imageName = getIBLBase env ++ slash :: name /\
  iblNameOK name = true /\ name <> [] /\
  exists parent leaf, getIBLBase env ++ slash :: name = parent ++ slash :: leaf /\
    leaf <> [] /\ Forall (fun b => is_slash b = false) leaf /\
    complete readable (getIBLBase env ++ slash :: name) parent.
Proof.
  intros Hres name.
  assert (Hi : imageName <> []) by (intros ->; done).
  assert (Hn : name <> []).
  { intros Hn. apply Hres. unfold resolveIBLPath. fold name. rewrite Hn.
    unfold is_empty at 1. by rewrite bool_decide_false. }
  assert (Hok : iblNameOK name = true).
  { destruct (iblNameOK name) eqn:E; [done|]. exfalso. apply Hres. unfold resolveIBLPath.
    fold name. rewrite E. unfold is_empty. by rewrite !bool_decide_false. }
  destruct (resolve_split readable env imageName Hi Hn Hok) as (pre & leaf & E & Hne & Hl & Er).
  rewrite Er in *. rewrite (tryIBLDir_leaf readable pre leaf Hl Hne) in *. fold name in E.
  rewrite E. destruct (_ && _ && _) eqn:Hc; [|done].
  apply complete_spec in Hc. split_and!; [done..|]. by exists pre, leaf.
Qed.

(** The paths that the download of [name] writes. *)
Definition downloaded (base name : string) : list string := localPath <$> download_tasks base name.

Definition readable_of (files : list string) (p : string) : bool := bool_decide (p ∈ files).

Lemma downloaded_refl base name : base ++ slash :: refl_exr ∈ downloaded base name.
Proof. unfold downloaded, download_tasks. cbn [fmap list_fmap localPath app]. left. Qed.
Lemma downloaded_diffuse base name :
  (base ++ slash :: name) ++ slash :: diffuse_exr ∈ downloaded base name.
Proof. unfold downloaded, download_tasks. cbn [fmap list_fmap localPath app]. right. left. Qed.
Lemma downloaded_layer base name i :
  i ∈ layers -> (base ++ slash :: name) ++ slash :: layer_exr i ∈ downloaded base name.
Proof.
  intros Hi. unfold downloaded, download_tasks. cbv zeta. rewrite !fmap_cons, <- list_fmap_compose.
  do 2 right. apply list_elem_of_fmap. exists i. by split.
Qed.

(** A completed download of a plain name is found: when all the files of the
    tasks of [performIBLDownload] exist (others may), [resolveIBLPath] returns
    the directory they were written to. *)
Theorem download_then_resolve readable env imageName :
  let name := normalizeIBLName imageName in
  name <> [] -> iblNameOK name = true -> Forall (fun b => is_slash b = false) name ->
  (forall p, p ∈ downloaded (getIBLBase env) name -> readable p = true) ->
  resolveIBLPath readable env imageName = getIBLBase env ++ slash :: name.
Proof.
  intros name Hn Hok Hflat Hfiles.
  assert (Hi : imageName <> []) by (intros ->; apply Hn; reflexivity).
  unfold resolveIBLPath. fold name. unfold is_empty. rewrite !bool_decide_false by done.
  rewrite Hok. cbn [negb app].
  rewrite (tryIBLDir_leaf readable (getIBLBase env) name Hflat Hn).
  rewrite (proj2 (complete_spec readable _ _)); [done|].
  split_and!.
  - apply Hfiles, downloaded_diffuse.
  - apply Forall_forall. intros i Hi'. by apply Hfiles, downloaded_layer.
  - apply Hfiles, downloaded_refl.
Qed.

Definition sample_env : Env := mkEnv (Some (bytes_of "/home/u/ibl")) (bytes_of "/home/u/.local/share").

Lemma download_then_resolve_witness :
  resolveIBLPath (readable_of (downloaded (getIBLBase sample_env) (bytes_of "snowyField")))
    sample_env (bytes_of "snowyField") = bytes_of "/home/u/ibl/snowyField".
Proof.
  apply (download_then_resolve (readable_of (downloaded (getIBLBase sample_env) (bytes_of "snowyField")))
    sample_env (bytes_of "snowyField")); [discriminate | reflexivity | | ].
  - repeat (apply Forall_cons; split); [reflexivity..|exact (proj2 (Forall_nil _) I)].
  - intros p Hp. unfold readable_of. by apply bool_decide_true.
Defined.

Lemma resolveIBLPath_sound_witness :
  let readable := readable_of (downloaded (getIBLBase sample_env) (bytes_of "snowyField")) in
  resolveIBLPath readable sample_env (bytes_of "/tmp/snowyField") <> [] /\
  iblNameOK (normalizeIBLName (bytes_of "/tmp/snowyField")) = true.
Proof.
  intros readable.
  assert (resolveIBLPath readable sample_env (bytes_of "/tmp/snowyField") <> []) as Hr
    by (vm_compute; discriminate).
  exact (conj Hr (proj1 (proj2 (resolveIBLPath_sound readable sample_env _ Hr)))).
Defined.

Lemma no_slash_refl : Forall (fun b => is_slash b = false) refl_exr.
Proof. repeat (apply Forall_cons; split); [reflexivity..|exact (proj2 (Forall_nil _) I)]. Qed.

(** The file in the parent directory of a nested name is not downloaded. *)
Lemma nested_refl_missing base sub leaf :
  sub <> [] ->
  (base ++ slash :: sub) ++ slash :: refl_exr ∉ downloaded base (sub ++ slash :: leaf).
Proof.
  intros Hsub Hin. unfold downloaded, download_tasks in Hin. cbv zeta in Hin.
  rewrite !fmap_cons, <- list_fmap_compose in Hin. cbn [localPath] in Hin.
  assert (Hdir : forall x, (base ++ slash :: sub) ++ slash :: refl_exr <>
    (base ++ [slash] ++ sub ++ slash :: leaf) ++ [slash] ++ x).
  { intros x E. rewrite <- !app_assoc in E. cbn [app] in E. apply app_inv_head in E.
    injection E as E. apply app_inv_head in E.
    injection E as E. pose proof no_slash_refl as Hn. rewrite E in Hn.
    apply Forall_app in Hn as [_ Hn]. by apply Forall_cons in Hn as [? _]. }
  rewrite !elem_of_cons in Hin. destruct Hin as [E|[E|Hin]].
  - apply (f_equal length) in E. rewrite !length_app in E. cbn [length] in E.
    destruct sub; [done|]. cbn [length] in E. lia.
  - by apply Hdir in E.
  - apply list_elem_of_fmap in Hin as (i & E & _). by apply Hdir in E.
Qed.

Lemma last_slash_unique pre leaf pre' leaf' :
  Forall (fun b => is_slash b = false) leaf -> Forall (fun b => is_slash b = false) leaf' ->
  pre ++ slash :: leaf = pre' ++ slash :: leaf' -> pre = pre' /\ leaf = leaf'.
Proof.
  intros Hl Hl' E. pose proof (find_last_slash pre leaf Hl) as F. rewrite E in F.
  rewrite find_last_slash in F by done. injection F as F.
  by apply app_inj_1 in E as [-> [= ->]].
Qed.

(** A completed download of a nested name (say [snowyField/refl0]) is not
    found: [refl.exr] is written to the library directory but looked for in
    the parent of the image's own directory, so that with exactly the
    downloaded files the image stays unresolved. *)
Theorem nested_download_unresolved env imageName sub leaf :
  normalizeIBLName imageName = sub ++ slash :: leaf -> sub <> [] ->
  Forall (fun b => is_slash b = false) leaf -> iblNameOK (sub ++ slash :: leaf) = true ->
  resolveIBLPath
    (readable_of (downloaded (getIBLBase env) (sub ++ slash :: leaf))) env imageName = [].
Proof.
  intros E Hsub Hl Hok. set (readable := readable_of _).
  assert (Hi : imageName <> []) by (intros ->; destruct sub; discriminate).
  assert (Hn : normalizeIBLName imageName <> []) by (rewrite E; by destruct sub).
  destruct (resolve_split readable env imageName Hi Hn ltac:(by rewrite E))
    as (pre & leaf' & Ep & Hne & Hl' & ->).
  rewrite (tryIBLDir_leaf readable pre leaf' Hl' Hne).
  rewrite E in Ep. change (getIBLBase env ++ slash :: sub ++ slash :: leaf)
    with (getIBLBase env ++ (slash :: sub) ++ slash :: leaf) in Ep. rewrite app_assoc in Ep.
  apply last_slash_unique in Ep as [<- <-]; [|done..].
  assert (Hm : readable ((getIBLBase env ++ slash :: sub) ++ slash :: refl_exr) = false)
    by (apply bool_decide_false; by apply nested_refl_missing).
  by rewrite Hm, andb_false_r.
Qed.

Lemma nested_download_unresolved_witness :
  iblNameOK (bytes_of "studio/small") = true /\
  resolveIBLPath
    (readable_of (downloaded (getIBLBase sample_env) (bytes_of "studio/small"))) sample_env
    (bytes_of "studio/small") = [].
Proof.
  assert (iblNameOK (bytes_of "studio/small") = true) as Hok by reflexivity.
  refine (conj Hok (nested_download_unresolved sample_env (bytes_of "studio/small")
    (bytes_of "studio") (bytes_of "small") eq_refl ltac:(discriminate) _ Hok)).
  repeat (apply Forall_cons; split); [reflexivity..|exact (proj2 (Forall_nil _) I)].
Defined.

(** Prompts: [scheduleIBLPrompt] posts an event only for a name that is safe
    and for which it has not posted one before; it then remembers the name, so
    that a second call with the same name posts nothing. *)
Theorem scheduleIBLPrompt_spec pending imageName iblBase :
  let '(pending', event) := scheduleIBLPrompt pending imageName iblBase in
  (event = Some (imageName, iblBase) <->
     iblNameOK (normalizeIBLName imageName) = true /\ imageName ∉ pending) /\
  (event = None -> pending' = pending) /\
  (forall base, scheduleIBLPrompt pending' imageName base = (pending', None)) /\
  (forall n, n ∈ pending -> n ∈ pending').
Proof.
  unfold scheduleIBLPrompt. destruct (iblNameOK _) eqn:Hok; cbn [negb].
  - case_bool_decide as Hin.
    + rewrite bool_decide_true by done. naive_solver.
    + rewrite bool_decide_true by by left. split_and!; [tauto|done|done|]. by right.
  - naive_solver.
Qed.
