(* ===== verification/V3dData.v ===== *)
(** * The data of a v3d file

    [v3d-Common/V3dFile/V3dTypes.h], [V3dHeaderInfo.h], [V3dObjects.h] and
    [V3dObject.h].

    A C++ object whose value may be indeterminate (an uninitialised variable
    that a failed read left alone) is an [option]: [None] is the indeterminate
    value.  Copying it propagates [None]; a test on it is undefined behaviour
    (see [Xstream.need]).  Members with an initialiser that no read can leave
    indeterminate have a plain type. *)

From S2P Require Import Prelude Ieee Bound.

(** ** [V3dTypes.h] *)

Definition REAL : Type := option float64.
Definition FLOAT : Type := option float32.
Definition UINT : Type := option Z.

Definition TRIPLE : Type := REAL * REAL * REAL.
Definition PAIR : Type := REAL * REAL.

Record RGB := mkRGB { c3r : FLOAT; c3g : FLOAT; c3b : FLOAT }.
Record RGBA := mkRGBA { c4r : FLOAT; c4g : FLOAT; c4b : FLOAT; c4a : FLOAT }.

Definition triple_of (x y z : float64) : TRIPLE := (Some x, Some y, Some z).
Definition rgba_of (r g b a : float32) : RGBA := mkRGBA (Some r) (Some g) (Some b) (Some a).

Inductive DrawMode := DRAWMODE_NORMAL | DRAWMODE_OUTLINE | DRAWMODE_WIREFRAME.
#[export] Instance DrawMode_eq_dec : EqDecision DrawMode.
Proof. solve_decision. Defined.

(** A [TRIPLE] whose coordinates are all determinate, as a point. *)
Definition determinate (t : TRIPLE) : option triple :=
  match t with
  | (Some x, Some y, Some z) => Some (mkTriple x y z)
  | _ => None
  end.

(** ** [V3dHeaderInfo.h] *)

Module HeaderTypes.
Definition CANVAS_WIDTH : Z := 1.
Definition CANVAS_HEIGHT : Z := 2.
Definition V3D_ABSOLUTE : Z := 3.
Definition MIN_BOUND : Z := 4.
Definition MAX_BOUND : Z := 5.
Definition ORTHOGRAPHIC : Z := 6.
Definition ANGLE_OF_VIEW : Z := 7.
Definition INITIAL_ZOOM : Z := 8.
Definition VIEWPORT_SHIFT : Z := 9.
Definition VIEWPORT_MARGIN : Z := 10.
Definition LIGHT : Z := 11.
Definition BACKGROUND : Z := 12.
Definition ZOOM_FACTOR : Z := 13.
Definition ZOOM_PINCH_FACTOR : Z := 14.
Definition ZOOM_PINCH_CAP : Z := 15.
Definition ZOOM_STEP : Z := 16.
Definition SHIFT_HOLD_DISTANCE : Z := 17.
Definition SHIFT_WAIT_TIME : Z := 18.
Definition VIBRATE_TIME : Z := 19.
Definition IMAGE : Z := 20.
End HeaderTypes.

Record Light := mkLight { direction : TRIPLE; color : RGB }.

Record V3dHeaderInfo := mkHeader {
  canvasWidth : Z;
  canvasHeight : Z;
  absolute : Z;
  minBound : TRIPLE;
  maxBound : TRIPLE;
  orthographic : Z;
  angleOfView : REAL;
  initialZoom : REAL;
  viewportShift : PAIR;
  viewportMargin : PAIR;
  lights : list Light;
  background : RGBA;
  zoomFactor : REAL;
  zoomPinchFactor : REAL;
  zoomPinchCap : REAL;
  zoomStep : REAL;
  shiftHoldDistance : REAL;
  shiftWaitTime : REAL;
  vibrateTime : REAL;
  imageName : list Byte.byte
}.

(** The initialisers of the members; [glm::radians(45.0)] is 45 * (pi/180). *)
Definition f1 : float32 := f32_of_bits 0x3F800000.
Definition d100 : float64 := double_of_Z 100.
Definition radians45 : float64 :=
  dmul (double_of_Z 45) (f64_of_bits 0x3F91DF46A2529D39).

Definition defaultHeader : V3dHeaderInfo := mkHeader
  500 500 0 (triple_of d0 d0 d0) (triple_of d100 d100 d100) 0 (Some radians45) (Some d1) (Some d0, Some d0) (Some d0, Some d0) [] (rgba_of f1 f1 f1 f1) (Some d1) (Some d1) (Some d1) (Some d1) (Some d1) (Some d1) (Some d1) [].

(** Assignment to one member of [headerInfo]. *)
Definition set_canvasWidth (v : Z) (h : V3dHeaderInfo) : V3dHeaderInfo :=
  mkHeader v (canvasHeight h) (absolute h) (minBound h) (maxBound h) (orthographic h) (angleOfView h) (initialZoom h) (viewportShift h) (viewportMargin h) (lights h) (background h) (zoomFactor h) (zoomPinchFactor h) (zoomPinchCap h) (zoomStep h) (shiftHoldDistance h) (shiftWaitTime h) (vibrateTime h) (imageName h).
Definition set_canvasHeight (v : Z) (h : V3dHeaderInfo) : V3dHeaderInfo :=
  mkHeader (canvasWidth h) v (absolute h) (minBound h) (maxBound h) (orthographic h) (angleOfView h) (initialZoom h) (viewportShift h) (viewportMargin h) (lights h) (background h) (zoomFactor h) (zoomPinchFactor h) (zoomPinchCap h) (zoomStep h) (shiftHoldDistance h) (shiftWaitTime h) (vibrateTime h) (imageName h).
Definition set_absolute (v : Z) (h : V3dHeaderInfo) : V3dHeaderInfo :=
  mkHeader (canvasWidth h) (canvasHeight h) v (minBound h) (maxBound h) (orthographic h) (angleOfView h) (initialZoom h) (viewportShift h) (viewportMargin h) (lights h) (background h) (zoomFactor h) (zoomPinchFactor h) (zoomPinchCap h) (zoomStep h) (shiftHoldDistance h) (shiftWaitTime h) (vibrateTime h) (imageName h).
Definition set_minBound (v : TRIPLE) (h : V3dHeaderInfo) : V3dHeaderInfo :=
  mkHeader (canvasWidth h) (canvasHeight h) (absolute h) v (maxBound h) (orthographic h) (angleOfView h) (initialZoom h) (viewportShift h) (viewportMargin h) (lights h) (background h) (zoomFactor h) (zoomPinchFactor h) (zoomPinchCap h) (zoomStep h) (shiftHoldDistance h) (shiftWaitTime h) (vibrateTime h) (imageName h).
Definition set_maxBound (v : TRIPLE) (h : V3dHeaderInfo) : V3dHeaderInfo :=
  mkHeader (canvasWidth h) (canvasHeight h) (absolute h) (minBound h) v (orthographic h) (angleOfView h) (initialZoom h) (viewportShift h) (viewportMargin h) (lights h) (background h) (zoomFactor h) (zoomPinchFactor h) (zoomPinchCap h) (zoomStep h) (shiftHoldDistance h) (shiftWaitTime h) (vibrateTime h) (imageName h).
Definition set_orthographic (v : Z) (h : V3dHeaderInfo) : V3dHeaderInfo :=
  mkHeader (canvasWidth h) (canvasHeight h) (absolute h) (minBound h) (maxBound h) v (angleOfView h) (initialZoom h) (viewportShift h) (viewportMargin h) (lights h) (background h) (zoomFactor h) (zoomPinchFactor h) (zoomPinchCap h) (zoomStep h) (shiftHoldDistance h) (shiftWaitTime h) (vibrateTime h) (imageName h).
Definition set_angleOfView (v : REAL) (h : V3dHeaderInfo) : V3dHeaderInfo :=
  mkHeader (canvasWidth h) (canvasHeight h) (absolute h) (minBound h) (maxBound h) (orthographic h) v (initialZoom h) (viewportShift h) (viewportMargin h) (lights h) (background h) (zoomFactor h) (zoomPinchFactor h) (zoomPinchCap h) (zoomStep h) (shiftHoldDistance h) (shiftWaitTime h) (vibrateTime h) (imageName h).
Definition set_initialZoom (v : REAL) (h : V3dHeaderInfo) : V3dHeaderInfo :=
  mkHeader (canvasWidth h) (canvasHeight h) (absolute h) (minBound h) (maxBound h) (orthographic h) (angleOfView h) v (viewportShift h) (viewportMargin h) (lights h) (background h) (zoomFactor h) (zoomPinchFactor h) (zoomPinchCap h) (zoomStep h) (shiftHoldDistance h) (shiftWaitTime h) (vibrateTime h) (imageName h).
Definition set_viewportShift (v : PAIR) (h : V3dHeaderInfo) : V3dHeaderInfo :=
  mkHeader (canvasWidth h) (canvasHeight h) (absolute h) (minBound h) (maxBound h) (orthographic h) (angleOfView h) (initialZoom h) v (viewportMargin h) (lights h) (background h) (zoomFactor h) (zoomPinchFactor h) (zoomPinchCap h) (zoomStep h) (shiftHoldDistance h) (shiftWaitTime h) (vibrateTime h) (imageName h).
Definition set_viewportMargin (v : PAIR) (h : V3dHeaderInfo) : V3dHeaderInfo :=
  mkHeader (canvasWidth h) (canvasHeight h) (absolute h) (minBound h) (maxBound h) (orthographic h) (angleOfView h) (initialZoom h) (viewportShift h) v (lights h) (background h) (zoomFactor h) (zoomPinchFactor h) (zoomPinchCap h) (zoomStep h) (shiftHoldDistance h) (shiftWaitTime h) (vibrateTime h) (imageName h).
Definition set_lights (v : list Light) (h : V3dHeaderInfo) : V3dHeaderInfo :=
  mkHeader (canvasWidth h) (canvasHeight h) (absolute h) (minBound h) (maxBound h) (orthographic h) (angleOfView h) (initialZoom h) (viewportShift h) (viewportMargin h) v (background h) (zoomFactor h) (zoomPinchFactor h) (zoomPinchCap h) (zoomStep h) (shiftHoldDistance h) (shiftWaitTime h) (vibrateTime h) (imageName h).
Definition set_background (v : RGBA) (h : V3dHeaderInfo) : V3dHeaderInfo :=
  mkHeader (canvasWidth h) (canvasHeight h) (absolute h) (minBound h) (maxBound h) (orthographic h) (angleOfView h) (initialZoom h) (viewportShift h) (viewportMargin h) (lights h) v (zoomFactor h) (zoomPinchFactor h) (zoomPinchCap h) (zoomStep h) (shiftHoldDistance h) (shiftWaitTime h) (vibrateTime h) (imageName h).
Definition set_zoomFactor (v : REAL) (h : V3dHeaderInfo) : V3dHeaderInfo :=
  mkHeader (canvasWidth h) (canvasHeight h) (absolute h) (minBound h) (maxBound h) (orthographic h) (angleOfView h) (initialZoom h) (viewportShift h) (viewportMargin h) (lights h) (background h) v (zoomPinchFactor h) (zoomPinchCap h) (zoomStep h) (shiftHoldDistance h) (shiftWaitTime h) (vibrateTime h) (imageName h).
Definition set_zoomPinchFactor (v : REAL) (h : V3dHeaderInfo) : V3dHeaderInfo :=
  mkHeader (canvasWidth h) (canvasHeight h) (absolute h) (minBound h) (maxBound h) (orthographic h) (angleOfView h) (initialZoom h) (viewportShift h) (viewportMargin h) (lights h) (background h) (zoomFactor h) v (zoomPinchCap h) (zoomStep h) (shiftHoldDistance h) (shiftWaitTime h) (vibrateTime h) (imageName h).
Definition set_zoomPinchCap (v : REAL) (h : V3dHeaderInfo) : V3dHeaderInfo :=
  mkHeader (canvasWidth h) (canvasHeight h) (absolute h) (minBound h) (maxBound h) (orthographic h) (angleOfView h) (initialZoom h) (viewportShift h) (viewportMargin h) (lights h) (background h) (zoomFactor h) (zoomPinchFactor h) v (zoomStep h) (shiftHoldDistance h) (shiftWaitTime h) (vibrateTime h) (imageName h).
Definition set_zoomStep (v : REAL) (h : V3dHeaderInfo) : V3dHeaderInfo :=
  mkHeader (canvasWidth h) (canvasHeight h) (absolute h) (minBound h) (maxBound h) (orthographic h) (angleOfView h) (initialZoom h) (viewportShift h) (viewportMargin h) (lights h) (background h) (zoomFactor h) (zoomPinchFactor h) (zoomPinchCap h) v (shiftHoldDistance h) (shiftWaitTime h) (vibrateTime h) (imageName h).
Definition set_shiftHoldDistance (v : REAL) (h : V3dHeaderInfo) : V3dHeaderInfo :=
  mkHeader (canvasWidth h) (canvasHeight h) (absolute h) (minBound h) (maxBound h) (orthographic h) (angleOfView h) (initialZoom h) (viewportShift h) (viewportMargin h) (lights h) (background h) (zoomFactor h) (zoomPinchFactor h) (zoomPinchCap h) (zoomStep h) v (shiftWaitTime h) (vibrateTime h) (imageName h).
Definition set_shiftWaitTime (v : REAL) (h : V3dHeaderInfo) : V3dHeaderInfo :=
  mkHeader (canvasWidth h) (canvasHeight h) (absolute h) (minBound h) (maxBound h) (orthographic h) (angleOfView h) (initialZoom h) (viewportShift h) (viewportMargin h) (lights h) (background h) (zoomFactor h) (zoomPinchFactor h) (zoomPinchCap h) (zoomStep h) (shiftHoldDistance h) v (vibrateTime h) (imageName h).
Definition set_vibrateTime (v : REAL) (h : V3dHeaderInfo) : V3dHeaderInfo :=
  mkHeader (canvasWidth h) (canvasHeight h) (absolute h) (minBound h) (maxBound h) (orthographic h) (angleOfView h) (initialZoom h) (viewportShift h) (viewportMargin h) (lights h) (background h) (zoomFactor h) (zoomPinchFactor h) (zoomPinchCap h) (zoomStep h) (shiftHoldDistance h) (shiftWaitTime h) v (imageName h).
Definition set_imageName (v : list Byte.byte) (h : V3dHeaderInfo) : V3dHeaderInfo :=
  mkHeader (canvasWidth h) (canvasHeight h) (absolute h) (minBound h) (maxBound h) (orthographic h) (angleOfView h) (initialZoom h) (viewportShift h) (viewportMargin h) (lights h) (background h) (zoomFactor h) (zoomPinchFactor h) (zoomPinchCap h) (zoomStep h) (shiftHoldDistance h) (shiftWaitTime h) (vibrateTime h) v.

(** ** [V3dObjects.h] *)

Module ObjectTypes.
Definition MATERIAL : Z := 1.
Definition TRANSFORM : Z := 2.
Definition ELEMENT : Z := 3.
Definition CENTERS : Z := 4.
Definition HEADER : Z := 5.
Definition LINE : Z := 64.
Definition TRIANGLE : Z := 65.
Definition QUAD : Z := 66.
Definition CURVE : Z := 128.
Definition BEZIER_TRIANGLE : Z := 129.
Definition BEZIER_PATCH : Z := 130.
Definition LINE_COLOR : Z := 192.
Definition TRIANGLE_COLOR : Z := 193.
Definition QUAD_COLOR : Z := 194.
Definition CURVE_COLOR : Z := 256.
Definition BEZIER_TRIANGLE_COLOR : Z := 257.
Definition BEZIER_PATCH_COLOR : Z := 258.
Definition TRIANGLES : Z := 512.
Definition DISK : Z := 1024.
Definition CYLINDER : Z := 1025.
Definition TUBE : Z := 1026.
Definition SPHERE : Z := 1027.
Definition HALF_SPHERE : Z := 1028.
Definition ANIMATION : Z := 2048.
Definition PIXEL : Z := 4096.
End ObjectTypes.

Record V3dMaterial := mkMaterial {
  diffuse : RGBA; emissive : RGBA; specular : RGBA;
  shininess : FLOAT; metallic : FLOAT; fresnel0 : FLOAT; lightOn : FLOAT
}.

(** The members of [V3dTriangleGroup]; [nI], [nP] and [nN] are initialised to
    0 by the constructor before they are read, [explicitNI], [nC] and
    [explicitCI] are not. *)
Record TriangleGroup := mkTriangleGroup {
  nI : Z; nP : Z;
  vertexPositions : list TRIPLE;
  nN : UINT;
  vertexNormalArray : list TRIPLE;
  explicitNI : UINT;
  nC : UINT;
  vertexColorArray : list RGBA;
  explicitCI : UINT;
  positionIndices : list (UINT * UINT * UINT);
  normalIndices : list (UINT * UINT * UINT);
  colorIndices : list (UINT * UINT * UINT)
}.

(** The members the derived classes add to [V3dObject] (the center and
    material indices apart). *)
Inductive shape :=
  | BezierPatch (controlPoints : list TRIPLE)
  | BezierTriangle (controlPoints : list TRIPLE)
  | BezierPatchWithCornerColors (controlPoints : list TRIPLE) (cornerColors : list RGBA)
  | BezierTriangleWithCornerColors (controlPoints : list TRIPLE) (cornerColors : list RGBA)
  | StraightPlanarQuad (vertices : list TRIPLE)
  | StraightTriangle (vertices : list TRIPLE)
  | StraightPlanarQuadWithCornerColors (vertices : list TRIPLE) (cornerColors : list RGBA)
  | StraightTriangleWithCornerColors (vertices : list TRIPLE) (cornerColors : list RGBA)
  | Triangles (group : TriangleGroup)
  | Sphere (center : TRIPLE) (radius : REAL)
  | HemiSphere (center : TRIPLE) (radius polarAngle azimuthalAngle : REAL)
  | Disk (center : TRIPLE) (radius polarAngle azimuthalAngle : REAL)
  | Cylinder (center : TRIPLE) (radius height polarAngle azimuthalAngle : REAL) (core : UINT)
  | Tube (controlPoints : list TRIPLE) (width : REAL) (core : UINT)
  | BezierCurve (controlPoints : list TRIPLE)
  | LineSegment (endpoints : list TRIPLE)
  | Pixel (position : TRIPLE) (width : REAL).

(** [class V3dObject] with the members of the derived class.  [Min] and [Max]
    are determinate whenever the constructor returns: computing them from a
    point that was not read is undefined. *)
Record V3dObject := mkObject {
  objectType : Z;
  centerIndex : UINT;
  materialIndex : UINT;
  Min : option triple;
  Max : option triple;
  members : shape
}.

Definition origin : triple := mkTriple d0 d0 d0.

(** ** [V3dFile.h] *)

Record V3dFile := mkFile {
  versionNumber : UINT;
  doublePrecisionFlag : UINT;
  centers : list TRIPLE;
  materials : list V3dMaterial;
  objects : list V3dObject;
  headerInfo : V3dHeaderInfo
}.

Definition emptyFile : V3dFile := mkFile None None [] [] [] defaultHeader.

Definition set_centers (c : list TRIPLE) (f : V3dFile) : V3dFile :=
  mkFile (versionNumber f) (doublePrecisionFlag f) c (materials f) (objects f) (headerInfo f).
Definition push_material (m : V3dMaterial) (f : V3dFile) : V3dFile :=
  mkFile (versionNumber f) (doublePrecisionFlag f) (centers f) (materials f ++ [m])
    (objects f) (headerInfo f).
Definition push_object (o : V3dObject) (f : V3dFile) : V3dFile :=
  mkFile (versionNumber f) (doublePrecisionFlag f) (centers f) (materials f)
    (objects f ++ [o]) (headerInfo f).
Definition set_header (h : V3dHeaderInfo) (f : V3dFile) : V3dFile :=
  mkFile (versionNumber f) (doublePrecisionFlag f) (centers f) (materials f) (objects f) h.
