(* ===== verification/V3dWrite.v ===== *)
(** * Writing a v3d file

    [asymptote/v3dfile.h] and [asymptote/v3dfile.cc]: the class [v3dfile]
    through which asymptote exports a scene.  A writer is an action on an
    output stream ([Xstream.W]); the state outside the stream that the class
    reads (the renderer [gl], the settings, [drawElement::centers] and the
    indices of the current object) is passed explicitly.

    The enumerations [v3dtypes] and [v3dheadertypes] are generated from
    [v3dtypes.csv] and [v3dheadertypes.csv], whose numbers are those of
    [V3dObjects.h] and [V3dHeaderInfo.h]; the constants of [V3dData] are used
    for both. *)

From Stdlib Require Import Floats.SpecFloat.
From S2P Require Import Prelude Ieee Xstream Bound IblName V3dData.

Definition v3dVersion : Z := 2.

(** [prc::RGBAColour] *)
Record RGBAColour := mkColour { colR : float64; colG : float64; colB : float64; colA : float64 }.

Record pair := mkPair { px : float64; py : float64 }.

(** [pair.h]: a [double] converts to a pair with ordinate 0, products are
    complex. *)
Definition pair_mul (z w : pair) : pair :=
  mkPair (dsub (dmul (px z) (px w)) (dmul (py z) (py w)))
         (dadd (dmul (px z) (py w)) (dmul (px w) (py z))).
Definition pair_neq (z w : pair) : bool :=
  negb (SFeqb (px z) (px w)) || negb (SFeqb (py z) (py w)).

(** What [addHeaders] reads of the renderer and of the settings. *)
Record Renderer := mkGl {
  fullWidth : Z; fullHeight : Z;
  sceneMin : triple;                 (* Xmin, Ymin, Zmin *)
  sceneMax : triple;                 (* Xmax, Ymax, Zmax *)
  gl_orthographic : bool;
  Angle : float64; Zoom0 : float64;
  Shift : pair; Margin : pair;
  Lights : list (triple * (float64 * float64 * float64));   (* Lights, LightsDiffuse *)
  Background : float32 * float32 * float32 * float32
}.

Record Settings := mkSettings {
  set_absolute_size : bool;          (* absolute *)
  set_zoomfactor : float64; set_zoompinchfactor : float64; set_zoompinchcap : float64;
  set_zoomstep : float64; set_shiftholddistance : float64; set_shiftwaittime : float64;
  set_vibratetime : float64;
  set_ibl : bool; set_image : string
}.

(** [glm::vec4] and [Material]: [parameters] are shininess, metallic, fresnel0
    and lightOn. *)
Definition vec4 : Type := float32 * float32 * float32 * float32.
Record Material := mkMat {
  mat_diffuse : vec4; mat_emissive : vec4; mat_specular : vec4; mat_parameters : vec4
}.

(** The headers that [addHeaders] creates, one constructor per class. *)
Inductive header :=
  | Uint32Header (ty v : Z)
  | TripleHeader (ty : Z) (v : triple)
  | PairHeader (ty : Z) (v : pair)
  | DoubleHeader (ty : Z) (v : float64)
  | RGBAHeader (ty : Z) (v : RGBAColour)
  | LightHeader (direction : triple) (color : RGBAColour)
  | StringHeader (ty : Z) (str : string).

Definition header_ty (h : header) : Z :=
  match h with
  | Uint32Header ty _ | TripleHeader ty _ | PairHeader ty _ | DoubleHeader ty _
  | RGBAHeader ty _ | StringHeader ty _ => ty
  | LightHeader _ _ => HeaderTypes.LIGHT
  end.

(** [getWordSize]: [realWords] and [floatWords] of the template. *)
Definition getWordSize (singleprecision : bool) (h : header) : Z :=
  let single_object realWords floatWords :=
    (if singleprecision then 1 else 2) * realWords + floatWords in
  match h with
  | Uint32Header _ _ => single_object 0 1
  | TripleHeader _ _ => single_object 3 0
  | PairHeader _ _ => single_object 2 0
  | DoubleHeader _ _ => single_object 1 0
  | RGBAHeader _ _ => single_object 0 4
  | LightHeader _ _ => (if singleprecision then 1 else 2) * 3 + 3
  | StringHeader _ str => wrapw 32 (2 + (Z.of_nat (length str) + 3) / 4)
  end.

Definition addHeaders_list (gl : Renderer) (st : Settings) : list header :=
  let b2z (b : bool) := if b then 1 else 0 in
  let bg := Background gl in
  [ Uint32Header HeaderTypes.CANVAS_WIDTH (wrapw 32 (fullWidth gl));
    Uint32Header HeaderTypes.CANVAS_HEIGHT (wrapw 32 (fullHeight gl));
    Uint32Header HeaderTypes.V3D_ABSOLUTE (b2z (set_absolute_size st));
    TripleHeader HeaderTypes.MIN_BOUND (sceneMin gl);
    TripleHeader HeaderTypes.MAX_BOUND (sceneMax gl);
    Uint32Header HeaderTypes.ORTHOGRAPHIC (b2z (gl_orthographic gl));
    DoubleHeader HeaderTypes.ANGLE_OF_VIEW (Angle gl);
    DoubleHeader HeaderTypes.INITIAL_ZOOM (Zoom0 gl) ] ++
  (if pair_neq (Shift gl) (mkPair d0 d0)
   then [PairHeader HeaderTypes.VIEWPORT_SHIFT (pair_mul (Shift gl) (mkPair (Zoom0 gl) d0))]
   else []) ++
  [ PairHeader HeaderTypes.VIEWPORT_MARGIN (Margin gl) ] ++
  ((fun l => LightHeader l.1 (mkColour l.2.1.1 l.2.1.2 l.2.2 d1)) <$> Lights gl) ++
  [ RGBAHeader HeaderTypes.BACKGROUND
      (mkColour (double_of_float bg.1.1.1) (double_of_float bg.1.1.2) (double_of_float bg.1.2)
        (double_of_float bg.2));
    DoubleHeader HeaderTypes.ZOOM_FACTOR (set_zoomfactor st);
    DoubleHeader HeaderTypes.ZOOM_PINCH_FACTOR (set_zoompinchfactor st);
    DoubleHeader HeaderTypes.ZOOM_PINCH_CAP (set_zoompinchcap st);
    DoubleHeader HeaderTypes.ZOOM_STEP (set_zoomstep st);
    DoubleHeader HeaderTypes.SHIFT_HOLD_DISTANCE (set_shiftholddistance st);
    DoubleHeader HeaderTypes.SHIFT_WAIT_TIME (set_shiftwaittime st);
    DoubleHeader HeaderTypes.VIBRATE_TIME (set_vibratetime st) ] ++
  (if set_ibl st && negb (bool_decide (set_image st = [])) && iblNameOK (set_image st)
   then [StringHeader HeaderTypes.IMAGE (set_image st)] else []).

(** The calls of the add functions of a scene: [center] and [material] are
    [drawElement::centerIndex] and [camp::materialIndex] at the call, [C] is
    null for [None]. *)
Inductive element :=
  | addMaterial (m : Material)
  | addPatch (center material : Z) (controls : list triple) (c : option (list RGBAColour))
  | addStraightPatch (center material : Z) (controls : list triple) (c : option (list RGBAColour))
  | addBezierTriangle (center material : Z) (controls : list triple) (c : option (list RGBAColour))
  | addStraightBezierTriangle (center material : Z) (controls : list triple)
      (c : option (list RGBAColour))
  | addHemisphere (center material : Z) (c : triple) (radius polar azimuth : float64)
  | addSphere (center material : Z) (c : triple) (radius : float64)
  | addCylinder (center material : Z) (c : triple) (radius height polar azimuth : float64)
      (core : bool)
  | addDisk (center material : Z) (c : triple) (radius polar azimuth : float64)
  | addTube (center material : Z) (g : list triple) (width : float64) (core : bool)
  | addTriangles (center material : Z) (P N : list triple) (C : list RGBAColour)
      (PI NI CI : list (Z * Z * Z))
  | addCurve (center material : Z) (z0 c0 c1 z1 : triple)
  | addLine (center material : Z) (z0 z1 : triple)
  | addPixel (material : Z) (z0 : triple) (width : float64).

(** [distinct] of [abs3doutfile.h]. *)
Definition distinct (i j : Z * Z * Z) : bool :=
  negb (i.1.1 =? j.1.1) || negb (i.1.2 =? j.1.2) || negb (i.2 =? j.2).

(** [a[i]] of an array of index triples. *)
Definition at_ (a : list (Z * Z * Z)) (i : nat) : Z * Z * Z := default (0, 0, 0) (a !! i).

(** The search loops of [addTriangles], up to [nI]. *)
Definition any_distinct (nI : nat) (a b : list (Z * Z * Z)) : bool :=
  existsb (fun i => distinct (at_ a i) (at_ b i)) (seq 0 nI).

Section Write.
Context {S : Type} `{XdrOut S}.

(** [operator<<] of [triple], [pair] and [RGBAColour]. *)
Definition put_triple (v : triple) : W S := put_double (tx v) <;> put_double (ty v) <;> put_double (tz v).
Definition put_pair (v : pair) : W S := put_double (px v) <;> put_double (py v).
Definition put_colour (c : RGBAColour) : W S :=
  put_float (float_of_double (colR c)) <;> put_float (float_of_double (colG c)) <;>
  put_float (float_of_double (colB c)) <;> put_float (float_of_double (colA c)).
Definition put_bool (b : bool) : W S := put_u32 (if b then 1 else 0).

(** [writeContent] *)
Definition writeContent (h : header) : W S :=
  match h with
  | Uint32Header _ v => put_u32 v
  | TripleHeader _ v => put_triple v
  | PairHeader _ v => put_pair v
  | DoubleHeader _ v => put_double v
  | RGBAHeader _ v => put_colour v
  | LightHeader dir c =>
      put_triple dir <;> put_float (float_of_double (colR c)) <;>
      put_float (float_of_double (colG c)) <;> put_float (float_of_double (colB c))
  | StringHeader _ str =>
      put_u64 (Z.of_nat (length str)) <;> wlist put_xbyte str <;>
      wlist put_xbyte (replicate ((length str + 3) / 4 * 4 - length str)%nat Byte.x00)
  end.

Definition put_header (sp : bool) (h : header) : W S :=
  put_u32 (header_ty h) <;> put_u32 (getWordSize sp h) <;> writeContent h.

Definition addHeaders (sp : bool) (gl : Renderer) (st : Settings) : W S :=
  let hs := addHeaders_list gl st in
  put_u32 ObjectTypes.HEADER <;> put_u32 (wrapw 32 (Z.of_nat (length hs))) <;>
  wlist (put_header sp) hs.

Definition writeInit (sp : bool) (gl : Renderer) (st : Settings) : W S :=
  put_u32 v3dVersion <;> put_bool (negb sp) <;> addHeaders sp gl st.

Definition addTriples (l : list triple) : W S := wlist put_triple l.
Definition addColors (l : list RGBAColour) : W S := wlist put_colour l.
Definition addCenterIndexMat (center material : Z) : W S :=
  put_u32 (wrapw 32 center) <;> put_u32 (wrapw 32 material).
Definition addIndices (v : Z * Z * Z) : W S := put_u32 v.1.1 <;> put_u32 v.1.2 <;> put_u32 v.2.
Definition addvec4 (v : vec4) : W S :=
  put_float v.1.1.1 <;> put_float v.1.1.2 <;> put_float v.1.2 <;> put_float v.2.

Definition addCenters (centers : list triple) : W S :=
  put_u32 ObjectTypes.CENTERS <;> put_u32 (wrapw 32 (Z.of_nat (length centers))) <;>
  (if bool_decide (0 < length centers)%nat then addTriples centers else wskip).

(** The common shape of the four patch functions. *)
Definition put_patch (plain colored center material : Z) (controls : list triple)
    (c : option (list RGBAColour)) : W S :=
  put_u32 (match c with Some _ => colored | None => plain end) <;>
  addTriples controls <;> addCenterIndexMat center material <;>
  match c with Some cols => addColors cols | None => wskip end.

Definition put_triangles (center material : Z) (P N : list triple) (C : list RGBAColour)
    (PI NI CI : list (Z * Z * Z)) : W S :=
  let nI := length PI in
  let nC := length C in
  let explicitNI0 := any_distinct nI NI PI in
  (* the second loop sets explicitNI; explicitCI stays false *)
  let explicitNI := explicitNI0 || (bool_decide (nC <> 0%nat) && any_distinct nI CI PI) in
  let explicitCI := false in
  put_u32 ObjectTypes.TRIANGLES <;>
  put_u32 (wrapw 32 (Z.of_nat nI)) <;>
  put_u32 (wrapw 32 (Z.of_nat (length P))) <;> addTriples P <;>
  put_u32 (wrapw 32 (Z.of_nat (length N))) <;> addTriples N <;>
  put_bool explicitNI0 <;>
  put_u32 (wrapw 32 (Z.of_nat nC)) <;>
  (if bool_decide (nC <> 0%nat) then addColors C <;> put_bool explicitCI else wskip) <;>
  wlist (fun i => addIndices (at_ PI i) <;>
                  (if explicitNI then addIndices (at_ NI i) else wskip) <;>
                  (if bool_decide (nC <> 0%nat)
                   then if explicitCI then addIndices (at_ CI i) else wskip else wskip))
    (seq 0 nI) <;>
  addCenterIndexMat center material.

Definition put_element (e : element) : W S :=
  match e with
  | addMaterial m =>
      put_u32 ObjectTypes.MATERIAL <;> addvec4 (mat_diffuse m) <;> addvec4 (mat_emissive m) <;>
      addvec4 (mat_specular m) <;> addvec4 (mat_parameters m)
  | addPatch ci mi controls c =>
      put_patch ObjectTypes.BEZIER_PATCH ObjectTypes.BEZIER_PATCH_COLOR ci mi controls c
  | addStraightPatch ci mi controls c =>
      put_patch ObjectTypes.QUAD ObjectTypes.QUAD_COLOR ci mi controls c
  | addBezierTriangle ci mi controls c =>
      put_patch ObjectTypes.BEZIER_TRIANGLE ObjectTypes.BEZIER_TRIANGLE_COLOR ci mi controls c
  | addStraightBezierTriangle ci mi controls c =>
      put_patch ObjectTypes.TRIANGLE ObjectTypes.TRIANGLE_COLOR ci mi controls c
  | addHemisphere ci mi c r polar azimuth =>
      put_u32 ObjectTypes.HALF_SPHERE <;> put_triple c <;> put_double r <;>
      addCenterIndexMat ci mi <;> put_double polar <;> put_double azimuth
  | addSphere ci mi c r =>
      put_u32 ObjectTypes.SPHERE <;> put_triple c <;> put_double r <;> addCenterIndexMat ci mi
  | addCylinder ci mi c r h polar azimuth core =>
      put_u32 ObjectTypes.CYLINDER <;> put_triple c <;> put_double r <;> put_double h <;>
      addCenterIndexMat ci mi <;> put_double polar <;> put_double azimuth <;> put_bool core
  | addDisk ci mi c r polar azimuth =>
      put_u32 ObjectTypes.DISK <;> put_triple c <;> put_double r <;>
      addCenterIndexMat ci mi <;> put_double polar <;> put_double azimuth
  | addTube ci mi g w core =>
      put_u32 ObjectTypes.TUBE <;> addTriples g <;> put_double w <;>
      addCenterIndexMat ci mi <;> put_bool core
  | addTriangles ci mi P N C PI NI CI => put_triangles ci mi P N C PI NI CI
  | addCurve ci mi z0 c0 c1 z1 =>
      put_u32 ObjectTypes.CURVE <;> put_triple z0 <;> put_triple c0 <;> put_triple c1 <;>
      put_triple z1 <;> addCenterIndexMat ci mi
  | addLine ci mi z0 z1 =>
      put_u32 ObjectTypes.LINE <;> put_triple z0 <;> put_triple z1 <;> addCenterIndexMat ci mi
  | addPixel mi z0 w =>
      put_u32 ObjectTypes.PIXEL <;> put_triple z0 <;> put_double w <;> put_u32 (wrapw 32 mi)
  end.

(** [finalize], guarded by the member [finalized], which it sets. *)
Definition finalize (finalized : bool) (centers : list triple) : W S :=
  if negb finalized then addCenters centers else wskip.

(** A whole export: the constructor ([writeInit]), the scene, and [close]
    ([finalize]). *)
Definition write_v3d (sp : bool) (gl : Renderer) (st : Settings) (scene : list element)
    (centers : list triple) : W S :=
  writeInit sp gl st <;> wlist put_element scene <;> finalize false centers.
End Write.
