(* ===== verification/V3dLoad.v ===== *)
(** * Loading a v3d file

    The constructors of the object classes of
    [v3d-Common/V3dFile/V3dObjects.cpp] and [V3dFile::load] of
    [V3dFile.cpp], in the reading monad of [Xstream].  Messages to the console
    are not modelled.

    [load] is the while loop of the source with an explicit bound on its
    iterations; [LoadSafety.load_file_fuel] shows that one iteration per remaining byte
    (plus one) is always enough. *)

From S2P Require Import Prelude Ieee Xstream Bound V3dData.
Import Stdio.

(** ** Constants of [V3dFile.cpp] *)

Definition kMaxHeaderEntries : Z := 10000.
Definition kMaxUnknownHeaderWords : Z := 1000000.
Definition kMaxCenters : Z := 1000000.
Definition kMaxImageName : Z := 4096.
(** [maxCount] of [V3dTriangleGroup]. *)
Definition maxCount : Z := 10000000.

Section Load.
Context {S : Type} `{XdrIn S}.

(** A counted loop whose body reads one element. *)
Fixpoint times {A} (n : nat) (m : M S A) : M S (list A) :=
  match n with
  | O => ret []
  | Datatypes.S n' => a <- m;; l <- times n' m;; ret (a :: l)
  end.

(** ** Object constructors *)

Section Constructors.
Context (dp : Z).   (* doublePrecision *)

Definition read_triple : M S TRIPLE :=
  x <- readReal dp;; y <- readReal dp;; z <- readReal dp;; ret (x, y, z).

Definition read_rgba : M S RGBA :=
  r <- flt;; g <- flt;; b <- flt;; a <- flt;; ret (mkRGBA r g b a).

(** An element of a vector that [resize] has set to zero. *)
Definition read_rgba0 : M S RGBA :=
  let z := get_float Some (Some (S754_zero false)) in
  r <- z;; g <- z;; b <- z;; a <- z;; ret (mkRGBA r g b a).

Definition read_indices0 : M S (UINT * UINT * UINT) :=
  let z := get_u32 Some (Some 0) in
  i <- z;; j <- z;; k <- z;; ret (i, j, k).

(** Objects whose constructor computes no bounds keep those of the base
    class. *)
Definition plain (ty : Z) (ci mi : UINT) (sh : shape) : V3dObject :=
  mkObject ty ci mi (Some origin) (Some origin) sh.

Definition with_bounds (ty : Z) (ci mi : UINT) (b : triple * triple) (sh : shape) : V3dObject :=
  mkObject ty ci mi (Some b.1) (Some b.2) sh.

(** The end of a constructor that computes the bounds of its control points:
    they are compared, which is undefined for a double that was not read. *)
Definition bounded_object (ty : Z) (ci mi : UINT) (f : list triple -> triple * triple)
    (cps : list TRIPLE) (sh : shape) : M S V3dObject :=
  ps <- need (mapM determinate cps);; ret (with_bounds ty ci mi (f ps) sh).

Definition V3dBezierPatch : M S V3dObject :=
  cps <- times 16 read_triple;; ci <- u32;; mi <- u32;;
  bounded_object ObjectTypes.BEZIER_PATCH ci mi computeBezierPatchBounds cps
          (BezierPatch cps).

Definition V3dBezierTriangle : M S V3dObject :=
  cps <- times 10 read_triple;; ci <- u32;; mi <- u32;;
  bounded_object ObjectTypes.BEZIER_TRIANGLE ci mi computeBezierTriangleBounds cps
          (BezierTriangle cps).

Definition V3dBezierPatchWithCornerColors : M S V3dObject :=
  cps <- times 16 read_triple;; ci <- u32;; mi <- u32;;
  colors <- times 4 read_rgba;;
  bounded_object ObjectTypes.BEZIER_PATCH_COLOR ci mi computeBezierPatchBounds cps
          (BezierPatchWithCornerColors cps colors).

Definition V3dBezierTriangleWithCornerColors : M S V3dObject :=
  cps <- times 10 read_triple;; ci <- u32;; mi <- u32;;
  colors <- times 3 read_rgba;;
  bounded_object ObjectTypes.BEZIER_TRIANGLE_COLOR ci mi computeBezierTriangleBounds
          cps (BezierTriangleWithCornerColors cps colors).

Definition V3dStraightPlanarQuad : M S V3dObject :=
  vs <- times 4 read_triple;; ci <- u32;; mi <- u32;;
  ret (plain ObjectTypes.QUAD ci mi (StraightPlanarQuad vs)).

Definition V3dStraightTriangle : M S V3dObject :=
  vs <- times 3 read_triple;; ci <- u32;; mi <- u32;;
  ret (plain ObjectTypes.TRIANGLE ci mi (StraightTriangle vs)).

Definition V3dStraightPlanarQuadWithCornerColors : M S V3dObject :=
  vs <- times 4 read_triple;; ci <- u32;; mi <- u32;;
  colors <- times 4 read_rgba;;
  ret (plain ObjectTypes.QUAD_COLOR ci mi (StraightPlanarQuadWithCornerColors vs colors)).

Definition V3dStraightTriangleWithCornerColors : M S V3dObject :=
  vs <- times 3 read_triple;; ci <- u32;; mi <- u32;;
  colors <- times 3 read_rgba;;
  ret (plain ObjectTypes.TRIANGLE_COLOR ci mi (StraightTriangleWithCornerColors vs colors)).

(** One iteration of the index loop of [V3dTriangleGroup]: the tests on
    [explicitNI] and [explicitCI] are the code's branches. *)
Definition read_triangle (explicitNI : UINT) (nC : Z) (explicitCI : UINT)
    : M S ((UINT * UINT * UINT) * (UINT * UINT * UINT) * (UINT * UINT * UINT)) :=
  p <- read_indices0;;
  eni <- need explicitNI;;
  n <- (if negb (eni =? 0) then read_indices0 else ret p);;
  c <- (if 0 <? nC
       then eci <- need explicitCI;;
            if negb (eci =? 0) then read_indices0 else ret p
       else ret p);;
  ret (p, n, c).

Definition V3dTriangleGroup : M S V3dObject :=
  nI <- get_u32 id 0;;
  nP <- get_u32 id 0;;
  if (maxCount <? nI) || (maxCount <? nP) then
    (* the constructor returns without reading anything else *)
    ret (plain ObjectTypes.TRIANGLES (Some 0) None
            (Triangles (mkTriangleGroup 0 0 [] None [] None None [] None [] [] [])))
  else
    ps <- times (Z.to_nat nP) read_triple;;
    nN0 <- get_u32 id 0;;
    let nN := if maxCount <? nN0 then 0 else nN0 in
    ns <- times (Z.to_nat nN) read_triple;;
    eni <- u32;;
    nCr <- u32;;
    nC0 <- need nCr;;
    let nC := if maxCount <? nC0 then 0 else nC0 in
    cols_eci <- (if 0 <? nC
                then cols <- times (Z.to_nat nC) read_rgba0;; eci <- u32;; ret (cols, eci)
                else ret ([], None));;
    let '(cols, eci) := (cols_eci : list RGBA * UINT) in
    idx <- times (Z.to_nat nI) (read_triangle eni nC eci);;
    ci <- u32;; mi <- u32;;
    ret (plain ObjectTypes.TRIANGLES ci mi
            (Triangles (mkTriangleGroup nI nP ps (Some nN) ns eni (Some nC) cols eci
               ((fun t => t.1.1) <$> idx) ((fun t => t.1.2) <$> idx)
               ((fun t => t.2) <$> idx)))).

Definition V3dSphere : M S V3dObject :=
  c <- read_triple;; r <- readReal dp;; ci <- u32;; mi <- u32;;
  ret (plain ObjectTypes.SPHERE ci mi (Sphere c r)).

Definition V3dHemiSphere : M S V3dObject :=
  c <- read_triple;; r <- readReal dp;; ci <- u32;; mi <- u32;;
  polar <- readReal dp;; azimuth <- readReal dp;;
  ret (plain ObjectTypes.HALF_SPHERE ci mi (HemiSphere c r polar azimuth)).

Definition V3dDisk : M S V3dObject :=
  c <- read_triple;; r <- readReal dp;; ci <- u32;; mi <- u32;;
  polar <- readReal dp;; azimuth <- readReal dp;;
  ret (plain ObjectTypes.DISK ci mi (Disk c r polar azimuth)).

Definition V3dCylinder : M S V3dObject :=
  c <- read_triple;; r <- readReal dp;; h <- readReal dp;; ci <- u32;; mi <- u32;;
  polar <- readReal dp;; azimuth <- readReal dp;; core <- u32;;
  ret (plain ObjectTypes.CYLINDER ci mi (Cylinder c r h polar azimuth core)).

Definition V3dTube : M S V3dObject :=
  cps <- times 4 read_triple;; w <- readReal dp;; ci <- u32;; mi <- u32;; core <- u32;;
  ret (plain ObjectTypes.TUBE ci mi (Tube cps w core)).

Definition curve_bounds (ps : list triple) : triple * triple :=
  match ps with
  | [z0; c0; c1; z1] => computeBezierCurveBounds z0 c0 c1 z1
  | _ => (origin, origin)
  end.

Definition V3dBezierCurve : M S V3dObject :=
  cps <- times 4 read_triple;; ci <- u32;; mi <- u32;;
  bounded_object ObjectTypes.CURVE ci mi curve_bounds cps (BezierCurve cps).

Definition line_bounds (ps : list triple) : triple * triple :=
  match ps with
  | [a; b] => lineBounds a b
  | _ => (origin, origin)
  end.

Definition V3dLineSegment : M S V3dObject :=
  es <- times 2 read_triple;; ci <- u32;; mi <- u32;;
  bounded_object ObjectTypes.LINE ci mi line_bounds es (LineSegment es).

Definition V3dPixel : M S V3dObject :=
  p <- read_triple;; w <- readReal dp;; mi <- u32;;
  ret (plain ObjectTypes.PIXEL (Some 0) mi (Pixel p w)).
End Constructors.

(** ** [remainingBytes] *)

Definition remainingBytes : M S Z := fun x =>
  if negb (good x) then Ret (-1, x)
  else match tell x with
       | Ret cur =>
           if cur <? 0 then Ret (-1, x)
           else
             let x1 := seek 0 SEEK_END x in
             match tell x1 with
             | Ret size =>
                 let x2 := seek cur SEEK_SET x1 in
                 Ret (if cur <=? size then size - cur else -1, x2)
             | Undef => Undef
             | NoFuel => NoFuel
             end
       | Undef => Undef
       | NoFuel => NoFuel
       end.

(** ** [V3dFile::load] *)

(** Each case of the switch returns the file so far and [stopParsing]. *)
#[local] Abbreviation step A := (M S (A * bool)).

Definition continue {A} (a : A) : step A := ret (a, false).
Definition stop {A} (a : A) : step A := ret (a, true).

Definition load_material (version : Z) (f : V3dFile) : step V3dFile :=
  d <- read_rgba;; e <- read_rgba;; s <- read_rgba;;
  sh <- flt;; me <- flt;; fr <- flt;;
  li <- (if 2 <=? version then flt else ret (Some f1));;
  continue (push_material (mkMaterial d e s sh me fr li) f).

(** The loop over [centers[i]]. *)
Fixpoint centers_loop (dp : Z) (n i : nat) (cs : list TRIPLE) : step (list TRIPLE) :=
  match n with
  | O => continue cs
  | Datatypes.S n' =>
      c <- read_triple dp;;
      let cs' := <[i := c]> cs in
      g <- stream_good;;
      if g then centers_loop dp n' (Datatypes.S i) cs' else stop cs'
  end.

Definition load_centers (dp : Z) (f : V3dFile) : step V3dFile :=
  len <- u32;;
  g <- stream_good;;
  if negb g then stop f
  else
    n <- need len;;
    if kMaxCenters <? n then stop f
    else if 0 <? n then
      let cs := vresize (Z.to_nat n) (triple_of d0 d0 d0) (centers f) in
      r <- centers_loop dp (Z.to_nat n) 0 cs;;
      ret (set_centers r.1 f, r.2)
    else continue f.

(** Bytes of the IMAGE entry: [n] bytes, stopping at the first failure. *)
Fixpoint read_bytes (n : nat) (acc : list Byte.byte) : step (list Byte.byte) :=
  match n with
  | O => continue acc
  | Datatypes.S n' =>
      c <- get_xbyte;;
      g <- stream_good;;
      if negb g then stop acc
      else b <- need c;; read_bytes n' (acc ++ [b])
  end.

(** [(strLen+3)/4*4 - strLen] padding bytes. *)
Definition padding (n : Z) : Z := (n + 3) / 4 * 4 - n.

Definition load_image (h : V3dHeaderInfo) : step V3dHeaderInfo :=
  len <- get_u64 Some None;;
  g <- stream_good;;
  if negb g then stop h
  else
    n <- need len;;
    if kMaxImageName <? n then stop h
    else
      r <- read_bytes (Z.to_nat n) [];;
      if (r.2 : bool) then stop h
      else
        p <- read_bytes (Z.to_nat (padding n)) [];;
        if (p.2 : bool) then stop h
        else continue (set_imageName r.1 h).

Fixpoint skip_words (n : nat) : step unit :=
  match n with
  | O => continue tt
  | Datatypes.S n' =>
      _w <- u32;;
      g <- stream_good;;
      if g then skip_words n' else stop tt
  end.

Definition load_unknown (length : Z) (h : V3dHeaderInfo) : step V3dHeaderInfo :=
  remaining <- remainingBytes;;
  let maxWords :=
    if (0 <=? remaining) && (remaining / 4 <? kMaxUnknownHeaderWords)
    then remaining / 4 else kMaxUnknownHeaderWords in
  if maxWords <? length then stop h
  else r <- skip_words (Z.to_nat length);; ret (h, r.2).

Definition read_light (dp : Z) : M S Light :=
  d <- read_triple dp;;
  let z := get_float Some (Some (S754_zero false)) in   (* Light l{} *)
  r <- z;; g <- z;; b <- z;;
  ret (mkLight d (mkRGB r g b)).

Definition read_background (h : V3dHeaderInfo) : M S V3dHeaderInfo :=
  let old := background h in
  r <- get_float Some (c4r old);; g <- get_float Some (c4g old);;
  b <- get_float Some (c4b old);; a <- get_float Some (c4a old);;
  ret (set_background (mkRGBA r g b a) h).

Definition read_pair (dp : Z) : M S PAIR :=
  x <- readReal dp;; y <- readReal dp;; ret (x, y).

(** The inner switch on [headerKey]. *)
Definition header_entry (dp key length : Z) (h : V3dHeaderInfo) : step V3dHeaderInfo :=
  let real (setter : REAL -> V3dHeaderInfo -> V3dHeaderInfo) : step V3dHeaderInfo :=
    v <- readReal dp;; continue (setter v h) in
  if key =? HeaderTypes.CANVAS_WIDTH then
    v <- get_u32 id (canvasWidth h);; continue (set_canvasWidth v h)
  else if key =? HeaderTypes.CANVAS_HEIGHT then
    v <- get_u32 id (canvasHeight h);; continue (set_canvasHeight v h)
  else if key =? HeaderTypes.V3D_ABSOLUTE then
    v <- get_u32 id (absolute h);; continue (set_absolute v h)
  else if key =? HeaderTypes.MIN_BOUND then
    v <- read_triple dp;; continue (set_minBound v h)
  else if key =? HeaderTypes.MAX_BOUND then
    v <- read_triple dp;; continue (set_maxBound v h)
  else if key =? HeaderTypes.ORTHOGRAPHIC then
    v <- get_u32 id (orthographic h);; continue (set_orthographic v h)
  else if key =? HeaderTypes.ANGLE_OF_VIEW then real set_angleOfView
  else if key =? HeaderTypes.INITIAL_ZOOM then real set_initialZoom
  else if key =? HeaderTypes.VIEWPORT_SHIFT then
    v <- read_pair dp;; continue (set_viewportShift v h)
  else if key =? HeaderTypes.VIEWPORT_MARGIN then
    v <- read_pair dp;; continue (set_viewportMargin v h)
  else if key =? HeaderTypes.LIGHT then
    l <- read_light dp;; continue (set_lights (lights h ++ [l]) h)
  else if key =? HeaderTypes.BACKGROUND then
    h' <- read_background h;; continue h'
  else if key =? HeaderTypes.ZOOM_FACTOR then real set_zoomFactor
  else if key =? HeaderTypes.ZOOM_PINCH_FACTOR then real set_zoomPinchFactor
  else if key =? HeaderTypes.ZOOM_PINCH_CAP then real set_zoomPinchCap
  else if key =? HeaderTypes.ZOOM_STEP then real set_zoomStep
  else if key =? HeaderTypes.SHIFT_HOLD_DISTANCE then real set_shiftHoldDistance
  else if key =? HeaderTypes.SHIFT_WAIT_TIME then real set_shiftWaitTime
  else if key =? HeaderTypes.VIBRATE_TIME then real set_vibrateTime
  else if key =? HeaderTypes.IMAGE then load_image h
  else load_unknown length h.

Fixpoint header_loop (dp : Z) (n : nat) (h : V3dHeaderInfo) : step V3dHeaderInfo :=
  match n with
  | O => continue h
  | Datatypes.S n' =>
      k <- u32;; g <- stream_good;;
      if negb g then stop h
      else
        l <- u32;; g' <- stream_good;;
        if negb g' then stop h
        else
          key <- need k;; len <- need l;;
          r <- header_entry dp key len h;;
          if (r.2 : bool) then stop r.1 else header_loop dp n' r.1
  end.

Definition load_header (dp : Z) (f : V3dFile) : step V3dFile :=
  count <- u32;;
  g <- stream_good;;
  if negb g then stop f
  else
    n <- need count;;
    if kMaxHeaderEntries <? n then stop f
    else
      r <- header_loop dp (Z.to_nat n) (headerInfo f);;
      ret (set_header r.1 f, r.2).

(** The cases that push one object. *)
Definition constructor_of (dp ty : Z) : option (M S V3dObject) :=
  if ty =? ObjectTypes.LINE then Some (V3dLineSegment dp)
  else if ty =? ObjectTypes.TRIANGLE then Some (V3dStraightTriangle dp)
  else if ty =? ObjectTypes.QUAD then Some (V3dStraightPlanarQuad dp)
  else if ty =? ObjectTypes.CURVE then Some (V3dBezierCurve dp)
  else if ty =? ObjectTypes.BEZIER_TRIANGLE then Some (V3dBezierTriangle dp)
  else if ty =? ObjectTypes.BEZIER_PATCH then Some (V3dBezierPatch dp)
  else if ty =? ObjectTypes.TRIANGLE_COLOR then Some (V3dStraightTriangleWithCornerColors dp)
  else if ty =? ObjectTypes.QUAD_COLOR then Some (V3dStraightPlanarQuadWithCornerColors dp)
  else if ty =? ObjectTypes.BEZIER_TRIANGLE_COLOR
    then Some (V3dBezierTriangleWithCornerColors dp)
  else if ty =? ObjectTypes.BEZIER_PATCH_COLOR then Some (V3dBezierPatchWithCornerColors dp)
  else if ty =? ObjectTypes.TRIANGLES then Some (V3dTriangleGroup dp)
  else if ty =? ObjectTypes.DISK then Some (V3dDisk dp)
  else if ty =? ObjectTypes.CYLINDER then Some (V3dCylinder dp)
  else if ty =? ObjectTypes.TUBE then Some (V3dTube dp)
  else if ty =? ObjectTypes.SPHERE then Some (V3dSphere dp)
  else if ty =? ObjectTypes.HALF_SPHERE then Some (V3dHemiSphere dp)
  else if ty =? ObjectTypes.PIXEL then Some (V3dPixel dp)
  else None.

(** The switch on [objectType].  The remaining types (TRANSFORM, ELEMENT,
    LINE_COLOR, CURVE_COLOR, ANIMATION and every unknown number) only print a
    message. *)
Definition load_object (version dp ty : Z) (f : V3dFile) : step V3dFile :=
  if ty =? ObjectTypes.MATERIAL then load_material version f
  else if ty =? ObjectTypes.CENTERS then load_centers dp f
  else if ty =? ObjectTypes.HEADER then load_header dp f
  else match constructor_of dp ty with
       | Some ctor => o <- ctor;; continue (push_object o f)
       | None => continue f
       end.

Fixpoint load_loop (fuel : nat) (version dp : Z) (f : V3dFile) : M S V3dFile :=
  match fuel with
  | O => fun _ => NoFuel
  | Datatypes.S fuel' =>
      t <- u32;;
      g <- stream_good;;
      if negb g then ret f
      else
        ty <- need t;;
        r <- load_object version dp ty f;;
        if (r.2 : bool) then ret r.1 else load_loop fuel' version dp r.1
  end.

Definition close : M S unit := fun x => Ret (tt, closeFile x).

Definition load (fuel : nat) : M S V3dFile :=
  v <- u32;;
  g <- stream_good;;
  let f := mkFile v None [] [] [] defaultHeader in
  if negb g then ret f
  else
    version <- need v;;
    if version <? 1 then ret f
    else
      d <- u32;;
      g' <- stream_good;;
      let f := mkFile v d [] [] [] defaultHeader in
      if negb g' then ret f
      else
        dp <- need d;;
        r <- load_loop fuel version dp f;;
        _c <- close;;
        ret r.
End Load.

(** [V3dFile(xdr::memixstream&)] and [V3dFile(fileName)]: [file] is what
    [fmemopen] or [fopen] returned. *)
Definition load_file (file : option FILE) : outcome (V3dFile * ixstream FILE) :=
  let fuel := match file with Some f => Datatypes.S (length (f_data f)) | None => 0%nat end in
  load fuel (open_ix false file).
