(* ===== verification/LoadSafety.v ===== *)
(** * The loader on arbitrary input

    What [V3dLoad.load] guarantees whatever bytes it is given: it terminates
    ([load_file_fuel]), what it stores is bounded by the caps of the source, and
    only the last object and the last material can hold indeterminate values.
    Where exactly it is undefined is in [LoadCut]. *)

From S2P Require Import Prelude Ieee Xstream Bound V3dData V3dLoad.
Import Stdio.

Section Tame.
Context {S : Type} `{XdrInOk S}.

(** ** Every constructor terminates and only moves forward *)

Lemma tame_times {A} n (m : M S A) : tame m -> tame (times n m).
Proof. intros Hm. induction n; cbn; tame. Qed.

Lemma tame_triple dp : tame (read_triple dp).
Proof. unfold read_triple. tame. Qed.
Lemma tame_rgba : tame read_rgba.
Proof. unfold read_rgba. tame. Qed.
Lemma tame_rgba0 : tame read_rgba0.
Proof. unfold read_rgba0. tame. Qed.
Lemma tame_indices0 : tame read_indices0.
Proof. unfold read_indices0. tame. Qed.

#[local] Hint Resolve tame_times tame_triple tame_rgba tame_rgba0 tame_indices0 : v3d.

Lemma tame_triangle eni nC eci : tame (read_triangle eni nC eci).
Proof. unfold read_triangle. tame. Qed.
#[local] Hint Resolve tame_triangle : v3d.

Lemma tame_constructor dp ty ctor : constructor_of dp ty = Some ctor -> tame ctor.
Proof.
  unfold constructor_of. intros Hc.
  repeat (case_match; [injection Hc as <-; unfold V3dLineSegment, V3dStraightTriangle,
    V3dStraightPlanarQuad, V3dBezierCurve, V3dBezierTriangle, V3dBezierPatch,
    V3dStraightTriangleWithCornerColors, V3dStraightPlanarQuadWithCornerColors,
    V3dBezierTriangleWithCornerColors, V3dBezierPatchWithCornerColors, V3dTriangleGroup,
    V3dDisk, V3dCylinder, V3dTube, V3dSphere, V3dHemiSphere, V3dPixel; tame|]).
  done.
Qed.
End Tame.

Section Remaining.
Context {S : Type} `{XdrInOk S}.

(** ** [remainingBytes] leaves the stream where it was *)

Lemma remainingBytes_good x f :
  good x = true -> xi_buf x = Some f -> (in_pos f <= length (in_data f))%nat ->
  exists r f', remainingBytes x = Ret (r, mkIx 0 (xi_single x) (Some f')) /\
    in_data f' = in_data f /\ in_pos f' = in_pos f /\
    (r = Z.of_nat (remaining x) \/ r = -1 \/ in_pos f = 0%nat /\ r = 0).
Proof.
  intros Hg Hf Hp. unfold remainingBytes, tell, seek. rewrite Hg, Hf, tell_pos. cbn.
  rewrite (proj2 (Z.ltb_ge _ 0)) by lia.
  pose proof (seek_data 0 SEEK_END f) as Hd. pose proof (seek_end_pos f) as He.
  destruct (in_seek 0 SEEK_END f) as [ok f1]. cbn in *.
  pose proof (seek_data (Z.of_nat (in_pos f)) SEEK_SET f1) as Hd2.
  pose proof (seek_set_pos (in_pos f) f1) as Hs. rewrite Hd in Hs. specialize (Hs Hp).
  destruct ok; cbn;
    (destruct (in_seek (Z.of_nat (in_pos f)) SEEK_SET f1) as [ok2 f2];
     cbn in *; destruct Hs as [-> Hp2]; rewrite tell_pos;
     eexists _, f2; split_and!; [reflexivity | congruence | done |]).
  all: unfold remaining, in_rest; rewrite Hf, length_drop;
    destruct He as [-> | ->]; rewrite ?Hd; case_match; zbool; lia.
Qed.

Lemma tame_remainingBytes : tame remainingBytes.
Proof.
  intros x Hx. destruct (good x) eqn:Hg.
  - destruct (xi_buf x) as [f|] eqn:Hf.
    + destruct (remainingBytes_good x f Hg Hf (Hx Hg f Hf)) as (r & f' & -> & Hd & Hp & _).
      unfold remaining, in_rest; cbn. rewrite Hf, Hd, Hp.
      split_and!; [done | split; eauto | done | done |].
      intros _ f0 [= <-]. rewrite Hd, Hp. by apply Hx.
    + unfold remainingBytes, tell. by rewrite Hg, Hf.
  - unfold remainingBytes. rewrite Hg. cbn. by split_and!.
Qed.

Lemma tame_skip_words n : tame (skip_words n).
Proof. induction n; cbn; unfold continue, stop; tame. Qed.
Lemma tame_read_bytes n acc : tame (read_bytes n acc).
Proof. revert acc. induction n; intros acc; cbn; unfold continue, stop; tame. Qed.
Lemma tame_centers_loop dp n i cs : tame (centers_loop dp n i cs).
Proof.
  revert i cs. induction n; intros i cs; cbn; unfold continue, stop; tame.
Qed.

#[local] Hint Resolve tame_remainingBytes tame_skip_words tame_read_bytes
  tame_centers_loop tame_triple tame_rgba tame_constructor : v3d.

Lemma tame_header_entry dp key len h : tame (header_entry dp key len h).
Proof.
  unfold header_entry, load_image, load_unknown, read_light, read_background, read_pair,
    continue, stop. tame.
Qed.
#[local] Hint Resolve tame_header_entry : v3d.

Lemma tame_header_loop dp n h : tame (header_loop dp n h).
Proof. revert h. induction n; intros h; cbn; unfold continue, stop; tame. Qed.
#[local] Hint Resolve tame_header_loop : v3d.

Lemma tame_load_object version dp ty f : tame (load_object version dp ty f).
Proof.
  unfold load_object, load_material, load_centers, load_header, continue, stop.
  destruct (constructor_of dp ty) eqn:Hc; tame.
Qed.
End Remaining.

(** ** Termination and definedness *)

Section Safe.
Context {S : Type} `{XdrInOk S}.

(** [m] returns on every open stream. *)
Definition safe {A} (m : M S A) : Prop :=
  forall x, inside x -> is_Some (xi_buf x) -> exists a x', m x = Ret (a, x').

Lemma safe_ret {A} (a : A) : safe (ret a).
Proof. intros x. eauto. Qed.

Lemma safe_stream_good : safe stream_good.
Proof. intros x. unfold stream_good. eauto. Qed.

Lemma safe_bind {A B} (m : M S A) (k : A -> M S B) :
  tame m -> safe m -> (forall a, safe (k a)) -> safe (bind m k).
Proof.
  intros Ht Hm Hk x Hx Ho. destruct (Hm x Hx Ho) as (a & x1 & E).
  specialize (Ht x Hx). rewrite E in Ht. unfold bind. rewrite E.
  apply Hk; tauto.
Qed.

Lemma safe_extract {R A} n (dec : list Byte.byte -> R) op (conv : R -> A) old :
  decodes n dec op -> safe (extract op conv old).
Proof.
  intros Hop x _ [f Hf].
  destruct (extract_cases n dec op conv old x f Hop Hf) as (f' & _ & Hc).
  case_decide; destruct Hc as [-> _]; eauto.
Qed.

Lemma safe_get_u32 {A} (conv : Z -> A) old : safe (get_u32 conv old).
Proof. eapply safe_extract, u_int32_decodes. Qed.
Lemma safe_u32 : safe u32.
Proof. apply safe_get_u32. Qed.
Lemma safe_get_u64 {A} (conv : Z -> A) old : safe (get_u64 conv old).
Proof. eapply safe_extract, u_int64_decodes. Qed.
Lemma safe_get_float {A} (conv : float32 -> A) old : safe (get_float conv old).
Proof. eapply safe_extract, float_decodes. Qed.
Lemma safe_flt : safe flt.
Proof. apply safe_get_float. Qed.
Lemma safe_get_xbyte : safe get_xbyte.
Proof. eapply safe_extract, getc_decodes. Qed.

Lemma safe_readReal dp : safe (readReal dp).
Proof.
  assert (Hf : safe (f <- flt;; ret (double_of_float <$> f))).
  { apply safe_bind; [apply tame_get_float | apply safe_flt | intros; apply safe_ret]. }
  unfold readReal. destruct (negb _); [|exact Hf].
  intros x Hx Ho. unfold get_double. destruct (xi_single x); [by apply Hf|].
  by apply (safe_extract 8 be_value xdr_double _ _ double_decodes).
Qed.

Lemma safe_remainingBytes : safe remainingBytes.
Proof.
  intros x Hx [f Hf]. destruct (good x) eqn:Hg.
  - destruct (remainingBytes_good x f Hg Hf (Hx Hg f Hf)) as (r & f' & -> & _). eauto.
  - unfold remainingBytes. rewrite Hg. eauto.
Qed.

(** A read whose success is tested before its value is used. *)
Lemma extract_good {R A} n (dec : list Byte.byte -> R) op (conv : R -> A) old x a x' :
  decodes n dec op -> extract op conv old x = Ret (a, x') -> good x' = true ->
  good x = true /\ (exists v, a = conv v) /\ remaining x = (n + remaining x')%nat.
Proof.
  intros Hop E Hg. destruct (xi_buf x) as [f|] eqn:Hf; [|unfold extract in E; by rewrite Hf in E].
  destruct (extract_cases n dec op conv old x f Hop Hf) as (f' & _ & Hc).
  case_decide as Hn; [destruct Hc as (E' & Hr & _)|destruct Hc as (E' & Hr)];
    rewrite E' in E; injection E as <- <-.
  - split_and!; [done | eauto |]. unfold remaining in *; cbn. rewrite Hf in *.
    rewrite Hr, length_drop. lia.
  - by rewrite good_set in Hg.
Qed.

Lemma safe_checked {R B} n (dec : list Byte.byte -> R) op (bad : M S B) (k : R -> M S B) :
  decodes n dec op -> safe bad -> (forall v, safe (k v)) ->
  safe (t <- extract op Some None;; g <- stream_good;;
        if negb g then bad else v <- need t;; k v).
Proof.
  intros Hop Hb Hk x Hx Ho. unfold bind, stream_good.
  destruct (safe_extract n dec op Some None Hop x Hx Ho) as (t & x1 & E). rewrite E.
  pose proof (tame_extract n dec op Some None Hop x Hx) as Ht. rewrite E in Ht.
  destruct Ht as (_ & Hbuf & _ & _ & Hx1).
  destruct (good x1) eqn:Hg; cbn.
  - destruct (extract_good n dec op Some None x t x1 Hop E Hg) as (_ & [v ->] & _).
    cbn. apply Hk; tauto.
  - apply Hb; tauto.
Qed.

Lemma safe_times {A} n (m : M S A) : tame m -> safe m -> safe (times n m).
Proof.
  intros Ht Hm. induction n; cbn; [apply safe_ret|].
  repeat (apply safe_bind; try done; try (by apply tame_times); intros); try apply safe_ret.
Qed.
End Safe.

#[export] Hint Resolve tame_times tame_triple tame_rgba tame_rgba0 tame_indices0
  tame_triangle tame_remainingBytes tame_skip_words tame_read_bytes tame_centers_loop
  tame_constructor tame_header_entry tame_header_loop tame_load_object : v3d.
#[export] Hint Resolve safe_ret safe_stream_good safe_get_u32 safe_u32 safe_get_u64
  safe_get_float safe_flt safe_get_xbyte safe_readReal safe_remainingBytes safe_times : v3d.

(** Discharges [safe] of a reader without [need]. *)
Ltac safe :=
  repeat first
    [ progress intros
    | solve [eauto with v3d]
    | apply safe_bind; [solve [tame] | |]
    | match goal with |- safe (if ?b then _ else _) => destruct b end ].

Section Defined.
Context {S : Type} `{XdrInOk S}.

Lemma safe_triple dp : safe (read_triple dp).
Proof. unfold read_triple. safe. Qed.
Lemma safe_rgba : safe read_rgba.
Proof. unfold read_rgba. safe. Qed.
#[local] Hint Resolve safe_triple safe_rgba : v3d.

(** The types whose constructor neither branches on what it read nor computes
    bounds from it. *)
Definition copies (ty : Z) : bool :=
  negb (existsb (Z.eqb ty) [ObjectTypes.TRIANGLES; ObjectTypes.BEZIER_PATCH;
    ObjectTypes.BEZIER_PATCH_COLOR; ObjectTypes.BEZIER_TRIANGLE;
    ObjectTypes.BEZIER_TRIANGLE_COLOR; ObjectTypes.CURVE; ObjectTypes.LINE]).

Lemma safe_constructor dp ty ctor :
  copies ty = true -> constructor_of dp ty = Some ctor -> safe ctor.
Proof.
  unfold constructor_of. intros Hty Hc.
  repeat (case_match; [zbool; subst ty; (discriminate Hty ||
    (injection Hc as <-; unfold V3dStraightTriangle, V3dStraightPlanarQuad,
    V3dStraightTriangleWithCornerColors, V3dStraightPlanarQuadWithCornerColors, V3dDisk,
    V3dCylinder, V3dTube, V3dSphere, V3dHemiSphere, V3dPixel; safe))|]).
  done.
Qed.

Lemma safe_skip_words n : safe (skip_words n).
Proof. induction n; cbn; unfold continue, stop; safe. Qed.

Lemma safe_read_bytes n acc : safe (read_bytes n acc).
Proof.
  revert acc. induction n; intros acc; cbn; [apply safe_ret|].
  apply (safe_checked 1 byte_head in_getc); [apply getc_decodes | apply safe_ret | done].
Qed.

Lemma safe_centers_loop dp n i cs : safe (centers_loop dp n i cs).
Proof. revert i cs. induction n; intros i cs; cbn; unfold continue, stop; safe. Qed.
#[local] Hint Resolve safe_skip_words safe_read_bytes safe_centers_loop : v3d.

Lemma safe_load_image h : safe (load_image h).
Proof.
  unfold load_image. apply (safe_checked 8 be_value xdr_u_int64_t);
    [apply u_int64_decodes | unfold stop; safe |].
  intros v. unfold continue, stop. safe.
Qed.
#[local] Hint Resolve safe_load_image : v3d.

Lemma safe_header_entry dp key len h : safe (header_entry dp key len h).
Proof.
  unfold header_entry, load_unknown, read_light, read_background, read_pair, continue, stop.
  safe.
Qed.
#[local] Hint Resolve safe_header_entry : v3d.
End Defined.

Section Total.
Context {S : Type} `{XdrInOk S}.

(** A reader whose next step depends on a checked word: the word is there. *)
Lemma checked_word (x : ixstream S) :
  inside x -> is_Some (xi_buf x) ->
  exists t x1, u32 x = Ret (t, x1) /\ inside x1 /\ is_Some (xi_buf x1) /\
    (good x1 = true ->
      exists v, t = Some v /\ good x = true /\ remaining x = (4 + remaining x1)%nat).
Proof.
  intros Hx Ho. destruct (safe_u32 x Hx Ho) as (t & x1 & E). exists t, x1.
  pose proof (tame_get_u32 Some None x Hx) as Ht. unfold u32 in *. rewrite E in Ht.
  destruct Ht as (_ & Hb & _ & _ & Hi). split_and!; [done..|tauto|].
  intros Hg. destruct (extract_good 4 be_value xdr_u_int32_t Some None x t x1
    u_int32_decodes E Hg) as (? & [v ->] & ?). by exists v.
Qed.

Lemma safe_header_loop dp n h : safe (header_loop dp n h).
Proof.
  revert h. induction n as [|n IH]; intros h; cbn; [apply safe_ret|].
  intros x Hx Ho. unfold bind at 1 2, stream_good at 1.
  destruct (checked_word x Hx Ho) as (k & x1 & -> & Hx1 & Ho1 & Hk).
  destruct (good x1) eqn:Hg1; cbn; [|eauto].
  destruct (Hk eq_refl) as (kv & -> & _). clear Hk.
  unfold bind at 1 2, stream_good.
  destruct (checked_word x1 Hx1 Ho1) as (l & x2 & -> & Hx2 & Ho2 & Hl).
  destruct (good x2) eqn:Hg2; cbn; [|eauto].
  destruct (Hl eq_refl) as (lv & -> & _).
  apply (safe_bind (header_entry dp kv lv h)); [tame | apply safe_header_entry | | done..].
  intros [h' s]. cbn. destruct s; [apply safe_ret | apply IH].
Qed.

Lemma safe_load_object version dp ty f :
  (copies ty = false -> constructor_of dp ty = None) -> safe (load_object version dp ty f).
Proof.
  intros Hty. unfold load_object, load_material, load_centers, load_header, continue, stop.
  split_ifs.
  1,2: safe; try apply safe_rgba.
  1,2: apply (safe_checked 4 be_value xdr_u_int32_t);
    [apply u_int32_decodes | apply safe_ret |]; intros v; safe;
    [apply safe_centers_loop || apply safe_header_loop ..].
  destruct (constructor_of dp ty) eqn:Hc; [|apply safe_ret].
  destruct (copies ty) eqn:Ht; [|by specialize (Hty eq_refl)].
  apply safe_bind; [by eapply tame_constructor | by eapply safe_constructor |].
  intros. apply safe_ret.
Qed.

(** One iteration of the loop of [load] shortens the input. *)
Lemma load_loop_fuel fuel version dp f x :
  inside x -> is_Some (xi_buf x) -> (remaining x < fuel)%nat ->
  load_loop fuel version dp f x <> NoFuel.
Proof.
  revert f x. induction fuel as [|fuel IH]; intros f x Hx Ho Hf; [lia|]. cbn.
  unfold bind at 1 2, stream_good.
  destruct (checked_word x Hx Ho) as (t & x1 & -> & Hx1 & Ho1 & Ht).
  destruct (good x1) eqn:Hg; cbn; [|done].
  destruct (Ht eq_refl) as (ty & -> & _ & Hr). cbn. unfold bind at 1. cbn.
  pose proof (tame_load_object version dp ty f x1 Hx1) as Hl. unfold bind.
  destruct (load_object version dp ty f x1) as [[[f' s] x2]| |]; [|done|done].
  destruct Hl as (Hr2 & Hb & _ & _ & Hx2). cbn.
  destruct s; [done|]. apply IH; [done|by apply Hb|lia].
Qed.
End Total.

(** ** What is stored is bounded *)

Section Post.
Context {S : Type} `{XdrInOk S}.

(** Every value [m] returns satisfies [P]. *)
Definition returns {A} (m : M S A) (P : A -> Prop) : Prop :=
  forall x a x', m x = Ret (a, x') -> P a.

Lemma returns_ret {A} (a : A) (P : A -> Prop) : P a -> returns (ret a) P.
Proof. intros Ha x b x' E. unfold ret in E. by injection E as <- <-. Qed.

Lemma returns_bind {A B} (m : M S A) (k : A -> M S B) (P : A -> Prop) (Q : B -> Prop) :
  returns m P -> (forall a, P a -> returns (k a) Q) -> returns (bind m k) Q.
Proof.
  intros Hm Hk x b x' E. unfold bind in E.
  destruct (m x) as [[a x1]| |] eqn:Em; [|done..].
  exact (Hk a (Hm _ _ _ Em) _ _ _ E).
Qed.

Lemma returns_any {A} (m : M S A) : returns m (fun _ => True).
Proof. by intros x a x' _. Qed.

(** The same when nothing is known of the first value. *)
Lemma returns_then {A B} (m : M S A) (k : A -> M S B) (Q : B -> Prop) :
  (forall a, returns (k a) Q) -> returns (bind m k) Q.
Proof. intros Hk. eapply returns_bind; [apply returns_any|]. intros a _. apply Hk. Qed.

Lemma returns_times {A} n (m : M S A) : returns (times n m) (fun l => length l = n).
Proof.
  induction n as [|n IH]; cbn; [by apply returns_ret|].
  apply returns_then. intros a. eapply returns_bind; [exact IH|].
  intros l Hl. apply returns_ret. cbn. by rewrite Hl.
Qed.

(** The vectors of an object never exceed the cap of [V3dTriangleGroup]. *)
Definition group_bounded (o : V3dObject) : Prop :=
  match members o with
  | Triangles g =>
      Z.of_nat (length (vertexPositions g)) <= maxCount /\
      Z.of_nat (length (vertexNormalArray g)) <= maxCount /\
      Z.of_nat (length (vertexColorArray g)) <= maxCount /\
      Z.of_nat (length (positionIndices g)) <= maxCount /\
      length (normalIndices g) = length (positionIndices g) /\
      length (colorIndices g) = length (positionIndices g)
  | _ => True
  end.

Definition file_bounded (f : V3dFile) : Prop :=
  Z.of_nat (length (centers f)) <= kMaxCenters /\
  Z.of_nat (length (imageName (headerInfo f))) <= kMaxImageName /\
  Forall group_bounded (objects f).

Lemma capped n : Z.of_nat (Z.to_nat (if maxCount <? n then 0 else n)) <= maxCount.
Proof. unfold maxCount. split_ifs; zbool; lia. Qed.

Lemma returns_triangles dp : returns (V3dTriangleGroup dp) group_bounded.
Proof.
  unfold V3dTriangleGroup. do 2 (apply returns_then; intros).
  destruct ((maxCount <? a) || (maxCount <? a0)) eqn:Hc.
  { apply returns_ret. cbn. unfold maxCount. split_and!; (done || lia). }
  apply orb_false_iff in Hc as [HnI HnP]. zbool.
  eapply returns_bind; [apply returns_times|]. intros ps Hps.
  apply returns_then. intros nN0.
  eapply returns_bind; [apply returns_times|]. intros ns Hns.
  do 3 (apply returns_then; intros).
  eapply returns_bind with (P := fun ce : list RGBA * UINT => Z.of_nat (length ce.1) <= maxCount).
  { split_ifs; try (apply returns_ret; cbn; unfold maxCount; lia).
    all: eapply returns_bind; [apply returns_times|]; intros cols Hcols;
      apply returns_then; intros; apply returns_ret; cbn; rewrite Hcols;
      zbool; unfold maxCount in *; lia. }
  intros [cols eci] Hcols. cbn in Hcols.
  eapply returns_bind; [apply returns_times|]. intros idx Hidx.
  do 2 (apply returns_then; intros). apply returns_ret. cbn.
  rewrite !length_fmap, Hps, Hns, Hidx. pose proof (capped nN0).
  split_and!; unfold maxCount in *; (done || lia).
Qed.

Lemma group_bounded_plain ty ci mi lo hi sh :
  (forall g, sh <> Triangles g) -> group_bounded (mkObject ty ci mi lo hi sh).
Proof. unfold group_bounded; cbn. destruct sh; try done. intros Hn. by destruct (Hn group). Qed.

Lemma group_bounded_bounded ty ci mi f cps sh :
  (forall g, sh <> Triangles g) -> returns (bounded_object ty ci mi f cps sh) group_bounded.
Proof.
  intros. apply returns_then. intros ps. apply returns_ret. by apply group_bounded_plain.
Qed.

Lemma returns_constructor dp ty ctor :
  constructor_of dp ty = Some ctor -> returns ctor group_bounded.
Proof.
  unfold constructor_of. intros Hc.
  repeat (case_match; [injection Hc as <-; first
    [ apply returns_triangles
    | unfold V3dLineSegment, V3dStraightTriangle,
        V3dStraightPlanarQuad, V3dBezierCurve, V3dBezierTriangle, V3dBezierPatch,
        V3dStraightTriangleWithCornerColors, V3dStraightPlanarQuadWithCornerColors,
        V3dBezierTriangleWithCornerColors, V3dBezierPatchWithCornerColors,
        V3dDisk, V3dCylinder, V3dTube, V3dSphere, V3dHemiSphere, V3dPixel, plain;
      repeat first [by apply group_bounded_bounded | apply returns_then; intros];
      apply returns_ret; by apply group_bounded_plain ] |]).
  done.
Qed.

(** [m] yields a file (or header) that satisfies [P]. *)
Definition keeps {A} (P : A -> Prop) (m : M S (A * bool)) : Prop :=
  returns m (fun r => P r.1).

Lemma keeps_continue {A} (P : A -> Prop) a : P a -> keeps P (continue a).
Proof. intros. by apply returns_ret. Qed.
Lemma keeps_stop {A} (P : A -> Prop) a : P a -> keeps P (stop a).
Proof. intros. by apply returns_ret. Qed.
Lemma keeps_then {A B} (P : B -> Prop) (m : M S A) (k : A -> M S (B * bool)) :
  (forall a, keeps P (k a)) -> keeps P (bind m k).
Proof. apply returns_then. Qed.

Lemma returns_read_bytes n acc :
  returns (read_bytes n acc) (fun r => (length r.1 <= length acc + n)%nat).
Proof.
  revert acc. induction n as [|n IH]; intros acc; cbn; [apply returns_ret; cbn; lia|].
  do 2 (apply returns_then; intros). split_ifs; [apply returns_ret; cbn; lia|].
  apply returns_then. intros b x r x' E. specialize (IH _ _ _ _ E).
  rewrite length_app in IH. cbn in IH. lia.
Qed.

Lemma returns_centers_loop dp n i cs :
  returns (centers_loop dp n i cs) (fun r => length r.1 = length cs).
Proof.
  revert i cs. induction n as [|n IH]; intros i cs; cbn; [by apply returns_ret|].
  do 2 (apply returns_then; intros). split_ifs.
  - intros x r x' E. rewrite (IH _ _ _ _ _ E). apply length_insert.
  - apply returns_ret. apply length_insert.
Qed.

(** The length of the image name after a header entry. *)
Definition name_ok (h : V3dHeaderInfo) : Prop := Z.of_nat (length (imageName h)) <= kMaxImageName.

Lemma keeps_load_image h : name_ok h -> keeps name_ok (load_image h).
Proof.
  intros Hh. unfold load_image. do 2 (apply keeps_then; intros).
  split_ifs; [by apply keeps_stop|]. apply keeps_then. intros n.
  split_ifs; [by apply keeps_stop|]. zbool.
  eapply returns_bind; [apply returns_read_bytes|]. intros r Hr. cbn in Hr.
  split_ifs; [by apply keeps_stop|]. apply keeps_then. intros p.
  split_ifs; [by apply keeps_stop|]. apply keeps_continue.
  unfold name_ok, kMaxImageName in *; cbn. lia.
Qed.

Lemma keeps_background h : name_ok h -> returns (read_background h) name_ok.
Proof.
  intros Hh. unfold read_background. repeat (apply returns_then; intros). by apply returns_ret.
Qed.

Lemma keeps_load_unknown len h : name_ok h -> keeps name_ok (load_unknown len h).
Proof.
  intros Hh. unfold load_unknown. apply keeps_then. intros r. cbv zeta.
  split_ifs; try (by apply keeps_stop); apply keeps_then; intros; by apply returns_ret.
Qed.

Lemma keeps_header_entry dp key len h : name_ok h -> keeps name_ok (header_entry dp key len h).
Proof.
  intros Hh. unfold header_entry. cbv zeta.
  repeat match goal with
  | |- keeps _ (if ?b then _ else _) =>
      destruct b; [first
        [ by apply keeps_load_image
        | by (eapply returns_bind; [by apply keeps_background | intros; by apply keeps_continue])
        | repeat (apply keeps_then; intros); by apply keeps_continue ]|]
  end.
  by apply keeps_load_unknown.
Qed.

Lemma keeps_header_loop dp n h : name_ok h -> keeps name_ok (header_loop dp n h).
Proof.
  revert h. induction n as [|n IH]; intros h Hh; cbn; [by apply keeps_continue|].
  do 2 (apply keeps_then; intros). split_ifs; [by apply keeps_stop|].
  do 2 (apply keeps_then; intros). split_ifs; [by apply keeps_stop|].
  do 2 (apply keeps_then; intros).
  eapply returns_bind; [by apply keeps_header_entry|]. intros [h' s] Hh'; cbn in *.
  destruct s; [by apply keeps_stop | by apply IH].
Qed.

Lemma keeps_load_object version dp ty f :
  file_bounded f -> keeps file_bounded (load_object version dp ty f).
Proof.
  intros (Hc & Hi & Ho). unfold load_object. split_ifs.
  - unfold load_material. repeat (apply keeps_then; intros). by apply keeps_continue.
  - unfold load_centers. do 2 (apply keeps_then; intros). split_ifs; [by apply keeps_stop|].
    apply keeps_then. intros n. split_ifs; [by apply keeps_stop | | by apply keeps_continue].
    zbool. eapply returns_bind; [apply returns_centers_loop|]. intros r Hr.
    apply returns_ret. unfold file_bounded; cbn. rewrite Hr, length_vresize.
    split_and!; [lia|done..].
  - unfold load_header. do 2 (apply keeps_then; intros). split_ifs; [by apply keeps_stop|].
    apply keeps_then. intros n. split_ifs; [by apply keeps_stop|].
    eapply returns_bind; [by apply keeps_header_loop|]. intros r Hr. by apply returns_ret.
  - destruct (constructor_of dp ty) as [ctor|] eqn:E; [|by apply keeps_continue].
    eapply returns_bind; [by eapply returns_constructor|]. intros o Hb.
    apply keeps_continue. split_and!; [done..|]. cbn. apply Forall_app. by repeat constructor.
Qed.

Lemma returns_load_loop fuel version dp f :
  file_bounded f -> returns (load_loop fuel version dp f) file_bounded.
Proof.
  revert f. induction fuel as [|fuel IH]; intros f Hf; cbn; [done|].
  do 2 (apply returns_then; intros). split_ifs; [by apply returns_ret|].
  apply returns_then. intros ty. eapply returns_bind; [by apply keeps_load_object|].
  intros [f' s] Hf'; cbn in *. destruct s; [by apply returns_ret | by apply IH].
Qed.
End Post.

(** ** Indeterminate values *)

Definition det_triple (t : TRIPLE) : Prop := is_Some t.1.1 /\ is_Some t.1.2 /\ is_Some t.2.
Definition det_rgba (c : RGBA) : Prop :=
  is_Some (c4r c) /\ is_Some (c4g c) /\ is_Some (c4b c) /\ is_Some (c4a c).
Definition det_indices (i : UINT * UINT * UINT) : Prop :=
  is_Some i.1.1 /\ is_Some i.1.2 /\ is_Some i.2.

(** [explicitCI] is only read when there are colours. *)
Definition det_group (g : TriangleGroup) : Prop :=
  Forall det_triple (vertexPositions g) /\ is_Some (nN g) /\
  Forall det_triple (vertexNormalArray g) /\ is_Some (explicitNI g) /\
  (exists n, nC g = Some n /\ (0 < n -> is_Some (explicitCI g))) /\
  Forall det_rgba (vertexColorArray g) /\ Forall det_indices (positionIndices g) /\
  Forall det_indices (normalIndices g) /\ Forall det_indices (colorIndices g).

Definition det_shape (sh : shape) : Prop :=
  match sh with
  | BezierPatch cps | BezierTriangle cps | StraightPlanarQuad cps | StraightTriangle cps
  | BezierCurve cps | LineSegment cps => Forall det_triple cps
  | BezierPatchWithCornerColors cps cols | BezierTriangleWithCornerColors cps cols
  | StraightPlanarQuadWithCornerColors cps cols
  | StraightTriangleWithCornerColors cps cols => Forall det_triple cps /\ Forall det_rgba cols
  | Triangles g => det_group g
  | Sphere c r => det_triple c /\ is_Some r
  | HemiSphere c r p a | Disk c r p a => det_triple c /\ is_Some r /\ is_Some p /\ is_Some a
  | Cylinder c r h p a co =>
      det_triple c /\ is_Some r /\ is_Some h /\ is_Some p /\ is_Some a /\ is_Some co
  | Tube cps w co => Forall det_triple cps /\ is_Some w /\ is_Some co
  | Pixel p w => det_triple p /\ is_Some w
  end.

Definition det_object (o : V3dObject) : Prop :=
  is_Some (centerIndex o) /\ is_Some (materialIndex o) /\ is_Some (Min o) /\ is_Some (Max o) /\
  det_shape (members o).

(** The object left by a TRIANGLES constructor that returned early. *)
Definition overrun_object : V3dObject :=
  plain ObjectTypes.TRIANGLES (Some 0) None
    (Triangles (mkTriangleGroup 0 0 [] None [] None None [] None [] [] [])).

Definition det_material (m : V3dMaterial) : Prop :=
  det_rgba (diffuse m) /\ det_rgba (emissive m) /\ det_rgba (specular m) /\
  is_Some (shininess m) /\ is_Some (metallic m) /\ is_Some (fresnel0 m) /\ is_Some (lightOn m).

Section Produces.
Context {S : Type} `{XdrInOk S}.

(** What [m] returns on a stream that is still without error afterwards. *)
Definition produces {A} (m : M S A) (P : A -> Prop) : Prop :=
  forall x a x', inside x -> m x = Ret (a, x') -> good x' = true -> P a.

Lemma produces_ret {A} (a : A) (P : A -> Prop) : P a -> produces (ret a) P.
Proof. intros Ha x b x' _ E _. unfold ret in E. by injection E as <- <-. Qed.

Lemma produces_bind {A B} (m : M S A) (k : A -> M S B) (P : A -> Prop) (Q : B -> Prop) :
  tame m -> (forall a, tame (k a)) ->
  produces m P -> (forall a, P a -> produces (k a) Q) -> produces (bind m k) Q.
Proof.
  intros Htm Htk Hm Hk x b x' Hx E Hg. unfold bind in E. specialize (Htm x Hx).
  destruct (m x) as [[a x1]| |] eqn:Em; [|done..].
  destruct Htm as (_ & _ & _ & _ & Hx1). pose proof (Htk a x1 Hx1) as Ht. rewrite E in Ht.
  destruct Ht as (_ & _ & _ & Hgg & _).
  assert (Hg1 : good x1 = true). { destruct (good x1); [done|]. by rewrite Hgg in Hg. }
  exact (Hk a (Hm _ _ _ Hx Em Hg1) _ _ _ Hx1 E Hg).
Qed.

Lemma produces_any {A} (m : M S A) : produces m (fun _ => True).
Proof. by intros x a x' _ _. Qed.

Lemma produces_extract {R A} n (dec : list Byte.byte -> R) op (conv : R -> A) old
    (P : A -> Prop) :
  decodes n dec op -> (forall v, P (conv v)) -> produces (extract op conv old) P.
Proof.
  intros Hop HP x a x' _ E Hg.
  destruct (extract_good n dec op conv old x a x' Hop E Hg) as (_ & [v ->] & _). apply HP.
Qed.

Lemma produces_u32 (old : UINT) : produces (get_u32 Some old) is_Some.
Proof. eapply produces_extract; [apply u_int32_decodes | eauto]. Qed.
Lemma produces_flt (old : FLOAT) : produces (get_float Some old) is_Some.
Proof. eapply produces_extract; [apply float_decodes | eauto]. Qed.

Lemma produces_need {A} (v : option A) : produces (need v) (fun a => v = Some a).
Proof.
  intros x a x' _ E _. unfold need in E. destruct v; [|done]. by injection E as <- <-.
Qed.

Lemma produces_readReal dp : produces (readReal dp) is_Some.
Proof.
  assert (Hf : produces (f <- flt;; ret (double_of_float <$> f)) is_Some).
  { eapply produces_bind; [tame | tame | apply produces_flt |].
    intros f [v ->]. apply produces_ret. eauto. }
  unfold readReal. destruct (negb _); [|exact Hf].
  intros x a x' Hx E Hg. unfold get_double in E.
  destruct (xi_single x); [exact (Hf x a x' Hx E Hg)|].
  refine (produces_extract 8 be_value xdr_double _ _ _ double_decodes _ x a x' Hx E Hg).
  eauto.
Qed.

Lemma produces_times {A} n (m : M S A) (P : A -> Prop) :
  tame m -> produces m P -> produces (times n m) (Forall P).
Proof.
  intros Ht Hm. induction n as [|n IH]; cbn; [apply produces_ret; constructor|].
  eapply produces_bind; [done | tame | done |]. intros a Ha.
  eapply produces_bind; [tame | tame | done |]. intros l Hl.
  apply produces_ret. by constructor.
Qed.
End Produces.

#[export] Hint Resolve produces_u32 produces_flt produces_readReal produces_times
  produces_need : v3d.
#[export] Hint Extern 1 (produces u32 _) => apply produces_u32 : v3d.
#[export] Hint Extern 1 (produces flt _) => apply produces_flt : v3d.

(** Runs [produces_bind] over a reader, one intermediate assertion per read. *)
Ltac produces :=
  repeat (eapply produces_bind; [solve [tame] | solve [tame] | solve [eauto with v3d] |]; intros).

Section Determinate.
Context {S : Type} `{XdrInOk S}.

Lemma produces_triple dp : produces (read_triple dp) det_triple.
Proof. unfold read_triple. produces. by apply produces_ret. Qed.
Lemma produces_rgba : produces read_rgba det_rgba.
Proof. unfold read_rgba. produces. by apply produces_ret. Qed.
Lemma produces_rgba0 : produces read_rgba0 det_rgba.
Proof. unfold read_rgba0; cbv zeta. produces. by apply produces_ret. Qed.
Lemma produces_indices0 : produces read_indices0 det_indices.
Proof. unfold read_indices0; cbv zeta. produces. by apply produces_ret. Qed.
#[local] Hint Resolve produces_triple produces_rgba produces_rgba0 produces_indices0 : v3d.

Lemma bounded_object_det ty ci mi f cps sh :
  is_Some ci -> is_Some mi -> det_shape sh ->
  produces (bounded_object ty ci mi f cps sh) (fun o => det_object o \/ o = overrun_object).
Proof.
  intros Hc Hm Hs. unfold bounded_object. produces. apply produces_ret. left.
  unfold with_bounds. split_and!; cbn; eauto.
Qed.

Lemma plain_det ty ci mi sh :
  is_Some ci -> is_Some mi -> det_shape sh -> det_object (plain ty ci mi sh).
Proof. intros. by split_and!. Qed.

Lemma produces_triangle eni nC eci :
  produces (read_triangle eni nC eci)
    (fun t => det_indices t.1.1 /\ det_indices t.1.2 /\ det_indices t.2).
Proof.
  unfold read_triangle. produces.
  eapply produces_bind with (P := det_indices); [tame|tame| |].
  { split_ifs; [eauto with v3d | by apply produces_ret]. }
  intros n Hn. eapply produces_bind with (P := det_indices); [tame|tame| |].
  { split_ifs; [|by apply produces_ret]. produces.
    split_ifs; [eauto with v3d | by apply produces_ret]. }
  intros c Hc. by apply produces_ret.
Qed.
#[local] Hint Resolve produces_triangle : v3d.

Lemma produces_triangles dp :
  produces (V3dTriangleGroup dp) (fun o => det_object o \/ o = overrun_object).
Proof.
  unfold V3dTriangleGroup.
  do 2 (eapply produces_bind; [tame | tame | apply produces_any | intros]).
  destruct ((maxCount <? a) || (maxCount <? a0)); [by apply produces_ret; right|].
  eapply produces_bind; [tame | tame | eauto with v3d |]. intros ps Hps.
  eapply produces_bind; [tame | tame | apply produces_any |]. intros nN0 _. cbv zeta.
  eapply produces_bind; [tame | tame | eauto with v3d |]. intros ns Hns.
  eapply produces_bind; [tame | tame | apply produces_u32 |]. intros eni Heni.
  eapply produces_bind; [tame | tame | apply produces_u32 |]. intros nCr HnCr.
  eapply produces_bind; [tame | tame | apply produces_need |]. intros nC0 _.
  set (nC' := if maxCount <? nC0 then 0 else nC0).
  eapply produces_bind with (P := fun ce : list RGBA * UINT =>
    Forall det_rgba ce.1 /\ (0 < nC' -> is_Some ce.2)); [tame|tame| |].
  { destruct (0 <? nC') eqn:HC; zbool; [|apply produces_ret; split; [done|lia]].
    produces. by apply produces_ret. }
  intros [cols eci] [Hcols Heci]; cbn in *.
  eapply produces_bind; [tame | tame | eauto with v3d |]. intros idx Hidx.
  produces. apply produces_ret. left. apply plain_det; [done..|]. cbn.
  rewrite <- !Forall_fmap in Hidx || idtac.
  split_and!; cbn; [done | eauto | done | done | eauto | done | ..];
    apply Forall_fmap; (eapply Forall_impl; [exact Hidx|]); cbn; tauto.
Qed.

Lemma produces_constructor dp ty ctor :
  constructor_of dp ty = Some ctor ->
  produces ctor (fun o => det_object o \/ o = overrun_object).
Proof.
  unfold constructor_of. intros Hc.
  repeat (case_match; [injection Hc as <-; first
    [ apply produces_triangles
    | unfold V3dLineSegment, V3dStraightTriangle,
        V3dStraightPlanarQuad, V3dBezierCurve, V3dBezierTriangle, V3dBezierPatch,
        V3dStraightTriangleWithCornerColors, V3dStraightPlanarQuadWithCornerColors,
        V3dBezierTriangleWithCornerColors, V3dBezierPatchWithCornerColors,
        V3dDisk, V3dCylinder, V3dTube, V3dSphere, V3dHemiSphere, V3dPixel;
      repeat first [ apply bounded_object_det; cbn; by split_and?
        | eapply produces_bind; [solve [tame] | solve [tame] | solve [eauto with v3d] |]; intros];
      apply produces_ret; left; apply plain_det; cbn; by split_and? ] |]).
  done.
Qed.
End Determinate.

(** All elements satisfy [P], the last one perhaps excepted. *)
Definition almost {A} (P : A -> Prop) (l : list A) : Prop :=
  exists l' tl, l = l' ++ tl /\ Forall P l' /\ (length tl <= 1)%nat.

Lemma almost_all {A} (P : A -> Prop) l : Forall P l -> almost P l.
Proof. intros. exists l, []. rewrite app_nil_r. by split_and!; cbn; [| |lia]. Qed.

Lemma almost_snoc {A} (P : A -> Prop) l x : Forall P l -> almost P (l ++ [x]).
Proof. intros. exists l, [x]. by split_and!. Qed.

Definition stored_object (o : V3dObject) : Prop := det_object o \/ o = overrun_object.
Definition file_det (f : V3dFile) : Prop :=
  Forall stored_object (objects f) /\ Forall det_material (materials f).
Definition file_almost_det (f : V3dFile) : Prop :=
  almost stored_object (objects f) /\ almost det_material (materials f).

Lemma file_det_almost f : file_det f -> file_almost_det f.
Proof. intros [? ?]. split; by apply almost_all. Qed.

#[export] Hint Resolve almost_all almost_snoc file_det_almost : v3d.

Section LoadDeterminate.
Context {S : Type} `{XdrInOk S}.

(** What an iteration makes of a file without indeterminate values. *)
Definition step_ok (m : M S (V3dFile * bool)) : Prop :=
  produces m (fun r => file_det r.1) /\ returns m (fun r => file_almost_det r.1).

Lemma step_ok_same m f :
  returns m (fun r => objects r.1 = objects f /\ materials r.1 = materials f) ->
  file_det f -> step_ok m.
Proof.
  intros Hm [Ho Hma]. split.
  - intros x r x' _ E _. destruct (Hm x r x' E) as [E1 E2]. split; by rewrite ?E1, ?E2.
  - intros x r x' E. destruct (Hm x r x' E) as [E1 E2].
    apply file_det_almost. split; by rewrite ?E1, ?E2.
Qed.

Lemma step_ok_material version f : file_det f -> step_ok (load_material version f).
Proof.
  intros [Ho Hm]. unfold load_material. split.
  - do 3 (eapply produces_bind; [tame | tame | apply produces_rgba |]; intros).
    do 3 (eapply produces_bind; [tame | tame | apply produces_flt |]; intros).
    eapply produces_bind with (P := is_Some); [tame | tame | |].
    { split_ifs; [apply produces_flt | apply produces_ret; eauto]. }
    intros li Hli. apply produces_ret. split; [done|]. cbn.
    apply Forall_app. split; [done|]. constructor; [|done]. by split_and!.
  - repeat (apply returns_then; intros). apply returns_ret. split; cbn; eauto with v3d.
Qed.

Lemma step_ok_load_object version dp ty f : file_det f -> step_ok (load_object version dp ty f).
Proof.
  intros Hf. unfold load_object. split_ifs; [by apply step_ok_material|..].
  - apply (step_ok_same _ f); [|done]. unfold load_centers.
    do 2 (apply returns_then; intros). split_ifs; [by apply returns_ret|].
    apply returns_then. intros n. split_ifs; try (by apply returns_ret).
    apply returns_then. intros r. by apply returns_ret.
  - apply (step_ok_same _ f); [|done]. unfold load_header.
    do 2 (apply returns_then; intros). split_ifs; [by apply returns_ret|].
    apply returns_then. intros n. split_ifs; [by apply returns_ret|].
    apply returns_then. intros r. by apply returns_ret.
  - destruct (constructor_of dp ty) as [ctor|] eqn:E.
    + destruct Hf as [Ho Hm]. split.
      * eapply produces_bind; [by eapply tame_constructor | tame | by eapply produces_constructor |].
        intros o Hs. apply produces_ret. split; [|done]. cbn.
        apply Forall_app. by rewrite Forall_singleton.
      * apply returns_then. intros o. apply returns_ret. split; cbn; eauto with v3d.
    + apply (step_ok_same _ f); [by apply returns_ret | done].
Qed.

Lemma load_loop_det fuel version dp f x r x' :
  file_det f -> inside x -> load_loop fuel version dp f x = Ret (r, x') -> file_almost_det r.
Proof.
  revert f x. induction fuel as [|fuel IH]; intros f x Hf Hx E; [done|]. cbn in E.
  unfold bind at 1 2, stream_good in E.
  pose proof (tame_get_u32 Some None x Hx) as Ht. unfold u32 in E.
  destruct (get_u32 Some None x) as [[t x1]| |]; [|done..].
  destruct Ht as (_ & _ & _ & _ & Hx1).
  destruct (good x1) eqn:Hg; cbn in E; [|injection E as <- <-; by apply file_det_almost].
  unfold bind at 1 in E. destruct t as [ty|]; [|done]. cbn in E. unfold bind in E.
  pose proof (tame_load_object version dp ty f x1 Hx1) as Hl.
  destruct (step_ok_load_object version dp ty f Hf) as [Hp Hr].
  destruct (load_object version dp ty f x1) as [[[f' s] x2]| |] eqn:El; [|done..].
  destruct Hl as (_ & _ & _ & _ & Hx2). specialize (Hr _ _ _ El). cbn in *.
  destruct s; [by injection E as <- <-|].
  destruct (good x2) eqn:Hg2; [by apply (IH f' x2 (Hp _ _ _ Hx1 El Hg2))|].
  destruct fuel as [|fuel]; [done|]. cbn in E. unfold bind at 1 2, stream_good, u32 in E.
  pose proof (tame_get_u32 Some None x2 Hx2) as Ht.
  destruct (get_u32 Some None x2) as [[t x3]| |]; [|done..].
  destruct Ht as (_ & _ & _ & Hgg & _). rewrite (Hgg Hg2) in E. cbn in E.
  by injection E as <- <-.
Qed.

Lemma load_unfold fuel x r x' :
  inside x -> load fuel x = Ret (r, x') ->
  (objects r = [] /\ materials r = [] /\ centers r = [] /\ headerInfo r = defaultHeader) \/
  exists version dp x1 x2, inside x1 /\
    load_loop fuel version dp
      (mkFile (Some version) (Some dp) [] [] [] defaultHeader) x1 = Ret (r, x2).
Proof.
  intros Hx E. unfold load in E. unfold bind at 1 2, stream_good, u32 in E.
  pose proof (tame_get_u32 Some None x Hx) as Ht.
  destruct (get_u32 Some None x) as [[v x1]| |]; [|done..].
  destruct Ht as (_ & _ & _ & _ & Hx1). cbv zeta in E.
  destruct (good x1); cbn in E; [|injection E as <- <-; by left].
  unfold bind at 1 in E. destruct v as [version|]; [|done]. cbn in E.
  destruct (version <? 1); [injection E as <- <-; by left|].
  unfold bind at 1 2, stream_good in E.
  pose proof (tame_get_u32 Some None x1 Hx1) as Ht.
  destruct (get_u32 Some None x1) as [[d x2]| |]; [|done..].
  destruct Ht as (_ & _ & _ & _ & Hx2).
  destruct (good x2); cbn in E; [|injection E as <- <-; by left].
  unfold bind at 1 in E. destruct d as [dp|]; [|done]. cbn in E. unfold bind, close in E.
  destruct (load_loop fuel version dp _ x2) as [[f x3]| |] eqn:El; [|done..].
  cbn in E. injection E as <- <-. right. by exists version, dp, x2, x3.
Qed.

Lemma inside_open single file :
  (forall f, file = Some f -> in_pos f = 0%nat) -> inside (open_ix single file : ixstream S).
Proof. intros Hp _ f Hf. destruct file as [f0|]; [|done]. injection Hf as <-. rewrite (Hp f0); [lia|done]. Qed.
End LoadDeterminate.

(** ** Properties *)

(** Opening the bytes [data] as a file. *)
Definition opened (data : list Byte.byte) : ixstream FILE := open_ix false (Some (mkFILE data 0 None)).

Lemma inside_opened data : inside (opened data).
Proof. apply inside_open. intros f [= <-]. done. Qed.

(** One iteration per remaining byte (plus one) is always enough. *)
Lemma load_file_fuel data : load_file (Some (mkFILE data 0 None)) <> NoFuel.
Proof.
  unfold load_file. fold (opened data). cbn [f_data]. unfold load. unfold bind at 1 2, stream_good.
  assert (Hr0 : remaining (opened data) = length data) by done.
  assert (Ho0 : is_Some (xi_buf (opened data))) by (cbn; eauto).
  destruct (checked_word (opened data) (inside_opened data) Ho0)
    as (v & x1 & -> & Hx1 & Ho1 & Hv). cbv zeta.
  destruct (good x1) eqn:Hg1; cbn [negb]; [|done].
  destruct (Hv eq_refl) as (version & -> & _ & Hr1). unfold bind at 1. cbn [need].
  destruct (version <? 1); [done|].
  unfold bind at 1 2, stream_good.
  destruct (checked_word x1 Hx1 Ho1) as (d & x2 & -> & Hx2 & Ho2 & Hd).
  destruct (good x2) eqn:Hg2; cbn [negb]; [|done].
  destruct (Hd eq_refl) as (dp & -> & _ & Hr2). unfold bind at 1. cbn [need].
  pose proof (load_loop_fuel (Datatypes.S (length data)) version dp
    (mkFile (Some version) (Some dp) [] [] [] defaultHeader) x2 Hx2 Ho2 ltac:(lia)) as Hl.
  unfold bind, close. by destruct (load_loop _ version dp _ x2) as [[]| |].
Qed.

(** C25: Bounded memory: whatever the bytes, a loaded file has at most 1000000
    centers, an image name of at most 4096 bytes, and triangle groups whose
    vectors have at most 10000000 elements and whose three index vectors have
    the same length. *)
Theorem load_bounded fuel data f x :
  load fuel (opened data) = Ret (f, x) -> file_bounded f.
Proof.
  intros E. destruct (load_unfold fuel (opened data) f x (inside_opened data) E)
    as [(Ho & _ & Hc & Hh)|(version & dp & x1 & x2 & _ & El)].
  - unfold file_bounded. rewrite Ho, Hc, Hh. unfold kMaxCenters, kMaxImageName.
    split_and!; [cbn; lia..|constructor].
  - refine (returns_load_loop _ _ _ _ _ _ _ _ El).
    unfold file_bounded, kMaxCenters, kMaxImageName. split_and!; [cbn; lia..|constructor].
Qed.

(** No indeterminate value reaches the scene except at the point of
    truncation: every object and every material but the last of each list has
    all its members read from the file (or is the empty group of a TRIANGLES
    object whose counts exceed the cap). *)
Theorem load_determinate fuel data f x :
  load fuel (opened data) = Ret (f, x) ->
  almost stored_object (objects f) /\ almost det_material (materials f).
Proof.
  intros E. destruct (load_unfold fuel (opened data) f x (inside_opened data) E)
    as [(Ho & Hm & _)|(version & dp & x1 & x2 & Hx1 & El)].
  - rewrite Ho, Hm. split; apply almost_all; constructor.
  - refine (load_loop_det _ _ _ _ _ _ _ _ Hx1 El). split; constructor.
Qed.

(** A file with a material, a line and a straight triangle, cut in the middle of
    the triangle. *)
Definition word (z : Z) : list Byte.byte := be_bytes 4 z.
Definition sample_data : list Byte.byte :=
  word 2 ++ word 0 ++
  word 1 ++ concat (replicate 16 (word 0x3F000000)) ++
  word 64 ++ concat (replicate 6 (word 0x40000000)) ++ word 0 ++ word 0 ++
  word 65 ++ word 0x3F800000.

Definition sample_result : option V3dFile :=
  match load_file (Some (mkFILE sample_data 0 None)) with Ret (f, _) => Some f | _ => None end.

Lemma sample_loads : exists x,
  load (Datatypes.S (length sample_data)) (opened sample_data) =
    Ret (default emptyFile sample_result, x).
Proof. vm_compute. eexists. reflexivity. Qed.

Lemma load_bounded_witness :
  exists f x,
    load (Datatypes.S (length sample_data)) (opened sample_data) = Ret (f, x) /\
    length (objects f) = 2%nat /\ file_bounded f.
Proof.
  destruct sample_loads as [x E]. exists (default emptyFile sample_result), x.
  exact (conj E (conj (eq_refl : length (objects (default emptyFile sample_result)) = 2%nat)
    (load_bounded _ sample_data _ x E))).
Defined.

Lemma load_determinate_witness :
  exists f x,
    load (Datatypes.S (length sample_data)) (opened sample_data) = Ret (f, x) /\
    length (objects f) = 2%nat /\
    almost stored_object (objects f) /\ almost det_material (materials f).
Proof.
  destruct sample_loads as [x E]. exists (default emptyFile sample_result), x.
  exact (conj E (conj (eq_refl : length (objects (default emptyFile sample_result)) = 2%nat)
    (load_determinate _ sample_data _ x E))).
Defined.

(** ** Truncated and oversized TRIANGLES objects *)

Section Triangles.
Context {S : Type} `{XdrInOk S}.

Lemma get_u32_remaining {A} (conv : Z -> A) old (x : ixstream S) :
  inside x -> is_Some (xi_buf x) ->
  exists a x', get_u32 conv old x = Ret (a, x') /\ inside x' /\ is_Some (xi_buf x') /\
    remaining x' = (remaining x - 4)%nat /\
    ((remaining x < 4)%nat -> a = old).
Proof.
  intros Hx [f Hf]. pose proof (tame_get_u32 conv old x Hx) as Ht. unfold get_u32 in *.
  destruct (extract_cases 4 be_value _ conv old x f u_int32_decodes Hf) as (f' & _ & Hc).
  case_decide as Hn; [destruct Hc as (E & Hr & _)|destruct Hc as (E & Hr)];
    rewrite E in *; eexists _, _; (split; [done|]);
    destruct Ht as (_ & Hb & _ & _ & ?); (split; [done|]); (split; [by apply Hb; eauto|]).
  - unfold remaining in *; cbn in *. rewrite Hf in *. rewrite Hr, length_drop. split; [done|lia].
  - unfold remaining in *; cbn in *. rewrite Hr. cbn. split; [|done]. lia.
Qed.

Lemma tame_remaining {A} (m : M S A) (x : ixstream S) :
  tame m -> safe m -> inside x -> is_Some (xi_buf x) ->
  exists a x', m x = Ret (a, x') /\ inside x' /\ is_Some (xi_buf x') /\
    (remaining x' <= remaining x)%nat.
Proof.
  intros Ht Hs Hx Ho. destruct (Hs x Hx Ho) as (a & x' & E). exists a, x'.
  specialize (Ht x Hx). rewrite E in Ht. split_and!; tauto.
Qed.

(** With fewer than 20 bytes left one of nI, nP, nN, explicitNI, nC cannot
    be read. *)
Lemma triangles_truncated dp nI' nP' tl (x : ixstream S) :
  in_range 32 nI' -> in_range 32 nP' -> nI' <= maxCount -> nP' <= maxCount ->
  inside x -> at_input (be_bytes 4 nI' ++ be_bytes 4 nP' ++ tl) x -> (length tl < 12)%nat ->
  V3dTriangleGroup dp x = Undef.
Proof.
  intros HnI HnP HI HP Hx Hin Hlen. unfold V3dTriangleGroup. unfold bind at 1.
  destruct (reads_get_u32 id 0 nI' HnI x _ Hin) as (x1 & E1 & H1).
  pose proof (tame_get_u32 id 0 x Hx) as T1. rewrite E1 in *.
  destruct T1 as (_ & _ & _ & _ & Hx1).
  unfold bind at 1. destruct (reads_get_u32 id 0 nP' HnP x1 _ H1) as (x2 & E2 & H2).
  pose proof (tame_get_u32 id 0 x1 Hx1) as T2. rewrite E2 in *.
  destruct T2 as (_ & _ & _ & _ & Hx2). change (id nI') with nI'. change (id nP') with nP'.
  rewrite !(proj2 (Z.ltb_ge _ _)) by done. cbn [orb].
  assert (Ho2 : is_Some (xi_buf x2)) by (destruct H2 as (_ & _ & f & -> & _); eauto).
  assert (Hr2 : remaining x2 = length tl).
  { destruct H2 as (_ & _ & f & Hf & Hr). unfold remaining. by rewrite Hf, Hr. }
  unfold bind at 1.
  destruct (tame_remaining (times (Z.to_nat nP') (read_triple dp)) x2) as
    (ps & x3 & -> & Hx3 & Ho3 & Hr3); [tame | apply safe_times; [tame|apply safe_triple] | done..|].
  unfold bind at 1.
  destruct (get_u32_remaining id 0 x3 Hx3 Ho3) as (nN0 & x4 & -> & Hx4 & Ho4 & Hr4 & _).
  unfold bind at 1.
  destruct (tame_remaining (times (Z.to_nat (if maxCount <? nN0 then 0 else nN0))
    (read_triple dp)) x4) as (ns & x5 & -> & Hx5 & Ho5 & Hr5);
    [tame | apply safe_times; [tame|apply safe_triple] | done..|].
  unfold bind at 1, u32.
  destruct (get_u32_remaining Some None x5 Hx5 Ho5) as (eni & x6 & -> & Hx6 & Ho6 & Hr6 & _).
  unfold bind at 1.
  destruct (get_u32_remaining Some None x6 Hx6 Ho6) as (nCr & x7 & -> & _ & _ & _ & Hnone).
  by rewrite Hnone by lia.
Qed.

Lemma reads_triangles_overrun dp nI' nP' :
  in_range 32 nI' -> in_range 32 nP' -> maxCount < nI' \/ maxCount < nP' ->
  reads (V3dTriangleGroup dp) (be_bytes 4 nI' ++ be_bytes 4 nP') overrun_object.
Proof.
  intros HnI HnP Hc. unfold V3dTriangleGroup.
  eapply reads_bind; [by apply reads_get_u32|].
  eapply reads_bind_last; [by apply reads_get_u32|]. unfold id.
  replace ((maxCount <? nI') || (maxCount <? nP')) with true; [apply reads_ret|].
  symmetry. apply orb_true_iff. destruct Hc; [left|right]; by apply Z.ltb_lt.
Qed.
End Triangles.

(** A TRIANGLES object cut off in its counts makes the loader branch on an
    uninitialised member: with admissible triangle and position counts and
    fewer than 12 bytes after them, loading the file is undefined. *)
Theorem truncated_triangles_undefined nI' nP' tl :
  0 <= nI' <= maxCount -> 0 <= nP' <= maxCount -> (length tl < 12)%nat ->
  load_file (Some (mkFILE
    (word 2 ++ word 1 ++ word ObjectTypes.TRIANGLES ++ word nI' ++ word nP' ++ tl) 0 None)) =
  Undef.
Proof.
  intros HI HP Hl. assert (Hm : maxCount < 2 ^ 32) by (unfold maxCount; lia).
  set (data := _ ++ _). unfold load_file. fold (opened data). cbn [f_data].
  assert (H0 : at_input data (opened data)) by (split_and!; [done..|eexists; by split]).
  unfold load. unfold bind at 1 2, stream_good.
  destruct (reads_u32 2 ltac:(unfold in_range; lia) (opened data) _ H0) as (x1 & E1 & H1).
  pose proof (tame_get_u32 Some None _ (inside_opened data)) as T1. unfold u32 in *. rewrite E1 in *.
  destruct T1 as (_ & _ & _ & _ & Hx1). unfold good at 1. rewrite (proj1 H1). cbn [negb Z.eqb].
  unfold bind at 1. cbn [need]. change (2 <? 1) with false. cbv iota zeta.
  unfold bind at 1 2, stream_good.
  destruct (reads_u32 1 ltac:(unfold in_range; lia) x1 _ H1) as (x2 & E2 & H2).
  pose proof (tame_get_u32 Some None _ Hx1) as T2. unfold u32 in *. rewrite E2 in *.
  destruct T2 as (_ & _ & _ & _ & Hx2). unfold good at 1. rewrite (proj1 H2). cbn [negb Z.eqb].
  unfold bind at 1. cbn [need]. unfold bind at 1. cbn [load_loop]. unfold bind at 1 2, stream_good.
  destruct (reads_u32 ObjectTypes.TRIANGLES ltac:(unfold in_range, ObjectTypes.TRIANGLES; lia)
    x2 _ H2) as (x3 & E3 & H3).
  pose proof (tame_get_u32 Some None _ Hx2) as T3. unfold u32 in *. rewrite E3 in *.
  destruct T3 as (_ & _ & _ & _ & Hx3). unfold good at 1. rewrite (proj1 H3). cbn [negb Z.eqb].
  unfold bind at 1. cbn [need]. unfold bind at 1, load_object.
  cbn [Z.eqb ObjectTypes.TRIANGLES ObjectTypes.MATERIAL ObjectTypes.CENTERS ObjectTypes.HEADER
    constructor_of Pos.eqb]. cbn. unfold bind at 1.
  rewrite (triangles_truncated 1 nI' nP' tl x3); try done; unfold in_range; lia.
Qed.

Lemma truncated_triangles_undefined_witness :
  load_file (Some (mkFILE
    (word 2 ++ word 1 ++ word ObjectTypes.TRIANGLES ++ word 4 ++ word 0 ++ word 0) 0 None)) = Undef.
Proof.
  exact (truncated_triangles_undefined 4 0 (word 0)
    ltac:(unfold maxCount; lia) ltac:(unfold maxCount; lia) ltac:(vm_compute; lia)).
Defined.

(** ** Unknown header entries *)

Definition known_key (key : Z) : bool := (1 <=? key) && (key <=? 20).

Section Unknown.
Context {S : Type} `{XdrInOk S}.

Lemma at_input_remaining bs (x : ixstream S) : at_input bs x -> remaining x = length bs.
Proof. intros (_ & _ & f & Hf & Hr). unfold remaining. by rewrite Hf, Hr. Qed.

Lemma at_input_open bs (x : ixstream S) : at_input bs x -> is_Some (xi_buf x) /\ good x = true.
Proof. intros (Hz & _ & f & Hf & _). unfold good. rewrite Hz. eauto. Qed.

(** Reading a word moves off the beginning of the file. *)
Lemma word_step v tl (x : ixstream S) :
  in_range 32 v -> inside x -> at_input (be_bytes 4 v ++ tl) x ->
  exists x' f', u32 x = Ret (Some v, x') /\ at_input tl x' /\ inside x' /\
    xi_buf x' = Some f' /\ (0 < in_pos f')%nat.
Proof.
  intros Hv Hx Hin. destruct (reads_u32 v Hv x tl Hin) as (x' & E & Hin').
  pose proof (tame_get_u32 Some None x Hx) as Ht. unfold u32 in *. rewrite E in Ht.
  destruct Ht as (_ & _ & _ & _ & Hx').
  pose proof Hin as (_ & _ & f & Hf & Hr).
  destruct (extract_cases 4 be_value _ Some None x f u_int32_decodes Hf) as (f' & _ & Hc).
  rewrite (at_input_remaining _ x Hin), length_app, length_be_bytes in Hc.
  rewrite decide_True in Hc by lia. destruct Hc as (E' & _ & Hp).
  unfold get_u32 in *. rewrite E' in E. injection E as _ <-.
  exists (with_buf f' x), f'. rewrite E'. split_and!; (done || lia || idtac).
  by rewrite Hr, take_app_length', be_value_bytes by (done || apply length_be_bytes).
Qed.

Lemma reads_times {A} (m : M S A) (enc : A -> list Byte.byte) l :
  (forall a, a ∈ l -> reads m (enc a) a) -> reads (times (length l) m) (concat (enc <$> l)) l.
Proof.
  intros Hm. induction l as [|a l IH]; cbn; [apply reads_ret|].
  eapply reads_bind; [apply Hm; by left|].
  eapply reads_bind_last; [apply IH; intros; apply Hm; by right | apply reads_ret].
Qed.

Lemma reads_skip_words n bs :
  length bs = (4 * n)%nat -> reads (skip_words n) bs (tt, false).
Proof.
  revert bs. induction n as [|n IH]; intros bs Hl; cbn.
  { destruct bs; [apply reads_ret | cbn in Hl; lia]. }
  rewrite <- (take_drop 4 bs).
  eapply reads_bind; [apply (reads_extract 4 be_value xdr_u_int32_t Some None);
    [apply u_int32_decodes | rewrite length_take; lia]|].
  eapply reads_bind_nil; [apply reads_stream_good|]. apply IH. rewrite length_drop. lia.
Qed.

Lemma header_entry_unknown dp key len h :
  known_key key = false -> header_entry dp key len h = load_unknown len h.
Proof.
  unfold known_key. intros Hk. apply andb_false_iff in Hk.
  unfold header_entry. cbv zeta.
  repeat match goal with
  | |- (if ?a =? ?b then _ else _) = _ =>
      let v := eval vm_compute in b in
      rewrite (proj2 (Z.eqb_neq a b)) by (change b with v; destruct Hk; zbool; lia)
  end. done.
Qed.

(** One iteration of the header loop on an entry with an unknown key. *)
Lemma header_loop_unknown (dp : Z) (k : nat) (h : V3dHeaderInfo) (key n : Z)
    (words tl : list Byte.byte) (x : ixstream S) :
  in_range 32 key -> known_key key = false -> 0 <= n <= kMaxUnknownHeaderWords ->
  Z.of_nat (length words) = 4 * n ->
  inside x -> at_input (be_bytes 4 key ++ be_bytes 4 n ++ words ++ tl) x ->
  exists x', (at_input tl x' /\ inside x') /\
    header_loop dp (Datatypes.S k) h x = header_loop dp k h x'.
Proof.
  intros Hkey Hun Hn Hw Hx Hin. unfold kMaxUnknownHeaderWords in Hn.
  destruct (word_step key _ x Hkey Hx Hin) as (x1 & f1 & E1 & Hin1 & Hx1 & _).
  destruct (word_step n _ x1 ltac:(unfold in_range; lia) Hx1 Hin1)
    as (x2 & f2 & E2 & Hin2 & Hx2 & Hf2 & Hp2).
  destruct (at_input_open _ _ Hin1) as [_ Hg1]. destruct (at_input_open _ _ Hin2) as [_ Hg2].
  destruct (remainingBytes_good x2 f2 Hg2 Hf2 (Hx2 Hg2 f2 Hf2))
    as (r & f3 & E3 & Hd3 & Hp3 & Hr).
  set (x3 := mkIx 0 (xi_single x2) (Some f3)) in *.
  assert (Hin3 : at_input (words ++ tl) x3).
  { destruct Hin2 as (_ & Hs & f & Hf & Hrest). split_and!; [done..|].
    exists f3. split; [done|]. unfold in_rest. rewrite Hd3, Hp3.
    rewrite Hf2 in Hf. by injection Hf as ->. }
  destruct (reads_skip_words (Z.to_nat n) words ltac:(lia) x3 tl Hin3) as (x4 & E4 & Hin4).
  pose proof (tame_skip_words (Z.to_nat n) x3) as Ht. rewrite E4 in Ht.
  exists x4. split; [split; [done|]|].
  { apply Ht. intros _ f [= <-]. rewrite Hd3, Hp3. by apply Hx2. }
  cbn [header_loop]. unfold bind at 1 2, stream_good at 1. rewrite E1, Hg1. cbn [negb].
  unfold bind at 1 2, stream_good. rewrite E2, Hg2. cbn [negb].
  unfold bind at 1 2. cbn [need]. rewrite (header_entry_unknown _ _ _ _ Hun).
  unfold bind at 1, load_unknown. unfold bind at 1. rewrite E3. cbv zeta.
  replace (_ <? n) with false.
  { unfold bind. rewrite E4. done. }
  symmetry. apply Z.ltb_ge. unfold kMaxUnknownHeaderWords.
  rewrite (at_input_remaining _ _ Hin2), length_app in Hr.
  destruct Hr as [->|[->|[? _]]]; [|cbn; lia|lia].
  case_match; [|lia]. apply Z.div_le_lower_bound; lia.
Qed.
End Unknown.

(** Forward compatibility: a header entry whose key the loader does not
    know is consumed exactly, key, length and the announced number of words
    (up to 1000000), and the rest of the header is parsed as if the entry were
    not there. *)
Theorem unknown_header_skipped {S} `{XdrInOk S} dp k h key n words tl (x : ixstream S) :
  in_range 32 key -> known_key key = false -> 0 <= n <= kMaxUnknownHeaderWords ->
  Z.of_nat (length words) = 4 * n ->
  inside x -> at_input (be_bytes 4 key ++ be_bytes 4 n ++ words ++ tl) x ->
  exists x', at_input tl x' /\ header_loop dp (Datatypes.S k) h x = header_loop dp k h x'.
Proof.
  intros Hkey Hun Hn Hw Hx Hin.
  destruct (header_loop_unknown dp k h key n words tl x Hkey Hun Hn Hw Hx Hin)
    as (x' & [? _] & ?). eauto.
Qed.

Lemma unknown_header_skipped_witness :
  let x := opened (word 77 ++ word 2 ++ (word 5 ++ word 6) ++ word 1 ++ word 1 ++ word 640) in
  known_key 77 = false /\
  exists x', at_input (word 1 ++ word 1 ++ word 640) x' /\
    header_loop 0 2 defaultHeader x = header_loop 0 1 defaultHeader x'.
Proof.
  intros x. split; [reflexivity|].
  exact (unknown_header_skipped 0 1 defaultHeader 77 2 (word 5 ++ word 6)
    (word 1 ++ word 1 ++ word 640) x ltac:(unfold in_range; lia) eq_refl
    ltac:(unfold kMaxUnknownHeaderWords; lia) eq_refl (inside_opened _)
    (conj eq_refl (conj eq_refl (ex_intro _ _ (conj eq_refl eq_refl))))).
Defined.

(** A TRIANGLES object whose counts exceed the cap does not stop the parse:
    it is stored as an empty group with an indeterminate material index, and
    the loop continues on the data of the group it did not read. *)
Theorem triangles_overrun_continues {S} `{XdrInOk S} version dp nI' nP' f :
  in_range 32 nI' -> in_range 32 nP' -> maxCount < nI' \/ maxCount < nP' ->
  reads (load_object version dp ObjectTypes.TRIANGLES f)
    (be_bytes 4 nI' ++ be_bytes 4 nP') (push_object overrun_object f, false) /\
  materialIndex overrun_object = None.
Proof.
  intros HI HP Hc. split; [|done]. unfold load_object; cbn.
  eapply reads_bind_last; [by apply reads_triangles_overrun | apply reads_ret].
Qed.

Lemma triangles_overrun_continues_witness :
  maxCount < 10000001 /\
  reads (S := FILE) (load_object 2 0 ObjectTypes.TRIANGLES emptyFile)
    (be_bytes 4 10000001 ++ be_bytes 4 3) (push_object overrun_object emptyFile, false).
Proof.
  split; [unfold maxCount; lia|].
  refine (proj1 (triangles_overrun_continues 2 0 10000001 3 emptyFile _ _ _));
    [unfold in_range; lia | unfold in_range; lia | left; unfold maxCount; lia].
Defined.

(** A file that cannot be opened is read all the same: [load] extracts from
    the stream before testing it, through an XDR object that was never
    created. *)
Theorem load_unopened_undefined : load_file None = Undef.
Proof. reflexivity. Qed.
