(* ===== verification/LoadCut.v ===== *)
(** * Where loading is undefined

    [V3dLoad.load] is a partial function: it is undefined when the code
    compares a value that a failed read left uninitialised.  This file says for
    which bytes that happens.  A read of [n] bytes takes [drop n] of what is left
    whether or not it succeeds ([spans]), so the bytes an object would need
    decide ([cut_short]) whether its constructor depends on an uninitialised
    value; [reaches] enumerates the objects that the loop of [load] begins. *)

From S2P Require Import Prelude Ieee Xstream Bound V3dData V3dLoad LoadSafety.
Import Stdio.

(** The 32-bit word at offset [o], when the bytes are there. *)
Definition word_at (bs : list Byte.byte) (o : nat) : option Z :=
  if decide (o + 4 <= length bs)%nat then Some (be_value (take 4 (drop o bs))) else None.

(** Bytes of a real in the precision of the file, and of a point. *)
Definition real_size (dp : Z) : nat := if dp =? 0 then 4 else 8.
Definition point_size (dp : Z) : nat := 3 * real_size dp.

Definition capped_count (n : Z) : Z := if maxCount <? n then 0 else n.

(** The constructor of a group tests [nC] and, when there are triangles and
    colours, [explicitCI]; the offsets follow from the counts before them, which
    are zero when they cannot be read. *)
Definition group_cut (dp : Z) (bs : list Byte.byte) : Prop :=
  let nI := default 0 (word_at bs 0) in
  let nP := default 0 (word_at bs 4) in
  let o_nN := (8 + Z.to_nat nP * point_size dp)%nat in
  let nN := capped_count (default 0 (word_at bs o_nN)) in
  let o_nC := (o_nN + 8 + Z.to_nat nN * point_size dp)%nat in
  nI <= maxCount /\ nP <= maxCount /\
  match word_at bs o_nC with
  | None => True
  | Some nC => 0 < nI /\ 0 < capped_count nC /\
      word_at bs (o_nC + 4 + Z.to_nat (capped_count nC) * 16)%nat = None
  end.

(** Control points of the types whose constructor computes bounds. *)
Definition bound_points (ty : Z) : option nat :=
  if (ty =? ObjectTypes.BEZIER_PATCH) || (ty =? ObjectTypes.BEZIER_PATCH_COLOR) then Some 16%nat
  else if (ty =? ObjectTypes.BEZIER_TRIANGLE) || (ty =? ObjectTypes.BEZIER_TRIANGLE_COLOR)
    then Some 10%nat
  else if ty =? ObjectTypes.CURVE then Some 4%nat
  else if ty =? ObjectTypes.LINE then Some 2%nat
  else None.

(** The bytes [bs] end before a value that the constructor of [ty] compares. *)
Definition cut_short (dp ty : Z) (bs : list Byte.byte) : Prop :=
  if ty =? ObjectTypes.TRIANGLES then group_cut dp bs
  else match bound_points ty with
       | Some n => (length bs < n * point_size dp)%nat
       | None => False
       end.

Section Spans.
Context {S : Type} `{XdrInOk S}.

(** An open stream in double precision mode. *)
Definition ready (x : ixstream S) : Prop :=
  inside x /\ is_Some (xi_buf x) /\ xi_single x = false.

(** What is left to read. *)
Definition rest (x : ixstream S) : list Byte.byte :=
  match xi_buf x with Some f => in_rest f | None => [] end.

Lemma remaining_rest x : remaining x = length (rest x).
Proof. unfold remaining, rest. by destruct (xi_buf x). Qed.

(** [m] returns, [n] bytes further on or at the end, with a value that is
    [P] exactly when those bytes were there. *)
Definition spans {A} (n : nat) (m : M S A) (P : list Byte.byte -> A -> Prop) : Prop :=
  forall x, ready x -> exists a x', m x = Ret (a, x') /\ ready x' /\ rest x' = drop n (rest x) /\
    P (rest x) a.

Lemma tame_ready {A} (m : M S A) x a x' : tame m -> ready x -> m x = Ret (a, x') -> ready x'.
Proof.
  intros Ht (Hx & Ho & Hs) E. specialize (Ht x Hx). rewrite E in Ht.
  destruct Ht as (_ & Hb & Hs' & _ & Hx'). split_and!; [done | by apply Hb | congruence].
Qed.

Lemma spans_extract {R A} n (dec : list Byte.byte -> R) op (conv : R -> A) old :
  decodes n dec op ->
  spans n (extract op conv old)
    (fun bs a => a = if decide (n <= length bs)%nat then conv (dec (take n bs)) else old).
Proof.
  intros Hop x Hx. pose proof Hx as (_ & [f Hf] & _).
  destruct (extract_cases n dec op conv old x f Hop Hf) as (f' & _ & Hc).
  assert (Hrest : rest x = in_rest f) by (unfold rest; by rewrite Hf).
  rewrite remaining_rest in Hc. rewrite Hrest in *.
  case_decide as Hn; [destruct Hc as (E & Hr & _)|destruct Hc as (E & Hr)];
    (eexists _, _; split; [exact E|]; split; [by eapply tame_ready; [by eapply (tame_extract n dec op conv old)| |]|]);
    (split; [|done]); cbn; rewrite Hr; [done|]. symmetry. apply drop_ge. lia.
Qed.

Lemma spans_weaken {A} n (m : M S A) (P Q : list Byte.byte -> A -> Prop) :
  spans n m P -> (forall bs a, P bs a -> Q bs a) -> spans n m Q.
Proof. intros Hm HPQ x Hx. destruct (Hm x Hx) as (a & x' & ? & ? & ? & ?). eauto 10. Qed.

Lemma spans_ret {A} (a : A) : spans 0 (ret a) (fun _ b => b = a).
Proof. intros x Hx. exists a, x. by rewrite drop_0. Qed.

Lemma spans_bind {A B} n1 n2 (m : M S A) (k : A -> M S B) P Q (R : list Byte.byte -> B -> Prop) :
  spans n1 m P -> (forall a, spans n2 (k a) (Q a)) ->
  (forall bs a b, P bs a -> Q a (drop n1 bs) b -> R bs b) ->
  spans (n1 + n2) (m >>= k) R.
Proof.
  intros Hm Hk HR x Hx. destruct (Hm x Hx) as (a & x1 & E1 & Hx1 & Hr1 & HP).
  destruct (Hk a x1 Hx1) as (b & x2 & E2 & Hx2 & Hr2 & HQ).
  exists b, x2. unfold bind. rewrite E1. split_and!; [done..| |].
  - by rewrite Hr2, Hr1, drop_drop.
  - rewrite Hr1 in HQ. by apply (HR _ a).
Qed.

(** Readers whose value does not matter. *)
Definition skips {A} (n : nat) (m : M S A) : Prop := spans n m (fun _ _ => True).

Lemma skips_bind {A B} n1 n2 (m : M S A) (k : A -> M S B) :
  skips n1 m -> (forall a, skips n2 (k a)) -> skips (n1 + n2) (m >>= k).
Proof. intros Hm Hk. by apply (spans_bind n1 n2 m k (fun _ _ => True) (fun _ _ _ => True)). Qed.

Lemma skips_extract {R A} n (dec : list Byte.byte -> R) op (conv : R -> A) old :
  decodes n dec op -> skips n (extract op conv old).
Proof. intros. eapply spans_weaken; [by apply spans_extract | done]. Qed.

Lemma skips_times {A} n k (m : M S A) : skips n m -> skips (k * n) (times k m).
Proof.
  intros Hm. induction k as [|k IH]; cbn; [eapply spans_weaken; [apply spans_ret|done]|].
  apply skips_bind; [done|]. intros a. rewrite <- (Nat.add_0_r (k * n)).
  apply skips_bind; [done|]. intros l. eapply spans_weaken; [apply spans_ret|done].
Qed.

(** Readers whose value is determinate ([P]) exactly when it was read. *)
Definition yields {A} (n : nat) (m : M S A) (P : A -> Prop) : Prop :=
  spans n m (fun bs a => P a <-> (n <= length bs)%nat).

Lemma yields_extract {R A} n (dec : list Byte.byte -> R) op (conv : R -> A) :
  decodes n dec op -> yields n (extract op (fun v => Some (conv v)) None) is_Some.
Proof.
  intros Hop. eapply spans_weaken; [by apply spans_extract|]. cbn. intros bs a ->.
  case_decide; split; eauto; [|lia]. by intros [].
Qed.

Lemma yields_map {A B} n (m : M S (option A)) (g : A -> B) :
  yields n m is_Some -> yields n (a <- m;; ret (g <$> a)) is_Some.
Proof.
  intros Hm. rewrite <- (Nat.add_0_r n). eapply spans_bind; [exact Hm | intros; apply spans_ret |].
  cbn. intros bs a b Ha ->. rewrite Nat.add_0_r, <- Ha. apply fmap_is_Some.
Qed.

Lemma yields_readReal dp : yields (real_size dp) (readReal dp) is_Some.
Proof.
  assert (Hf : yields 4 (f <- flt;; ret (double_of_float <$> f)) is_Some).
  { apply yields_map. apply (yields_extract 4 be_value xdr_float), float_decodes. }
  unfold real_size, readReal. destruct (dp =? 0); cbn [negb]; [exact Hf|].
  intros x Hx. pose proof Hx as (_ & _ & Hs). unfold get_double. rewrite Hs.
  by apply (yields_extract 8 be_value xdr_double f64_of_bits double_decodes).
Qed.

Lemma yields_triple dp : yields (point_size dp) (read_triple dp) det_triple.
Proof.
  intros x Hx. unfold read_triple, bind, ret, point_size.
  destruct (yields_readReal dp x Hx) as (a & x1 & -> & Hx1 & Hr1 & Ha).
  destruct (yields_readReal dp x1 Hx1) as (b & x2 & -> & Hx2 & Hr2 & Hb).
  destruct (yields_readReal dp x2 Hx2) as (c & x3 & -> & Hx3 & Hr3 & Hc).
  eexists _, x3. split; [done|]. split; [done|].
  rewrite Hr3, Hr2, Hr1, !drop_drop. rewrite Hr2, Hr1 in Hc. rewrite Hr1 in Hb.
  rewrite !length_drop in *. unfold det_triple; cbn. rewrite Ha, Hb, Hc.
  split; [f_equal|]; lia.
Qed.

Lemma yields_times {A} n k (m : M S A) P :
  yields n m P -> yields (k * n) (times k m) (Forall P).
Proof.
  intros Hm. induction k as [|k IH]; cbn.
  { eapply spans_weaken; [apply spans_ret|]. cbn. intros bs l ->. split; [lia|constructor]. }
  intros x Hx. unfold bind, ret.
  destruct (Hm x Hx) as (a & x1 & -> & Hx1 & Hr1 & Ha).
  destruct (IH x1 Hx1) as (l & x2 & -> & Hx2 & Hr2 & Hl).
  eexists _, x2. split; [done|]. split; [done|].
  rewrite Hr2, Hr1, drop_drop. split; [done|].
  rewrite Hr1, length_drop in Hl. rewrite Forall_cons, Ha, Hl. lia.
Qed.

(** *** Constructors that compute bounds *)

(** [m] returns exactly when the points [cps] are determinate. *)
Definition decided_by (cps : list TRIPLE) (m : M S V3dObject) : Prop :=
  forall x, ready x -> m x = Undef <-> ~ Forall det_triple cps.

Lemma determinate_det cps : is_Some (mapM determinate cps) <-> Forall det_triple cps.
Proof.
  rewrite mapM_is_Some. apply Forall_iff. intros [[[x|] [y|]] [z|]]; cbn; unfold det_triple; cbn;
    split; (by intros [? [=]]) || (by intros ([] & [] & [])) || eauto 10.
Qed.

Lemma decided_bounds ty ci mi f cps sh : decided_by cps (bounded_object ty ci mi f cps sh).
Proof.
  intros x _. rewrite <- determinate_det. unfold bounded_object, bind, ret, need.
  destruct (mapM determinate cps); split; try done.
  intros Hn. destruct Hn. eauto.
Qed.

Lemma decided_bind {A} n (m : M S A) k cps :
  skips n m -> (forall a, decided_by cps (k a)) -> decided_by cps (m >>= k).
Proof.
  intros Hm Hk x Hx. destruct (Hm x Hx) as (a & x' & E & Hx' & _). unfold bind. rewrite E. by apply Hk.
Qed.

Lemma skips_u32 : skips 4 (u32 (S := S)).
Proof. eapply skips_extract, u_int32_decodes. Qed.
Lemma skips_flt : skips 4 (flt (S := S)).
Proof. eapply skips_extract, float_decodes. Qed.
Lemma skips_rgba : skips 16 (read_rgba (S := S)).
Proof. unfold read_rgba. do 4 (apply (skips_bind 4); [apply skips_flt|]; intros). eapply spans_weaken; [apply spans_ret|done]. Qed.

Lemma decided_points dp n (k : list TRIPLE -> M S V3dObject) x :
  ready x -> (forall cps, decided_by cps (k cps)) ->
  (times n (read_triple dp) >>= k) x = Undef <-> (length (rest x) < n * point_size dp)%nat.
Proof.
  intros Hx Hk. destruct (yields_times _ n _ _ (yields_triple dp) x Hx) as (cps & x1 & E & Hx1 & _ & Hd).
  unfold bind. rewrite E, (Hk cps x1 Hx1), Hd. lia.
Qed.

Lemma bounded_constructor dp ty n ctor x :
  bound_points ty = Some n -> constructor_of dp ty = Some ctor -> ready x ->
  ctor x = Undef <-> (length (rest x) < n * point_size dp)%nat.
Proof.
  unfold bound_points. intros Hn Hc Hx.
  assert (Htail : forall (w : list TRIPLE -> UINT -> UINT -> M S V3dObject),
    (forall cps ci mi, decided_by cps (w cps ci mi)) ->
    forall cps, decided_by cps (ci <- u32;; mi <- u32;; w cps ci mi)).
  { intros w Hw cps. do 2 (eapply decided_bind; [apply skips_u32|]; intros). apply Hw. }
  unfold constructor_of in Hc.
  repeat (case_match; zbool; subst; try discriminate); injection Hn as <-; injection Hc as <-;
    apply decided_points; try done; apply Htail; intros; try apply decided_bounds;
    (eapply decided_bind; [apply skips_times, skips_rgba|]; intros; apply decided_bounds).
Qed.

(** *** Triangle groups *)

Lemma word_at_drop n bs o : word_at (drop n bs) o = word_at bs (n + o).
Proof.
  unfold word_at. rewrite length_drop, drop_drop.
  repeat case_decide; (done || lia).
Qed.

Lemma word_read {A} (conv : Z -> A) old x :
  ready x -> exists x', get_u32 conv old x =
      Ret (match word_at (rest x) 0 with Some v => conv v | None => old end, x') /\
    ready x' /\ rest x' = drop 4 (rest x).
Proof.
  intros Hx. destruct (spans_extract 4 be_value _ conv old u_int32_decodes x Hx)
    as (a & x' & E & Hx' & Hr & ->). exists x'. split; [|done]. unfold get_u32. rewrite E.
  unfold word_at. rewrite drop_0. repeat case_decide; (done || lia).
Qed.

Lemma skips_triples dp n : skips (n * point_size dp) (times n (read_triple dp)).
Proof. apply skips_times. eapply spans_weaken; [apply yields_triple|done]. Qed.

Lemma skips_indices0 : skips 12 (read_indices0 (S := S)).
Proof.
  unfold read_indices0; cbv zeta.
  do 3 (apply (skips_bind 4); [eapply skips_extract, u_int32_decodes|]; intros).
  eapply spans_weaken; [apply spans_ret|done].
Qed.

Lemma skips_rgba0 : skips 16 (read_rgba0 (S := S)).
Proof.
  unfold read_rgba0; cbv zeta.
  do 4 (apply (skips_bind 4); [eapply skips_extract, float_decodes|]; intros).
  eapply spans_weaken; [apply spans_ret|done].
Qed.

(** The index loop depends on [explicitCI] only when there are colours. *)
Lemma safe_triangle e nC eci :
  (0 < nC -> is_Some eci) -> safe (read_triangle (S := S) (Some e) nC eci).
Proof.
  intros Hc. assert (forall b (p : UINT * UINT * UINT), safe (if b : bool then read_indices0 else ret p)) as Hi.
  { intros [] p; unfold read_indices0; safe. }
  unfold read_triangle. apply safe_bind; [tame | unfold read_indices0; safe |]. intros p.
  apply safe_bind; [tame | apply safe_ret |]. intros e'.
  apply safe_bind; [tame | apply Hi |]. intros n.
  apply safe_bind; [tame | | intros; apply safe_ret].
  destruct (0 <? nC) eqn:Hn; [|apply safe_ret]. zbool. destruct (Hc Hn) as [c ->].
  apply safe_bind; [tame | apply safe_ret |]. intros c'. apply Hi.
Qed.

Lemma triangle_undef e nC x :
  ready x -> 0 < nC -> read_triangle (Some e) nC None x = Undef.
Proof.
  intros Hx Hn. unfold read_triangle, bind at 1.
  destruct (skips_indices0 x Hx) as (p & x1 & -> & Hx1 & _). cbn [need]. unfold bind at 1. cbn [need].
  rewrite (proj2 (Z.ltb_lt _ _) Hn). unfold bind at 1.
  destruct (negb (e =? 0)); [|done].
  destruct (skips_indices0 x1 Hx1) as (n & x2 & -> & _). done.
Qed.

(** The index loop and the two indices of the object. *)
Lemma indices_undef {A} e nC eci nI (k : list (UINT * UINT * UINT * (UINT * UINT * UINT) * (UINT * UINT * UINT)) -> M S A) x :
  ready x -> (forall idx, safe (k idx)) ->
  (times (Z.to_nat nI) (read_triangle (Some e) nC eci) >>= k) x = Undef <->
  0 < nI /\ 0 < nC /\ eci = None.
Proof.
  intros Hx Hk. pose proof Hx as (Hi & Ho & _).
  destruct (decide (0 < nC /\ eci = None)) as [[Hn ->]|Hno].
  - destruct (Z.to_nat nI) as [|n] eqn:En; cbn.
    + destruct (Hk [] x Hi Ho) as (a & x' & E). unfold bind, ret. rewrite E. split; [done|lia].
    + unfold bind at 1 2. rewrite triangle_undef by done. split; [|done]. intros _. split_and!; (done || lia).
  - assert (0 < nC -> is_Some eci) as Hc by (intros ?; destruct eci; [eauto|tauto]).
    assert (safe (times (Z.to_nat nI) (read_triangle (Some e) nC eci) >>= k)) as Hs.
    { apply safe_bind; [tame | apply safe_times; [tame | by apply safe_triangle] | done]. }
    destruct (Hs x Hi Ho) as (a & x' & ->). split; [done|tauto].
Qed.
End Spans.

Section Groups.
Context {S : Type} `{XdrInOk S}.

Lemma group_undef dp (x : ixstream S) :
  ready x -> V3dTriangleGroup dp x = Undef <-> group_cut dp (rest x).
Proof.
  intros Hx. unfold V3dTriangleGroup, group_cut, u32.
  unfold bind at 1. destruct (word_read id 0 x Hx) as (x1 & -> & Hx1 & R1).
  unfold bind at 1. destruct (word_read id 0 x1 Hx1) as (x2 & -> & Hx2 & R2).
  rewrite R1, drop_drop in R2. rewrite R1, word_at_drop.
  change (4 + 4)%nat with 8%nat in R2. change (4 + 0)%nat with 4%nat.
  set (bs := rest x) in *. cbv zeta.
  change (match word_at bs 0 with Some v => id v | None => 0 end) with (default 0 (word_at bs 0)).
  change (match word_at bs 4 with Some v => id v | None => 0 end) with (default 0 (word_at bs 4)).
  set (nI := default 0 (word_at bs 0)). set (nP := default 0 (word_at bs 4)).
  destruct ((maxCount <? nI) || (maxCount <? nP)) eqn:Hc.
  { apply orb_true_iff in Hc. split; [done|]. intros (? & ? & _). zbool. lia. }
  apply orb_false_iff in Hc as [HI HP]. zbool.
  unfold bind at 1. destruct (skips_triples dp (Z.to_nat nP) x2 Hx2) as (ps & x3 & -> & Hx3 & R3 & _).
  rewrite R2, drop_drop in R3. set (o1 := (8 + Z.to_nat nP * point_size dp)%nat) in *.
  unfold bind at 1. destruct (word_read id 0 x3 Hx3) as (x4 & -> & Hx4 & R4).
  rewrite R3, drop_drop in R4. rewrite R3, word_at_drop, Nat.add_0_r.
  change (match word_at bs o1 with Some v => id v | None => 0 end) with (default 0 (word_at bs o1)).
  fold (capped_count (default 0 (word_at bs o1))). set (nN := capped_count _).
  unfold bind at 1. destruct (skips_triples dp (Z.to_nat nN) x4 Hx4) as (ns & x5 & -> & Hx5 & R5 & _).
  rewrite R4, drop_drop in R5.
  unfold bind at 1. destruct (word_read Some None x5 Hx5) as (x6 & -> & Hx6 & R6).
  rewrite R5, drop_drop in R6. rewrite R5, word_at_drop.
  unfold bind at 1. destruct (word_read Some None x6 Hx6) as (x7 & -> & Hx7 & R7).
  rewrite R6, drop_drop in R7. rewrite R6, word_at_drop.
  replace (o1 + 4 + Z.to_nat nN * point_size dp + 4 + 0)%nat
    with (o1 + 8 + Z.to_nat nN * point_size dp)%nat by lia.
  set (o2 := (o1 + 8 + Z.to_nat nN * point_size dp)%nat).
  destruct (word_at bs o2) as [nC0|] eqn:EC; [|by split].
  assert (exists e, word_at bs (o1 + 4 + Z.to_nat nN * point_size dp + 0) = Some e) as [e Ee].
  { destruct (word_at bs (o1 + 4 + _ + 0)) eqn:E; [eauto|]. exfalso.
    unfold word_at in *. repeat case_decide; (done || lia). }
  rewrite Ee. unfold bind at 1; cbn [need].
  change (if maxCount <? nC0 then 0 else nC0) with (capped_count nC0). set (nC := capped_count nC0).
  assert (Hk : forall cols eci idx, safe (S := S) (ci <- get_u32 Some None;; mi <- get_u32 Some None;;
    ret (plain ObjectTypes.TRIANGLES ci mi
      (Triangles (mkTriangleGroup nI nP ps (Some nN) ns (Some e) (Some nC) cols eci
         ((fun t : UINT * UINT * UINT * (UINT * UINT * UINT) * (UINT * UINT * UINT) => t.1.1) <$> idx)
         ((fun t => t.1.2) <$> idx) ((fun t => t.2) <$> idx)))))) by safe.
  unfold bind at 1. destruct (0 <? nC) eqn:HC; zbool.
  - unfold bind at 1.
    destruct (skips_times 16 (Z.to_nat nC) _ skips_rgba0 x7 Hx7) as (cols & x8 & -> & Hx8 & R8 & _).
    rewrite R7, drop_drop in R8.
    unfold bind at 1. destruct (word_read Some None x8 Hx8) as (x9 & -> & Hx9 & _).
    rewrite R8, word_at_drop. unfold ret at 1.
    rewrite (indices_undef e nC _ nI _ x9 Hx9 (Hk cols _)).
    replace (o1 + 4 + Z.to_nat nN * point_size dp + 4 + 4 + Z.to_nat nC * 16 + 0)%nat
      with (o2 + 4 + Z.to_nat nC * 16)%nat by (unfold o2; lia).
    destruct (word_at bs (o2 + 4 + Z.to_nat nC * 16)); split; intros; destruct_and!; by split_and?.
  - unfold ret at 1. rewrite (indices_undef e nC None nI _ x7 Hx7 (Hk [] _)). split; intros; lia.
Qed.

Lemma bind_continue_undef {A B} (m : M S A) (g : A -> B) x :
  (a <- m;; continue (g a)) x = Undef <-> m x = Undef.
Proof. unfold bind, continue, ret. by destruct (m x) as [[]| |]. Qed.

(** One iteration of the loop of [load] is undefined exactly when its object
    is cut short. *)
Lemma load_object_undef version dp ty f (x : ixstream S) :
  ready x -> load_object version dp ty f x = Undef <-> cut_short dp ty (rest x).
Proof.
  intros Hx. unfold cut_short. destruct (Z.eqb_spec ty ObjectTypes.TRIANGLES) as [->|Ht].
  { rewrite <- group_undef by done. apply bind_continue_undef. }
  destruct (bound_points ty) as [n|] eqn:Hn.
  - assert (exists ctor, constructor_of dp ty = Some ctor /\
      load_object version dp ty f = (o <- ctor;; continue (push_object o f))) as (ctor & Hc & ->).
    { unfold bound_points in Hn. repeat case_match; zbool; try done;
        repeat match goal with H : orb _ _ = true |- _ => apply orb_true_iff in H as [H|H] end;
        zbool; subst; by eexists. }
    rewrite bind_continue_undef. by apply (bounded_constructor dp ty n).
  - destruct (safe_load_object version dp ty f) with (x := x) as (r & x' & ->); [|apply Hx..|done].
    unfold copies, bound_points in *. cbn [existsb]. intros Hc. apply negb_false_iff in Hc.
    rewrite (proj2 (Z.eqb_neq _ _) Ht) in Hc. cbn [orb] in Hc. exfalso.
    repeat (case_match; [done|]). repeat match goal with H : orb _ _ = false |- _ => apply orb_false_iff in H as [? H] end.
    repeat match goal with H : (ty =? _) = false |- _ => rewrite H in Hc; clear H end. done.
Qed.
End Groups.

(** ** The loop *)

Section Reaches.
Context {S : Type} `{XdrIn S}.

(** From the file [f] and the stream [x], the loop of [load] comes to an
    object of type [ty], with [f'] parsed so far and the stream [x'] after the
    type; every object in between was read to its end. *)
Inductive reaches (version dp : Z) : V3dFile -> ixstream S -> Z -> V3dFile -> ixstream S -> Prop :=
| reaches_here f x ty x1 :
    u32 x = Ret (Some ty, x1) -> good x1 = true -> reaches version dp f x ty f x1
| reaches_next f x ty x1 f1 x2 ty' f' x' :
    u32 x = Ret (Some ty, x1) -> good x1 = true ->
    load_object version dp ty f x1 = Ret ((f1, false), x2) ->
    reaches version dp f1 x2 ty' f' x' ->
    reaches version dp f x ty' f' x'.

(** [load] on the stream [x] begins an object of type [ty] at [x']: the
    version and the precision were read before it. *)
Inductive begins (x : ixstream S) (version dp ty : Z) (f : V3dFile) (x' : ixstream S) : Prop :=
| begins_object x1 x2 :
    u32 x = Ret (Some version, x1) -> good x1 = true -> 1 <= version ->
    u32 x1 = Ret (Some dp, x2) -> good x2 = true ->
    reaches version dp (mkFile (Some version) (Some dp) [] [] [] defaultHeader) x2 ty f x' ->
    begins x version dp ty f x'.
End Reaches.

(** Two accounts of the same read agree. *)
Ltac same_read :=
  repeat match goal with
  | H1 : ?m = Ret _, H2 : ?m = Ret _ |- _ => rewrite H1 in H2; simplify_eq/=
  end.

Section Undefined.
Context {S : Type} `{XdrInOk S}.

Lemma ready_u32 (x : ixstream S) v x1 : ready x -> u32 x = Ret (v, x1) -> ready x1.
Proof. apply tame_ready, tame_get_u32. Qed.

Lemma load_loop_undef fuel version dp f (x : ixstream S) :
  ready x -> (remaining x < fuel)%nat ->
  load_loop fuel version dp f x = Undef <->
  exists ty f' x', reaches version dp f x ty f' x' /\ cut_short dp ty (rest x').
Proof.
  revert f x. induction fuel as [|fuel IH]; intros f x Hx Hf; [lia|]. cbn.
  unfold bind at 1 2, stream_good.
  destruct (checked_word x (proj1 Hx) (proj1 (proj2 Hx))) as (t & x1 & E & _ & _ & Ht). rewrite E.
  pose proof (ready_u32 x t x1 Hx E) as Hx1.
  destruct (good x1) eqn:Hg; cbn.
  2:{ split; [done|]. intros (ty & f' & x' & Hr & _). destruct Hr; same_read; congruence. }
  destruct (Ht eq_refl) as (ty & -> & _ & Hr). cbn. unfold bind at 1. cbn. unfold bind.
  pose proof (load_object_undef version dp ty f x1 Hx1) as Hu.
  pose proof (tame_load_object version dp ty f x1 (proj1 Hx1)) as Hl.
  destruct (load_object version dp ty f x1) as [[[f1 s] x2]| |] eqn:El; [| |done].
  - assert (Hx2 : ready x2) by (by eapply tame_ready; [apply tame_load_object| |]).
    destruct Hl as (Hr2 & _). cbn. destruct s.
    + split; [done|]. intros (ty' & f' & x' & Hre & Hcut).
      inversion Hre; subst; same_read. by apply Hu in Hcut.
    + rewrite (IH f1 x2 Hx2) by lia. split; intros (ty' & f' & x' & Hre & Hcut).
      * exists ty', f', x'. split; [by eapply reaches_next|done].
      * exists ty', f', x'. split; [|done].
        inversion Hre; subst; same_read; [by apply Hu in Hcut|done].
  - split; [|done]. intros _. exists ty, f, x1. split; [by constructor | by apply Hu].
Qed.

Lemma load_undef fuel (x : ixstream S) :
  ready x -> (remaining x < fuel)%nat ->
  load fuel x = Undef <->
  exists version dp ty f x', begins x version dp ty f x' /\ cut_short dp ty (rest x').
Proof.
  intros Hx Hf. unfold load. unfold bind at 1 2, stream_good.
  destruct (checked_word x (proj1 Hx) (proj1 (proj2 Hx))) as (v & x1 & E & _ & _ & Ht). rewrite E.
  pose proof (ready_u32 x v x1 Hx E) as Hx1. cbv zeta.
  destruct (good x1) eqn:Hg1; cbn [negb].
  2:{ split; [done|]. intros (? & ? & ? & ? & ? & Hb & _). destruct Hb; same_read; congruence. }
  destruct (Ht eq_refl) as (version & -> & _ & Hr1). unfold bind at 1. cbn [need].
  destruct (Z.ltb_spec version 1) as [Hv|Hv].
  { split; [done|]. intros (? & ? & ? & ? & ? & Hb & _). destruct Hb; same_read. lia. }
  unfold bind at 1 2, stream_good.
  destruct (checked_word x1 (proj1 Hx1) (proj1 (proj2 Hx1))) as (d & x2 & E2 & _ & _ & Hd). rewrite E2.
  pose proof (ready_u32 x1 d x2 Hx1 E2) as Hx2.
  destruct (good x2) eqn:Hg2; cbn [negb].
  2:{ split; [done|]. intros (? & ? & ? & ? & ? & Hb & _). destruct Hb; same_read; congruence. }
  destruct (Hd eq_refl) as (dp & -> & _ & Hr2). unfold bind at 1. cbn [need].
  pose proof (load_loop_undef fuel version dp
    (mkFile (Some version) (Some dp) [] [] [] defaultHeader) x2 Hx2 ltac:(lia)) as Hl.
  transitivity (load_loop fuel version dp
    (mkFile (Some version) (Some dp) [] [] [] defaultHeader) x2 = Undef).
  { unfold bind, close. by destruct (load_loop fuel version dp _ x2) as [[]| |]. }
  rewrite Hl. split.
  - intros (ty & f & x' & Hre & Hcut). exists version, dp, ty, f, x'. split; [|done]. by econstructor.
  - intros (version' & dp' & ty & f & x' & Hb & Hcut). exists ty, f, x'. destruct Hb; same_read; done.
Qed.
End Undefined.

(** ** Properties *)

(** C2: Loading terminates on every file, whatever its bytes, and it is
    defined unless the file ends inside an object whose constructor compares
    what it read: [V3dFile(fileName)] depends on an uninitialised value exactly
    when the loop comes to a Bezier patch (16 control points), a Bezier
    triangle (10), a curve (4) or a line (2) with fewer bytes left than these
    points take, or to a triangle group, with counts within the cap, that ends
    before [nC] or, when it has triangles and colours, before [explicitCI]. *)
Theorem load_total data :
  load_file (Some (mkFILE data 0 None)) <> NoFuel /\
  (load_file (Some (mkFILE data 0 None)) = Undef <->
   exists version dp ty f x,
     begins (opened data) version dp ty f x /\ cut_short dp ty (rest x)).
Proof.
  split; [apply load_file_fuel|]. apply load_undef; [|apply Nat.lt_succ_diag_r].
  split_and!; [apply inside_opened | cbn; eauto | done].
Qed.
