(* ===== verification/RoundTrip.v ===== *)
(** * Round trip of v3d files

    What asymptote writes ([V3dWrite]) is what the viewer loads ([V3dLoad]):
    every header, material, object and center arrives with the values it was
    written with (rounded to single precision when the file is).  The one
    exception is a triangle group with its own colour indices, which
    [addTriangles] writes inconsistently ([explicit_colours_misread]). *)

From S2P Require Import Prelude Ieee Xstream Bound IblName V3dData V3dWrite V3dLoad LoadSafety.
Import Stdio.

(** ** Values as they come back *)

Definition dpflag (sp : bool) : Z := if sp then 0 else 1.

(** A [double] that the chosen precision can represent as a datum of its
    format, and its value after the round trip. *)
Definition real_ok (sp : bool) (v : float64) : Prop :=
  if sp then valid32 (float_of_double v) = true else valid64 v = true.
Definition stored (sp : bool) (v : float64) : float64 :=
  if sp then double_of_float (float_of_double v) else v.

Definition triple_ok (sp : bool) (t : triple) : Prop :=
  real_ok sp (tx t) /\ real_ok sp (ty t) /\ real_ok sp (tz t).
Definition stored_triple (sp : bool) (t : triple) : TRIPLE :=
  triple_of (stored sp (tx t)) (stored sp (ty t)) (stored sp (tz t)).
Definition stored_point (sp : bool) (t : triple) : triple :=
  mkTriple (stored sp (tx t)) (stored sp (ty t)) (stored sp (tz t)).

Lemma determinate_stored sp l :
  mapM determinate (stored_triple sp <$> l) = Some (stored_point sp <$> l).
Proof. induction l as [|t l IH]; [done|]. cbn. by rewrite IH. Qed.

Definition pair_ok (sp : bool) (p : pair) : Prop := real_ok sp (px p) /\ real_ok sp (py p).
Definition stored_pair (sp : bool) (p : pair) : PAIR :=
  (Some (stored sp (px p)), Some (stored sp (py p))).

Definition colour_ok (c : RGBAColour) : Prop :=
  valid32 (float_of_double (colR c)) = true /\ valid32 (float_of_double (colG c)) = true /\
  valid32 (float_of_double (colB c)) = true /\ valid32 (float_of_double (colA c)) = true.
Definition stored_colour (c : RGBAColour) : RGBA :=
  rgba_of (float_of_double (colR c)) (float_of_double (colG c))
    (float_of_double (colB c)) (float_of_double (colA c)).

Definition vec4_ok (v : vec4) : Prop :=
  valid32 v.1.1.1 = true /\ valid32 v.1.1.2 = true /\ valid32 v.1.2 = true /\ valid32 v.2 = true.
Definition stored_vec4 (v : vec4) : RGBA := rgba_of v.1.1.1 v.1.1.2 v.1.2 v.2.

Definition indices_ok (i : Z * Z * Z) : Prop :=
  in_range 32 i.1.1 /\ in_range 32 i.1.2 /\ in_range 32 i.2.
Definition stored_indices (i : Z * Z * Z) : UINT * UINT * UINT :=
  (Some i.1.1, Some i.1.2, Some i.2).

Section Codec.
Context {Out In : Type} `{XdrOutOk Out} `{XdrInOk In}.

(** What [w] writes in precision [sp], [m] reads as [a]. *)
Definition codec {A} (sp : bool) (w : W Out) (m : M In A) (a : A) : Prop :=
  exists bs, writes sp w bs /\ reads m bs a.

Lemma codec_bind {A B} sp w1 w2 (m : M In A) (k : A -> M In B) a b :
  codec sp w1 m a -> codec sp w2 (k a) b -> codec sp (w1 <;> w2) (bind m k) b.
Proof.
  intros (bs1 & W1 & R1) (bs2 & W2 & R2). exists (bs1 ++ bs2).
  split; [by apply writes_seq | by eapply reads_bind].
Qed.

Lemma codec_last {A B} sp w (m : M In A) (k : A -> M In B) a b :
  codec sp w m a -> reads (k a) [] b -> codec sp w (bind m k) b.
Proof. intros (bs & Hw & Hr) Hk. exists bs. split; [done | by eapply reads_bind_last]. Qed.

Lemma codec_pure {A B} sp w (m : M In A) (k : A -> M In B) a b :
  reads m [] a -> codec sp w (k a) b -> codec sp w (bind m k) b.
Proof. intros Hm (bs & Hw & Hr). exists bs. split; [done | by eapply reads_bind_nil]. Qed.

Lemma codec_skip {A} sp (m : M In A) a : reads m [] a -> codec sp wskip m a.
Proof. exists []. split; [apply writes_skip | done]. Qed.

Lemma wseq_assoc (w1 w2 w3 : W Out) o : ((w1 <;> w2) <;> w3) o = (w1 <;> w2 <;> w3) o.
Proof. unfold wseq. by destruct (w1 o). Qed.

Lemma codec_assoc {A} sp (w1 w2 w3 : W Out) (m : M In A) a :
  codec sp (w1 <;> w2 <;> w3) m a -> codec sp ((w1 <;> w2) <;> w3) m a.
Proof.
  intros (bs & Hw & Hr). exists bs. split; [|done].
  intros o f Ho Hs. rewrite wseq_assoc. by apply Hw.
Qed.

Lemma codec_list {A B} sp (w : A -> W Out) (m : M In B) (st : A -> B) l :
  (forall a, a ∈ l -> codec sp (w a) m (st a)) ->
  codec sp (wlist w l) (times (length l) m) (st <$> l).
Proof.
  intros Hw. induction l as [|a l IH]; [apply codec_skip, reads_ret|]. cbn.
  eapply codec_bind; [apply Hw; by left|].
  eapply codec_last; [apply IH; intros; apply Hw; by right | apply reads_ret].
Qed.

(** ** Basic values *)

Lemma codec_get_u32 {A} sp (conv : Z -> A) old v :
  in_range 32 v -> codec sp (put_u32 v) (get_u32 conv old) (conv v).
Proof. intros. eexists. split; [apply writes_put_u32 | by apply reads_get_u32]. Qed.
Lemma codec_u32 sp v : in_range 32 v -> codec sp (put_u32 v) u32 (Some v).
Proof. apply codec_get_u32. Qed.
Lemma codec_u32_wrap sp v : codec sp (put_u32 (wrapw 32 v)) u32 (Some (wrapw 32 v)).
Proof. apply codec_u32, wrapw_range. lia. Qed.
Lemma codec_bool sp b : codec sp (put_bool b) u32 (Some (if b then 1 else 0)).
Proof. apply codec_u32. unfold in_range. destruct b; lia. Qed.
Lemma codec_get_float {A} sp (conv : float32 -> A) old v :
  valid32 v = true -> codec sp (put_float v) (get_float conv old) (conv v).
Proof. intros. eexists. split; [apply writes_put_float | by apply reads_get_float]. Qed.
Lemma codec_flt sp v : valid32 v = true -> codec sp (put_float v) flt (Some v).
Proof. apply codec_get_float. Qed.
Lemma codec_xbyte sp b : codec sp (put_xbyte b) get_xbyte (Some b).
Proof. eexists. split; [apply writes_put_xbyte | apply reads_get_xbyte]. Qed.

Lemma codec_real sp v :
  real_ok sp v -> codec sp (put_double v) (readReal (dpflag sp)) (Some (stored sp v)).
Proof.
  intros Hv. exists (real_bytes sp v). split; [apply writes_put_double|].
  destruct sp; unfold readReal; cbn in *.
  - eapply reads_bind_last; [by apply reads_flt | apply reads_ret].
  - by apply reads_get_double.
Qed.
End Codec.

#[export] Hint Resolve codec_u32_wrap codec_bool codec_flt codec_get_float codec_xbyte
  codec_real codec_get_u32 codec_u32 : v3d.

Lemma reads_bounded {S} `{XdrInOk S} ty ci mi f sp l sh :
  reads (bounded_object ty ci mi f (stored_triple sp <$> l) sh) []
    (with_bounds ty ci mi (f (stored_point sp <$> l)) sh).
Proof.
  unfold bounded_object. rewrite determinate_stored.
  eapply reads_bind_nil; [apply reads_need | apply reads_ret].
Qed.

(** Follows a writer and a reader of the same shape. *)
Ltac codec_step :=
  first
    [ eapply codec_bind; [solve [eauto with v3d] |]
    | eapply codec_last; [solve [eauto with v3d] |]
    | apply codec_assoc ].
Ltac codec := repeat codec_step; try apply codec_skip; try first [apply reads_ret | apply reads_bounded].

Section Values.
Context {Out In : Type} `{XdrOutOk Out} `{XdrInOk In}.

Lemma codec_triple sp t :
  triple_ok sp t ->
  codec (Out := Out) (In := In) sp (put_triple t) (read_triple (dpflag sp)) (stored_triple sp t).
Proof. intros (? & ? & ?). unfold put_triple, read_triple. codec. Qed.

Lemma codec_pair sp p :
  pair_ok sp p ->
  codec (Out := Out) (In := In) sp (put_pair p) (read_pair (dpflag sp)) (stored_pair sp p).
Proof. intros (? & ?). unfold put_pair, read_pair. codec. Qed.

Lemma codec_colour sp c :
  colour_ok c -> codec (Out := Out) (In := In) sp (put_colour c) read_rgba (stored_colour c).
Proof. intros (? & ? & ? & ?). unfold put_colour, read_rgba. codec. Qed.

Lemma codec_colour0 sp c :
  colour_ok c -> codec (Out := Out) (In := In) sp (put_colour c) read_rgba0 (stored_colour c).
Proof. intros (? & ? & ? & ?). unfold put_colour, read_rgba0; cbv zeta. codec. Qed.

Lemma codec_vec4 sp v :
  vec4_ok v -> codec (Out := Out) (In := In) sp (addvec4 v) read_rgba (stored_vec4 v).
Proof. intros (? & ? & ? & ?). unfold addvec4, read_rgba. codec. Qed.

Lemma codec_indices0 sp i :
  indices_ok i -> codec (Out := Out) (In := In) sp (addIndices i) read_indices0 (stored_indices i).
Proof. intros (? & ? & ?). unfold addIndices, read_indices0; cbv zeta. codec. Qed.

Lemma codec_triples sp n l :
  Forall (triple_ok sp) l -> length l = n ->
  codec (Out := Out) (In := In) sp (addTriples l) (times n (read_triple (dpflag sp)))
    (stored_triple sp <$> l).
Proof.
  intros Hl <-. apply codec_list. intros t Ht. apply codec_triple.
  by apply (proj1 (Forall_forall _ _) Hl).
Qed.

Lemma codec_colours sp n l :
  Forall colour_ok l -> length l = n ->
  codec (Out := Out) (In := In) sp (addColors l) (times n read_rgba) (stored_colour <$> l).
Proof.
  intros Hl <-. apply codec_list. intros t Ht. apply codec_colour.
  by apply (proj1 (Forall_forall _ _) Hl).
Qed.

Lemma codec_colours0 sp n l :
  Forall colour_ok l -> length l = n ->
  codec (Out := Out) (In := In) sp (addColors l) (times n read_rgba0) (stored_colour <$> l).
Proof.
  intros Hl <-. apply codec_list. intros t Ht. apply codec_colour0.
  by apply (proj1 (Forall_forall _ _) Hl).
Qed.
End Values.

#[export] Hint Resolve codec_triple codec_pair codec_colour codec_colour0 codec_vec4
  codec_indices0 codec_triples codec_colours codec_colours0 : v3d.

(** ** Headers *)

(** The assignment that an entry makes. *)
Definition store_header (sp : bool) (h : header) (info : V3dHeaderInfo) : V3dHeaderInfo :=
  match h with
  | Uint32Header ty v =>
      if ty =? HeaderTypes.CANVAS_WIDTH then set_canvasWidth v info
      else if ty =? HeaderTypes.CANVAS_HEIGHT then set_canvasHeight v info
      else if ty =? HeaderTypes.V3D_ABSOLUTE then set_absolute v info
      else set_orthographic v info
  | TripleHeader ty v =>
      if ty =? HeaderTypes.MIN_BOUND then set_minBound (stored_triple sp v) info
      else set_maxBound (stored_triple sp v) info
  | PairHeader ty v =>
      if ty =? HeaderTypes.VIEWPORT_SHIFT then set_viewportShift (stored_pair sp v) info
      else set_viewportMargin (stored_pair sp v) info
  | DoubleHeader ty v =>
      let r := Some (stored sp v) in
      if ty =? HeaderTypes.ANGLE_OF_VIEW then set_angleOfView r info
      else if ty =? HeaderTypes.INITIAL_ZOOM then set_initialZoom r info
      else if ty =? HeaderTypes.ZOOM_FACTOR then set_zoomFactor r info
      else if ty =? HeaderTypes.ZOOM_PINCH_FACTOR then set_zoomPinchFactor r info
      else if ty =? HeaderTypes.ZOOM_PINCH_CAP then set_zoomPinchCap r info
      else if ty =? HeaderTypes.ZOOM_STEP then set_zoomStep r info
      else if ty =? HeaderTypes.SHIFT_HOLD_DISTANCE then set_shiftHoldDistance r info
      else if ty =? HeaderTypes.SHIFT_WAIT_TIME then set_shiftWaitTime r info
      else set_vibrateTime r info
  | RGBAHeader _ c => set_background (stored_colour c) info
  | LightHeader d c =>
      set_lights (lights info ++
        [mkLight (stored_triple sp d)
           (mkRGB (Some (float_of_double (colR c))) (Some (float_of_double (colG c)))
              (Some (float_of_double (colB c))))]) info
  | StringHeader _ s => set_imageName s info
  end.

(** The types that occur with each class of header, and representable
    contents. *)
Definition header_ok (sp : bool) (h : header) : Prop :=
  match h with
  | Uint32Header ty v => in_range 32 v /\
      (ty = HeaderTypes.CANVAS_WIDTH \/ ty = HeaderTypes.CANVAS_HEIGHT \/
       ty = HeaderTypes.V3D_ABSOLUTE \/ ty = HeaderTypes.ORTHOGRAPHIC)
  | TripleHeader ty v => triple_ok sp v /\
      (ty = HeaderTypes.MIN_BOUND \/ ty = HeaderTypes.MAX_BOUND)
  | PairHeader ty v => pair_ok sp v /\
      (ty = HeaderTypes.VIEWPORT_SHIFT \/ ty = HeaderTypes.VIEWPORT_MARGIN)
  | DoubleHeader ty v => real_ok sp v /\
      (ty = HeaderTypes.ANGLE_OF_VIEW \/ ty = HeaderTypes.INITIAL_ZOOM \/
       ty = HeaderTypes.ZOOM_FACTOR \/ ty = HeaderTypes.ZOOM_PINCH_FACTOR \/
       ty = HeaderTypes.ZOOM_PINCH_CAP \/ ty = HeaderTypes.ZOOM_STEP \/
       ty = HeaderTypes.SHIFT_HOLD_DISTANCE \/ ty = HeaderTypes.SHIFT_WAIT_TIME \/
       ty = HeaderTypes.VIBRATE_TIME)
  | RGBAHeader ty c => colour_ok c /\ ty = HeaderTypes.BACKGROUND
  | LightHeader d c => triple_ok sp d /\ colour_ok c
  | StringHeader ty s => Z.of_nat (length s) <= kMaxImageName /\ ty = HeaderTypes.IMAGE
  end.

Section Headers.
Context {Out In : Type} `{XdrOutOk Out} `{XdrInOk In}.

Lemma codec_bytes sp s acc :
  codec (Out := Out) (In := In) sp (wlist put_xbyte s) (read_bytes (length s) acc) (acc ++ s, false).
Proof.
  revert acc. induction s as [|b s IH]; intros acc; cbn.
  { rewrite app_nil_r. apply codec_skip, reads_ret. }
  eapply codec_bind; [apply codec_xbyte|]. eapply codec_pure; [apply reads_stream_good|]. cbn.
  eapply codec_pure; [apply reads_need|].
  change (acc ++ b :: s) with (acc ++ [b] ++ s). rewrite app_assoc. apply IH.
Qed.

Lemma codec_padding sp (s : string) :
  let z := replicate ((length s + 3) / 4 * 4 - length s)%nat Byte.x00 in
  codec (Out := Out) (In := In) sp (wlist put_xbyte z)
    (read_bytes (Z.to_nat (padding (Z.of_nat (length s)))) []) (z, false).
Proof.
  intros z. replace (Z.to_nat (padding (Z.of_nat (length s)))) with (length z);
    [apply codec_bytes|].
  unfold z. rewrite length_replicate. unfold padding.
  change 4 with (Z.of_nat 4). change 3 with (Z.of_nat 3).
  rewrite <- Nat2Z.inj_add, <- Nat2Z.inj_div, <- Nat2Z.inj_mul. lia.
Qed.

Lemma codec_image sp s h :
  Z.of_nat (length s) <= kMaxImageName ->
  codec (Out := Out) (In := In) sp (writeContent (StringHeader HeaderTypes.IMAGE s)) (load_image h)
    (set_imageName s h, false).
Proof.
  intros Hs. unfold kMaxImageName in Hs. cbn [writeContent]. unfold load_image.
  eapply codec_bind.
  { eexists. split; [apply writes_put_u64 | apply reads_get_u64]. unfold in_range. lia. }
  eapply codec_pure; [apply reads_stream_good|]. cbn [negb].
  eapply codec_pure; [apply reads_need|].
  rewrite (proj2 (Z.ltb_ge _ _)) by (unfold kMaxImageName; lia). rewrite Nat2Z.id.
  eapply codec_bind; [apply codec_bytes|]. cbn [fst snd].
  eapply codec_last; [apply codec_padding | apply reads_ret].
Qed.

Lemma codec_light sp d c :
  triple_ok sp d -> colour_ok c ->
  codec (Out := Out) (In := In) sp
    (put_triple d <;> put_float (float_of_double (colR c)) <;>
     put_float (float_of_double (colG c)) <;> put_float (float_of_double (colB c)))
    (read_light (dpflag sp))
    (mkLight (stored_triple sp d)
      (mkRGB (Some (float_of_double (colR c))) (Some (float_of_double (colG c)))
         (Some (float_of_double (colB c))))).
Proof. intros Hd (? & ? & ? & _). unfold read_light; cbv zeta. codec. Qed.

Lemma codec_header_entry sp h len info :
  header_ok sp h ->
  codec (Out := Out) (In := In) sp (writeContent h)
    (header_entry (dpflag sp) (header_ty h) len info) (store_header sp h info, false).
Proof.
  intros Hok. destruct h; cbn [header_ok writeContent header_ty] in *.
  - destruct Hok as [Hv Hty]. repeat destruct Hty as [->|Hty]; subst; cbn;
      (eapply codec_last; [by apply codec_get_u32 | apply reads_ret]).
  - destruct Hok as [Hv Hty]. repeat destruct Hty as [->|Hty]; subst; cbn;
      (eapply codec_last; [by apply codec_triple | apply reads_ret]).
  - destruct Hok as [Hv Hty]. repeat destruct Hty as [->|Hty]; subst; cbn;
      (eapply codec_last; [by apply codec_pair | apply reads_ret]).
  - destruct Hok as [Hv Hty]. repeat destruct Hty as [->|Hty]; subst; cbn;
      (eapply codec_last; [by apply codec_real | apply reads_ret]).
  - destruct Hok as [(? & ? & ? & ?) ->]. cbn.
    apply (codec_last _ _ _ _ (set_background (stored_colour v) info)); [|apply reads_ret].
    unfold read_background; cbv zeta. unfold put_colour. codec.
  - destruct Hok as [Hd Hc]. cbn.
    eapply codec_last; [by apply (codec_light sp) | apply reads_ret].
  - destruct Hok as [Hs ->]. by apply codec_image.
Qed.

Lemma codec_headers sp hs info :
  Forall (header_ok sp) hs ->
  codec (Out := Out) (In := In) sp (wlist (put_header sp) hs) (header_loop (dpflag sp) (length hs) info)
    (fold_left (fun i h => store_header sp h i) hs info, false).
Proof.
  intros Hhs. revert info. induction Hhs as [|h hs Hh Hhs IH]; intros info; cbn.
  { apply codec_skip, reads_ret. }
  apply codec_assoc. eapply codec_bind; [apply codec_u32|].
  { unfold in_range. destruct h; cbn in Hh |- *;
      repeat match goal with
      | Hx : _ /\ _ |- _ => destruct Hx
      | Hx : _ \/ _ |- _ => destruct Hx
      end; subst; unfold HeaderTypes.LIGHT; try lia; vm_compute; split; congruence. }
  eapply codec_pure; [apply reads_stream_good|]. cbn [negb].
  apply codec_assoc. eapply codec_bind; [apply codec_u32|].
  { unfold in_range. destruct h; cbn; destruct sp; try lia; apply wrapw_range; lia. }
  eapply codec_pure; [apply reads_stream_good|]. cbn [negb].
  do 2 (eapply codec_pure; [apply reads_need|]).
  eapply codec_bind; [by apply codec_header_entry|]. cbn. apply IH.
Qed.
End Headers.

(** ** Objects *)

Definition stored_material (m : Material) : V3dMaterial :=
  let p := mat_parameters m in
  mkMaterial (stored_vec4 (mat_diffuse m)) (stored_vec4 (mat_emissive m))
    (stored_vec4 (mat_specular m)) (Some p.1.1.1) (Some p.1.1.2) (Some p.1.2) (Some p.2).

Definition index32 (i : Z) : UINT := Some (wrapw 32 i).

(** [explicitNI] as it is written. *)
Definition written_NI (PI NI : list (Z * Z * Z)) : bool := any_distinct (length PI) NI PI.

(** The object that an add function stores; colour indices are not written,
    the loader takes the position indices for them. *)
Definition object_of (sp : bool) (e : element) : option V3dObject :=
  let pts := fmap (stored_triple sp) in
  let box f l : triple * triple := f (stored_point sp <$> l) in
  let r v := Some (stored sp v) in
  match e with
  | addMaterial _ => None
  | addPatch ci mi cps None =>
      Some (with_bounds ObjectTypes.BEZIER_PATCH (index32 ci) (index32 mi)
        (box computeBezierPatchBounds cps) (BezierPatch (pts cps)))
  | addPatch ci mi cps (Some cols) =>
      Some (with_bounds ObjectTypes.BEZIER_PATCH_COLOR (index32 ci) (index32 mi)
        (box computeBezierPatchBounds cps)
        (BezierPatchWithCornerColors (pts cps) (stored_colour <$> cols)))
  | addStraightPatch ci mi vs None =>
      Some (plain ObjectTypes.QUAD (index32 ci) (index32 mi) (StraightPlanarQuad (pts vs)))
  | addStraightPatch ci mi vs (Some cols) =>
      Some (plain ObjectTypes.QUAD_COLOR (index32 ci) (index32 mi)
        (StraightPlanarQuadWithCornerColors (pts vs) (stored_colour <$> cols)))
  | addBezierTriangle ci mi cps None =>
      Some (with_bounds ObjectTypes.BEZIER_TRIANGLE (index32 ci) (index32 mi)
        (box computeBezierTriangleBounds cps) (BezierTriangle (pts cps)))
  | addBezierTriangle ci mi cps (Some cols) =>
      Some (with_bounds ObjectTypes.BEZIER_TRIANGLE_COLOR (index32 ci) (index32 mi)
        (box computeBezierTriangleBounds cps)
        (BezierTriangleWithCornerColors (pts cps) (stored_colour <$> cols)))
  | addStraightBezierTriangle ci mi vs None =>
      Some (plain ObjectTypes.TRIANGLE (index32 ci) (index32 mi) (StraightTriangle (pts vs)))
  | addStraightBezierTriangle ci mi vs (Some cols) =>
      Some (plain ObjectTypes.TRIANGLE_COLOR (index32 ci) (index32 mi)
        (StraightTriangleWithCornerColors (pts vs) (stored_colour <$> cols)))
  | addHemisphere ci mi c rad polar azimuth =>
      Some (plain ObjectTypes.HALF_SPHERE (index32 ci) (index32 mi)
        (HemiSphere (stored_triple sp c) (r rad) (r polar) (r azimuth)))
  | addSphere ci mi c rad =>
      Some (plain ObjectTypes.SPHERE (index32 ci) (index32 mi) (Sphere (stored_triple sp c) (r rad)))
  | addCylinder ci mi c rad h polar azimuth core =>
      Some (plain ObjectTypes.CYLINDER (index32 ci) (index32 mi)
        (Cylinder (stored_triple sp c) (r rad) (r h) (r polar) (r azimuth)
           (Some (if core then 1 else 0))))
  | addDisk ci mi c rad polar azimuth =>
      Some (plain ObjectTypes.DISK (index32 ci) (index32 mi)
        (Disk (stored_triple sp c) (r rad) (r polar) (r azimuth)))
  | addTube ci mi g w core =>
      Some (plain ObjectTypes.TUBE (index32 ci) (index32 mi)
        (Tube (pts g) (r w) (Some (if core then 1 else 0))))
  | addTriangles ci mi P N C PI NI CI =>
      let idx := stored_indices <$> PI in
      let cidx := if bool_decide (length C <> 0%nat) then stored_indices <$> CI else idx in
      Some (plain ObjectTypes.TRIANGLES (index32 ci) (index32 mi)
        (Triangles (mkTriangleGroup (Z.of_nat (length PI)) (Z.of_nat (length P)) (pts P)
           (Some (Z.of_nat (length N))) (pts N) (Some (if written_NI PI NI then 1 else 0))
           (Some (Z.of_nat (length C))) (stored_colour <$> C)
           (if bool_decide (length C <> 0%nat) then Some 0 else None)
           idx (stored_indices <$> NI) cidx)))
  | addCurve ci mi z0 c0 c1 z1 =>
      let cps := [z0; c0; c1; z1] in
      Some (with_bounds ObjectTypes.CURVE (index32 ci) (index32 mi) (box curve_bounds cps)
              (BezierCurve (pts cps)))
  | addLine ci mi z0 z1 =>
      let es := [z0; z1] in
      Some (with_bounds ObjectTypes.LINE (index32 ci) (index32 mi) (box line_bounds es)
              (LineSegment (pts es)))
  | addPixel mi z0 w =>
      Some (plain ObjectTypes.PIXEL (Some 0) (index32 mi) (Pixel (stored_triple sp z0) (r w)))
  end.

(** The effect of an add function on the loaded file. *)
Definition store_element (sp : bool) (f : V3dFile) (e : element) : V3dFile :=
  match e with
  | addMaterial m => push_material (stored_material m) f
  | _ => match object_of sp e with Some o => push_object o f | None => f end
  end.

(** A patch with [n] control points and, possibly, [k] corner colours. *)
Definition patch_ok (sp : bool) (n k : nat) (cps : list triple) (c : option (list RGBAColour))
    : Prop :=
  Forall (triple_ok sp) cps /\ length cps = n /\
  match c with Some cols => Forall colour_ok cols /\ length cols = k | None => True end.

Definition triangles_ok (sp : bool) (P N : list triple) (C : list RGBAColour)
    (PI NI CI : list (Z * Z * Z)) : Prop :=
  Forall (triple_ok sp) P /\ Forall (triple_ok sp) N /\ Forall colour_ok C /\
  Forall indices_ok PI /\ Forall indices_ok NI /\
  Z.of_nat (length PI) <= maxCount /\ Z.of_nat (length P) <= maxCount /\
  Z.of_nat (length N) <= maxCount /\ Z.of_nat (length C) <= maxCount /\
  (* an index of each kind for each triangle; no colour indices of its own *)
  length NI = length PI /\
  (length C <> 0%nat -> length CI = length PI /\ any_distinct (length PI) CI PI = false).

Definition element_ok (sp : bool) (e : element) : Prop :=
  match e with
  | addMaterial m => vec4_ok (mat_diffuse m) /\ vec4_ok (mat_emissive m) /\
      vec4_ok (mat_specular m) /\ vec4_ok (mat_parameters m)
  | addPatch _ _ cps c => patch_ok sp 16 4 cps c
  | addStraightPatch _ _ cps c => patch_ok sp 4 4 cps c
  | addBezierTriangle _ _ cps c => patch_ok sp 10 3 cps c
  | addStraightBezierTriangle _ _ cps c => patch_ok sp 3 3 cps c
  | addHemisphere _ _ c r p a | addDisk _ _ c r p a =>
      triple_ok sp c /\ real_ok sp r /\ real_ok sp p /\ real_ok sp a
  | addSphere _ _ c r => triple_ok sp c /\ real_ok sp r
  | addCylinder _ _ c r h p a _ =>
      triple_ok sp c /\ real_ok sp r /\ real_ok sp h /\ real_ok sp p /\ real_ok sp a
  | addTube _ _ g w _ => Forall (triple_ok sp) g /\ length g = 4%nat /\ real_ok sp w
  | addTriangles _ _ P N C PI NI CI => triangles_ok sp P N C PI NI CI
  | addCurve _ _ z0 c0 c1 z1 => triple_ok sp z0 /\ triple_ok sp c0 /\ triple_ok sp c1 /\ triple_ok sp z1
  | addLine _ _ z0 z1 => triple_ok sp z0 /\ triple_ok sp z1
  | addPixel _ z0 w => triple_ok sp z0 /\ real_ok sp w
  end.

Section Objects.
Context {Out In : Type} `{XdrOutOk Out} `{XdrInOk In}.

Lemma any_distinct_false n a b :
  any_distinct n a b = false -> forall i, (i < n)%nat -> at_ a i = at_ b i.
Proof.
  unfold any_distinct. intros Hd i Hi.
  assert (Hnot : distinct (at_ a i) (at_ b i) = false).
  { destruct (distinct (at_ a i) (at_ b i)) eqn:E; [|done]. exfalso.
    assert (existsb (fun i => distinct (at_ a i) (at_ b i)) (seq 0 n) = true) as Ht; [|congruence].
    apply existsb_exists. exists i. split; [apply in_seq; lia|done]. }
  unfold distinct in Hnot. destruct (at_ a i) as [[x y] z], (at_ b i) as [[x' y'] z']; cbn in *.
  apply orb_false_iff in Hnot as [Hnot ?]. apply orb_false_iff in Hnot as [? ?].
  rewrite negb_false_iff in *. zbool. congruence.
Qed.

Lemma at_ok l i : Forall indices_ok l -> indices_ok (at_ l i).
Proof.
  intros Hl. unfold at_. destruct (l !! i) eqn:E; cbn.
  - by apply (Forall_lookup_1 _ _ _ _ Hl E).
  - unfold indices_ok, in_range; cbn. lia.
Qed.

Lemma at_seq (l : list (Z * Z * Z)) : at_ l <$> seq 0 (length l) = l.
Proof.
  apply list_eq. intros i. rewrite list_lookup_fmap. unfold at_.
  destruct (decide (i < length l)%nat) as [Hi|Hi].
  - rewrite lookup_seq_lt by done. cbn. by destruct (lookup_lt_is_Some_2 l i Hi) as [x ->].
  - rewrite lookup_seq_ge, lookup_ge_None_2 by lia. done.
Qed.
End Objects.

(** One iteration of the loop of [load]. *)
Definition iteration {S} `{XdrIn S} (version dp : Z) (f : V3dFile) : M S (V3dFile * bool) :=
  t <- u32;; g <- stream_good;;
  if negb g then stop f else ty <- need t;; load_object version dp ty f.

Section Elements.
Context {Out In : Type} `{XdrOutOk Out} `{XdrInOk In}.

Lemma codec_iteration sp ty (w : W Out) f r :
  in_range 32 ty ->
  codec (In := In) sp w (load_object 2 (dpflag sp) ty f) r ->
  codec sp (put_u32 ty <;> w) (iteration 2 (dpflag sp) f) r.
Proof.
  intros Hty Hw. eapply codec_bind; [by apply codec_u32|].
  eapply codec_pure; [apply reads_stream_good|]. cbn [negb].
  by eapply codec_pure; [apply reads_need|].
Qed.

(** The same for the types that have a constructor. *)
Lemma codec_object sp ty (w : W Out) ctor o f :
  in_range 32 ty -> constructor_of (dpflag sp) ty = Some ctor ->
  ty <> ObjectTypes.MATERIAL -> ty <> ObjectTypes.CENTERS -> ty <> ObjectTypes.HEADER ->
  codec (In := In) sp w ctor o ->
  codec sp (put_u32 ty <;> w) (iteration 2 (dpflag sp) f) (push_object o f, false).
Proof.
  intros Hty Hc Hm Hce Hh Hw. apply codec_iteration; [done|].
  unfold load_object. rewrite !(proj2 (Z.eqb_neq _ _)) by done. rewrite Hc.
  eapply codec_last; [done | apply reads_ret].
Qed.

#[local] Ltac object :=
  eapply codec_object; [vm_compute; split; congruence | reflexivity | done | done | done |].

Lemma codec_material sp m f :
  element_ok sp (addMaterial m) ->
  codec (Out := Out) (In := In) sp (put_element (addMaterial m)) (iteration 2 (dpflag sp) f)
    (push_material (stored_material m) f, false).
Proof.
  intros (? & ? & ? & (? & ? & ? & ?)). cbn [put_element].
  apply codec_iteration; [vm_compute; split; congruence|].
  unfold load_object; cbn [Z.eqb Pos.eqb ObjectTypes.MATERIAL]. unfold load_material.
  change (2 <=? 2) with true. cbv iota. codec.
Qed.

Lemma codec_ext {A} sp (w w' : W Out) (m : M In A) a :
  (forall o, w o = w' o) -> codec sp w m a -> codec sp w' m a.
Proof.
  intros Hw (bs & Hb & Hr). exists bs. split; [|done]. intros o f. rewrite <- Hw. apply Hb.
Qed.

Lemma put_triples_ext l (w : W Out) o :
  (addTriples l <;> w) o = fold_right (fun t w' => put_triple t <;> w') w l o.
Proof.
  revert o. induction l as [|t l IH]; intros o; [done|]. cbn [fold_right].
  unfold addTriples in *. cbn [wlist]. rewrite wseq_assoc. unfold wseq at 1 3.
  by destruct (put_triple t o) as [o'| |]; [apply IH|..].
Qed.

Lemma codec_element sp e f :
  element_ok sp e -> (forall ci mi P N C PI NI CI, e <> addTriangles ci mi P N C PI NI CI) ->
  codec (Out := Out) (In := In) sp (put_element e) (iteration 2 (dpflag sp) f)
    (store_element sp f e, false).
Proof.
  intros Hok Hnt. destruct e; [by apply codec_material|..];
    cbn [element_ok put_element store_element object_of] in *;
    unfold patch_ok in *; try (destruct c as [cols|]);
    repeat match goal with Hx : _ /\ _ |- _ => destruct Hx end;
    try (exfalso; by eapply Hnt);
    unfold put_patch; object;
    unfold V3dBezierPatch, V3dBezierTriangle, V3dBezierPatchWithCornerColors,
      V3dBezierTriangleWithCornerColors, V3dStraightPlanarQuad, V3dStraightTriangle,
      V3dStraightPlanarQuadWithCornerColors, V3dStraightTriangleWithCornerColors, V3dSphere,
      V3dHemiSphere, V3dDisk, V3dCylinder, V3dTube, V3dBezierCurve, V3dLineSegment, V3dPixel;
    try solve [codec].
  - apply (codec_ext _ _ _ _ _ (put_triples_ext [z0; c0; c1; z1] _)).
    assert (Forall (triple_ok sp) [z0; c0; c1; z1]) by (repeat (constructor; [assumption|]); constructor). codec.
  - apply (codec_ext _ _ _ _ _ (put_triples_ext [z0; z1] _)).
    assert (Forall (triple_ok sp) [z0; z1]) by (repeat (constructor; [assumption|]); constructor). codec.
Qed.

(** The index loop, given how the normals are written. *)
Lemma codec_triangle sp eni nC PI NI CI i :
  Forall indices_ok PI -> Forall indices_ok NI ->
  codec (Out := Out) (In := In) sp
    (addIndices (at_ PI i) <;> (if eni : bool then addIndices (at_ NI i) else wskip) <;>
     (if bool_decide (nC <> 0%nat) then if false then addIndices (at_ CI i) else wskip else wskip))
    (read_triangle (Some (if eni then 1 else 0)) (Z.of_nat nC)
       (if bool_decide (nC <> 0%nat) then Some 0 else None))
    (stored_indices (at_ PI i),
     stored_indices (if eni then at_ NI i else at_ PI i), stored_indices (at_ PI i)).
Proof.
  intros HP HN. pose proof (at_ok PI i HP) as Hp. pose proof (at_ok NI i HN) as Hn.
  unfold read_triangle. eapply codec_bind; [by apply codec_indices0|].
  eapply codec_pure; [apply reads_need|].
  eapply (codec_bind sp _ _ _ _ (stored_indices (if eni then at_ NI i else at_ PI i))).
  { destruct eni; [by apply codec_indices0 | by apply codec_skip, reads_ret]. }
  assert (Hz : (0 <? Z.of_nat nC) = bool_decide (nC <> 0%nat)).
  { case_bool_decide; [apply Z.ltb_lt | apply Z.ltb_ge]; lia. }
  rewrite Hz. destruct (bool_decide (nC <> 0%nat)); apply codec_skip.
  - eapply reads_bind_nil; [|apply reads_ret].
    eapply reads_bind_nil; [apply reads_need | apply reads_ret].
  - eapply reads_bind_nil; apply reads_ret.
Qed.

Lemma small_u32 n : Z.of_nat n <= maxCount -> wrapw 32 (Z.of_nat n) = Z.of_nat n /\ in_range 32 (Z.of_nat n).
Proof.
  unfold maxCount. intros. assert (in_range 32 (Z.of_nat n)) by (unfold in_range; lia).
  split; [by apply wrapw_id | done].
Qed.

Lemma codec_colour_part sp C :
  Forall colour_ok C ->
  codec (Out := Out) (In := In) sp
    (if bool_decide (length C <> 0%nat) then addColors C <;> put_bool false else wskip)
    (if 0 <? Z.of_nat (length C)
     then cols <- times (Z.to_nat (Z.of_nat (length C))) read_rgba0;; eci <- u32;; ret (cols, eci)
     else ret ([], None))
    (stored_colour <$> C, if bool_decide (length C <> 0%nat) then Some 0 else None).
Proof.
  intros HC. case_bool_decide as Hn.
  - rewrite (proj2 (Z.ltb_lt _ _)) by lia. rewrite Nat2Z.id.
    eapply codec_bind; [by apply codec_colours0|].
    eapply codec_last; [apply codec_bool | apply reads_ret].
  - destruct C; [|done]. apply codec_skip, reads_ret.
Qed.

Lemma indices_seq PI :
  (fun i => stored_indices (at_ PI i)) <$> seq 0 (length PI) = stored_indices <$> PI.
Proof. rewrite <- (at_seq PI) at 2. by rewrite <- list_fmap_compose. Qed.

Lemma same_indices n a b : any_distinct n a b = false -> length a = n -> length b = n -> a = b.
Proof.
  intros Hd Ha Hb. rewrite <- (at_seq a), <- (at_seq b), Ha, Hb. apply list_fmap_ext. intros i j Hj.
  apply lookup_seq in Hj as [-> Hlt]. by apply (any_distinct_false n).
Qed.

Lemma codec_triangles sp ci mi P N C PI NI CI f :
  triangles_ok sp P N C PI NI CI ->
  codec (Out := Out) (In := In) sp (put_triangles ci mi P N C PI NI CI)
    (iteration 2 (dpflag sp) f)
    (store_element sp f (addTriangles ci mi P N C PI NI CI), false).
Proof.
  intros (HP & HN & HC & HPI & HNI & LI & LP & LN & LC & HlN & Hbug).
  destruct (small_u32 _ LI) as [EI RI]. destruct (small_u32 _ LP) as [EP RP].
  destruct (small_u32 _ LN) as [EN RN]. destruct (small_u32 _ LC) as [EC RC].
  unfold put_triangles. cbv zeta. object.
  assert (HNIe : any_distinct (length PI) NI PI ||
    bool_decide (length C <> 0%nat) && any_distinct (length PI) CI PI = written_NI PI NI).
  { fold (written_NI PI NI). destruct (written_NI PI NI); [done|]. cbn.
    case_bool_decide as Hn; [cbn|done].
    by destruct (Hbug Hn) as [_ ->]. }
  rewrite HNIe. fold (written_NI PI NI). rewrite EI, EP, EN, EC.
  unfold V3dTriangleGroup.
  eapply codec_bind; [by apply codec_get_u32|]. eapply codec_bind; [by apply codec_get_u32|].
  change (id (Z.of_nat (length PI))) with (Z.of_nat (length PI)).
  change (id (Z.of_nat (length P))) with (Z.of_nat (length P)).
  rewrite !(proj2 (Z.ltb_ge _ _)) by done. cbn [orb]. rewrite !Nat2Z.id.
  eapply codec_bind; [by apply codec_triples|].
  eapply codec_bind; [by apply codec_get_u32|].
  change (id (Z.of_nat (length N))) with (Z.of_nat (length N)). cbv zeta.
  rewrite (proj2 (Z.ltb_ge maxCount (Z.of_nat (length N)))) by done. rewrite !Nat2Z.id.
  eapply codec_bind; [by apply codec_triples|].
  eapply codec_bind; [apply codec_bool|].
  eapply codec_bind; [by apply codec_u32|].
  eapply codec_pure; [apply reads_need|]. cbv beta.
  rewrite (proj2 (Z.ltb_ge maxCount (Z.of_nat (length C)))) by done.
  eapply codec_bind; [by apply codec_colour_part|]. cbv beta iota.
  rewrite <- (length_seq (length PI) 0) at 2.
  eapply codec_bind.
  { apply codec_list. intros i _. by apply (codec_triangle sp _ (length C) PI NI CI i). }
  eapply codec_bind; [apply codec_u32_wrap|]. eapply codec_last; [apply codec_u32_wrap|].
  rewrite <- !list_fmap_compose. unfold compose; cbn [fst snd].
  rewrite indices_seq.
  assert ((fun i => stored_indices (if written_NI PI NI then at_ NI i else at_ PI i)) <$> seq 0 (length PI) =
    stored_indices <$> NI) as ->.
  { destruct (written_NI PI NI) eqn:En; [by rewrite <- HlN, indices_seq|].
    by rewrite indices_seq, (same_indices (length PI) NI PI). }
  assert ((if bool_decide (length C <> 0%nat) then stored_indices <$> CI else stored_indices <$> PI) =
    stored_indices <$> PI) as ->; [|apply reads_ret].
  case_bool_decide as Hn; [|done]. destruct (Hbug Hn) as [Hl Hd]. by rewrite (same_indices (length PI) CI PI).
Qed.
End Elements.

(** ** Centers, header, and the whole file *)

Definition store_centers (sp : bool) (l : list triple) (f : V3dFile) : V3dFile :=
  if bool_decide (0 < length l)%nat then set_centers (stored_triple sp <$> l) f else f.

(** The header information of a written file. *)
Definition loaded_header (sp : bool) (gl : Renderer) (st : Settings) : V3dHeaderInfo :=
  let r v := Some (stored sp v) in
  let b2z (b : bool) := if b then 1 else 0 in
  let bg := Background gl in
  mkHeader (wrapw 32 (fullWidth gl)) (wrapw 32 (fullHeight gl)) (b2z (set_absolute_size st))
    (stored_triple sp (sceneMin gl)) (stored_triple sp (sceneMax gl)) (b2z (gl_orthographic gl))
    (r (Angle gl)) (r (Zoom0 gl))
    (if pair_neq (Shift gl) (mkPair d0 d0)
     then stored_pair sp (pair_mul (Shift gl) (mkPair (Zoom0 gl) d0)) else (Some d0, Some d0))
    (stored_pair sp (Margin gl))
    ((fun l => mkLight (stored_triple sp l.1)
        (mkRGB (Some (float_of_double l.2.1.1)) (Some (float_of_double l.2.1.2))
           (Some (float_of_double l.2.2)))) <$> Lights gl)
    (rgba_of (float_of_double (double_of_float bg.1.1.1)) (float_of_double (double_of_float bg.1.1.2))
       (float_of_double (double_of_float bg.1.2)) (float_of_double (double_of_float bg.2)))
    (r (set_zoomfactor st)) (r (set_zoompinchfactor st)) (r (set_zoompinchcap st))
    (r (set_zoomstep st)) (r (set_shiftholddistance st)) (r (set_shiftwaittime st))
    (r (set_vibratetime st))
    (if set_ibl st && negb (bool_decide (set_image st = [])) && iblNameOK (set_image st)
     then set_image st else []).

(** Renderer and settings whose values the precision can represent. *)
Definition gl_ok (sp : bool) (gl : Renderer) (st : Settings) : Prop :=
  Forall (header_ok sp) (addHeaders_list gl st) /\ Z.of_nat (length (Lights gl)) <= 9981.

(** The file that loading a written scene gives. *)
Definition loaded_file (sp : bool) (gl : Renderer) (st : Settings) (scene : list element)
    (centers : list triple) : V3dFile :=
  store_centers sp centers
    (fold_left (store_element sp) scene
       (mkFile (Some 2) (Some (dpflag sp)) [] [] [] (loaded_header sp gl st))).

Lemma fold_headers_app sp l1 l2 i :
  fold_left (fun i h => store_header sp h i) (l1 ++ l2) i =
  fold_left (fun i h => store_header sp h i) l2 (fold_left (fun i h => store_header sp h i) l1 i).
Proof. apply fold_left_app. Qed.

(** Lights are appended in order. *)
Lemma fold_lights sp ls i :
  fold_left (fun i h => store_header sp h i)
    ((fun l => LightHeader l.1 (mkColour l.2.1.1 l.2.1.2 l.2.2 d1)) <$> ls) i =
  set_lights (lights i ++
    ((fun l => mkLight (stored_triple sp l.1)
        (mkRGB (Some (float_of_double l.2.1.1)) (Some (float_of_double l.2.1.2))
           (Some (float_of_double l.2.2)))) <$> ls)) i.
Proof.
  revert i. induction ls as [|l ls IH]; intros i.
  - cbn. rewrite app_nil_r. by destruct i.
  - rewrite !fmap_cons. cbn [fold_left store_header]. rewrite IH. cbn [set_lights lights].
    rewrite <- app_assoc. by destruct i.
Qed.

Lemma fold_headers sp gl st :
  fold_left (fun i h => store_header sp h i) (addHeaders_list gl st) defaultHeader =
  loaded_header sp gl st.
Proof.
  unfold addHeaders_list, loaded_header. cbv zeta. rewrite !fold_headers_app.
  rewrite fold_lights.
  destruct (pair_neq _ _), (set_ibl st && _ && _); reflexivity.
Qed.

Section File.
Context {Out In : Type} `{XdrOutOk Out} `{XdrInOk In}.

Lemma codec_element_any sp e f :
  element_ok sp e ->
  codec (Out := Out) (In := In) sp (put_element e) (iteration 2 (dpflag sp) f)
    (store_element sp f e, false).
Proof.
  intros Hok. destruct e eqn:E; try (apply codec_element; [done | intros; discriminate]).
  by apply codec_triangles.
Qed.

Lemma codec_centers_loop sp l i cs :
  Forall (triple_ok sp) l -> (i + length l <= length cs)%nat ->
  codec (Out := Out) (In := In) sp (addTriples l) (centers_loop (dpflag sp) (length l) i cs)
    (take i cs ++ (stored_triple sp <$> l) ++ drop (i + length l) cs, false).
Proof.
  intros Hl. revert i cs. induction Hl as [|t l Ht Hl IH]; intros i cs Hi; cbn.
  { rewrite Nat.add_0_r, take_drop. apply codec_skip, reads_ret. }
  eapply codec_bind; [by apply codec_triple|]. eapply codec_pure; [apply reads_stream_good|].
  specialize (IH (Datatypes.S i) (<[i:=stored_triple sp t]> cs)).
  cbn in Hi. rewrite length_insert in IH. specialize (IH ltac:(lia)).
  rewrite drop_insert_lt in IH by lia.
  rewrite (take_S_r (<[i:=stored_triple sp t]> cs) i (stored_triple sp t)) in IH
    by (apply list_lookup_insert_eq; lia).
  rewrite take_insert_ge, <- app_assoc in IH by lia.
  rewrite Nat.add_succ_r. exact IH.
Qed.

Lemma codec_centers sp l f :
  Forall (triple_ok sp) l -> Z.of_nat (length l) <= kMaxCenters -> centers f = [] ->
  codec (Out := Out) (In := In) sp (addCenters l) (iteration 2 (dpflag sp) f)
    (store_centers sp l f, false).
Proof.
  intros Hl Hn Hc. unfold kMaxCenters in Hn.
  assert (Hr : in_range 32 (Z.of_nat (length l))) by (unfold in_range; lia).
  unfold addCenters. rewrite wrapw_id by done.
  apply codec_iteration; [vm_compute; split; congruence|].
  unfold load_object; cbn [Z.eqb Pos.eqb ObjectTypes.MATERIAL ObjectTypes.CENTERS].
  unfold load_centers. eapply codec_bind; [by apply codec_u32|].
  eapply codec_pure; [apply reads_stream_good|]. cbn [negb].
  eapply codec_pure; [apply reads_need|].
  rewrite (proj2 (Z.ltb_ge _ _)) by (unfold kMaxCenters; lia).
  unfold store_centers. case_bool_decide as H0l.
  - rewrite (proj2 (Z.ltb_lt _ _)) by lia. cbv zeta. rewrite Nat2Z.id, Hc.
    eapply codec_last; [apply codec_centers_loop; [done|]|].
    { rewrite length_vresize. lia. }
    cbn [take app]. rewrite drop_ge by (rewrite length_vresize; lia). rewrite app_nil_r.
    apply reads_ret.
  - rewrite (proj2 (Z.ltb_ge 0 _)) by lia. apply codec_skip, reads_ret.
Qed.

Lemma length_addHeaders gl st :
  (length (addHeaders_list gl st) <= 19 + length (Lights gl))%nat.
Proof.
  unfold addHeaders_list. cbv zeta. rewrite !length_app, length_fmap.
  destruct (pair_neq _ _), (set_ibl st && _ && _); cbn; lia.
Qed.

Lemma codec_addHeaders sp gl st f :
  gl_ok sp gl st -> headerInfo f = defaultHeader ->
  codec (Out := Out) (In := In) sp (addHeaders sp gl st) (iteration 2 (dpflag sp) f)
    (set_header (loaded_header sp gl st) f, false).
Proof.
  intros [Hok Hl] Hh. pose proof (length_addHeaders gl st) as Hn.
  unfold addHeaders. cbv zeta.
  assert (Hr : in_range 32 (Z.of_nat (length (addHeaders_list gl st)))) by (unfold in_range; lia).
  rewrite wrapw_id by done. apply codec_iteration; [vm_compute; split; congruence|].
  unfold load_object; cbn [Z.eqb Pos.eqb ObjectTypes.MATERIAL ObjectTypes.CENTERS ObjectTypes.HEADER].
  unfold load_header. eapply codec_bind; [by apply codec_u32|].
  eapply codec_pure; [apply reads_stream_good|]. cbn [negb].
  eapply codec_pure; [apply reads_need|].
  rewrite (proj2 (Z.ltb_ge _ _)) by (unfold kMaxHeaderEntries; lia).
  rewrite Nat2Z.id, Hh, <- fold_headers.
  eapply codec_last; [by apply codec_headers | apply reads_ret].
Qed.

(** An iteration that goes on, as a step of the loop. *)
Lemma load_loop_iteration k version dp f bs f' tl (x : ixstream In) :
  reads (iteration version dp f) bs (f', false) -> inside x -> at_input (bs ++ tl) x ->
  exists x', inside x' /\ at_input tl x' /\ (0 < length bs)%nat /\
    load_loop (Datatypes.S k) version dp f x = load_loop k version dp f' x'.
Proof.
  intros Hr Hx Hin. destruct (Hr x tl Hin) as (x' & E & Hin'). exists x'.
  unfold iteration, bind at 1 2, stream_good in E. cbn [load_loop].
  unfold bind at 1 2, stream_good.
  pose proof (tame_get_u32 Some None x Hx) as Ht. unfold u32 in *.
  destruct (get_u32 Some None x) as [[t x1]| |] eqn:Eu; [|done..].
  destruct Ht as (_ & _ & _ & _ & Hx1). destruct (good x1) eqn:Hg; cbn in E |- *; [|by injection E].
  assert (Hlt : (remaining x1 < remaining x)%nat).
  { destruct (extract_good _ _ _ _ _ _ _ _ u_int32_decodes Eu Hg) as (_ & _ & ?). lia. }
  unfold bind at 1 in E. unfold bind at 1. destruct t as [ty|]; [|done]. cbn in E |- *.
  pose proof (tame_load_object version dp ty f x1 Hx1) as Hl. unfold bind. rewrite E in *.
  destruct Hl as (Hle & _ & _ & _ & Hx'). split_and!; [done..| |done].
  pose proof (at_input_remaining _ _ Hin) as L1. pose proof (at_input_remaining _ _ Hin') as L2.
  rewrite length_app in L1. lia.
Qed.

(** The end of the file ends the loop. *)
Lemma load_loop_end k version dp f (x : ixstream In) :
  at_input [] x -> exists x', load_loop (Datatypes.S k) version dp f x = Ret (f, x').
Proof.
  intros (Hz & Hs & g & Hg & Hr). cbn [load_loop]. unfold bind at 1 2, stream_good, u32.
  destruct (extract_cases 4 be_value _ Some None x g u_int32_decodes Hg) as (g' & _ & Hc).
  unfold remaining in Hc. rewrite Hg, Hr in Hc. rewrite decide_False in Hc by (cbn; lia).
  destruct Hc as [E _]. unfold get_u32. rewrite E, good_set by done. cbn. by eexists.
Qed.

Lemma load_loop_scene sp scene f :
  Forall (element_ok sp) scene ->
  exists bs, writes (S := Out) sp (wlist put_element scene) bs /\
    forall k tl (x : ixstream In), inside x -> at_input (bs ++ tl) x ->
      exists x', inside x' /\ at_input tl x' /\ (length scene <= length bs)%nat /\
        load_loop (length scene + k) 2 (dpflag sp) f x =
        load_loop k 2 (dpflag sp) (fold_left (store_element sp) scene f) x'.
Proof.
  intros Hs. revert f. induction Hs as [|e scene He Hs IH]; intros f.
  { exists []. split; [apply writes_skip|]. intros k tl x Hx Hin. by exists x. }
  destruct (codec_element_any sp e f He) as (bs1 & W1 & R1).
  destruct (IH (store_element sp f e)) as (bs2 & W2 & R2).
  exists (bs1 ++ bs2). split; [by apply writes_seq|].
  intros k tl x Hx Hin. rewrite <- app_assoc in Hin.
  destruct (load_loop_iteration (length scene + k) 2 _ f bs1 _ _ x R1 Hx Hin)
    as (x1 & Hx1 & Hin1 & Hl1 & E1).
  destruct (R2 k tl x1 Hx1 Hin1) as (x2 & Hx2 & Hin2 & Hl2 & E2).
  exists x2. rewrite length_app. cbn [length Nat.add fold_left].
  split_and!; [done..|lia|]. by rewrite E1.
Qed.

(** The shape of a written file: version, precision, header, scene, centers. *)
Lemma load_written sp gl st scene centers :
  gl_ok sp gl st -> Forall (element_ok sp) scene -> Forall (triple_ok sp) centers ->
  Z.of_nat (length centers) <= kMaxCenters ->
  exists bs, writes (S := Out) sp (write_v3d sp gl st scene centers) bs /\
    forall (x : ixstream In) fuel, inside x -> at_input bs x -> (length bs <= fuel)%nat ->
      exists x', load fuel x = Ret (loaded_file sp gl st scene centers, x').
Proof.
  intros Hgl Hscene Hcenters Hn.
  set (f0 := mkFile (Some 2) (Some (dpflag sp)) [] [] [] defaultHeader).
  destruct (codec_addHeaders sp gl st f0 Hgl eq_refl) as (bh & Wh & Rh).
  set (f1 := set_header (loaded_header sp gl st) f0) in *.
  assert (Hc : V3dData.centers (fold_left (store_element sp) scene f1) = []).
  { assert (V3dData.centers f1 = []) as Hc1 by done. clearbody f1. clear -Hc1. revert f1 Hc1.
    induction scene as [|e scene IH]; intros f Hf; cbn; [done|]. apply IH.
    destruct e as [| ? ? ? [|]| ? ? ? [|]| ? ? ? [|]| ? ? ? [|]| | | | | | | | |]; done. }
  destruct (codec_centers sp centers _ Hcenters Hn Hc) as (bc & Wc & Rc).
  destruct (load_loop_scene sp scene f1 Hscene) as (bs & Ws & Rs).
  exists ((be_bytes 4 2 ++ be_bytes 4 (dpflag sp) ++ bh) ++ bs ++ bc). split.
  { apply writes_seq; [|by apply writes_seq].
    apply writes_seq; [apply writes_put_u32|]. apply writes_seq; [|done].
    unfold put_bool, dpflag. destruct sp; apply writes_put_u32. }
  intros x fuel Hx Hin Hfuel. rewrite <- !app_assoc in Hin. rewrite !length_app in Hfuel.
  rewrite !length_be_bytes in Hfuel.
  destruct (word_step 2 _ x ltac:(unfold in_range; lia) Hx Hin)
    as (x1 & g1 & E1 & Hin1 & Hx1 & _).
  destruct (word_step (dpflag sp) _ x1 ltac:(unfold in_range, dpflag; destruct sp; lia) Hx1 Hin1)
    as (x2 & g2 & E2 & Hin2 & Hx2 & _).
  destruct (at_input_open _ _ Hin1) as [_ Hg1]. destruct (at_input_open _ _ Hin2) as [_ Hg2].
  unfold load. unfold bind at 1 2, stream_good. rewrite E1, Hg1. cbn [negb]. cbv zeta.
  unfold bind at 1. cbn [need]. change (2 <? 1) with false. cbv iota.
  unfold bind at 1 2, stream_good. rewrite E2, Hg2. cbn [negb]. unfold bind at 1. cbn [need].
  fold f0. unfold bind at 1.
  assert (Hk : exists k, fuel = Datatypes.S (length scene + Datatypes.S (Datatypes.S k))).
  { destruct (load_loop_iteration 0 2 _ f0 bh _ _ x2 Rh Hx2 Hin2) as (y1 & Hy1 & Hiny1 & _).
    destruct (Rs 0%nat _ y1 Hy1 Hiny1) as (y2 & _ & _ & Hls & _).
    exists (fuel - length scene - 3)%nat. lia. }
  destruct Hk as [k ->].
  destruct (load_loop_iteration (length scene + Datatypes.S (Datatypes.S k)) 2 _ f0 bh _ _ x2
    Rh Hx2 Hin2) as (x3 & Hx3 & Hin3 & _ & ->). fold f1.
  destruct (Rs (Datatypes.S (Datatypes.S k)) _ x3 Hx3 Hin3) as (x4 & Hx4 & Hin4 & _ & ->).
  rewrite <- (app_nil_r bc) in Hin4.
  destruct (load_loop_iteration (Datatypes.S k) 2 _ _ bc _ _ x4 Rc Hx4 Hin4)
    as (x5 & Hx5 & Hin5 & _ & ->).
  destruct (load_loop_end k 2 (dpflag sp) (store_centers sp centers
    (fold_left (store_element sp) scene f1)) x5 Hin5) as (x6 & ->).
  eexists. reflexivity.
Qed.
End File.


(** A scene with a material, a group, a sphere and a line. *)
Definition sample_gl : Renderer :=
  mkGl 640 480 (mkTriple dm1 dm1 dm1) (mkTriple d1 d1 d2) true dhalf d1 (mkPair d1 d0) (mkPair d0 d0)
    [(mkTriple d0 d0 d1, (d1, dhalf, d0))]
    (f32_of_bits 0, f32_of_bits 0, f32_of_bits 0, f32_of_bits 0x3F800000).
Definition sample_settings : Settings :=
  mkSettings false d1 d1 d1 d1 d1 d1 d1 true (bytes_of "snowyField").
Definition sample_centers : list triple := [mkTriple d1 d0 d0].
Definition sample_scene : list element :=
  let f := f32_of_bits 0x3F000000 in let v := (f, f, f, f) in
  [addMaterial (mkMat v v v v);
   addTriangles 1 0 [mkTriple d0 d0 d0; mkTriple d1 d0 d0; mkTriple d0 d1 d0] [mkTriple d0 d0 d1]
     [] [(0, 1, 2)] [(0, 0, 0)] [];
   addSphere 0 0 (mkTriple d0 d0 d0) d2;
   addLine 0 0 (mkTriple d0 d0 d0) (mkTriple d1 d1 d1)].

Definition written (sp : bool) (scene : list element) (centers : list triple) : option (list Byte.byte) :=
  match write_v3d sp sample_gl sample_settings scene centers (mkOx 0 sp (Some (mkFILE [] 0 None))) with
  | Ret o => if xo_state o =? 0 then f_data <$> xo_buf o else None
  | _ => None
  end.

Ltac ok_tac :=
  repeat match goal with
  | |- Forall _ (_ :: _) => apply Forall_cons; split
  | |- Forall _ [] => apply Forall_nil; exact I
  | |- header_ok _ _ => cbn [header_ok]
  | |- triple_ok _ _ => unfold triple_ok; cbn [tx ty tz]
  | |- pair_ok _ _ => unfold pair_ok; cbn [px py]
  | |- colour_ok _ => unfold colour_ok; cbn [colR colG colB colA]
  | |- indices_ok _ => unfold indices_ok; cbn [fst snd]
  | |- vec4_ok _ => unfold vec4_ok; cbn [fst snd]
  | |- real_ok _ _ => unfold real_ok; cbv beta iota
  | |- _ /\ _ => split
  | |- _ = true => reflexivity
  | |- in_range _ _ => vm_compute; split; congruence
  | |- _ <= _ => vm_compute; congruence
  | |- _ = _ :> Z => reflexivity
  | |- _ \/ _ => first [left; reflexivity | right]
  end.

Lemma sample_gl_ok : gl_ok false sample_gl sample_settings.
Proof. unfold gl_ok. split; [|vm_compute; congruence]. 
  let l := eval vm_compute in (addHeaders_list sample_gl sample_settings) in
  replace (addHeaders_list sample_gl sample_settings) with l by (vm_compute; reflexivity).
  repeat (apply Forall_cons; split); [..|done]; ok_tac.
Qed.

Lemma sample_scene_ok : Forall (element_ok false) sample_scene.
Proof.
  unfold sample_scene. cbv zeta. repeat (apply Forall_cons; split); [..|done];
    cbn [element_ok]; unfold triangles_ok; ok_tac; done.
Qed.

Lemma sample_written : exists o f,
  write_v3d false sample_gl sample_settings sample_scene sample_centers
    (mkOx 0 false (Some (mkFILE [] 0 None))) = Ret o /\
  xo_buf o = Some f /\ xo_state o = 0.
Proof.
  assert (match write_v3d false sample_gl sample_settings sample_scene sample_centers
    (mkOx 0 false (Some (mkFILE [] 0 None))) with
    | Ret o => match xo_buf o with Some _ => xo_state o =? 0 | None => false end
    | _ => false end = true) as Hw by (vm_compute; reflexivity).
  destruct (write_v3d _ _ _ _ _ _) as [o| |]; [|done..].
  destruct (xo_buf o) as [f|] eqn:Ef; [|done]. exists o, f. by apply Z.eqb_eq in Hw.
Qed.


Section ExplicitColours.
Context {Out In : Type} `{XdrOutOk Out} `{XdrInOk In}.

(** What a group with one triangle is read as when its colour indices, and
    only they, differ from its position indices. *)
Definition misread_group (sp : bool) (P N : list triple) (C : list RGBAColour) (p : Z * Z * Z)
    : V3dObject :=
  let idx := [stored_indices p] in
  plain ObjectTypes.TRIANGLES (Some p.1.1) (Some p.1.2)
    (Triangles (mkTriangleGroup 1 (Z.of_nat (length P)) (stored_triple sp <$> P)
       (Some (Z.of_nat (length N))) (stored_triple sp <$> N) (Some 0)
       (Some (Z.of_nat (length C))) (stored_colour <$> C) (Some 0) idx idx idx)).

Lemma put_triangles_misaligned ci mi P N C p c (o : oxstream Out) :
  C <> [] -> distinct c p = true ->
  put_triangles ci mi P N C [p] [p] [c] o =
  ((put_u32 ObjectTypes.TRIANGLES <;> put_u32 1 <;>
    put_u32 (wrapw 32 (Z.of_nat (length P))) <;> addTriples P <;>
    put_u32 (wrapw 32 (Z.of_nat (length N))) <;> addTriples N <;>
    put_bool false <;> put_u32 (wrapw 32 (Z.of_nat (length C))) <;>
    (addColors C <;> put_bool false) <;> addIndices p <;> put_u32 p.1.1 <;> put_u32 p.1.2) <;>
   (put_u32 p.2 <;> addCenterIndexMat ci mi)) o.
Proof.
  intros HC Hc. destruct C as [|c0 C]; [done|].
  assert (Hp : distinct p p = false) by (unfold distinct; by rewrite !Z.eqb_refl).
  unfold put_triangles. cbv zeta. cbn [length seq]. unfold any_distinct; cbn [seq existsb].
  change (at_ [p] 0) with p. change (at_ [c] 0) with c. rewrite Hp, Hc.
  change (wrapw 32 (Z.of_nat 1)) with 1. rewrite (bool_decide_true (Datatypes.S _ <> 0%nat)) by done.
  cbn [orb andb wlist]. change (at_ [p] 0) with p. unfold addIndices.
  repeat (rewrite wseq_assoc || (unfold wseq at 1; symmetry; unfold wseq at 1; symmetry;
    match goal with |- context [match ?w o with _ => _ end] => destruct (w o) as [o1| |] end;
    [|done|done]; clear o; rename o1 into o)).
  done.
Qed.

Lemma codec_misread sp P N C p f :
  C <> [] -> triangles_ok sp P N C [p] [p] [p] ->
  codec (Out := Out) (In := In) sp
   (put_u32 ObjectTypes.TRIANGLES <;> put_u32 1 <;>
    put_u32 (wrapw 32 (Z.of_nat (length P))) <;> addTriples P <;>
    put_u32 (wrapw 32 (Z.of_nat (length N))) <;> addTriples N <;>
    put_bool false <;> put_u32 (wrapw 32 (Z.of_nat (length C))) <;>
    (addColors C <;> put_bool false) <;> addIndices p <;> put_u32 p.1.1 <;> put_u32 p.1.2)
   (iteration 2 (dpflag sp) f) (push_object (misread_group sp P N C p) f, false).
Proof.
  intros HC0 (HP & HN & HC & HPI & _ & _ & LP & LN & LC & _).
  destruct (small_u32 _ LP) as [EP RP]. destruct (small_u32 _ LN) as [EN RN].
  destruct (small_u32 _ LC) as [EC RC]. rewrite EP, EN, EC.
  assert (Hb : bool_decide (length C <> 0%nat) = true)
    by (apply bool_decide_true; destruct C; done).
  apply Forall_singleton in HPI as (Hi & Hj & Hk).
  eapply codec_object; [vm_compute; split; congruence | reflexivity | done | done | done |].
  unfold V3dTriangleGroup.
  eapply codec_bind; [apply codec_get_u32; unfold in_range; lia|].
  eapply codec_bind; [by apply codec_get_u32|].
  change (id 1) with 1. change (id (Z.of_nat (length P))) with (Z.of_nat (length P)).
  change (maxCount <? 1) with false.
  rewrite !(proj2 (Z.ltb_ge _ _)) by done. cbn [orb]. rewrite !Nat2Z.id.
  eapply codec_bind; [by apply codec_triples|].
  eapply codec_bind; [by apply codec_get_u32|].
  change (id (Z.of_nat (length N))) with (Z.of_nat (length N)). cbv zeta.
  rewrite (proj2 (Z.ltb_ge maxCount (Z.of_nat (length N)))) by done. rewrite !Nat2Z.id.
  eapply codec_bind; [by apply codec_triples|].
  eapply codec_bind; [apply codec_bool|].
  eapply codec_bind; [by apply codec_u32|].
  eapply codec_pure; [apply reads_need|]. cbv beta.
  rewrite (proj2 (Z.ltb_ge maxCount (Z.of_nat (length C)))) by done.
  pose proof (codec_colour_part (Out := Out) (In := In) sp C HC) as Hcol. rewrite Hb in Hcol.
  eapply codec_bind; [exact Hcol|]. cbv beta iota.
  pose proof (codec_triangle (Out := Out) (In := In) sp false (length C) [p] [p] [] 0
    ltac:(by apply Forall_singleton) ltac:(by apply Forall_singleton)) as Ht.
  rewrite Hb in Ht. change (at_ [p] 0) with p in Ht.
  eapply (codec_bind sp _ _ _ _ [(stored_indices p, stored_indices p, stored_indices p)]).
  { cbn [times Z.to_nat Pos.to_nat Pos.iter_op]. change (Pos.to_nat 1) with 1%nat. cbn [times].
    eapply codec_last; [|apply reads_ret].
    eapply codec_ext; [|exact Ht]. intros o. unfold wseq.
    by destruct (addIndices p o) as [o1| |]. }
  eapply codec_bind; [by apply codec_u32|]. eapply codec_last; [by apply codec_u32 | apply reads_ret].
Qed.
End ExplicitColours.

(** The case the round trip excludes: when the colour indices of a triangle
    group, and only they, differ from the position indices, [addTriangles]
    writes normal indices that it did not announce.  The loader takes the first
    two of them for the center and material index of the group and leaves the
    third, with the real center and material index, in the stream to be read
    as object types. *)
Theorem explicit_colours_misread {Out In} `{XdrOutOk Out} `{XdrInOk In}
    sp ci mi P N C p c f :
  C <> [] -> triangles_ok sp P N C [p] [p] [p] -> distinct c p = true ->
  exists bs1 bs2,
    writes (S := Out) sp (put_element (addTriangles ci mi P N C [p] [p] [c])) (bs1 ++ bs2) /\
    reads (S := In) (iteration 2 (dpflag sp) f) bs1
      (push_object (misread_group sp P N C p) f, false) /\
    bs2 = be_bytes 4 p.2 ++ be_bytes 4 (wrapw 32 ci) ++ be_bytes 4 (wrapw 32 mi).
Proof.
  intros HC Hok Hc. destruct (codec_misread (Out := Out) (In := In) sp P N C p f HC Hok)
    as (bs1 & W1 & R1).
  exists bs1, (be_bytes 4 p.2 ++ be_bytes 4 (wrapw 32 ci) ++ be_bytes 4 (wrapw 32 mi)).
  split_and!; [|done..]. intros o g Ho Hs. cbn [put_element].
  rewrite put_triangles_misaligned by done.
  refine (writes_seq sp _ _ _ _ W1 _ o g Ho Hs).
  unfold addCenterIndexMat. auto using writes_seq, writes_put_u32.
Qed.

Definition sample_colour : RGBAColour := mkColour d1 d0 d0 d1.

Lemma explicit_colours_misread_witness : exists bs1 bs2,
  writes (S := FILE) false (put_element (addTriangles 3 4 [mkTriple d0 d0 d0] [mkTriple d0 d0 d1]
    [sample_colour; sample_colour] [(0, 1, 2)] [(0, 1, 2)] [(1, 1, 0)])) (bs1 ++ bs2) /\
  reads (S := FILE) (iteration 2 1 emptyFile) bs1
    (push_object (misread_group false [mkTriple d0 d0 d0] [mkTriple d0 d0 d1]
       [sample_colour; sample_colour] (0, 1, 2)) emptyFile, false) /\
  bs2 = be_bytes 4 2 ++ be_bytes 4 (wrapw 32 3) ++ be_bytes 4 (wrapw 32 4).
Proof.
  apply (explicit_colours_misread false 3 4 [mkTriple d0 d0 d0] [mkTriple d0 d0 d1]
    [sample_colour; sample_colour] (0, 1, 2) (1, 1, 0) emptyFile); [discriminate | | reflexivity].
  unfold triangles_ok, sample_colour. ok_tac; try done.
Defined.
