(* ===== verification/Model.v ===== *)
(** * A model on a page

    [v3d-Common/V3dModel.h], [V3dModel.cpp] and [Utility/Arcball.cpp]: the view
    state of one 3D figure and the operations that the mouse and the keyboard
    perform on it.

    The matrix functions of glm and the elementary functions of the C library
    are the operations of the classes [Glm] and [Libm]; everything the source
    computes itself is computed here, in [float] and [double] arithmetic.  An
    operation that dereferences a null [file] or uses an indeterminate header
    value is [Undef]. *)

From Stdlib Require Import Floats.SpecFloat.
From S2P Require Import Prelude Ieee Xstream Bound V3dData.

Record vec2 := mkVec2 { vx : float32; vy : float32 }.
Record vec3 := mkVec3 { v3x : float32; v3y : float32; v3z : float32 }.

(** Functions of glm. *)
Class Glm := {
  dmat4 : Type;
  dmat3 : Type;
  mat4_identity : dmat4;
  mat3_identity : dmat3;
  (* ortho and frustum of (left, right, bottom, top, near, far) *)
  glm_ortho : float32 -> float32 -> float32 -> float32 -> float32 -> float32 -> dmat4;
  glm_frustum : float32 -> float32 -> float32 -> float32 -> float32 -> float32 -> dmat4;
  glm_translate : dmat4 -> float64 * float64 * float64 -> dmat4;
  glm_mul : dmat4 -> dmat4 -> dmat4;
  glm_normal : dmat4 -> dmat3;                        (* dmat3(inverse(m)) *)
  glm_rotate : float64 -> float64 * float64 * float64 -> dmat4;
  glm_length2 : vec2 -> float32;
  glm_length3 : vec3 -> float32;
  glm_dot : vec3 -> vec3 -> float32;
  glm_cross : vec3 -> vec3 -> vec3;
  glm_normalize : vec3 -> vec3
}.

(** Functions of the C library. *)
Class Libm := {
  std_tan : float64 -> float64;
  std_pow : float64 -> float64 -> float64;
  std_log : float64 -> float64;
  std_logf : float32 -> float32;
  std_acosf : float32 -> float32;
  std_hypotf : float32 -> float32 -> float32
}.

(** Results of the operations. *)
Definition obind {A B} (o : outcome A) (k : A -> outcome B) : outcome B :=
  match o with Ret a => k a | Undef => Undef | NoFuel => NoFuel end.
Notation "x <~ o ;; k" := (obind o (fun x => k))
  (at level 100, o at next level, right associativity) : v3d_scope.

Definition determined {A} (v : option A) : outcome A :=
  match v with Some a => Ret a | None => Undef end.

Definition f0 : float32 := S754_zero false.
Definition f2 : float32 := f32_of_bits 0x40000000.
Definition fhalf : float32 := f32_of_bits 0x3F000000.
(** 0.1f, 0.001f, [glm::pi<float>()] and the greatest [float]. *)
Definition f0_1 : float32 := f32_of_bits 0x3DCCCCCD.
Definition f0_001 : float32 := f32_of_bits 0x3A83126F.
Definition pi_f : float32 := f32_of_bits 0x40490FDB.
Definition flt_max : float32 := f32_of_bits 0x7F7FFFFF.

(** [operator==] of [glm::vec2]. *)
Definition vec2_eqb (a b : vec2) : bool := SFeqb (vx a) (vx b) && SFeqb (vy a) (vy b).

(** [cycleMode]'s successor, modulo [NUM_DRAW_MODES]. *)
Definition next_mode (d : DrawMode) : DrawMode :=
  match d with
  | DRAWMODE_NORMAL => DRAWMODE_OUTLINE
  | DRAWMODE_OUTLINE => DRAWMODE_WIREFRAME
  | DRAWMODE_WIREFRAME => DRAWMODE_NORMAL
  end.

(** ** [Utility/Arcball.cpp] *)

Section Arcball.
Context {glm : Glm} {libm : Libm}.

Definition std_maxf (a b : float32) : float32 := if SFltb a b then b else a.

Definition arcball_norm (v : vec2) : vec3 :=
  let norm := std_hypotf (vx v) (vy v) in
  let v := if SFltb f1 norm
           then let denom := fdiv f1 norm in mkVec2 (fmul (vx v) denom) (fmul (vy v) denom)
           else v in
  mkVec3 (vx v) (vy v)
    (fsqrt (std_maxf (fsub (fsub f1 (fmul (vx v) (vx v))) (fmul (vy v) (vy v))) f0)).

(** The constructor: [angle] and [axis]. *)
Definition Arcball (lastMousePosition mousePosition : vec2) : float32 * vec3 :=
  let v0 := arcball_norm lastMousePosition in
  let v1 := arcball_norm mousePosition in
  let Dot := glm_dot v0 v1 in
  (if SFltb f1 Dot then f0 else if SFltb Dot (fopp f1) then pi_f else std_acosf Dot,
   glm_normalize (glm_cross v0 v1)).
End Arcball.

(** ** [struct V3dModel] *)

Section Model.
Context {glm : Glm} {libm : Libm}.

Record V3dModel := mkModel {
  m_minBound : vec2; m_maxBound : vec2;        (* minBound, maxBound: place on the page *)
  Zoom : float32; lastzoom : float32; Zoom0 : float32;
  rotateMat : dmat4; viewMat : dmat4; projMat : dmat4; normMat : dmat3;
  xmin : float32; xmax : float32; ymin : float32; ymax : float32;
  Hhalf : float32;                             (* H *)
  cx : float64; cy : float64; cz : float64;
  Xshift : float32; Yshift : float32;
  file : option V3dFile;
  remesh : bool; initialized : bool;
  drawMode : DrawMode;
  m_HasChanged : bool
}.

(** Assignments to the members. *)
Definition set_m_minBound (v : vec2) (m : V3dModel) : V3dModel :=
  mkModel v (m_maxBound m) (Zoom m) (lastzoom m) (Zoom0 m) (rotateMat m) (viewMat m)
    (projMat m) (normMat m) (xmin m) (xmax m) (ymin m) (ymax m) (Hhalf m) (cx m) (cy m)
    (cz m) (Xshift m) (Yshift m) (file m) (remesh m) (initialized m) (drawMode m)
    (m_HasChanged m).
Definition set_m_maxBound (v : vec2) (m : V3dModel) : V3dModel :=
  mkModel (m_minBound m) v (Zoom m) (lastzoom m) (Zoom0 m) (rotateMat m) (viewMat m)
    (projMat m) (normMat m) (xmin m) (xmax m) (ymin m) (ymax m) (Hhalf m) (cx m) (cy m)
    (cz m) (Xshift m) (Yshift m) (file m) (remesh m) (initialized m) (drawMode m)
    (m_HasChanged m).
Definition set_Zoom (v : float32) (m : V3dModel) : V3dModel :=
  mkModel (m_minBound m) (m_maxBound m) v (lastzoom m) (Zoom0 m) (rotateMat m) (viewMat m)
    (projMat m) (normMat m) (xmin m) (xmax m) (ymin m) (ymax m) (Hhalf m) (cx m) (cy m)
    (cz m) (Xshift m) (Yshift m) (file m) (remesh m) (initialized m) (drawMode m)
    (m_HasChanged m).
Definition set_lastzoom (v : float32) (m : V3dModel) : V3dModel :=
  mkModel (m_minBound m) (m_maxBound m) (Zoom m) v (Zoom0 m) (rotateMat m) (viewMat m)
    (projMat m) (normMat m) (xmin m) (xmax m) (ymin m) (ymax m) (Hhalf m) (cx m) (cy m)
    (cz m) (Xshift m) (Yshift m) (file m) (remesh m) (initialized m) (drawMode m)
    (m_HasChanged m).
Definition set_Zoom0 (v : float32) (m : V3dModel) : V3dModel :=
  mkModel (m_minBound m) (m_maxBound m) (Zoom m) (lastzoom m) v (rotateMat m) (viewMat m)
    (projMat m) (normMat m) (xmin m) (xmax m) (ymin m) (ymax m) (Hhalf m) (cx m) (cy m)
    (cz m) (Xshift m) (Yshift m) (file m) (remesh m) (initialized m) (drawMode m)
    (m_HasChanged m).
Definition set_rotateMat (v : dmat4) (m : V3dModel) : V3dModel :=
  mkModel (m_minBound m) (m_maxBound m) (Zoom m) (lastzoom m) (Zoom0 m) v (viewMat m)
    (projMat m) (normMat m) (xmin m) (xmax m) (ymin m) (ymax m) (Hhalf m) (cx m) (cy m)
    (cz m) (Xshift m) (Yshift m) (file m) (remesh m) (initialized m) (drawMode m)
    (m_HasChanged m).
Definition set_viewMat (v : dmat4) (m : V3dModel) : V3dModel :=
  mkModel (m_minBound m) (m_maxBound m) (Zoom m) (lastzoom m) (Zoom0 m) (rotateMat m) v
    (projMat m) (normMat m) (xmin m) (xmax m) (ymin m) (ymax m) (Hhalf m) (cx m) (cy m)
    (cz m) (Xshift m) (Yshift m) (file m) (remesh m) (initialized m) (drawMode m)
    (m_HasChanged m).
Definition set_projMat (v : dmat4) (m : V3dModel) : V3dModel :=
  mkModel (m_minBound m) (m_maxBound m) (Zoom m) (lastzoom m) (Zoom0 m) (rotateMat m)
    (viewMat m) v (normMat m) (xmin m) (xmax m) (ymin m) (ymax m) (Hhalf m) (cx m) (cy m)
    (cz m) (Xshift m) (Yshift m) (file m) (remesh m) (initialized m) (drawMode m)
    (m_HasChanged m).
Definition set_normMat (v : dmat3) (m : V3dModel) : V3dModel :=
  mkModel (m_minBound m) (m_maxBound m) (Zoom m) (lastzoom m) (Zoom0 m) (rotateMat m)
    (viewMat m) (projMat m) v (xmin m) (xmax m) (ymin m) (ymax m) (Hhalf m) (cx m) (cy m)
    (cz m) (Xshift m) (Yshift m) (file m) (remesh m) (initialized m) (drawMode m)
    (m_HasChanged m).
Definition set_xmin (v : float32) (m : V3dModel) : V3dModel :=
  mkModel (m_minBound m) (m_maxBound m) (Zoom m) (lastzoom m) (Zoom0 m) (rotateMat m)
    (viewMat m) (projMat m) (normMat m) v (xmax m) (ymin m) (ymax m) (Hhalf m) (cx m) (cy
    m) (cz m) (Xshift m) (Yshift m) (file m) (remesh m) (initialized m) (drawMode m)
    (m_HasChanged m).
Definition set_xmax (v : float32) (m : V3dModel) : V3dModel :=
  mkModel (m_minBound m) (m_maxBound m) (Zoom m) (lastzoom m) (Zoom0 m) (rotateMat m)
    (viewMat m) (projMat m) (normMat m) (xmin m) v (ymin m) (ymax m) (Hhalf m) (cx m) (cy
    m) (cz m) (Xshift m) (Yshift m) (file m) (remesh m) (initialized m) (drawMode m)
    (m_HasChanged m).
Definition set_ymin (v : float32) (m : V3dModel) : V3dModel :=
  mkModel (m_minBound m) (m_maxBound m) (Zoom m) (lastzoom m) (Zoom0 m) (rotateMat m)
    (viewMat m) (projMat m) (normMat m) (xmin m) (xmax m) v (ymax m) (Hhalf m) (cx m) (cy
    m) (cz m) (Xshift m) (Yshift m) (file m) (remesh m) (initialized m) (drawMode m)
    (m_HasChanged m).
Definition set_ymax (v : float32) (m : V3dModel) : V3dModel :=
  mkModel (m_minBound m) (m_maxBound m) (Zoom m) (lastzoom m) (Zoom0 m) (rotateMat m)
    (viewMat m) (projMat m) (normMat m) (xmin m) (xmax m) (ymin m) v (Hhalf m) (cx m) (cy
    m) (cz m) (Xshift m) (Yshift m) (file m) (remesh m) (initialized m) (drawMode m)
    (m_HasChanged m).
Definition set_Hhalf (v : float32) (m : V3dModel) : V3dModel :=
  mkModel (m_minBound m) (m_maxBound m) (Zoom m) (lastzoom m) (Zoom0 m) (rotateMat m)
    (viewMat m) (projMat m) (normMat m) (xmin m) (xmax m) (ymin m) (ymax m) v (cx m) (cy
    m) (cz m) (Xshift m) (Yshift m) (file m) (remesh m) (initialized m) (drawMode m)
    (m_HasChanged m).
Definition set_cx (v : float64) (m : V3dModel) : V3dModel :=
  mkModel (m_minBound m) (m_maxBound m) (Zoom m) (lastzoom m) (Zoom0 m) (rotateMat m)
    (viewMat m) (projMat m) (normMat m) (xmin m) (xmax m) (ymin m) (ymax m) (Hhalf m) v
    (cy m) (cz m) (Xshift m) (Yshift m) (file m) (remesh m) (initialized m) (drawMode m)
    (m_HasChanged m).
Definition set_cy (v : float64) (m : V3dModel) : V3dModel :=
  mkModel (m_minBound m) (m_maxBound m) (Zoom m) (lastzoom m) (Zoom0 m) (rotateMat m)
    (viewMat m) (projMat m) (normMat m) (xmin m) (xmax m) (ymin m) (ymax m) (Hhalf m) (cx
    m) v (cz m) (Xshift m) (Yshift m) (file m) (remesh m) (initialized m) (drawMode m)
    (m_HasChanged m).
Definition set_cz (v : float64) (m : V3dModel) : V3dModel :=
  mkModel (m_minBound m) (m_maxBound m) (Zoom m) (lastzoom m) (Zoom0 m) (rotateMat m)
    (viewMat m) (projMat m) (normMat m) (xmin m) (xmax m) (ymin m) (ymax m) (Hhalf m) (cx
    m) (cy m) v (Xshift m) (Yshift m) (file m) (remesh m) (initialized m) (drawMode m)
    (m_HasChanged m).
Definition set_Xshift (v : float32) (m : V3dModel) : V3dModel :=
  mkModel (m_minBound m) (m_maxBound m) (Zoom m) (lastzoom m) (Zoom0 m) (rotateMat m)
    (viewMat m) (projMat m) (normMat m) (xmin m) (xmax m) (ymin m) (ymax m) (Hhalf m) (cx
    m) (cy m) (cz m) v (Yshift m) (file m) (remesh m) (initialized m) (drawMode m)
    (m_HasChanged m).
Definition set_Yshift (v : float32) (m : V3dModel) : V3dModel :=
  mkModel (m_minBound m) (m_maxBound m) (Zoom m) (lastzoom m) (Zoom0 m) (rotateMat m)
    (viewMat m) (projMat m) (normMat m) (xmin m) (xmax m) (ymin m) (ymax m) (Hhalf m) (cx
    m) (cy m) (cz m) (Xshift m) v (file m) (remesh m) (initialized m) (drawMode m)
    (m_HasChanged m).
Definition set_file (v : option V3dFile) (m : V3dModel) : V3dModel :=
  mkModel (m_minBound m) (m_maxBound m) (Zoom m) (lastzoom m) (Zoom0 m) (rotateMat m)
    (viewMat m) (projMat m) (normMat m) (xmin m) (xmax m) (ymin m) (ymax m) (Hhalf m) (cx
    m) (cy m) (cz m) (Xshift m) (Yshift m) v (remesh m) (initialized m) (drawMode m)
    (m_HasChanged m).
Definition set_remesh (v : bool) (m : V3dModel) : V3dModel :=
  mkModel (m_minBound m) (m_maxBound m) (Zoom m) (lastzoom m) (Zoom0 m) (rotateMat m)
    (viewMat m) (projMat m) (normMat m) (xmin m) (xmax m) (ymin m) (ymax m) (Hhalf m) (cx
    m) (cy m) (cz m) (Xshift m) (Yshift m) (file m) v (initialized m) (drawMode m)
    (m_HasChanged m).
Definition set_initialized (v : bool) (m : V3dModel) : V3dModel :=
  mkModel (m_minBound m) (m_maxBound m) (Zoom m) (lastzoom m) (Zoom0 m) (rotateMat m)
    (viewMat m) (projMat m) (normMat m) (xmin m) (xmax m) (ymin m) (ymax m) (Hhalf m) (cx
    m) (cy m) (cz m) (Xshift m) (Yshift m) (file m) (remesh m) v (drawMode m)
    (m_HasChanged m).
Definition set_drawMode (v : DrawMode) (m : V3dModel) : V3dModel :=
  mkModel (m_minBound m) (m_maxBound m) (Zoom m) (lastzoom m) (Zoom0 m) (rotateMat m)
    (viewMat m) (projMat m) (normMat m) (xmin m) (xmax m) (ymin m) (ymax m) (Hhalf m) (cx
    m) (cy m) (cz m) (Xshift m) (Yshift m) (file m) (remesh m) (initialized m) v
    (m_HasChanged m).
Definition set_m_HasChanged (v : bool) (m : V3dModel) : V3dModel :=
  mkModel (m_minBound m) (m_maxBound m) (Zoom m) (lastzoom m) (Zoom0 m) (rotateMat m)
    (viewMat m) (projMat m) (normMat m) (xmin m) (xmax m) (ymin m) (ymax m) (Hhalf m) (cx
    m) (cy m) (cz m) (Xshift m) (Yshift m) (file m) (remesh m) (initialized m) (drawMode
    m) v.

(** The initialisers of the members. *)
Definition newModel (minB maxB : vec2) (f : option V3dFile) : V3dModel :=
  mkModel minB maxB f1 f1 f1 mat4_identity mat4_identity mat4_identity mat3_identity
    f0 f0 f0 f0 f0 d0 d0 d0 f0 f0 f true false DRAWMODE_NORMAL true.

Definition header_of (m : V3dModel) : outcome V3dHeaderInfo :=
  match file m with Some f => Ret (headerInfo f) | None => Undef end.

Definition initProjection (m : V3dModel) : outcome V3dModel :=
  h <~ header_of m;;
  angle <~ determined (angleOfView h);;
  maxz <~ determined (maxBound h).2;;
  minz <~ determined (minBound h).2;;
  zoom <~ determined (initialZoom h);;
  sx <~ determined (viewportShift h).1;;
  sy <~ determined (viewportShift h).2;;
  let m := set_Hhalf (float_of_double (dmul (dopp (std_tan (dmul dhalf angle))) maxz)) m in
  let m := set_cz (dmul dhalf (dadd minz maxz)) (set_cy d0 (set_cx d0 m)) in
  let m := set_Zoom (float_of_double zoom) m in
  let m := set_lastzoom (Zoom m) m in
  let m := set_Zoom0 (float_of_double zoom) m in
  let m := set_Xshift (float_of_double (ddiv sx (double_of_float (Zoom0 m)))) m in
  Ret (set_Yshift (float_of_double (ddiv sy (double_of_float (Zoom0 m)))) m).

(** The constructors; an empty path leaves [file] null. *)
Definition V3dModel_of_file (f : option V3dFile) (minB maxB : vec2) : outcome V3dModel :=
  match f with
  | Some _ => initProjection (newModel minB maxB f)
  | None => Ret (newModel minB maxB None)
  end.

Definition home (m : V3dModel) : V3dModel :=
  let m := set_cy d0 (set_cx d0 m) in
  let m := set_lastzoom (Zoom0 m) (set_Zoom (Zoom0 m) m) in
  let m := set_rotateMat mat4_identity m in
  let m := set_Yshift f0 (set_Xshift f0 m) in
  set_remesh true (set_m_HasChanged true m).

Definition cycleMode (m : V3dModel) : V3dModel :=
  set_remesh true (set_m_HasChanged true (set_drawMode (next_mode (drawMode m)) m)).

Definition setDimensions (Width Height X Y : float32) (m : V3dModel) : outcome V3dModel :=
  h <~ header_of m;;
  hXmin <~ determined (minBound h).1.1;; hXmax <~ determined (maxBound h).1.1;;
  hYmin <~ determined (minBound h).1.2;; hYmax <~ determined (maxBound h).1.2;;
  let aspect := fdiv Width Height in
  let zoom := Zoom m in
  let xshift := fmul (fadd (fdiv X Width) (Xshift m)) zoom in
  let yshift := fmul (fadd (fdiv Y Height) (Yshift m)) zoom in
  let zoominv := fdiv f1 zoom in
  let Xmin := float_of_double hXmin in let Xmax := float_of_double hXmax in
  let Ymin := float_of_double hYmin in let Ymax := float_of_double hYmax in
  let frustum x0 x1 y0 y1 := set_ymax y1 (set_ymin y0 (set_xmax x1 (set_xmin x0 m))) in
  if negb (orthographic h =? 0) then
    let xsize := fsub Xmax Xmin in
    let ysize := fsub Ymax Ymin in
    if SFltb xsize (fmul ysize aspect) then
      let r := fmul (fmul (fmul fhalf ysize) aspect) zoominv in
      let X0 := fmul (fmul f2 r) xshift in
      let Y0 := fmul (fmul ysize zoominv) yshift in
      Ret (frustum (fsub (fopp r) X0) (fsub r X0)
             (fsub (fmul Ymin zoominv) Y0) (fsub (fmul Ymax zoominv) Y0))
    else
      let r := fdiv (fmul (fmul fhalf xsize) zoominv) aspect in
      let X0 := fmul (fmul xsize zoominv) xshift in
      let Y0 := fmul (fmul f2 r) yshift in
      Ret (frustum (fsub (fmul Xmin zoominv) X0) (fsub (fmul Xmax zoominv) X0)
             (fsub (fopp r) Y0) (fsub r Y0))
  else
    let r := fmul (Hhalf m) zoominv in
    let rAspect := fmul r aspect in
    let X0 := fmul (fmul f2 rAspect) xshift in
    let Y0 := fmul (fmul f2 r) yshift in
    Ret (frustum (fsub (fopp rAspect) X0) (fsub rAspect X0) (fsub (fopp r) Y0) (fsub r Y0)).

Definition updateViewMatrix (m : V3dModel) : V3dModel :=
  let v := glm_translate mat4_identity (cx m, cy m, cz m) in
  let v := glm_mul v (rotateMat m) in
  let v := glm_translate v (d0, d0, dopp (cz m)) in
  set_m_HasChanged true (set_normMat (glm_normal v) (set_viewMat v m)).

Definition setProjection (displayDimensions : vec2) (m : V3dModel) : outcome V3dModel :=
  m <~ setDimensions (vx displayDimensions) (vy displayDimensions) f0 f0 m;;
  h <~ header_of m;;
  hZmin <~ determined (minBound h).2;; hZmax <~ determined (maxBound h).2;;
  let Zmin := float_of_double hZmin in let Zmax := float_of_double hZmax in
  let project := if negb (orthographic h =? 0) then glm_ortho else glm_frustum in
  Ret (updateViewMatrix
    (set_projMat (project (xmin m) (xmax m) (ymin m) (ymax m) (fopp Zmax) (fopp Zmin)) m)).

(** ** Drag modes: [n] is the normalized mouse position, [l] the last one. *)

Definition dragModeShift (n l pageViewSize : vec2) (m : V3dModel) : outcome V3dModel :=
  if vec2_eqb n l then Ret m
  else
    let m := set_Xshift (fadd (Xshift m) (fsub (vx n) (vx l))) m in
    let m := set_Yshift (fsub (Yshift m) (fsub (vy n) (vy l))) m in
    Ret (set_m_HasChanged true m).

Definition maxZoom : float32 := fsqrt flt_max.
Definition minZoom : float32 := fdiv f1 maxZoom.

Definition clamp_zoom (z : float32) : float32 :=
  if SFleb z minZoom then minZoom else if SFleb maxZoom z then maxZoom else z.

Definition dragModeZoom (n l pageViewSize : vec2) (m : V3dModel) : outcome V3dModel :=
  if vec2_eqb n l then Ret m
  else
    let diff := fsub (vy l) (vy n) in
    h <~ header_of m;;
    step <~ determined (zoomStep h);;
    factor <~ determined (zoomFactor h);;
    let stepPower := float_of_double
      (dmul (dmul step (double_of_float (fdiv (vy pageViewSize) f2))) (double_of_float diff)) in
    let limit := float_of_double
      (ddiv (double_of_float (std_logf (fmul f0_1 flt_max))) (std_log factor)) in
    if SFltb (SFabs stepPower) limit then
      let z := float_of_double
        (dmul (double_of_float (Zoom m)) (std_pow factor (double_of_float stepPower))) in
      Ret (set_remesh true (set_m_HasChanged true (set_Zoom (clamp_zoom z) m)))
    else Ret m.

Definition dragModePan (n l pageViewSize : vec2) (m : V3dModel) : outcome V3dModel :=
  if vec2_eqb n l then Ret m
  else
    h <~ header_of m;;
    m <~ (if negb (orthographic h =? 0) then dragModeShift n l pageViewSize m
          else
            let dx := fmul (fsub (vx n) (vx l)) (fsub (xmax m) (xmin m)) in
            let dy := fmul (fsub (vy n) (vy l)) (fsub (ymax m) (ymin m)) in
            Ret (set_cy (dsub (cy m) (double_of_float dy))
                  (set_cx (dadd (cx m) (double_of_float dx)) m)));;
    Ret (set_m_HasChanged true m).

Definition dragModeRotate (n l pageViewSize : vec2) (m : V3dModel) : outcome V3dModel :=
  let arcballFactor := f1 in
  if vec2_eqb n l then Ret m
  else
    let delta := mkVec2 (fsub (vx n) (vx l)) (fsub (vy n) (vy l)) in
    if SFltb (glm_length2 delta) f0_001 then Ret m
    else
      let ndc p := mkVec2 (fsub (fmul (vx p) f2) f1) (fsub f1 (fmul (vy p) f2)) in
      let '(angle, axis) := Arcball (ndc l) (ndc n) in
      if SFltb (glm_length3 axis) f0_001 then Ret m
      else
        let angleRadians := fmul (fdiv (fmul f2 angle) (Zoom m)) arcballFactor in
        let temp := glm_rotate (double_of_float angleRadians)
          (double_of_float (v3x axis), double_of_float (v3y axis), double_of_float (v3z axis)) in
        Ret (set_m_HasChanged true (set_rotateMat (glm_mul temp (rotateMat m)) m)).
End Model.

(** ** Properties *)

(** The members that no interaction changes: place on the page, file, initial
    zoom, and whether the model was rendered. *)
Definition same_identity `{Glm} (m m' : V3dModel) : Prop :=
  m_minBound m' = m_minBound m /\ m_maxBound m' = m_maxBound m /\ file m' = file m /\
  Zoom0 m' = Zoom0 m /\ initialized m' = initialized m /\ drawMode m' = drawMode m.

(** The change of an interaction is visible to the renderer. *)
Definition change_flagged `{Glm} (m m' : V3dModel) : Prop := m' = m \/ m_HasChanged m' = true.

Section Lemmas.
Context {glm : Glm} {libm : Libm}.

Lemma obind_Ret {A B} (o : outcome A) (k : A -> outcome B) b :
  obind o k = Ret b -> exists a, o = Ret a /\ k a = Ret b.
Proof. destruct o as [a| |]; [eauto|done..]. Qed.

Lemma Ret_inj {A} (a b : A) : Ret a = Ret b -> a = b.
Proof. by intros [= ->]. Qed.

Lemma setProjection_identity v m m' : setProjection v m = Ret m' -> same_identity m m'.
Proof.
  unfold setProjection. intros E. apply obind_Ret in E as (m1 & E1 & E).
  apply obind_Ret in E as (h & _ & E). apply obind_Ret in E as (z1 & _ & E).
  apply obind_Ret in E as (z2 & _ & E). injection E as <-. change (same_identity m m1).
  revert E1. unfold setDimensions. intros E1.
  do 5 (apply obind_Ret in E1 as (? & _ & E1)). revert E1. cbv zeta.
  destruct (negb _); [destruct (SFltb _ _)|]; intros <-%Ret_inj;
    repeat split; reflexivity.
Qed.

Lemma dragModeShift_frame n l pv m m' :
  dragModeShift n l pv m = Ret m' -> same_identity m m' /\ change_flagged m m'.
Proof.
  unfold dragModeShift. destruct (vec2_eqb n l); intros [= <-].
  - split; [done|by left].
  - split; [done|by right].
Qed.

Lemma SFleb_false_ltb x y :
  sf_nan x = false -> sf_nan y = false -> SFleb x y = false -> sf_le y x.
Proof.
  intros Hx Hy Hl. destruct (sf_le_total x y Hx Hy) as [Hxy|]; [|done].
  unfold sf_le in Hxy. congruence.
Qed.

Lemma minZoom_le_maxZoom : sf_le minZoom maxZoom.
Proof. by vm_compute. Qed.
Lemma minZoom_number : sf_nan minZoom = false.
Proof. by vm_compute. Qed.
Lemma maxZoom_number : sf_nan maxZoom = false.
Proof. by vm_compute. Qed.

(** The clamp leaves NaN alone and puts every other value in the interval. *)
Lemma clamp_zoom_range z :
  sf_nan z = false -> sf_le minZoom (clamp_zoom z) /\ sf_le (clamp_zoom z) maxZoom.
Proof.
  intros Hz. unfold clamp_zoom. destruct (SFleb z minZoom) eqn:E1.
  - split; [apply sf_le_refl, minZoom_number | apply minZoom_le_maxZoom].
  - destruct (SFleb maxZoom z) eqn:E2.
    + split; [apply minZoom_le_maxZoom | apply sf_le_refl, maxZoom_number].
    + split; apply SFleb_false_ltb; auto using minZoom_number, maxZoom_number.
Qed.

Lemma clamp_zoom_nan z : sf_nan z = true -> clamp_zoom z = z.
Proof. by destruct z. Qed.

Definition zoom_ok (z : float32) : Prop :=
  sf_nan z = true \/ (sf_le minZoom z /\ sf_le z maxZoom).

Lemma clamp_zoom_ok z : zoom_ok (clamp_zoom z).
Proof.
  destruct (sf_nan z) eqn:E; [left; by rewrite clamp_zoom_nan | right; by apply clamp_zoom_range].
Qed.

Lemma dragModeZoom_cases n l pv m m' :
  dragModeZoom n l pv m = Ret m' ->
  m' = m \/ exists z, m' = set_remesh true (set_m_HasChanged true (set_Zoom (clamp_zoom z) m)).
Proof.
  unfold dragModeZoom. destruct (vec2_eqb n l); [intros [= <-]; by left|].
  intros E. apply obind_Ret in E as (h & _ & E). apply obind_Ret in E as (st & _ & E).
  apply obind_Ret in E as (fa & _ & E). revert E. cbv zeta.
  destruct (SFltb _ _); intros [= <-]; eauto.
Qed.

Lemma dragModePan_frame n l pv m m' :
  dragModePan n l pv m = Ret m' -> same_identity m m' /\ change_flagged m m'.
Proof.
  unfold dragModePan. destruct (vec2_eqb n l); [intros [= <-]; split; [done|by left]|].
  intros E. apply obind_Ret in E as (h & _ & E). apply obind_Ret in E as (m1 & E1 & E).
  injection E as <-. destruct (negb _).
  - apply dragModeShift_frame in E1 as [? _]. split; [done|by right].
  - injection E1 as <-. split; [done|by right].
Qed.

Lemma dragModeRotate_frame n l pv m m' :
  dragModeRotate n l pv m = Ret m' -> same_identity m m' /\ change_flagged m m'.
Proof.
  unfold dragModeRotate. destruct (vec2_eqb n l); [intros [= <-]; split; [done|by left]|].
  cbv zeta. destruct (SFltb _ _); [intros [= <-]; split; [done|by left]|].
  destruct (Arcball _ _) as [angle axis].
  destruct (SFltb _ _); intros [= <-]; (split; [done|]); [by left | by right].
Qed.

Lemma dragModeZoom_frame n l pv m m' :
  dragModeZoom n l pv m = Ret m' -> same_identity m m' /\ change_flagged m m'.
Proof.
  intros E. apply dragModeZoom_cases in E as [->|[z ->]]; (split; [done|]); [by left | by right].
Qed.
End Lemmas.

(** The four drag modes. *)
Inductive drag_mode := DragShift | DragZoom | DragPan | DragRotate.

Definition drag `{Glm, Libm} (d : drag_mode) : vec2 -> vec2 -> vec2 -> V3dModel -> outcome V3dModel :=
  match d with
  | DragShift => dragModeShift
  | DragZoom => dragModeZoom
  | DragPan => dragModePan
  | DragRotate => dragModeRotate
  end.

Lemma drag_identity {glm : Glm} {libm : Libm} d n l pv m m' :
  drag d n l pv m = Ret m' -> same_identity m m' /\ change_flagged m m'.
Proof.
  intros E. destruct d; [exact (dragModeShift_frame _ _ _ _ _ E) | exact (dragModeZoom_frame _ _ _ _ _ E)
                |exact (dragModePan_frame _ _ _ _ _ E) | exact (dragModeRotate_frame _ _ _ _ _ E)].
Qed.

(** The kept meshes stay good: the model is marked for [remesh], or it is marked as
    before and its draw mode is the same. *)
Definition mesh_kept `{Glm} (m m' : V3dModel) : Prop :=
  remesh m' = true \/ (remesh m' = remesh m /\ drawMode m' = drawMode m).

#[export] Instance mesh_kept_refl `{Glm} : Reflexive mesh_kept.
Proof. intros m. by right. Qed.
#[export] Instance mesh_kept_trans `{Glm} : Transitive mesh_kept.
Proof. intros a b c [H1|[H1 H1']] [H2|[H2 H2']]; [by left|left; congruence|by left|right; split; congruence]. Qed.

Lemma setProjection_mesh {glm : Glm} {libm : Libm} v m m' : setProjection v m = Ret m' -> mesh_kept m m'.
Proof.
  intros E. right. split; [|by apply setProjection_identity in E as (_ & _ & _ & _ & _ & ?)].
  revert E. unfold setProjection. intros E. apply obind_Ret in E as (m1 & E1 & E).
  do 3 (apply obind_Ret in E as (? & _ & E)). injection E as <-. change (remesh m1 = remesh m).
  revert E1. unfold setDimensions. intros E1. do 5 (apply obind_Ret in E1 as (? & _ & E1)). revert E1.
  cbv zeta. destruct (negb _); [destruct (SFltb _ _)|]; by intros <-%Ret_inj.
Qed.

Lemma drag_mesh {glm : Glm} {libm : Libm} d n l pv m m' : drag d n l pv m = Ret m' -> mesh_kept m m'.
Proof.
  intros E. destruct d; cbn in E.
  - unfold dragModeShift in E. destruct (vec2_eqb n l); injection E as <-; by right.
  - apply dragModeZoom_cases in E as [->|[z ->]]; [by right|by left].
  - unfold dragModePan in E. destruct (vec2_eqb n l); [injection E as <-; by right|].
    apply obind_Ret in E as (h & _ & E). apply obind_Ret in E as (m1 & E1 & E). injection E as <-.
    destruct (negb _); [|injection E1 as <-; by right].
    unfold dragModeShift in E1. destruct (vec2_eqb n l); injection E1 as <-; by right.
  - unfold dragModeRotate in E. destruct (vec2_eqb n l); [injection E as <-; by right|]. cbv zeta in E.
    destruct (SFltb _ _); [injection E as <-; by right|]. destruct (Arcball _ _).
    destruct (SFltb _ _); injection E as <-; by right.
Qed.

(** A drag touches the view only, and never silently: whichever mode, the
    place of the model on the page, its file, draw mode and initial zoom stay,
    and the model is either exactly as before or marked as changed; between
    equal positions it is exactly as before. *)
Theorem drag_frame {glm : Glm} {libm : Libm} d n l pv m m' :
  drag d n l pv m = Ret m' ->
  same_identity m m' /\ change_flagged m m' /\ (vec2_eqb n l = true -> m' = m).
Proof.
  intros E. destruct (drag_identity _ _ _ _ _ _ E).
  split_and!; [done..|]. intros Heq. destruct d; cbn in E;
    unfold dragModeShift, dragModeZoom, dragModePan, dragModeRotate in E;
    rewrite Heq in E; by injection E as <-.
Qed.

(** The zoom factor stays usable: from a zoom that is in the interval
    [1/sqrt(FLT_MAX), sqrt(FLT_MAX)] (or NaN), every drag leads to one. *)
Theorem drag_zoom_bounded {glm : Glm} {libm : Libm} d n l pv m m' :
  drag d n l pv m = Ret m' -> zoom_ok (Zoom m) -> zoom_ok (Zoom m').
Proof.
  intros E Hm. destruct d; cbn in E.
  - unfold dragModeShift in E. destruct (vec2_eqb n l); by injection E as <-.
  - apply dragModeZoom_cases in E as [->|[z ->]]; [done|apply clamp_zoom_ok].
  - unfold dragModePan in E. destruct (vec2_eqb n l); [by injection E as <-|].
    apply obind_Ret in E as (h & _ & E). apply obind_Ret in E as (m1 & E1 & E). injection E as <-.
    destruct (negb _); [|by injection E1 as <-].
    unfold dragModeShift in E1. destruct (vec2_eqb n l); by injection E1 as <-.
  - unfold dragModeRotate in E. destruct (vec2_eqb n l); [by injection E as <-|]. cbv zeta in E.
    destruct (SFltb _ _); [by injection E as <-|]. destruct (Arcball _ _).
    destruct (SFltb _ _); by injection E as <-.
Qed.

(** [home] and [cycleMode] act as a reset and as a rotation: [home] is
    idempotent and restores zoom, rotation, position and shift whatever the
    drags before it did; three [cycleMode]s give the draw mode back; both
    mark the model for re-rendering and re-meshing. *)
Theorem home_cycleMode_spec {glm : Glm} {libm : Libm} m :
  home (home m) = home m /\
  (forall d n l pv m', drag d n l pv m = Ret m' ->
     let h := home m' in let h0 := home m in
     Zoom h = Zoom h0 /\ lastzoom h = lastzoom h0 /\ rotateMat h = rotateMat h0 /\
     cx h = cx h0 /\ cy h = cy h0 /\ Xshift h = Xshift h0 /\ Yshift h = Yshift h0) /\
  drawMode (cycleMode (cycleMode (cycleMode m))) = drawMode m /\
  drawMode (cycleMode m) <> drawMode m /\
  m_HasChanged (home m) = true /\ remesh (home m) = true /\
  m_HasChanged (cycleMode m) = true /\ remesh (cycleMode m) = true.
Proof.
  split; [destruct m; vm_compute; reflexivity|]. split.
  - intros d n l pv m' E. assert (Zoom0 m' = Zoom0 m) as Hz.
    { destruct d; cbn [drag] in E;
        [apply dragModeShift_frame in E | apply dragModeZoom_frame in E
        |apply dragModePan_frame in E | apply dragModeRotate_frame in E];
        destruct E as [(_ & _ & _ & Hz & _) _]; exact Hz. }
    clear E. destruct m, m'; vm_compute in Hz; rewrite Hz; vm_compute; repeat split.
  - destruct m as [? ? ? ? ? ? ? ? ? ? ? ? ? ? ? ? ? ? ? ? ? ? dm ?]. destruct dm; vm_compute; repeat split; discriminate.
Qed.

(** [home] does not return to the view of the file: it sets the shift to 0,
    while loading sets it to the viewport shift of the header divided by the
    initial zoom. *)
Theorem home_drops_viewport_shift {glm : Glm} {libm : Libm} f minB maxB sx sy zoom m :
  viewportShift (headerInfo f) = (Some sx, Some sy) -> initialZoom (headerInfo f) = Some zoom ->
  V3dModel_of_file (Some f) minB maxB = Ret m ->
  Xshift m = float_of_double (ddiv sx (double_of_float (float_of_double zoom))) /\
  Yshift m = float_of_double (ddiv sy (double_of_float (float_of_double zoom))) /\
  Xshift (home m) = f0 /\ Yshift (home m) = f0.
Proof.
  intros Hs Hz E. unfold V3dModel_of_file, initProjection in E.
  cbn [header_of file newModel obind] in E.
  apply obind_Ret in E as (a & _ & E). apply obind_Ret in E as (z1 & _ & E).
  apply obind_Ret in E as (z0 & _ & E). rewrite Hz in E. cbn [determined obind] in E.
  rewrite Hs in E. cbn [fst snd determined obind] in E. injection E as <-. repeat split.
Qed.

(** ** Concrete instances *)

(** Matrices as an uninterpreted token and total elementary functions: enough
    to run the operations. *)
Definition glm_token : Glm := {|
  dmat4 := unit; dmat3 := unit; mat4_identity := tt; mat3_identity := tt;
  glm_ortho := fun _ _ _ _ _ _ => tt; glm_frustum := fun _ _ _ _ _ _ => tt;
  glm_translate := fun _ _ => tt; glm_mul := fun _ _ => tt; glm_normal := fun _ => tt;
  glm_rotate := fun _ _ => tt;
  glm_length2 := fun v => fsqrt (fadd (fmul (vx v) (vx v)) (fmul (vy v) (vy v)));
  glm_length3 := fun v => v3z v;
  glm_dot := fun a b => fadd (fmul (v3x a) (v3x b)) (fadd (fmul (v3y a) (v3y b)) (fmul (v3z a) (v3z b)));
  glm_cross := fun a b => mkVec3 f0 f0 f1; glm_normalize := fun v => v
|}.

Definition libm_token : Libm := {|
  std_tan := fun x => x; std_pow := fun x _ => x; std_log := fun _ => d1;
  std_logf := fun _ => flt_max; std_acosf := fun _ => f1; std_hypotf := fun x _ => x
|}.

#[local] Existing Instances glm_token libm_token.

Definition sample_file : V3dFile :=
  set_header (set_viewportShift (Some d1, Some dhalf) defaultHeader) emptyFile.
Definition sample_model : V3dModel :=
  match V3dModel_of_file (Some sample_file) (mkVec2 f0 f0) (mkVec2 f1 f1) with
  | Ret m => m
  | _ => newModel (mkVec2 f0 f0) (mkVec2 f1 f1) None
  end.
#[local] Abbreviation sample_load :=
  (V3dModel_of_file (Some sample_file) (mkVec2 f0 f0) (mkVec2 f1 f1)).

Lemma sample_model_ret : sample_load = Ret sample_model.
Proof.
  assert (match sample_load with Ret _ => true | _ => false end = true) as Hs
    by (vm_compute; reflexivity).
  unfold sample_model. destruct sample_load as [m| |]; [reflexivity | discriminate..].
Qed.

#[local] Abbreviation sample_drag :=
  (drag DragZoom (mkVec2 f0 f0) (mkVec2 f0 f1) (mkVec2 f2 f2) sample_model).
Definition dragged : V3dModel := match sample_drag with Ret m => m | _ => sample_model end.

Lemma sample_drag_ret : sample_drag = Ret dragged.
Proof.
  assert (match sample_drag with Ret _ => true | _ => false end = true) as Hs
    by (vm_compute; reflexivity).
  unfold dragged. destruct sample_drag as [m| |]; [reflexivity | discriminate..].
Qed.

Lemma drag_frame_witness :
  sample_drag = Ret dragged /\ m_HasChanged dragged = true /\ same_identity sample_model dragged.
Proof.
  refine (conj sample_drag_ret (conj _ (proj1 (drag_frame DragZoom (mkVec2 f0 f0) (mkVec2 f0 f1)
    (mkVec2 f2 f2) sample_model dragged sample_drag_ret)))).
  vm_compute. reflexivity.
Defined.

Lemma drag_zoom_bounded_witness : zoom_ok (Zoom sample_model) /\ zoom_ok (Zoom dragged).
Proof.
  assert (zoom_ok (Zoom sample_model)) as Hz by (right; split; vm_compute; reflexivity).
  exact (conj Hz (drag_zoom_bounded DragZoom (mkVec2 f0 f0) (mkVec2 f0 f1) (mkVec2 f2 f2)
    sample_model dragged sample_drag_ret Hz)).
Defined.

Lemma home_drops_viewport_shift_witness :
  SFeqb (Xshift sample_model) f0 = false /\ Xshift (home sample_model) = f0.
Proof.
  split; [vm_compute; reflexivity|].
  exact (proj1 (proj2 (proj2 (home_drops_viewport_shift sample_file (mkVec2 f0 f0) (mkVec2 f1 f1)
    d1 dhalf d1 sample_model eq_refl eq_refl sample_model_ret)))).
Defined.
