(* ===== verification/Renderer.v ===== *)
(** * The headless renderer: what the host keeps between frames

    [v3d-Common/Rendering/renderheadless.{h,cpp}]: the decisions of
    [HeadlessRenderer::render] that do not depend on the GPU's answers, and the
    sizes of the buffers it writes: when resources and pipelines are created
    again, which materials, lights and environment images the frame sees, the
    growth of the fragment buffer and the choice of the blend pipeline.

    One [HeadlessRenderer] draws every model of a document, so what matters is
    what a frame inherits from the frames before it.  The Vulkan calls themselves
    are left out (for the synchronisation see [FrameSync]); their outcomes, a failed
    allocation, a thrown [V3dVulkanError], the feedback of the count pass and
    the image, are the fields of [Device]. *)

From S2P Require Import Prelude Ieee Xstream Bound V3dData IblName IblPath Model.
From coqutil Require Import Datatypes.RecordSetters.
Import TriangleBracketNotations.

(** The image a frame leaves in host memory. *)
Record Frame := mkFrame { data : list Byte.byte; frame_size : Z; rowPitch : Z }.

(** What the device answers during one call of [render]. *)
Record Device := mkDevice {
  maxFramebufferWidth : Z;
  maxFramebufferHeight : Z;
  attachments_ok : bool;             (* createAttachments *)
  alloc_ok : Z -> bool;              (* createBuffer of that many bytes *)
  exr_ok : string -> bool;           (* loadEXR gives data *)
  maxDepth : Z;                      (* feedbackMappedPtr[0] *)
  counted : Z;                       (* feedbackMappedPtr[1]: fragments *)
  vulkan_error : bool;               (* a call of the frame throws V3dVulkanError *)
  image : Frame
}.

Definition localSize : Z := 256.
Definition blockSize : Z := 8.
Definition groupSize : Z := localSize * blockSize.
Definition blendSmallSize : Z := 16.
Definition blendSwitchUp : Z := blendSmallSize.
Definition blendSwitchDown : Z := 12.

(** [GPUMaterial{}] and [GPULight{}] *)
Definition zero_rgba : RGBA := mkRGBA (Some f0) (Some f0) (Some f0) (Some f0).
Definition emptyMat : V3dMaterial :=
  mkMaterial zero_rgba zero_rgba zero_rgba (Some f0) (Some f0) (Some f0) (Some f0).
Definition emptyLight : Light :=
  mkLight (triple_of d0 d0 d0) (mkRGB (Some f0) (Some f0) (Some f0)).

(** The members of [HeadlessRenderer] that one frame leaves to the next.
    [pipelines] is the draw mode the pipelines were created with. *)
Record Gpu := mkGpu {
  initFailed : bool;
  initialized : bool;
  currentTargetSize : Z * Z;
  currentDrawMode : DrawMode;
  pipelines : DrawMode;
  materialBuffer : list V3dMaterial;
  lightBuffer : list Light;
  ibl : bool;
  iblImagePath : string;
  pixels : Z;
  maxFragments : Z;
  blendBig : bool
}.

Definition newGpu (failed : bool) : Gpu :=
  mkGpu failed false (0, 0) DRAWMODE_NORMAL DRAWMODE_NORMAL [] [] false [] 0 0 false.

Definition mode_eqb (a b : DrawMode) : bool := bool_decide (a = b).
Definition size_eqb (a b : Z * Z) : bool := (fst a =? fst b) && (snd a =? snd b).

(** ** Buffers *)

Definition createMaterialBuffer (mats : list V3dMaterial) (g : Gpu) : Gpu :=
  g <| materialBuffer := match mats with [] => [emptyMat] | _ => mats end |>.
Definition createLightBuffer (lights : list Light) (g : Gpu) : Gpu :=
  g <| lightBuffer := match lights with [] => [emptyLight] | _ => lights end |>.

(** [memcpy] of [src] to the start of a mapped buffer: beyond its end the write
    is out of bounds. *)
Definition memcpy {A} (src dst : list A) : outcome (list A) :=
  if Nat.leb (length src) (length dst) then Ret (src ++ drop (length src) dst) else Undef.

(** The update of both buffers in every frame. *)
Definition update_buffers (mats : list V3dMaterial) (lights : list Light) (g : Gpu) : outcome Gpu :=
  m <~ memcpy (match mats with [] => [emptyMat] | _ => mats end) (materialBuffer g);;
  l <~ memcpy [default emptyLight (head lights)] (lightBuffer g);;
  Ret (g <| materialBuffer := m |> <| lightBuffer := l |>).

(** [createTransparencyBuffers]: the sizes, in [uint32_t] arithmetic where the
    source has it; false when an allocation fails. *)
Definition transparency_sizes (width height : Z) (g : Gpu) : list Z :=
  let px := wrapw 32 (wrapw 32 (width + 1) * wrapw 32 (height + 1)) in
  let G := wrapw 32 (wrapw 32 (px + groupSize) - 1) / groupSize in
  let Pixels := wrapw 32 (groupSize * G) in
  let globalSize := wrapw 32 (localSize * (wrapw 32 (wrapw 32 (G + localSize) - 1) / localSize) * 4) in
  let fragmentBufferSize := (if 0 <? maxFragments g then maxFragments g else px) * 16 in
  [wrapw 32 (Pixels + 1) * 4; globalSize; wrapw 32 (Pixels + 2) * 4; px * 16; px * 16;
   fragmentBufferSize; fragmentBufferSize; 8].

Definition createTransparencyBuffers (d : Device) (width height : Z) (g : Gpu) : bool * Gpu :=
  let px := wrapw 32 (wrapw 32 (width + 1) * wrapw 32 (height + 1)) in
  let sizes := transparency_sizes width height g in
  let fragments := if 0 <? maxFragments g then maxFragments g else px in
  let g := g <| pixels := px |> in
  (* the five buffers before maxFragments is set *)
  if negb (forallb (alloc_ok d) (take 5 sizes)) then (false, g)
  else
    let g := g <| maxFragments := fragments |> in
    (forallb (alloc_ok d) (drop 5 sizes), g).

(** ** Environment images *)

(** [initIBL]: all twelve and the common one, or none. *)
Definition initIBL (d : Device) (iblPath : string) (g : Gpu) : bool * Gpu :=
  let imageDir := substr iblPath 0 (find_last is_slash iblPath) in
  let files := (iblPath ++ bytes_of "/diffuse.exr") :: (imageDir ++ bytes_of "/refl.exr") ::
               ((fun i => iblPath ++ bytes_of "/refl" ++ i ++ bytes_of ".exr") <$> layers) in
  if forallb (exr_ok d) files then (true, g <| iblImagePath := iblPath |>) else (false, g).

Definition createIBLPlaceholders (g : Gpu) : Gpu := g <| iblImagePath := [] |>.

Definition initIBL_or_placeholders (d : Device) (iblPath : string) (g : Gpu) : Gpu :=
  match initIBL d iblPath g with
  | (true, g) => g
  | (false, g) => createIBLPlaceholders g
  end.

(** On a live device. *)
Definition updateIBL (d : Device) (iblPath : string) (g : Gpu) : Gpu :=
  if negb (ibl g) || is_empty iblPath then g
  else if bool_decide (iblPath = iblImagePath g) then g
  else initIBL_or_placeholders d iblPath g.

(** ** Blending *)

Definition switchBlendPipeline (depth : Z) (g : Gpu) : Gpu :=
  if blendBig g then if depth <=? blendSwitchDown then g <| blendBig := false |> else g
  else if blendSwitchUp <? depth then g <| blendBig := true |> else g.

(** [readFeedback]: false when the larger fragment buffer cannot be allocated. *)
Definition readFeedback (d : Device) (g : Gpu) : bool * Gpu :=
  let g := switchBlendPipeline (maxDepth d) g in
  if maxFragments g <? counted d then
    let wanted := wrapw 32 (counted d * 11) / 10 in
    let g := g <| maxFragments := wanted |> in
    (alloc_ok d (wanted * 16) && alloc_ok d (wanted * 16), g)
  else (true, g).

(** ** Pipelines *)

Definition recreateGraphicsPipelines (drawMode : DrawMode) (g : Gpu) : Gpu :=
  g <| currentDrawMode := drawMode |> <| pipelines := drawMode |>.

(** The blank result of a failed frame. *)
Definition give_blank (g : Gpu) : option Frame * Gpu :=
  (None, g <| initialized := false |> <| currentTargetSize := (0, 0) |>).

(** The full recreation; [inl] is an early return. *)
Definition recreate_all (d : Device) (target : Z * Z) (mats : list V3dMaterial)
    (lights : list Light) (iblPath : string) (drawMode : DrawMode) (g : Gpu) :
    (option Frame * Gpu) + Gpu :=
  let g := g <| initialized := false |> in
  if negb (attachments_ok d) then inl (give_blank g)
  else
    let g := if ibl g && negb (is_empty iblPath) then initIBL_or_placeholders d iblPath g
             else createIBLPlaceholders g in
    let g := recreateGraphicsPipelines drawMode g in
    let g := createLightBuffer lights (createMaterialBuffer mats g) in
    match createTransparencyBuffers d (fst target) (snd target) g with
    | (false, g) => inl (give_blank g)
    | (true, g) => inr (g <| initialized := true |> <| currentTargetSize := target |>)
    end.

(** [constants[0]] of [buildPushConstants]: the lights the shader goes through. *)
Definition shader_lights (nlights : nat) (g : Gpu) : nat :=
  match currentDrawMode g with DRAWMODE_NORMAL => nlights | _ => 0%nat end.

(** The frame after the resources are there. *)
Definition draw (d : Device) (mats : list V3dMaterial) (lights : list Light) (iblPath : string)
    (opaque : bool) (g : Gpu) : outcome (option Frame * Gpu) :=
  let g := updateIBL d iblPath g in
  g <~ update_buffers mats lights g;;
  let '(ok, g) := if opaque then (true, g) else readFeedback d g in
  if negb ok || vulkan_error d then Ret (give_blank g) else Ret (Some (image d), g).

Definition clamp_target (d : Device) (target : Z * Z) : Z * Z :=
  (Z.min (fst target) (maxFramebufferWidth d), Z.min (snd target) (maxFramebufferHeight d)).

(** [HeadlessRenderer::render]; [opaque]: transparentData is empty. *)
Definition render (d : Device) (targetSize : Z * Z) (mats : list V3dMaterial) (lights : list Light)
    (useIBL : bool) (iblPath : string) (drawMode : DrawMode) (opaque : bool) (g : Gpu) :
    outcome (option Frame * Gpu) :=
  if initFailed g then Ret (None, g)
  else
    let g := g <| ibl := useIBL |> in
    let target := clamp_target d targetSize in
    let drawModeChanged := negb (mode_eqb drawMode (currentDrawMode g)) in
    let same_size := size_eqb (currentTargetSize g) target in
    let needsFullRecreate := negb same_size || negb (initialized g) in
    if drawModeChanged && same_size then
      draw d mats lights iblPath opaque (recreateGraphicsPipelines drawMode g)
    else if needsFullRecreate then
      match recreate_all d target mats lights iblPath drawMode g with
      | inl blank => Ret blank
      | inr g => draw d mats lights iblPath opaque g
      end
    else draw d mats lights iblPath opaque g.

(** ** Lemmas *)

(** The part of the state that drawing does not change. *)
Definition same_target (g g' : Gpu) : Prop :=
  initialized g' = initialized g /\ currentTargetSize g' = currentTargetSize g /\
  currentDrawMode g' = currentDrawMode g /\ pipelines g' = pipelines g.

#[export] Instance same_target_refl : Reflexive same_target.
Proof. by intros g. Qed.
#[export] Instance same_target_trans : Transitive same_target.
Proof. intros a b c (?&?&?&?) (?&?&?&?). repeat split; congruence. Qed.

Lemma initIBL_or_placeholders_target d p g : same_target g (initIBL_or_placeholders d p g).
Proof. unfold initIBL_or_placeholders, initIBL. by destruct (forallb _ _). Qed.

Lemma updateIBL_target d p g :
  same_target g (updateIBL d p g) /\ materialBuffer (updateIBL d p g) = materialBuffer g /\
  lightBuffer (updateIBL d p g) = lightBuffer g /\ maxFragments (updateIBL d p g) = maxFragments g.
Proof.
  unfold updateIBL, initIBL_or_placeholders, initIBL.
  destruct (negb _ || _); [done|]. case_bool_decide; [done|]. by destruct (forallb _ _).
Qed.

Lemma switchBlendPipeline_target k g :
  same_target g (switchBlendPipeline k g) /\
  materialBuffer (switchBlendPipeline k g) = materialBuffer g /\
  lightBuffer (switchBlendPipeline k g) = lightBuffer g /\
  maxFragments (switchBlendPipeline k g) = maxFragments g.
Proof. unfold switchBlendPipeline. repeat case_match; done. Qed.

Lemma readFeedback_target d g :
  same_target g (readFeedback d g).2 /\
  materialBuffer (readFeedback d g).2 = materialBuffer g /\
  lightBuffer (readFeedback d g).2 = lightBuffer g.
Proof.
  unfold readFeedback. destruct (switchBlendPipeline_target (maxDepth d) g) as (Ht & Hm & Hl & _).
  cbv zeta. destruct (_ <? _); [|done]. destruct Ht as (?&?&?&?).
  split_and!; [by repeat split|exact Hm|exact Hl].
Qed.

Lemma memcpy_Ret {A} (src dst r : list A) :
  memcpy src dst = Ret r ->
  (length src <= length dst)%nat /\ r = src ++ drop (length src) dst /\ length r = length dst.
Proof.
  unfold memcpy. destruct (Nat.leb _ _) eqn:E; [|done]. apply Nat.leb_le in E. intros [= <-].
  split_and!; [done..|]. rewrite length_app, length_drop. lia.
Qed.

(** The materials as the buffer holds them: one zero material when there is none. *)
Definition uploaded (mats : list V3dMaterial) : list V3dMaterial :=
  match mats with [] => [emptyMat] | _ => mats end.

Lemma update_buffers_Ret mats lts g g' :
  update_buffers mats lts g = Ret g' ->
  same_target g g' /\
  materialBuffer g' = uploaded mats ++ drop (length (uploaded mats)) (materialBuffer g) /\
  lightBuffer g' = default emptyLight (head lts) :: drop 1 (lightBuffer g).
Proof.
  unfold update_buffers. fold (uploaded mats). intros E.
  apply obind_Ret in E as (mb & Emb & E). apply obind_Ret in E as (lb & Elb & E).
  apply memcpy_Ret in Emb as (_ & -> & _). apply memcpy_Ret in Elb as (_ & -> & _).
  by injection E as <-.
Qed.

Lemma draw_spec d mats lts p opaque g f g' :
  draw d mats lts p opaque g = Ret (Some f, g') ->
  f = image d /\ same_target g g' /\
  materialBuffer g' = uploaded mats ++ drop (length (uploaded mats)) (materialBuffer g) /\
  lightBuffer g' = default emptyLight (head lts) :: drop 1 (lightBuffer g).
Proof.
  unfold draw. destruct (updateIBL_target d p g) as (Ht & Hm & Hl & _).
  revert Ht Hm Hl. generalize (updateIBL d p g). intros g1 Ht Hm Hl E.
  apply obind_Ret in E as (g2 & E2 & E).
  apply update_buffers_Ret in E2 as (Ht2 & Hm2 & Hl2). rewrite Hm in Hm2. rewrite Hl in Hl2.
  destruct (readFeedback_target d g2) as (Ht3 & Hm3 & Hl3).
  revert E. destruct opaque; cbn [negb orb].
  - destruct (vulkan_error d); [done|]. intros [= <- <-].
    split_and!; [done|by etransitivity|done..].
  - destruct (readFeedback d g2) as [ok g3]. cbn [snd] in Ht3, Hm3, Hl3.
    destruct (negb ok || vulkan_error d); [done|]. intros [= <- <-].
    split_and!; [done|etransitivity; [exact Ht|by etransitivity]|congruence|congruence].
Qed.

(** ** Properties *)

(** What holds between frames: the pipelines are those of the current draw mode
    as long as there are any, and there are none when nothing is initialised. *)
Definition gpu_ok (g : Gpu) : Prop :=
  if initialized g then pipelines g = currentDrawMode g else currentTargetSize g = (0, 0).

(** The frame's resources belong to the model that is drawn: the pipelines, the
    size, every material and the first light. *)
Definition frame_of (target : Z * Z) (mats : list V3dMaterial) (lts : list Light) (mode : DrawMode)
    (g : Gpu) : Prop :=
  initialized g = true /\ pipelines g = mode /\ currentDrawMode g = mode /\
  currentTargetSize g = target /\
  take (length (uploaded mats)) (materialBuffer g) = uploaded mats /\
  head (lightBuffer g) = Some (default emptyLight (head lts)).

Lemma draw_frame_of d mats lts p opaque mode target g f g' :
  draw d mats lts p opaque g = Ret (Some f, g') ->
  initialized g = true -> pipelines g = mode -> currentDrawMode g = mode ->
  currentTargetSize g = target ->
  f = image d /\ frame_of target mats lts mode g'.
Proof.
  intros E Hi Hp Hc Hs. apply draw_spec in E as (-> & (Hi' & Hs' & Hc' & Hp') & Hm & Hl).
  split; [done|]. unfold frame_of. rewrite Hi', Hs', Hc', Hp', Hm, Hl.
  split_and!; try done. by apply take_app_length.
Qed.

Lemma recreate_all_inr d target mats lts p mode g g' :
  recreate_all d target mats lts p mode g = inr g' ->
  initialized g' = true /\ pipelines g' = mode /\ currentDrawMode g' = mode /\
  currentTargetSize g' = target /\ materialBuffer g' = uploaded mats /\
  lightBuffer g' = match lts with [] => [emptyLight] | _ => lts end.
Proof.
  unfold recreate_all, createTransparencyBuffers. destruct (attachments_ok d); [|done].
  cbn [negb]. destruct (forallb _ (take 5 _)); [|done]. cbn [negb].
  destruct (forallb _ (drop 5 _)); [|done]. by intros [= <-].
Qed.

Lemma size_eqb_spec a b : reflect (a = b) (size_eqb a b).
Proof.
  unfold size_eqb. destruct a as [a1 a2], b as [b1 b2]. cbn [fst snd].
  destruct (a1 =? b1) eqn:E1, (a2 =? b2) eqn:E2; constructor; zbool; congruence.
Qed.

(** C23: A frame that is delivered was drawn for its own model: whatever frames
    came before, if the renderer is in a consistent state then a successful
    [render] leaves pipelines of the requested draw mode, the requested size
    (within the device's limits), every material of the model and its first
    light in the buffers. *)
Theorem render_frame_current d target mats lts useIBL p mode opaque g f g' :
  gpu_ok g -> 0 < fst (clamp_target d target) ->
  render d target mats lts useIBL p mode opaque g = Ret (Some f, g') ->
  f = image d /\ frame_of (clamp_target d target) mats lts mode g' /\ gpu_ok g'.
Proof.
  intros Hok Hpos E.
  assert (f = image d /\ frame_of (clamp_target d target) mats lts mode g') as [-> Hf].
  { revert E. unfold render. destruct (initFailed g); [done|]. cbv zeta.
    set (g0 := g <| ibl := useIBL |>). assert (gpu_ok g0) as Hok0 by exact Hok.
    clearbody g0. unfold mode_eqb. set (t := clamp_target d target) in *.
    destruct (size_eqb_spec (currentTargetSize g0) t) as [Hsz|Hsz]; cbn [negb orb].
    - assert (initialized g0 = true) as Hi.
      { unfold gpu_ok in Hok0. destruct (initialized g0); [done|].
        rewrite <- Hsz, Hok0 in Hpos. cbn in Hpos. lia. }
      rewrite Hi. cbn [negb orb]. rewrite andb_true_r.
      unfold gpu_ok in Hok0. rewrite Hi in Hok0.
      case_bool_decide as Hm; cbn [negb]; intros E; eapply draw_frame_of; eauto; congruence.
    - rewrite andb_false_r. destruct (recreate_all _ _ _ _ _ _ _) as [r|g1] eqn:Er.
      + unfold recreate_all in Er. repeat case_match; by inversion Er; subst.
      + apply recreate_all_inr in Er as (?&?&?&?&_). intros E. by eapply draw_frame_of. }
  split; [done|]. split; [done|]. destruct Hf as (Hi & Hp & Hc & _).
  unfold gpu_ok. by rewrite Hi, Hp, Hc.
Qed.

(** A frame at the size of the last one reuses its buffers. *)
Lemma render_same_size d target mats lts useIBL p mode opaque g :
  initFailed g = false -> initialized g = true -> currentTargetSize g = clamp_target d target ->
  exists g0, render d target mats lts useIBL p mode opaque g = draw d mats lts p opaque g0 /\
    materialBuffer g0 = materialBuffer g /\ lightBuffer g0 = lightBuffer g /\
    currentDrawMode g0 = mode /\
    (mode = currentDrawMode g -> pipelines g0 = pipelines g).
Proof.
  intros Hf Hi Hs. unfold render. rewrite Hf. cbv zeta.
  set (g0 := g <| ibl := useIBL |>). change (currentTargetSize g0) with (currentTargetSize g).
  change (initialized g0) with (initialized g). change (currentDrawMode g0) with (currentDrawMode g).
  rewrite Hi. destruct (size_eqb_spec (currentTargetSize g) (clamp_target d target)); [|done].
  cbn [negb orb]. rewrite andb_true_r. unfold mode_eqb.
  case_bool_decide as Hm; cbn [negb].
  - exists g0. split_and!; done.
  - exists (recreateGraphicsPipelines mode g0). split_and!; done.
Qed.

(** [draw] keeps the pipelines, whatever it returns. *)
Lemma draw_pipelines d mats lts p opaque g r g' :
  draw d mats lts p opaque g = Ret (r, g') -> pipelines g' = pipelines g.
Proof.
  unfold draw. destruct (updateIBL_target d p g) as ((_ & _ & _ & Hp) & _). intros E.
  apply obind_Ret in E as (g2 & E2 & E). apply update_buffers_Ret in E2 as ((_ & _ & _ & Hp2) & _).
  destruct (readFeedback_target d g2) as ((_ & _ & _ & Hp3) & _). revert E.
  unfold give_blank.
  destruct opaque; [|destruct (readFeedback d g2) as [ok g3]; cbn [snd] in Hp3];
    destruct (negb _ || _); intros [= <- <-];
    first [exact (eq_trans Hp2 Hp) | exact (eq_trans Hp3 (eq_trans Hp2 Hp))].
Qed.

(** The assignment of the draw mode that [RenderModel] makes when it turns to
    another model defeats the test of [render]: at an unchanged size the
    pipelines stay those of the other model, so a model in another mode is not
    drawn in its own. *)
Theorem mode_sync_keeps_pipelines d target mats lts useIBL p mode opaque g r g' :
  initFailed g = false -> initialized g = true -> currentTargetSize g = clamp_target d target ->
  render d target mats lts useIBL p mode opaque (g <| currentDrawMode := mode |>) = Ret (r, g') ->
  pipelines g' = pipelines g /\
  (pipelines g <> mode -> ~ frame_of (clamp_target d target) mats lts mode g').
Proof.
  intros Hf Hi Hs E.
  pose (g1 := g <| currentDrawMode := mode |>).
  destruct (render_same_size d target mats lts useIBL p mode opaque g1 Hf Hi Hs)
    as (g0 & E0 & _ & _ & _ & Hp).
  assert (draw d mats lts p opaque g0 = Ret (r, g')) as E1 by (rewrite <- E0; exact E).
  clear E. apply draw_pipelines in E1 as E.
  apply (fun H => eq_trans E H) in Hp; [|done]. change (pipelines g' = pipelines g) in Hp.
  split; [done|].
  intros Hne (_ & Hp' & _). congruence.
Qed.

(** What a frame at an unchanged size inherits from the model before it: a
    model with more materials than the buffer was made for is copied past the
    end of the buffer; of the lights only the first is replaced, so the others
    are still those of the other model, and a model with more lights than the
    buffer has makes the shader read beyond it. *)
Theorem same_size_frame_buffers d target mats lts useIBL p mode opaque g :
  initFailed g = false -> initialized g = true -> currentTargetSize g = clamp_target d target ->
  ((length (materialBuffer g) < length (uploaded mats))%nat ->
     render d target mats lts useIBL p mode opaque g = Undef) /\
  (forall f g', render d target mats lts useIBL p mode opaque g = Ret (Some f, g') ->
     lightBuffer g' = default emptyLight (head lts) :: drop 1 (lightBuffer g) /\
     (mode = DRAWMODE_NORMAL -> (length (lightBuffer g) < length lts)%nat -> lightBuffer g <> [] ->
        (length (lightBuffer g') < shader_lights (length lts) g')%nat)).
Proof.
  intros Hf Hi Hs.
  destruct (render_same_size d target mats lts useIBL p mode opaque g Hf Hi Hs)
    as (g0 & E0 & Hm & Hl & Hc & _). rewrite E0. split.
  - intros Hlen. unfold draw, update_buffers, memcpy. fold (uploaded mats).
    destruct (updateIBL_target d p g0) as (_ & -> & _). rewrite Hm.
    destruct (Nat.leb _ _) eqn:E; [|done]. apply Nat.leb_le in E. lia.
  - intros f g' E. apply draw_spec in E as (_ & (_ & _ & Hc' & _) & _ & Hl'). rewrite Hl in Hl'.
    split; [done|]. intros -> Hlen Hne. unfold shader_lights. rewrite Hc', Hc, Hl'.
    destruct (lightBuffer g) as [|l0 ls]; [done|].
    simpl in *. by rewrite drop_0.
Qed.

(** ** A fragment buffer that cannot grow *)

(** The device can allocate up to [L] bytes at a time. *)
Definition limited (L : Z) (d : Device) : Prop := forall b, alloc_ok d b = (b <=? L).

Definition stuck (L : Z) (g : Gpu) : Prop :=
  initialized g = false /\ currentTargetSize g = (0, 0) /\ 0 < maxFragments g /\
  L < maxFragments g * 16.

Record Request := mkFrameRequest {
  fr_device : Device; fr_target : Z * Z; fr_mats : list V3dMaterial; fr_lights : list Light;
  fr_useIBL : bool; fr_path : string; fr_mode : DrawMode; fr_opaque : bool
}.
Definition render_request (r : Request) : Gpu -> outcome (option Frame * Gpu) :=
  render (fr_device r) (fr_target r) (fr_mats r) (fr_lights r) (fr_useIBL r) (fr_path r) (fr_mode r)
    (fr_opaque r).

(** Frames one after the other, and what they delivered. *)
Fixpoint render_frames (rs : list Request) (g : Gpu) : outcome (list (option Frame)) :=
  match rs with
  | [] => Ret []
  | r :: rs =>
      x <~ render_request r g;;
      l <~ render_frames rs (snd x);;
      Ret (fst x :: l)
  end.

Lemma stuck_blank L g :
  0 < maxFragments g -> L < maxFragments g * 16 -> stuck L (snd (give_blank g)).
Proof. by repeat split. Qed.

Lemma stuck_render L r g :
  limited L (fr_device r) -> 0 < fst (clamp_target (fr_device r) (fr_target r)) -> stuck L g ->
  exists g', render_request r g = Ret (None, g') /\ stuck L g'.
Proof.
  intros HL Hpos (Hi & Hs & Hp & Hmax). unfold render_request, render.
  destruct (initFailed g) eqn:Hf; [by exists g|]. cbv zeta.
  set (g0 := g <| ibl := fr_useIBL r |>). assert (stuck L g0) as Hst by done. clearbody g0.
  set (t := clamp_target _ _) in *. destruct Hst as (Hi0 & Hs0 & Hp0 & Hm0).
  destruct (size_eqb_spec (currentTargetSize g0) t) as [He|_].
  { rewrite <- He, Hs0 in Hpos. cbn in Hpos. lia. }
  rewrite andb_false_r. cbn [negb orb]. unfold recreate_all.
  destruct (negb (attachments_ok _)).
  { eexists. split; [done|]. by apply stuck_blank. }
  set (g1 := if _ : bool then _ else _).
  assert (maxFragments g1 = maxFragments g0) as Hm1.
  { unfold g1, initIBL_or_placeholders, initIBL. repeat case_match; naive_solver. }
  set (g2 := createLightBuffer _ _). assert (maxFragments g2 = maxFragments g0) as Hm2 by exact Hm1.
  clearbody g2. unfold createTransparencyBuffers.
  assert (0 < maxFragments g2) as Hp2 by lia. assert (L < maxFragments g2 * 16) as Hl2 by lia.
  destruct (negb (forallb _ (take 5 _))).
  { eexists. split; [done|]. exact (stuck_blank L _ Hp2 Hl2). }
  unfold transparency_sizes. rewrite (proj2 (Z.ltb_lt 0 (maxFragments g2)) Hp2).
  cbn [drop forallb]. rewrite HL, (proj2 (Z.leb_gt _ L) Hl2). cbn [andb].
  eexists. split; [done|]. exact (stuck_blank L _ Hp2 Hl2).
Qed.

(** "Returning blank (zoom out to recover)" does not recover: once the
    fragment buffer of a transparent scene could not grow, the size that failed
    is kept, and every later frame of every model, at whatever size, is blank as
    long as the device's limit is the same. *)
Theorem fragment_oom_is_permanent L d g g1 rs :
  limited L d -> 0 <= L -> readFeedback d g = (false, g1) ->
  Forall (fun r => limited L (fr_device r) /\ 0 < fst (clamp_target (fr_device r) (fr_target r))) rs ->
  render_frames rs (snd (give_blank g1)) = Ret (replicate (length rs) None).
Proof.
  intros HL H0 Hfb Hrs. assert (stuck L (snd (give_blank g1))) as Hst.
  { revert Hfb. unfold readFeedback. destruct (_ <? _); [|done]. rewrite !HL.
    set (w := wrapw 32 _ / 10). destruct (w * 16 <=? L) eqn:Hw; [done|]. intros [= <-]. zbool.
    assert (0 < w) as Hw0 by lia. apply stuck_blank; [exact Hw0|exact Hw]. }
  clear Hfb. generalize dependent (snd (give_blank g1)). intros g0 Hst. clear g g1.
  revert g0 Hst. induction Hrs as [|r rs [Hr Hpos] _ IH]; intros g0 Hst; [done|].
  destruct (stuck_render L r g0 Hr Hpos Hst) as (g' & Er & Hst').
  cbn [render_frames length replicate]. rewrite Er. cbn [obind fst snd]. by rewrite (IH g' Hst').
Qed.

(** ** Concrete frames *)

Definition sample_device : Device :=
  mkDevice 16384 16384 true (fun b => b <=? 16000000) (fun _ => false) 3 10 false
    (mkFrame [] 0 1).
(** A device whose count pass reports 2 million fragments. *)
Definition busy_device : Device :=
  mkDevice 16384 16384 true (fun b => b <=? 16000000) (fun _ => false) 3 2000000 false
    (mkFrame [] 0 1).

Definition render_one (d : Device) (mats : list V3dMaterial) (lts : list Light) (mode : DrawMode)
    (g : Gpu) : outcome (option Frame * Gpu) :=
  render d (100, 100) mats lts false [] mode true g.

Definition after {A} (o : outcome (A * Gpu)) : Gpu :=
  match o with Ret (_, g) => g | _ => newGpu true end.

Definition first_frame : Gpu :=
  after (render_one sample_device [emptyMat] [emptyLight] DRAWMODE_NORMAL (newGpu false)).

Lemma render_frame_current_witness :
  pipelines first_frame = DRAWMODE_NORMAL /\ materialBuffer first_frame = [emptyMat].
Proof.
  pose proof (render_frame_current sample_device (100, 100) [emptyMat] [emptyLight] false []
    DRAWMODE_NORMAL true (newGpu false) (image sample_device) first_frame eq_refl eq_refl
    ltac:(vm_compute; reflexivity)) as (_ & (_ & Hp & _ & _ & Hm & _) & _).
  split; [exact Hp | exact Hm].
Defined.

(** The second model is in wireframe mode. *)
Definition second_frame : Gpu :=
  after (render_one sample_device [emptyMat] [emptyLight] DRAWMODE_WIREFRAME
           (first_frame <| currentDrawMode := DRAWMODE_WIREFRAME |>)).

Lemma mode_sync_keeps_pipelines_witness :
  currentDrawMode second_frame = DRAWMODE_WIREFRAME /\ pipelines second_frame = DRAWMODE_NORMAL.
Proof.
  split; [vm_compute; reflexivity|].
  exact (proj1 (mode_sync_keeps_pipelines sample_device (100, 100) [emptyMat] [emptyLight] false []
    DRAWMODE_WIREFRAME true first_frame (Some (image sample_device)) second_frame
    eq_refl eq_refl eq_refl ltac:(vm_compute; reflexivity))).
Defined.

Lemma same_size_frame_buffers_witness :
  render_one sample_device [emptyMat; emptyMat] [] DRAWMODE_NORMAL first_frame = Undef /\
  exists g', lightBuffer g' = [emptyLight].
Proof.
  destruct (same_size_frame_buffers sample_device (100, 100) [emptyMat; emptyMat] [] false []
    DRAWMODE_NORMAL true first_frame eq_refl eq_refl eq_refl) as [Hover _].
  destruct (same_size_frame_buffers sample_device (100, 100) [emptyMat] [] false []
    DRAWMODE_NORMAL true first_frame eq_refl eq_refl eq_refl) as [_ Hlights].
  split; [apply Hover; vm_compute; repeat constructor|].
  exists first_frame. exact (proj1 (Hlights (image sample_device) first_frame
    ltac:(vm_compute; reflexivity))).
Defined.

Definition failed_frame : Gpu := snd (readFeedback busy_device first_frame).
Definition small_request : Request :=
  mkFrameRequest sample_device (10, 10) [emptyMat] [] false [] DRAWMODE_NORMAL true.

Lemma fragment_oom_is_permanent_witness :
  render_frames [small_request; small_request] (snd (give_blank failed_frame)) = Ret [None; None].
Proof.
  apply (fragment_oom_is_permanent 16000000 busy_device first_frame failed_frame
    [small_request; small_request]).
  - intros b. reflexivity.
  - lia.
  - vm_compute. reflexivity.
  - repeat constructor.
Defined.
