(* ===== verification/DeviceMemory.v ===== *)
(** * The device objects of the renderer

    [v3d-Common/Rendering/renderheadless.{h,cpp}]: the images and buffers that
    [HeadlessRenderer] creates for a size and destroys when it leaves it, with every
    path on which an allocation is refused or a call of Vulkan throws.  The store of the
    device is modelled: destroying an object that is not alive, or a handle that was never
    set, is [Undef].  The decisions of a frame are those of [Renderer.render]; the vertex
    buffers, pipelines and descriptors are not here: that one of their calls throws is the
    member [throws] of the request, by the part of the frame it happens in. *)

From S2P Require Import Prelude Ieee Xstream Bound V3dData IblName IblPath Model Renderer.
From coqutil Require Import Datatypes.RecordSetters.
Import TriangleBracketNotations.

Notation "' p <~ o ;; k" := (obind o (fun x => match x with p => k end))
  (at level 20, p pattern, o at level 99, k at level 200, only parsing) : v3d_scope.

(** A handle of Vulkan: a member never set, [VK_NULL_HANDLE], or an object. *)
Inductive Handle := Garbage | Null | Obj (n : nat).

(** The store of the device: objects are numbered in the order of their creation. *)
Record Store := mkStore { live : gset nat; next : nat }.

Record Buffer := mkBuffer { buffer : Handle; memory : Handle }.
Record FrameBufferAttachment := mkAttachment { img : Handle; img_memory : Handle; view : Handle }.

Definition null_buffer : Buffer := mkBuffer Null Null.
Definition null_attachment : FrameBufferAttachment := mkAttachment Null Null Null.

(** What an object is created for. *)
Inductive Use := ForAttachment | ForHost | ForStorage | ForFragments | ForDepths.

(** How the calls that create an object end: all succeed, the memory is refused, or
    [vkCreateBuffer] ([vkCreateImage]), [vkBindBufferMemory] (or the mapping before it,
    [vkBindImageMemory]) or [vkCreateImageView] fails and [VK_CHECK_RESULT] throws. *)
Inductive Answer := Granted | Refused | ThrowsCreate | ThrowsBind | ThrowsView.
#[export] Instance Answer_eq_dec : EqDecision Answer.
Proof. solve_decision. Defined.

(** How a function that creates objects ends: with all of them, with an error returned,
    or with an exception. *)
Inductive Ended := Done | Failed | Threw.

(** Where else a call may throw: while the render passes, layouts and images of a new size
    are created, its descriptor sets, its pipelines (or those of a new mode; or the fill of
    the new buffers), before the feedback of the count pass is read, or after it. *)
Inductive Point := InPasses | InSets | InPipelines | InCount | InFrame.
#[export] Instance Point_eq_dec : EqDecision Point.
Proof. solve_decision. Defined.

(** The members of [HeadlessRenderer].  [storage] lists [countBuffer], [globalSumBuffer],
    [offsetBuffer], [opaqueColorBuffer], [opaqueDepthBuffer], [fragmentBuffer],
    [depthFragBuffer] and [feedbackBuffer]; [attachments] the color, depth and resolve
    attachments. *)
Record Objects := mkObjects {
  store : Store;
  attachments : list FrameBufferAttachment;
  uniform_ : Buffer;
  material_ : Buffer;
  light_ : Buffer;
  storage : list Buffer
}.

(** One call of [render]: the clamped target, whether the vectors of materials and lights
    are empty, whether transparentData is, the feedback of the count pass, whether another
    call of Vulkan throws, and whether [cleanup] cannot create the fences and semaphores
    that it replaces and throws. *)
Record Request := mkRequest {
  target : Z * Z; mode : DrawMode; no_materials : bool; no_lights : bool; opaque : bool;
  feedback : Z * Z; throws : option Point; sync_fails : bool
}.
Definition throws_at (p : Point) (r : Request) : bool := bool_decide (throws r = Some p).

(** Assignments to the members. *)
Definition set_storage (l : list Buffer) (h : Store) (o : Objects) : Objects :=
  mkObjects h (attachments o) (uniform_ o) (material_ o) (light_ o) l.
Definition set_attachments (a : list FrameBufferAttachment) (h : Store) (o : Objects) : Objects :=
  mkObjects h a (uniform_ o) (material_ o) (light_ o) (storage o).
Definition set_host (u m l : Buffer) (h : Store) (o : Objects) : Objects :=
  mkObjects h (attachments o) u m l (storage o).

Definition vkCreate (h : Store) : Handle * Store :=
  (Obj (next h), mkStore ({[next h]} ∪ live h) (S (next h))).

(** [vkDestroy...], [vkFreeMemory]: nothing for [VK_NULL_HANDLE]. *)
Definition vkDestroy (x : Handle) (h : Store) : outcome Store :=
  match x with
  | Null => Ret h
  | Obj n => if decide (n ∈ live h) then Ret (mkStore (live h ∖ {[n]}) (next h)) else Undef
  | Garbage => Undef
  end.

Definition is_null (x : Handle) : bool := match x with Null => true | _ => false end.

(** [vkDestroyBuffer(buffer)] and [vkFreeMemory(memory)] *)
Definition destroyBuffer (b : Buffer) (h : Store) : outcome Store :=
  h <~ vkDestroy (buffer b) h;; vkDestroy (memory b) h.

(** The same under [if (buffer)]. *)
Definition destroy_if (b : Buffer) (h : Store) : outcome Store :=
  if is_null (buffer b) then Ret h else destroyBuffer b h.

Fixpoint destroy_each {A} (destroy : A -> Store -> outcome Store) (l : list A) (h : Store) : outcome Store :=
  match l with
  | [] => Ret h
  | a :: l => h <~ destroy a h;; destroy_each destroy l h
  end.

Definition destroyAttachment (a : FrameBufferAttachment) (h : Store) : outcome Store :=
  h <~ vkDestroy (view a) h;; h <~ vkDestroy (img a) h;; vkDestroy (img_memory a) h.

Section Device.
(** The answer when the next object to be created is the [n]-th, and what a failed call
    leaves in its result. *)
Context (answer : Use -> nat -> Answer) (unset : Handle -> Handle).

(** A call that fails. *)
Definition skip (h : Store) : Store := mkStore (live h) (S (next h)).

(** On failure the buffer is destroyed and both handles are null; an exception leaves what
    has been assigned. *)
Definition createBuffer (u : Use) (old : Buffer) (h : Store) : outcome (Ended * Buffer * Store) :=
  match answer u (next h) with
  | ThrowsCreate => Ret (Threw, mkBuffer (unset (buffer old)) (memory old), skip h)
  | Refused =>
      let '(b, h) := vkCreate h in
      h <~ vkDestroy b (skip h);; Ret (Failed, null_buffer, h)
  | a =>
      let '(b, h) := vkCreate h in
      let '(m, h) := vkCreate h in
      Ret (if decide (a = ThrowsBind) then Threw else Done, mkBuffer b m, h)
  end.

(** The three blocks of [createAttachments], which differ in formats only; on failure
    [cleanupOnFail] destroys the handles of all three attachments. *)
Fixpoint createAttachments (before todo : list FrameBufferAttachment) (h : Store) :
    outcome (Ended * list FrameBufferAttachment * Store) :=
  match todo with
  | [] => Ret (Done, before, h)
  | old :: rest =>
      match answer ForAttachment (next h) with
      | ThrowsCreate =>
          Ret (Threw, before ++ mkAttachment (unset (img old)) (img_memory old) (view old) :: rest, skip h)
      | Refused =>
          let '(i, h) := vkCreate h in
          let m := unset (img_memory old) in
          h <~ destroy_each destroyAttachment (before ++ mkAttachment i m (view old) :: rest) (skip h);;
          Ret (Failed, replicate 3 null_attachment, h)
      | a =>
          let '(i, h) := vkCreate h in
          let '(m, h) := vkCreate h in
          if decide (a = ThrowsBind) then Ret (Threw, before ++ mkAttachment i m (view old) :: rest, h)
          else if decide (a = ThrowsView) then
            Ret (Threw, before ++ mkAttachment i m (unset (view old)) :: rest, skip h)
          else
            let '(v, h) := vkCreate h in createAttachments (before ++ [mkAttachment i m v]) rest h
      end
  end.

(** [createTransparencyBuffers]: the buffers in order, and how many could be created; on
    failure [cleanupOnFail] destroys those that are there. *)
Fixpoint create_storage (before todo : list Buffer) (h : Store) :
    outcome (Ended * nat * list Buffer * Store) :=
  match todo with
  | [] => Ret (Done, length before, before, h)
  | old :: rest =>
      '(e, b, h) <~ createBuffer ForStorage old h;;
      match e with
      | Done => create_storage (before ++ [b]) rest h
      | Failed =>
          h <~ destroy_each destroy_if (before ++ b :: rest) h;;
          Ret (Failed, length before, replicate 8 null_buffer, h)
      | Threw => Ret (Threw, length before, before ++ b :: rest, h)
      end
  end.

(** [readFeedback], from the growth of the fragment buffer on. *)
Definition grow_fragments (l : list Buffer) (h : Store) : outcome (Ended * list Buffer * Store) :=
  match l with
  | [c; gs; off; oc; od; fr; df; fb] =>
      h <~ destroyBuffer fr h;;
      h <~ destroyBuffer df h;;
      '(e, fr, h) <~ createBuffer ForFragments fr h;;
      match e with
      | Done =>
          '(e, df, h) <~ createBuffer ForDepths df h;;
          Ret (e, [c; gs; off; oc; od; fr; df; fb], h)
      | _ => Ret (e, [c; gs; off; oc; od; fr; df; fb], h)
      end
  | _ => Undef
  end.

(** [cleanup]: the attachments keep their handles, the buffers are set to null. *)
Definition cleanup (o : Objects) : outcome Objects :=
  h <~ destroy_each destroyAttachment (attachments o) (store o);;
  h <~ destroy_each destroy_if (storage o) h;;
  Ret (set_storage (replicate 8 null_buffer) h o).

(** The buffers that only the next recreation and the destructor destroy. *)
Definition destroy_host (o : Objects) : outcome Objects :=
  h <~ destroy_each destroyBuffer [uniform_ o; material_ o; light_ o] (store o);;
  Ret (set_storage (storage o) h o).

(** The catch clause of [render]: [cleanup], whose own exception is dropped after it has
    destroyed these objects, and no image; the next frame starts anew. *)
Definition blank (g : Gpu) (o : Objects) : outcome (bool * Gpu * Objects) :=
  o <~ cleanup o;; Ret (false, snd (give_blank g), o).

(** An error returned to [render]: the same outside of the catch clause, which is entered
    when [cleanup] throws. *)
Definition abandon (r : Request) (g : Gpu) (o : Objects) : outcome (bool * Gpu * Objects) :=
  o <~ cleanup o;; if sync_fails r then blank g o else Ret (false, snd (give_blank g), o).

(** [createUniformBuffer], [createMaterialBuffer], [createLightBuffer]: when the memory is
    refused, the first and the ones of empty vectors map it all the same, the others throw.
    False is an exception. *)
Definition create_host (r : Request) (o : Objects) : outcome (bool * Objects) :=
  '(e, u, h) <~ createBuffer ForHost (uniform_ o) (store o);;
  match e with
  | Failed => Undef
  | Threw => Ret (false, set_host u (material_ o) (light_ o) h o)
  | Done =>
      '(e, m, h) <~ createBuffer ForHost (material_ o) h;;
      match e with
      | Failed => if no_materials r then Undef else Ret (false, set_host u m (light_ o) h o)
      | Threw => Ret (false, set_host u m (light_ o) h o)
      | Done =>
          '(e, l, h) <~ createBuffer ForHost (light_ o) h;;
          match e with
          | Failed => if no_lights r then Undef else Ret (false, set_host u m l h o)
          | Threw => Ret (false, set_host u m l h o)
          | Done => Ret (true, set_host u m l h o)
          end
      end
  end.

(** Leaving a size; false is an exception of [cleanup]. *)
Definition leave (r : Request) (g : Gpu) (o : Objects) : outcome (bool * Objects) :=
  if initialized g then
    o <~ cleanup o;;
    if sync_fails r then Ret (false, o) else o <~ destroy_host o;; Ret (true, o)
  else Ret (true, o).

(** The full recreation; false is a frame without image. *)
Definition recreate (r : Request) (g : Gpu) (o : Objects) : outcome (bool * Gpu * Objects) :=
  '(ok, o) <~ leave r g o;;
  if negb ok then blank g o
  else
    let g := g <| initialized := false |> in
    '(e, a, h) <~ createAttachments [] (attachments o) (store o);;
    let o := set_attachments a h o in
    match e with
    | Failed => Ret (false, snd (give_blank g), o)
    | Threw => blank g o
    | Done =>
        if throws_at InPasses r then blank g o
        else
          let g := recreateGraphicsPipelines (mode r) g in
          '(ok, o) <~ create_host r o;;
          if negb ok || throws_at InSets r then blank g o
          else
            let px := wrapw 32 (wrapw 32 (fst (target r) + 1) * wrapw 32 (snd (target r) + 1)) in
            '(e, made, l, h) <~ create_storage [] (storage o) (store o);;
            let o := set_storage l h o in
            let g := g <| pixels := px |> in
            let g := if Nat.leb 5 made && negb (0 <? maxFragments g) then g <| maxFragments := px |> else g in
            match e with
            | Failed => abandon r g o
            | Threw => blank g o
            | Done =>
                if throws_at InPipelines r then blank g o
                else Ret (true, g <| initialized := true |> <| currentTargetSize := target r |>, o)
            end
    end.

(** The frame after the resources are there; without them it records null handles. *)
Definition draw (r : Request) (g : Gpu) (o : Objects) : outcome (bool * Gpu * Objects) :=
  if negb (initialized g) then Undef
  else if throws_at InCount r then blank g o
  else
    let g := if opaque r then g else switchBlendPipeline (fst (feedback r)) g in
    let grow := negb (opaque r) && (maxFragments g <? snd (feedback r)) in
    let g := if grow then g <| maxFragments := wrapw 32 (snd (feedback r) * 11) / 10 |> else g in
    '(e, l, h) <~ (if grow then grow_fragments (storage o) (store o) else Ret (Done, storage o, store o));;
    let o := set_storage l h o in
    match e with
    | Failed => abandon r g o
    | Threw => blank g o
    | Done => if throws_at InFrame r then blank g o else Ret (true, g, o)
    end.

(** [render], of a renderer whose constructor succeeded. *)
Definition render_objects (r : Request) (s : Gpu * Objects) : outcome (bool * Gpu * Objects) :=
  let '(g, o) := s in
  let drawModeChanged := negb (mode_eqb (mode r) (currentDrawMode g)) in
  let same_size := size_eqb (currentTargetSize g) (target r) in
  let needsFullRecreate := negb same_size || negb (initialized g) in
  if drawModeChanged && same_size then
    if throws_at InPipelines r then blank g o else draw r (recreateGraphicsPipelines (mode r) g) o
  else if needsFullRecreate then
    '(ok, g, o) <~ recreate r g o;;
    if (ok : bool) then draw r g o else Ret (false, g, o)
  else draw r g o.

(** A session, with the frames that gave no image counted. *)
Fixpoint session (rs : list Request) (s : Gpu * Objects) : outcome (nat * (Gpu * Objects)) :=
  match rs with
  | [] => Ret (0%nat, s)
  | r :: rs =>
      '(ok, g, o) <~ render_objects r s;;
      '(n, s) <~ session rs (g, o);;
      Ret ((if (ok : bool) then n else S n), s)
  end.

End Device.

(** The members after the constructor: those without an initialiser are not set. *)
Definition garbage_buffer : Buffer := mkBuffer Garbage Garbage.
Definition newborn : Gpu * Objects :=
  (newGpu false,
   mkObjects (mkStore ∅ 0) (replicate 3 (mkAttachment Garbage Garbage Garbage))
     garbage_buffer garbage_buffer garbage_buffer (replicate 8 null_buffer)).

(** ** The store *)

(** The objects alive are those of [L]. *)
Definition owns (h : Store) (L : list nat) : Prop :=
  NoDup L /\ live h = list_to_set L /\ Forall (fun n => (n < next h)%nat) L.

(** A handle that must not be destroyed. *)
Definition dead (h : Store) (x : Handle) : Prop :=
  match x with Garbage => True | Null => False | Obj n => (n ∉ live h) /\ (n < next h)%nat end.

Lemma owns_perm h L L' : L ≡ₚ L' -> owns h L -> owns h L'.
Proof.
  intros HP (Hn & Hl & Hf). split; [by rewrite <- HP|]. split; [|by rewrite <- HP].
  rewrite Hl. apply set_eq. intros n. by rewrite !elem_of_list_to_set, HP.
Qed.

Lemma owns_size h L : owns h L -> size (live h) = length L.
Proof. intros (Hn & -> & _). by apply size_list_to_set. Qed.

Lemma owns_create h L :
  owns h L -> owns (mkStore ({[next h]} ∪ live h) (S (next h))) (next h :: L).
Proof.
  intros (Hn & Hl & Hf). split; [|split; cbn [live next]; [by rewrite Hl|]].
  - constructor; [|done]. intros Hin. rewrite Forall_forall in Hf. specialize (Hf _ Hin). lia.
  - constructor; [lia|]. eapply Forall_impl; [exact Hf|]. cbn. lia.
Qed.

Lemma owns_skip h L : owns h L -> owns (mkStore (live h) (S (next h))) L.
Proof.
  intros (Hn & Hl & Hf). do 2 (split; [done|]). eapply Forall_impl; [exact Hf|]. cbn. lia.
Qed.

Lemma vkDestroy_owned h n L :
  owns h (n :: L) -> exists h', vkDestroy (Obj n) h = Ret h' /\ owns h' L /\ next h' = next h /\ n ∉ live h'.
Proof.
  intros (Hn & Hl & Hf). apply NoDup_cons in Hn as [Hnot Hn]. apply Forall_cons in Hf as [_ Hf].
  exists (mkStore (live h ∖ {[n]}) (next h)). cbn [vkDestroy].
  rewrite decide_True by (rewrite Hl; set_solver). split; [done|].
  split; [|split; [done|set_solver]]. split; [done|]. split; [|done]. cbn [live].
  rewrite Hl, list_to_set_cons. apply set_eq. intros k.
  rewrite !elem_of_difference, elem_of_union, !elem_of_singleton, elem_of_list_to_set.
  split; [tauto|]. intros Hk. split; [by right|]. by intros ->.
Qed.

Lemma vkDestroy_dead h x : dead h x -> vkDestroy x h = Undef.
Proof. destruct x; [done|done|]. intros [Hn _]. cbn. by rewrite decide_False. Qed.

(** [later h h']: what a step may do to a store for a dead handle to stay dead. *)
Definition later (h h' : Store) : Prop :=
  (next h <= next h')%nat /\ forall n, (n < next h)%nat -> n ∈ live h' -> n ∈ live h.

#[export] Instance later_preorder : PreOrder later.
Proof.
  split; [by intros h|]. intros a b c [H1 H2] [H3 H4]. split; [lia|].
  intros n Hn Hc. apply H2; [done|]. apply H4; [lia|done].
Qed.

Lemma dead_later h h' x : later h h' -> dead h x -> dead h' x.
Proof.
  intros [Hl Hi]. destruct x as [| |n]; [done|done|]. intros [Hn Hlt]. split; [|lia].
  intros H. by apply Hn, Hi.
Qed.

Lemma later_create h : later h (mkStore ({[next h]} ∪ live h) (S (next h))).
Proof. split; cbn; [lia|]. intros n Hn. rewrite elem_of_union, elem_of_singleton. intros [->|]; [lia|done]. Qed.

Lemma later_skip h : later h (mkStore (live h) (S (next h))).
Proof. split; cbn; [lia|done]. Qed.

Lemma later_destroy x h h' : vkDestroy x h = Ret h' -> later h h'.
Proof.
  destruct x as [| |n]; cbn; [done|intros [= <-]; reflexivity|].
  destruct (decide _); [|done]. intros [= <-]. split; cbn; [lia|set_solver].
Qed.

#[export] Hint Resolve owns_create owns_skip later_create later_skip : v3d.

(** ** Buffers and attachments as owned objects *)

(** The objects of a handle, a buffer and an attachment that are complete. *)
Definition handle_is (x : Handle) (n : nat) : Prop := x = Obj n.
Definition buffer_is (b : Buffer) (ns : list nat) : Prop :=
  exists x y, b = mkBuffer (Obj x) (Obj y) /\ ns = [x; y].
Definition attachment_is (a : FrameBufferAttachment) (ns : list nat) : Prop :=
  exists x y z, a = mkAttachment (Obj x) (Obj y) (Obj z) /\ ns = [x; y; z].

(** A destructor that gives the objects of its argument back. *)
Definition gives_back {A} (P : A -> list nat -> Prop) (destroy : A -> Store -> outcome Store) : Prop :=
  forall a ns L h, P a ns -> owns h (ns ++ L) ->
    exists h', destroy a h = Ret h' /\ owns h' L /\ later h h' /\ next h' = next h /\
      forall n, n ∈ ns -> n ∉ live h'.

(** The objects of a list. *)
Inductive each_is {A} (P : A -> list nat -> Prop) : list A -> list nat -> Prop :=
  | each_nil : each_is P [] []
  | each_cons a l ns ms : P a ns -> each_is P l ms -> each_is P (a :: l) (ns ++ ms).

Lemma each_is_app {A} (P : A -> list nat -> Prop) l l' ns ms :
  each_is P l ns -> each_is P l' ms -> each_is P (l ++ l') (ns ++ ms).
Proof.
  induction 1 as [|a l ns' ns Ha _ IH]; [done|]. intros H. rewrite <- app_assoc. cbn.
  constructor; [done|]. by apply IH.
Qed.

Lemma each_is_inv {A} (P : A -> list nat -> Prop) a l ns :
  each_is P (a :: l) ns -> exists n m, ns = n ++ m /\ P a n /\ each_is P l m.
Proof. inversion 1; subst. by eexists _, _. Qed.

Lemma each_is_app_inv {A} (P : A -> list nat -> Prop) l l' ns :
  each_is P (l ++ l') ns -> exists n m, ns = n ++ m /\ each_is P l n /\ each_is P l' m.
Proof.
  revert ns. induction l as [|a l IH]; intros ns H; [exists [], ns; repeat split; [constructor|done]|].
  apply each_is_inv in H as (n & m & -> & Ha & (n' & m' & -> & Hl & Hl')%IH).
  exists (n ++ n'), m'. rewrite <- app_assoc. repeat split; [by constructor|done].
Qed.

Lemma each_is_one {A} (P : A -> list nat -> Prop) a ns : P a ns -> each_is P [a] ns.
Proof. intros H. rewrite <- (app_nil_r ns). by repeat constructor. Qed.

Ltac destroy_next h' :=
  match goal with
  | H : owns ?h (?n :: _) |- context [vkDestroy (Obj ?n) ?h] =>
      let E := fresh "E" in let Hn := fresh "Hn" in let Hx := fresh "Hnext" in
      destruct (vkDestroy_owned _ _ _ H) as (h' & E & Hn & Hx & ?);
      rewrite E; cbn [obind]; pose proof (later_destroy _ _ _ E)
  end.

Lemma not_live_later h h' n : later h h' -> (n < next h)%nat -> n ∉ live h -> n ∉ live h'.
Proof. intros [_ Hl] Hn H H'. by apply H, Hl. Qed.

Lemma owns_lt h n L : owns h L -> n ∈ L -> (n < next h)%nat.
Proof. intros (_ & _ & Hf) Hn. rewrite Forall_forall in Hf. by apply Hf. Qed.

Ltac not_live :=
  try done;
  match goal with
  | H : ?n ∉ live ?h |- ?n ∉ live ?h' =>
      apply (not_live_later h h'); [repeat first [eassumption | etransitivity; [eassumption|]]|lia|exact H]
  end.

Lemma destroyBuffer_gives_back : gives_back buffer_is destroyBuffer.
Proof.
  intros b ns L h (x & y & -> & ->) H. cbn in H. unfold destroyBuffer. cbn [buffer memory].
  pose proof (owns_lt h x _ H ltac:(set_solver)) as Hx.
  destroy_next h1. destroy_next h2. exists h2. do 2 (split; [done|]).
  split; [by etransitivity|]. split; [congruence|].
  intros n [->|[->|[]%elem_of_nil]%elem_of_cons]%elem_of_cons; not_live.
Qed.

Lemma destroy_if_gives_back : gives_back buffer_is destroy_if.
Proof.
  intros b ns L h (x & y & -> & ->) H. unfold destroy_if. cbn [buffer is_null].
  apply (destroyBuffer_gives_back _ [x; y]); [by eexists _, _|done].
Qed.

Lemma destroyAttachment_gives_back : gives_back attachment_is destroyAttachment.
Proof.
  intros a ns L h (x & y & z & -> & ->) H. unfold destroyAttachment. cbn [img img_memory view].
  apply (owns_perm _ _ (z :: x :: y :: L)) in H; [|cbn; solve_Permutation].
  pose proof (owns_lt h z _ H ltac:(set_solver)). pose proof (owns_lt h x _ H ltac:(set_solver)).
  destroy_next h1. destroy_next h2. destroy_next h3. exists h3. do 2 (split; [done|]).
  split; [by repeat (etransitivity; [eassumption|])|]. split; [congruence|].
  intros n Hin. rewrite !elem_of_cons in Hin.
  destruct Hin as [->|[->|[->|[]%elem_of_nil]]]; not_live.
Qed.

Lemma destroy_each_gives_back {A} (P : A -> list nat -> Prop) destroy :
  gives_back P destroy -> gives_back (each_is P) (destroy_each destroy).
Proof.
  intros HG l ns L h Hl. revert h. induction Hl as [|a l ns ms Ha Hl IH]; intros h H.
  - exists h. do 2 (split; [done|]). split; [reflexivity|]. split; [done|]. by intros n ?%elem_of_nil.
  - rewrite <- app_assoc in H. destruct (HG _ _ _ _ Ha H) as (h1 & E1 & H1 & L1 & N1 & D1).
    destruct (IH _ H1) as (h2 & E2 & H2 & L2 & N2 & D2). exists h2. cbn [destroy_each].
    rewrite E1. cbn [obind]. do 2 (split; [done|]). split; [by etransitivity|]. split; [congruence|].
    intros n [Hn|Hn]%elem_of_app; [|by apply D2].
    eapply not_live_later; [exact L2| |by apply D1].
    rewrite N1. eapply owns_lt; [exact H|]. set_solver.
Qed.

(** A list of null buffers needs nothing. *)
Lemma destroy_nulls n h : destroy_each destroy_if (replicate n null_buffer) h = Ret h.
Proof. induction n; [done|]. by cbn. Qed.

Lemma destroy_each_app {A} (destroy : A -> Store -> outcome Store) l l' h :
  destroy_each destroy (l ++ l') h =
  obind (destroy_each destroy l h) (destroy_each destroy l').
Proof. revert h. induction l as [|a l IH]; intros h; [done|]. cbn. destruct (destroy a h); cbn; [apply IH|done|done]. Qed.

(** A buffer that is there or null. *)
Definition maybe_is (b : Buffer) (ns : list nat) : Prop := buffer_is b ns \/ (buffer b = Null /\ ns = []).
Definition storage_is : list Buffer -> list nat -> Prop := each_is maybe_is.

Lemma storage_there l ns : each_is buffer_is l ns -> storage_is l ns.
Proof. induction 1; constructor; [by left|done]. Qed.

Lemma storage_null k : storage_is (replicate k null_buffer) [].
Proof. induction k as [|k IH]; [constructor|]. apply (each_cons _ _ _ [] []); [by right|exact IH]. Qed.

Lemma storage_app l l' ns ms : storage_is l ns -> storage_is l' ms -> storage_is (l ++ l') (ns ++ ms).
Proof. apply each_is_app. Qed.

Lemma destroy_storage_gives_back : gives_back storage_is (destroy_each destroy_if).
Proof.
  apply destroy_each_gives_back. intros b ns L h [Hb|[Hb ->]] H; [by apply destroy_if_gives_back|].
  exists h. unfold destroy_if. rewrite Hb. do 4 (split; [done|]). by intros n ?%elem_of_nil.
Qed.

Lemma each_is_length {A} (P : A -> list nat -> Prop) k l ns :
  (forall a ms, P a ms -> length ms = k) -> each_is P l ns -> length ns = (k * length l)%nat.
Proof.
  intros HP. induction 1 as [|a l ns ms Ha _ IH]; [by rewrite Nat.mul_0_r|].
  rewrite length_app, IH, (HP _ _ Ha). cbn. lia.
Qed.

Lemma attachment_is_length a ms : attachment_is a ms -> length ms = 3%nat.
Proof. by intros (? & ? & ? & _ & ->). Qed.
Lemma buffer_is_length b ms : buffer_is b ms -> length ms = 2%nat.
Proof. by intros (? & ? & _ & ->). Qed.

(** Attachments that were destroyed have dead views. *)
Lemma each_is_dead l ns h :
  each_is attachment_is l ns -> (forall n, n ∈ ns -> n ∉ live h) -> (forall n, n ∈ ns -> (n < next h)%nat) ->
  Forall (fun a => dead h (view a)) l.
Proof.
  induction 1 as [|a l ns ms (x & y & z & -> & ->) Hl IH]; intros Hd Hn; [done|]. constructor.
  - split; [apply Hd|apply Hn]; set_solver.
  - apply IH; intros n ?; [apply Hd|apply Hn]; set_solver.
Qed.

Lemma dead_view_undef a h : dead h (view a) -> destroyAttachment a h = Undef.
Proof. intros H. unfold destroyAttachment. by rewrite vkDestroy_dead. Qed.

Section Answers.
Context (answer : Use -> nat -> Answer) (unset : Handle -> Handle).

(** How the answer decides. *)
Definition ended (a : Answer) : Ended :=
  match a with Refused => Failed | ThrowsCreate | ThrowsBind => Threw | Granted | ThrowsView => Done end.

Lemma createBuffer_spec u old h L :
  owns h L ->
  exists b h', createBuffer answer unset u old h = Ret (ended (answer u (next h)), b, h') /\ later h h' /\
    match answer u (next h) with
    | Refused => b = null_buffer /\ owns h' L
    | ThrowsCreate => buffer b = unset (buffer old) /\ owns h' L
    | _ => exists ns, buffer_is b ns /\ owns h' (ns ++ L)
    end.
Proof.
  intros H. unfold createBuffer. pose proof (owns_create _ _ H) as H1.
  assert (later h (mkStore ({[next h]} ∪ live h) (S (next h)))) as L1 by apply later_create.
  assert (exists ns, buffer_is (mkBuffer (Obj (next h)) (Obj (S (next h)))) ns /\
    owns (mkStore ({[S (next h)]} ∪ ({[next h]} ∪ live h)) (S (S (next h)))) (ns ++ L)) as H2.
  { exists [next h; S (next h)]. split; [by eexists _, _|]. apply owns_create in H1.
    eapply owns_perm; [|exact H1]. cbn. solve_Permutation. }
  assert (later h (mkStore ({[S (next h)]} ∪ ({[next h]} ∪ live h)) (S (S (next h))))) as L2
    by (etransitivity; [apply later_create|apply later_create]).
  destruct (answer u (next h)); cbn [vkCreate next live ended];
    try (rewrite ?decide_False by done; rewrite ?decide_True by done; by eexists _, _).
  - apply owns_skip in H1. destruct (vkDestroy_owned _ _ _ H1) as (h' & E & H' & _). unfold skip. cbn [live next] in E |- *. rewrite E.
    exists null_buffer, h'. cbn [obind]. split; [done|]. split; [|done].
    etransitivity; [apply later_create|]. etransitivity; [apply later_skip|]. by eapply later_destroy.
  - eexists _, _. split; [done|]. split; [apply later_skip|]. split; [done|by apply owns_skip].
Qed.

(** The attachments when all calls succeed ... *)
Lemma createAttachments_granted before todo h ns L :
  (forall k, answer ForAttachment k = Granted) -> each_is attachment_is before ns -> owns h (ns ++ L) ->
  exists l ms h', createAttachments answer unset before todo h = Ret (Done, l, h') /\
    each_is attachment_is l ms /\ owns h' (ms ++ L) /\ later h h' /\ length l = (length before + length todo)%nat.
Proof.
  intros Hg. revert before h ns. induction todo as [|old todo IH]; intros before h ns Hb H; cbn [createAttachments].
  - exists before, ns, h. do 3 (split; [done|]). split; [reflexivity|cbn; lia].
  - rewrite Hg. cbn [vkCreate next]. rewrite !decide_False by done.
    set (a := mkAttachment _ _ _). do 3 apply owns_create in H.
    apply (owns_perm _ _ ((ns ++ [next h; S (next h); S (S (next h))]) ++ L)) in H; [|cbn; solve_Permutation].
    edestruct (IH (before ++ [a]) _ _ ltac:(apply each_is_app; [exact Hb|apply each_is_one; by eexists _, _, _]) H)
      as (l & ms & h' & E & Hl & Ho & Hla & Hn).
    exists l, ms, h'. split; [exact E|]. do 2 (split; [done|]). split.
    + etransitivity; [|exact Hla]. do 2 (etransitivity; [apply later_create|]). apply later_create.
    + rewrite Hn, length_app. cbn. lia.
Qed.

(** Attachments of which one has a dead view are not destroyed. *)
Lemma destroy_attachments_dead before a rest h ns L :
  each_is attachment_is before ns -> owns h (ns ++ L) -> dead h (view a) ->
  destroy_each destroyAttachment (before ++ a :: rest) h = Undef.
Proof.
  intros Hb H Hd. rewrite destroy_each_app.
  destruct (destroy_each_gives_back _ _ destroyAttachment_gives_back _ _ _ _ Hb H) as (h1 & E1 & _ & L1 & _).
  rewrite E1. cbn [obind destroy_each]. rewrite dead_view_undef; [done|]. by eapply dead_later.
Qed.

(** The same when an attachment whose handles are not known comes first. *)
Lemma destroy_each_later (l : list FrameBufferAttachment) h h' :
  destroy_each destroyAttachment l h = Ret h' -> later h h'.
Proof.
  revert h. induction l as [|a l IH]; intros h; cbn; [intros [= <-]; reflexivity|].
  unfold destroyAttachment. intros E. repeat (apply obind_Ret in E as (? & E0 & E); try apply obind_Ret in E0 as (? & ? & E0)).
  repeat match goal with H : obind _ _ = Ret _ |- _ => apply obind_Ret in H as (? & ? & ?) end.
  etransitivity; [by eapply later_destroy|]. etransitivity; [by eapply later_destroy|].
  etransitivity; [by eapply later_destroy|]. by apply IH.
Qed.

Lemma vkDestroy_fuel x h : vkDestroy x h <> NoFuel.
Proof. destruct x; cbn; try done. by destruct (decide _). Qed.

Lemma destroy_each_fuel (l : list FrameBufferAttachment) h : destroy_each destroyAttachment l h <> NoFuel.
Proof.
  revert h. induction l as [|a l IH]; intros h; [done|]. cbn [destroy_each]. unfold destroyAttachment.
  pose proof (vkDestroy_fuel (view a) h). destruct (vkDestroy (view a) h) as [h1| |]; [|done|done]. cbn [obind].
  pose proof (vkDestroy_fuel (img a) h1). destruct (vkDestroy (img a) h1) as [h2| |]; [|done|done]. cbn [obind].
  pose proof (vkDestroy_fuel (img_memory a) h2). destruct (vkDestroy (img_memory a) h2); [apply IH|done|done].
Qed.

Lemma destroy_dead_view l a rest h :
  dead h (view a) -> destroy_each destroyAttachment (l ++ a :: rest) h = Undef.
Proof.
  intros Hd. rewrite destroy_each_app. pose proof (destroy_each_fuel l h) as Hf.
  destruct (destroy_each destroyAttachment l h) as [h1| |] eqn:E; [|done|done].
  cbn [obind destroy_each]. apply destroy_each_later in E. by rewrite dead_view_undef by (by eapply dead_later).
Qed.

(** The failures that leave an old view beside the new ones. *)
Definition fatal (a : Answer) : bool :=
  match a with Refused | ThrowsCreate | ThrowsBind => true | Granted | ThrowsView => false end.

(** ... and when one does not: the views of before are destroyed again. *)
Lemma createAttachments_fatal before todo h ns L i :
  each_is attachment_is before ns -> owns h (ns ++ L) -> Forall (fun a => dead h (view a)) todo ->
  (i < length todo)%nat -> fatal (answer ForAttachment (next h + 3 * i)) = true ->
  createAttachments answer unset before todo h = Undef \/
  exists l h', createAttachments answer unset before todo h = Ret (Threw, l, h') /\
    destroy_each destroyAttachment l h' = Undef.
Proof.
  revert before h ns i. induction todo as [|old todo IH]; intros before h ns i Hb H Hd Hi Hf; cbn in Hi; [lia|].
  apply Forall_cons in Hd as [Ho Hd]. cbn [createAttachments].
  assert (i = 0%nat -> fatal (answer ForAttachment (next h)) = true) as H0
    by (intros ->; rewrite <- Hf; f_equal; f_equal; lia).
  assert (later h (mkStore ({[next h]} ∪ live h) (S (next h)))) as L1 by apply later_create.
  destruct (answer ForAttachment (next h)) eqn:Eg; cbn [vkCreate next live];
    rewrite ?decide_False by done; rewrite ?decide_True by done.
  - destruct i as [|i]; [by specialize (H0 eq_refl)|]. cbn [live next].
    eapply (IH _ _ (ns ++ [next h; S (next h); S (S (next h))]) i); [| | |lia|].
    + apply each_is_app; [done|]. apply each_is_one. by eexists _, _, _.
    + do 3 apply owns_create in H. eapply owns_perm; [|exact H]. cbn. solve_Permutation.
    + eapply Forall_impl; [exact Hd|]. intros a. apply dead_later.
      do 2 (etransitivity; [apply later_create|]). apply later_create.
    + rewrite <- Hf. f_equal. f_equal. cbn [next]. lia.
  - left. apply owns_create, owns_skip in H.
    apply (owns_perm _ _ (ns ++ next h :: L)) in H; [|solve_Permutation].
    erewrite destroy_attachments_dead; [done|exact Hb|exact H|]. cbn [view].
    eapply dead_later; [|exact Ho]. etransitivity; [exact L1|apply later_skip].
  - right. eexists _, _. split; [done|]. apply destroy_dead_view. cbn [view].
    eapply dead_later; [apply later_skip|done].
  - right. eexists _, _. split; [done|]. apply destroy_dead_view. cbn [view].
    eapply dead_later; [|exact Ho]. etransitivity; [exact L1|apply later_create].
  - right. eexists _, _. split; [done|]. destruct todo as [|a todo]; [cbn in Hi; destruct i; [by specialize (H0 eq_refl)|lia]|].
    change (before ++ ?x :: a :: todo) with (before ++ [x] ++ a :: todo). rewrite app_assoc.
    apply destroy_dead_view. apply Forall_cons in Hd as [Ha _].
    eapply dead_later; [|exact Ha]. etransitivity; [exact L1|]. etransitivity; [apply later_create|apply later_skip].
Qed.

(** The storage buffers: all are there, or what is there can be destroyed. *)
Lemma create_storage_spec before k h ns L :
  (forall n, answer ForStorage n = ThrowsCreate -> unset Null = Null) ->
  each_is buffer_is before ns -> owns h (ns ++ L) ->
  exists e made l ms h', create_storage answer unset before (replicate k null_buffer) h = Ret (e, made, l, h') /\
    storage_is l ms /\ owns h' (ms ++ L) /\ later h h' /\
    (e = Done -> each_is buffer_is l ms /\ length l = (length before + k)%nat).
Proof.
  intros Hu. revert before h ns. induction k as [|k IH]; intros before h ns Hb H; cbn [replicate create_storage].
  - exists Done, (length before), before, ns, h. split; [done|].
    split; [by apply storage_there|]. split; [done|]. split; [reflexivity|]. intros _. split; [done|lia].
  - destruct (createBuffer_spec ForStorage null_buffer h _ H) as (b & h1 & E & L1 & Hr). rewrite E. cbn [obind].
    assert (forall bs, maybe_is b bs -> storage_is (before ++ b :: replicate k null_buffer) (ns ++ bs ++ [])) as Hall.
    { intros bs Hbs. apply storage_app; [by apply storage_there|]. constructor; [done|apply storage_null]. }
    assert (forall e bs, maybe_is b bs -> owns h1 (bs ++ ns ++ L) -> e <> Done ->
      exists e' made l ms h', Ret (e, length before, before ++ b :: replicate k null_buffer, h1) = Ret (e', made, l, h') /\
        storage_is l ms /\ owns h' (ms ++ L) /\ later h h' /\
        (e' = Done -> each_is buffer_is l ms /\ length l = (length before + S k)%nat)) as Hthrew.
    { intros e bs Hbs Ho He. eexists e, _, _, _, h1. split; [done|]. split; [by apply Hall|]. split; [|by split].
      eapply owns_perm; [|exact Ho]. solve_Permutation. }
    assert ((exists ns', buffer_is b ns' /\ owns h1 (ns' ++ ns ++ L)) -> exists e made l ms h',
      create_storage answer unset (before ++ [b]) (replicate k null_buffer) h1 = Ret (e, made, l, h') /\
      storage_is l ms /\ owns h' (ms ++ L) /\ later h h' /\
      (e = Done -> each_is buffer_is l ms /\ length l = (length before + S k)%nat)) as Hgo.
    { intros (bs & Hbs & H1). edestruct (IH (before ++ [b]) h1 (ns ++ bs)) as (e & made & l & ms & h' & E' & Hs & Ho & L2 & Hm).
      * apply each_is_app; [done|]. by apply each_is_one.
      * eapply owns_perm; [|exact H1]. solve_Permutation.
      * exists e, made, l, ms, h'. split; [exact E'|]. do 2 (split; [done|]). split; [by etransitivity|].
        intros He. rewrite length_app in Hm. cbn in Hm. destruct (Hm He) as [? ->]. split; [done|lia]. }
    destruct (answer ForStorage (next h)) eqn:Ea; cbn [ended].
    + by apply Hgo.
    + destruct Hr as [-> H1]. rewrite destroy_each_app.
      destruct (destroy_each_gives_back _ _ destroy_if_gives_back _ _ _ _ Hb H1) as (h2 & E2 & H2 & L2 & _).
      rewrite E2. cbn [obind]. pose proof (destroy_nulls (S k) h2) as En. cbn [replicate] in En. rewrite En. cbn [obind].
      exists Failed, (length before), (replicate 8 null_buffer), [], h2. split; [done|]. split; [apply (storage_null 8)|].
      split; [done|]. split; [by etransitivity|done].
    + destruct Hr as [Hn H1]. cbn [buffer null_buffer] in Hn. rewrite (Hu _ Ea) in Hn. apply (Hthrew Threw []); [by right|done|done].
    + destruct Hr as (bs & Hbs & H1). apply (Hthrew Threw bs); [by left|done|done].
    + by apply Hgo.
Qed.
End Answers.

(** ** Frames *)

(** What a session keeps: with the resources of a size everything is there, without them
    only what earlier failures leaked is, and the attachments hold dead handles. *)
Definition Ready (leaked : list nat) (o : Objects) : Prop :=
  exists na nh ns, each_is attachment_is (attachments o) na /\ length (attachments o) = 3%nat /\
    each_is buffer_is [uniform_ o; material_ o; light_ o] nh /\
    each_is buffer_is (storage o) ns /\ length (storage o) = 8%nat /\
    owns (store o) (na ++ ns ++ nh ++ leaked).
Definition Idle (leaked : list nat) (o : Objects) : Prop :=
  length (attachments o) = 3%nat /\ Forall (fun a => dead (store o) (view a)) (attachments o) /\
  storage o = replicate 8 null_buffer /\ owns (store o) leaked.
Definition Valid (leaked : list nat) (s : Gpu * Objects) : Prop :=
  if initialized (fst s) then Ready leaked (snd s)
  else currentTargetSize (fst s) = (0, 0) /\ Idle leaked (snd s).

(** A frame of some size, in which [cleanup] does not throw outside of the catch clause. *)
Definition sized (r : Request) : Prop :=
  0 < fst (target r) /\ 0 < snd (target r) /\ sync_fails r = false.

Lemma cleanup_objects o na ns L :
  each_is attachment_is (attachments o) na -> length (attachments o) = 3%nat -> storage_is (storage o) ns ->
  owns (store o) (na ++ ns ++ L) ->
  exists h, cleanup o = Ret (set_storage (replicate 8 null_buffer) h o) /\
    next h = next (store o) /\
    Idle L (set_storage (replicate 8 null_buffer) h o).
Proof.
  intros Ha Hl Hs H. unfold cleanup.
  destruct (destroy_each_gives_back _ _ destroyAttachment_gives_back _ _ _ _ Ha H) as (h1 & E1 & H1 & L1 & N1 & D1).
  destruct (destroy_storage_gives_back _ _ _ _ Hs H1) as (h2 & E2 & H2 & L2 & N2 & D2).
  rewrite E1. cbn [obind]. rewrite E2. cbn [obind].
  exists h2. split; [done|]. split; [congruence|]. split; [done|]. split; [|done].
  change (Forall (fun a => dead h2 (view a)) (attachments o)).
  eapply each_is_dead; [exact Ha| |].
  - intros n Hn. eapply not_live_later; [exact L2| |by apply D1]. rewrite N1. eapply owns_lt; [exact H|]. set_solver.
  - intros n Hn. rewrite N2, N1. eapply owns_lt; [exact H|]. set_solver.
Qed.

(** [blank] leaves nothing initialised and leaks what it does not destroy. *)
Lemma blank_spec g o na ns L :
  each_is attachment_is (attachments o) na -> length (attachments o) = 3%nat -> storage_is (storage o) ns ->
  owns (store o) (na ++ ns ++ L) ->
  exists g' o', blank g o = Ret (false, g', o') /\ Valid L (g', o') /\ initialized g' = false.
Proof.
  intros Ha Hl Hs H. destruct (cleanup_objects _ _ _ _ Ha Hl Hs H) as (h & E & _ & Hi).
  unfold blank. rewrite E. cbn [obind give_blank snd]. eexists _, _. by repeat split; try apply Hi.
Qed.

Lemma host_length l ns : each_is buffer_is l ns -> length ns = (2 * length l)%nat.
Proof. apply (each_is_length _ 2), buffer_is_length. Qed.

(** Leaving a size destroys everything but what was leaked before. *)
Lemma leave_spec o L :
  Ready L o -> exists o', obind (cleanup o) destroy_host = Ret o' /\ Idle L o' /\ next (store o') = next (store o).
Proof.
  intros (na & nh & ns & Ha & Hl & Hh & Hs & Hls & H).
  destruct (cleanup_objects o na ns _ Ha Hl (storage_there _ _ Hs) H) as (h & E & N & Hi).
  destruct Hi as (_ & Hd & _ & Ho). change (owns h (nh ++ L)) in Ho.
  destruct (destroy_each_gives_back _ _ destroyBuffer_gives_back _ _ _ _ Hh Ho) as (h' & E' & Ho' & L' & N' & _).
  exists (set_storage (replicate 8 null_buffer) h' o). rewrite E. cbn [obind]. unfold destroy_host.
  change (store (set_storage (replicate 8 null_buffer) h o)) with h.
  change [uniform_ _; _; _] with [uniform_ o; material_ o; light_ o]. rewrite E'. cbn [obind].
  split; [done|]. split; [|change (next h' = next (store o)); congruence]. split; [done|]. split; [|done].
  change (Forall (fun a => dead h' (view a)) (attachments o)).
  eapply Forall_impl; [exact Hd|]. intros a. by apply dead_later.
Qed.

(** The start of a recreation. *)
Lemma leave_valid r g o L :
  Valid L (g, o) -> sync_fails r = false ->
  exists o', leave r g o = Ret (true, o') /\ Idle L o' /\ next (store o') = next (store o).
Proof.
  unfold Valid, leave. cbn [fst snd]. intros HV ->. destruct (initialized g); [|by exists o; destruct HV].
  destruct (leave_spec o L HV) as (o' & E & Hi & N). exists o'. split; [|done].
  destruct (cleanup o) as [o1| |]; [|done|done]. cbn [obind] in *. by rewrite E.
Qed.

Section Granted.
Context (answer : Use -> nat -> Answer) (unset : Handle -> Handle).
Context (Hattachments : forall k, answer ForAttachment k = Granted).
Context (Hhost : forall k, answer ForHost k <> Refused).
Context (Hfragments : forall k, answer ForFragments k = Granted).
Context (Hunset : forall u k, u = ForStorage \/ u = ForDepths -> answer u k = ThrowsCreate -> forall x, unset x = Null).

Lemma host_buffer old h L :
  owns h L ->
  exists e b h' ns, createBuffer answer unset ForHost old h = Ret (e, b, h') /\ e <> Failed /\
    owns h' (ns ++ L) /\ (length ns <= 2)%nat /\ (e = Done -> buffer_is b ns) /\
    (e = Threw -> answer ForHost (next h) <> Granted).
Proof.
  intros H. destruct (createBuffer_spec answer unset ForHost old _ _ H) as (b & h' & E & _ & Hr).
  pose proof (Hhost (next h)) as HR. rewrite E.
  assert (forall e, e <> Failed -> (e = Threw -> answer ForHost (next h) <> Granted) ->
    (exists ns, buffer_is b ns /\ owns h' (ns ++ L)) ->
    exists e' b' h'' ns, Ret (e, b, h') = Ret (e', b', h'') /\ e' <> Failed /\ owns h'' (ns ++ L) /\
      (length ns <= 2)%nat /\ (e' = Done -> buffer_is b' ns) /\ (e' = Threw -> answer ForHost (next h) <> Granted)) as Hgo.
  { intros e He Ht (ns & Hb & Ho). pose proof (buffer_is_length _ _ Hb) as Hl.
    exists e, b, h', ns. do 3 (split; [done|]). split; [lia|]. by split. }
  destruct (answer ForHost (next h)); cbn [ended]; try (by apply Hgo).
  destruct Hr as [_ Ho]. exists Threw, b, h', []. do 3 (split; [done|]). split; [cbn; lia|]. by split.
Qed.

(** The three buffers, or what was created before an exception. *)
Lemma create_host_granted r o L :
  owns (store o) L ->
  exists ok u m l h nh, create_host answer unset r o = Ret (ok, set_host u m l h o) /\
    owns h (nh ++ L) /\ (length nh <= 6)%nat /\ (ok = true -> each_is buffer_is [u; m; l] nh) /\
    ((forall k, answer ForHost k = Granted) -> ok = true).
Proof.
  intros H. unfold create_host.
  destruct (host_buffer (uniform_ o) _ _ H) as (e1 & u & h1 & n1 & E1 & F1 & H1 & G1 & D1 & T1). rewrite E1. cbn [obind].
  destruct e1; [|done|].
  2:{ eexists false, u, _, _, h1, n1. do 2 (split; [done|]). split; [lia|]. split; [done|]. intros Hg. by destruct (T1 eq_refl (Hg _)). }
  destruct (host_buffer (material_ o) _ _ H1) as (e2 & m & h2 & n2 & E2 & F2 & H2 & G2 & D2 & T2). rewrite E2. cbn [obind].
  assert (owns h2 ((n1 ++ n2) ++ L)) as O2 by (eapply owns_perm; [|exact H2]; solve_Permutation).
  destruct e2; [|done|].
  2:{ eexists false, u, m, _, h2, (n1 ++ n2). do 2 (split; [done|]). rewrite length_app. split; [lia|]. split; [done|].
      intros Hg. by destruct (T2 eq_refl (Hg _)). }
  destruct (host_buffer (light_ o) _ _ H2) as (e3 & l & h3 & n3 & E3 & F3 & H3 & G3 & D3 & T3). rewrite E3. cbn [obind].
  assert (owns h3 ((n1 ++ n2 ++ n3) ++ L)) as O3 by (eapply owns_perm; [|exact H3]; solve_Permutation).
  destruct e3; [|done|]; eexists _, u, m, l, h3, (n1 ++ n2 ++ n3); do 2 (split; [done|]); rewrite !length_app; (split; [lia|]);
    (split; [|try done; intros Hg; by destruct (T3 eq_refl (Hg _))]); [|done].
  intros _. rewrite <- (app_nil_r n3). repeat constructor; auto.
Qed.

(** Growing the fragment buffer: the depth buffer may fail, and can be destroyed then. *)
Lemma grow_granted l h ns L :
  each_is buffer_is l ns -> length l = 8%nat -> owns h (ns ++ L) ->
  exists e l' h' ms, grow_fragments answer unset l h = Ret (e, l', h') /\ storage_is l' ms /\ owns h' (ms ++ L) /\
    (e = Done -> each_is buffer_is l' ms /\ length l' = 8%nat).
Proof.
  intros Hl Hn H. destruct l as [|c [|gs [|off [|oc [|od [|fr [|df [|fb [|]]]]]]]]]; try done.
  apply (each_is_app_inv _ [c; gs; off; oc; od] [fr; df; fb]) in Hl
    as (n0 & m & -> & B0 & (n5 & ? & -> & B5 & (n6 & n7 & -> & B6 & B7)%each_is_inv)%each_is_inv).
  cbn [grow_fragments]. apply (owns_perm _ _ (n5 ++ n6 ++ n0 ++ n7 ++ L)) in H; [|solve_Permutation].
  destruct (destroyBuffer_gives_back _ _ _ _ B5 H) as (h1 & E1 & Ho1 & _). rewrite E1. cbn [obind].
  destruct (destroyBuffer_gives_back _ _ _ _ B6 Ho1) as (h2 & E2 & Ho2 & _). rewrite E2. cbn [obind].
  destruct (createBuffer_spec answer unset ForFragments fr _ _ Ho2) as (fr' & h3 & E3 & _ & H3).
  rewrite Hfragments in E3, H3. destruct H3 as (n5' & B5' & Ho3). rewrite E3. cbn [obind ended].
  destruct (createBuffer_spec answer unset ForDepths df _ _ Ho3) as (df' & h4 & E4 & _ & H4). rewrite E4. cbn [obind].
  assert (forall n6', maybe_is df' n6' -> storage_is [c; gs; off; oc; od; fr'; df'; fb] (n0 ++ n5' ++ n6' ++ n7)) as Hall.
  { intros n6' Hd. apply (storage_app [c; gs; off; oc; od]); [by apply storage_there|].
    constructor; [by left|]. constructor; [done|]. by apply storage_there. }
  assert (forall e n6', maybe_is df' n6' -> owns h4 (n6' ++ n5' ++ n0 ++ n7 ++ L) -> (e = Done -> buffer_is df' n6') ->
    exists e' l' h' ms, Ret (e, [c; gs; off; oc; od; fr'; df'; fb], h4) = Ret (e', l', h') /\ storage_is l' ms /\
      owns h' (ms ++ L) /\ (e' = Done -> each_is buffer_is l' ms /\ length l' = 8%nat)) as Hgo.
  { intros e n6' Hm Ho Hd. eexists e, _, h4, _. split; [done|]. split; [by apply Hall|]. split.
    - eapply owns_perm; [|exact Ho]. solve_Permutation.
    - intros He. split; [|done]. apply (each_is_app _ [c; gs; off; oc; od]); [done|]. repeat constructor; auto. }
  destruct (answer ForDepths (next h3)) eqn:Ea; cbn [ended].
  - destruct H4 as (n6' & B6' & Ho4). apply (Hgo _ n6'); [by left|done|done].
  - destruct H4 as [-> Ho4]. apply (Hgo _ []); [by right|done|done].
  - destruct H4 as [Hd Ho4]. rewrite (Hunset _ _ (or_intror eq_refl) Ea) in Hd. apply (Hgo _ []); [by right|done|done].
  - destruct H4 as (n6' & B6' & Ho4). apply (Hgo _ n6'); [by left|done|done].
  - destruct H4 as (n6' & B6' & Ho4). apply (Hgo _ n6'); [by left|done|done].
Qed.

(** What a frame leaks: nothing when it gives an image, and otherwise at most the three
    buffers; all of them unless they were not all created. *)
Definition whole (r : Request) : Prop := (forall k, answer ForHost k = Granted) /\ throws r <> Some InPasses.
Definition leaks (r : Request) (ok : bool) (L L' : list nat) : Prop :=
  if ok then length L' = length L
  else (length L <= length L' <= length L + 6)%nat /\ (whole r -> length L' = (length L + 6)%nat).

Lemma blank_leaks r g o na ns nh L :
  each_is attachment_is (attachments o) na -> length (attachments o) = 3%nat -> storage_is (storage o) ns ->
  owns (store o) (na ++ ns ++ nh ++ L) -> (length nh <= 6)%nat -> (whole r -> length nh = 6%nat) ->
  exists g' o' L', blank g o = Ret (false, g', o') /\ Valid L' (g', o') /\ leaks r false L L' /\ initialized g' = false.
Proof.
  intros Ha Hl Hs H H6 Hw. destruct (blank_spec g o na ns (nh ++ L)) as (g' & o' & E & HV & Hi); [done..|].
  exists g', o', (nh ++ L). do 2 (split; [done|]). split; [|done]. unfold leaks. rewrite length_app.
  split; [lia|]. intros W. specialize (Hw W). lia.
Qed.

Lemma abandon_leaks r g o na ns nh L :
  sync_fails r = false ->
  each_is attachment_is (attachments o) na -> length (attachments o) = 3%nat -> storage_is (storage o) ns ->
  owns (store o) (na ++ ns ++ nh ++ L) -> (length nh <= 6)%nat -> (whole r -> length nh = 6%nat) ->
  exists g' o' L', abandon r g o = Ret (false, g', o') /\ Valid L' (g', o') /\ leaks r false L L' /\ initialized g' = false.
Proof. unfold abandon. intros ->. apply blank_leaks. Qed.

Lemma recreate_granted r g o L :
  Valid L (g, o) -> sync_fails r = false ->
  exists ok g' o' L', recreate answer unset r g o = Ret (ok, g', o') /\ Valid L' (g', o') /\ leaks r ok L L' /\
    initialized g' = ok.
Proof.
  intros HV Hr. unfold recreate. destruct (leave_valid r g o L HV Hr) as (o1 & E1 & (Hl & Hd & Hst & Ho) & _).
  rewrite E1. cbn [obind negb].
  destruct (createAttachments_granted answer unset [] (attachments o1) (store o1) [] L Hattachments
    ltac:(constructor) Ho) as (a & na & h2 & E2 & Ha & Ho2 & _ & Hla). rewrite E2. cbn [obind negb].
  cbn [length] in Hla. rewrite Hl in Hla.
  destruct (throws_at InPasses r) eqn:Tp.
  { destruct (blank_leaks r (g <| initialized := false |>) (set_attachments a h2 o1) na [] [] L) as (g' & o' & L' & E & HV' & Hk & Hi);
      [done|done| |done|cbn; lia| |by exists false, g', o', L'].
    - change (storage_is (storage o1) []). rewrite Hst. apply (storage_null 8).
    - intros [_ Hw]. by apply bool_decide_eq_true in Tp. }
  destruct (create_host_granted r (set_attachments a h2 o1) _ Ho2) as (ok & u & m & l & h3 & nh & E3 & Ho3 & N6 & Hb & Hg).
  rewrite E3. cbn [obind]. set (o3 := set_host u m l h3 _).
  assert (storage o3 = replicate 8 null_buffer) as Hst3 by exact Hst.
  assert (whole r -> length nh = 6%nat) as Hw by (intros [Hw _]; rewrite (host_length _ _ (Hb (Hg Hw))); done).
  destruct (negb ok || throws_at InSets r) eqn:Eb.
  { match goal with |- context [blank ?g' ?o'] => destruct (blank_leaks r g' o' na [] nh L) as (g2 & o2 & L' & E & HV' & Hk & Hi) end;
      [done|done| | |done|done|by exists false, g2, o2, L'].
    - rewrite Hst3. apply (storage_null 8).
    - eapply owns_perm; [|exact Ho3]. solve_Permutation. }
  apply orb_false_iff in Eb as [->%negb_false_iff _]. specialize (Hb eq_refl).
  rewrite Hst3. change (store o3) with h3.
  destruct (create_storage_spec answer unset [] 8 h3 [] _ ltac:(intros n Hn; by apply (Hunset _ _ (or_introl eq_refl) Hn))
    ltac:(constructor) Ho3) as (e & made & sg & ns & h4 & E4 & Hs & Ho4 & _ & Hm). rewrite E4. cbn [obind].
  apply (owns_perm _ _ (na ++ ns ++ nh ++ L)) in Ho4; [|solve_Permutation].
  destruct e; [destruct (throws_at InPipelines r)|..].
  1,4: match goal with |- context [blank ?g' ?o'] => destruct (blank_leaks r g' o' na ns nh L) as (g2 & o2 & L' & E & HV' & Hk & Hi) end;
    [done..|by exists false, g2, o2, L'].
  - destruct (Hm eq_refl) as [Hsb Hls]. eexists true, _, _, L. split; [done|]. split; [|by split].
    exists na, nh, ns. by do 5 (split; [done|]).
  - match goal with |- context [abandon r ?g' ?o'] => destruct (abandon_leaks r g' o' na ns nh L) as (g2 & o2 & L' & E & HV' & Hk & Hi) end;
      [done..|by exists false, g2, o2, L'].
Qed.

Lemma draw_granted r g o L :
  Valid L (g, o) -> initialized g = true -> sync_fails r = false ->
  exists ok g' o' L', draw answer unset r g o = Ret (ok, g', o') /\ Valid L' (g', o') /\ leaks r ok L L'.
Proof.
  unfold Valid. cbn [fst snd]. intros HV Hi Hr. rewrite Hi in HV.
  destruct HV as (na & nh & ns & Ha & Hl & Hh & Hs & Hls & Ho). unfold draw. rewrite Hi. cbn [negb].
  pose proof (host_length _ _ Hh) as N6. cbn in N6.
  destruct (throws_at InCount r).
  { destruct (blank_leaks r g o na ns nh L) as (g' & o' & L' & E & HV' & Hk & _);
      [done|done|by apply storage_there|done|lia|lia|by exists false, g', o', L']. }
  set (g1 := if opaque r then g else _). set (grow := negb (opaque r) && _).
  assert (initialized (if grow then g1 <| maxFragments := wrapw 32 (snd (feedback r) * 11) / 10 |> else g1) = true) as Hi2.
  { assert (initialized g1 = true) as H1.
    { unfold g1. destruct (opaque r); [done|]. by destruct (switchBlendPipeline_target (fst (feedback r)) g) as [[-> _] _]. }
    by destruct grow. }
  set (g2 := if grow then _ else g1) in *. clearbody g2.
  apply (owns_perm _ _ (ns ++ na ++ nh ++ L)) in Ho; [|solve_Permutation].
  assert (exists e l h ms, (if grow then grow_fragments answer unset (storage o) (store o) else Ret (Done, storage o, store o)) =
      Ret (e, l, h) /\ storage_is l ms /\ owns h (ms ++ na ++ nh ++ L) /\
      (e = Done -> each_is buffer_is l ms /\ length l = 8%nat)) as (e & l & h & ms & E & Hst & Ho' & Hok).
  { destruct grow; [by apply (grow_granted _ _ ns)|].
    exists Done, (storage o), (store o), ns. split; [done|]. split; [by apply storage_there|]. by split. }
  rewrite E. cbn [obind].
  apply (owns_perm _ _ (na ++ ms ++ nh ++ L)) in Ho'; [|solve_Permutation].
  destruct e; [destruct (throws_at InFrame r)|..].
  1,4: destruct (blank_leaks r g2 (set_storage l h o) na ms nh L) as (g' & o' & L' & Eb' & HV' & Hk & _);
    [done|done|done|done|lia|lia|by exists false, g', o', L'].
  - destruct (Hok eq_refl) as [Hb Hlen]. eexists true, g2, _, L. split; [done|]. split; [|done].
    unfold Valid. cbn [fst snd]. rewrite Hi2. exists na, nh, ms. by do 5 (split; [done|]).
  - destruct (abandon_leaks r g2 (set_storage l h o) na ms nh L) as (g' & o' & L' & Eb' & HV' & Hk & _);
      [done|done|done|done|done|lia|lia|by exists false, g', o', L'].
Qed.

Lemma render_granted r s L :
  Valid L s -> sized r ->
  exists ok g' o' L', render_objects answer unset r s = Ret (ok, g', o') /\ Valid L' (g', o') /\ leaks r ok L L'.
Proof.
  destruct s as [g o]. intros HV (Hx & Hy & Hr). unfold render_objects.
  assert (initialized g = false -> size_eqb (currentTargetSize g) (target r) = false) as Hz.
  { intros Hi. unfold Valid in HV. cbn [fst] in HV. rewrite Hi in HV. destruct HV as [-> _].
    unfold size_eqb. rewrite (proj2 (Z.eqb_neq (fst (0, 0)) (fst (target r)))); [done|]. cbn [fst]. lia. }
  destruct (size_eqb (currentTargetSize g) (target r)) eqn:Es.
  - assert (initialized g = true) as Hi by (destruct (initialized g); [done|by specialize (Hz eq_refl)]).
    rewrite andb_true_r, Hi. cbn [negb orb]. destruct (negb (mode_eqb _ _)); [|by apply draw_granted].
    destruct (throws_at InPipelines r); [|by apply draw_granted].
    unfold Valid in HV. cbn [fst snd] in HV. rewrite Hi in HV.
    destruct HV as (na & nh & ns & Ha & Hl & Hh & Hs & Hls & Ho). pose proof (host_length _ _ Hh) as N6. cbn in N6.
    destruct (blank_leaks r g o na ns nh L) as (g' & o' & L' & E & HV' & Hk & _);
      [done|done|by apply storage_there|done|lia|lia|by exists false, g', o', L'].
  - rewrite andb_false_r. cbn [negb orb].
    destruct (recreate_granted r g o L HV Hr) as (ok & g' & o' & L' & E & HV' & Hk & Hi). rewrite E. cbn [obind].
    destruct ok; [|by exists false, g', o', L'].
    destruct (draw_granted r g' o' L' HV' Hi Hr) as (ok2 & g2 & o2 & L2 & E2 & HV2 & Hk2).
    exists ok2, g2, o2, L2. split; [done|]. split; [done|]. unfold leaks in *. by rewrite <- Hk.
Qed.

Lemma session_granted rs s L :
  Valid L s -> Forall sized rs ->
  exists n s' L', session answer unset rs s = Ret (n, s') /\ Valid L' s' /\
    (length L <= length L' <= length L + 6 * n)%nat /\
    (Forall whole rs -> length L' = (length L + 6 * n)%nat).
Proof.
  revert s L. induction rs as [|r rs IH]; intros s L HV Hr; [exists 0%nat, s, L; split; [done|split; [done|]]; split; [lia|intros _; lia]|].
  apply Forall_cons in Hr as [Hr Hrs]. cbn [session].
  destruct (render_granted r s L HV Hr) as (ok & g' & o' & L1 & E & HV1 & Hk). rewrite E. cbn [obind].
  destruct (IH (g', o') L1 HV1 Hrs) as (n & s' & L2 & E2 & HV2 & Hk2 & Hx). rewrite E2. cbn [obind].
  eexists _, s', L2. split; [done|]. split; [done|]. unfold leaks in Hk. destruct ok.
  - split; [lia|]. intros [_ W]%Forall_cons. rewrite (Hx W). lia.
  - destruct Hk as [Hk Hw]. split; [lia|]. intros [W0 W]%Forall_cons. rewrite (Hx W), (Hw W0). lia.
Qed.
End Granted.

Lemma newborn_valid : Valid [] newborn.
Proof.
  split; [done|]. split; [done|]. split; [by repeat constructor|]. split; [done|].
  by split; [constructor|].
Qed.

Lemma Valid_size L s :
  Valid L s -> size (live (store (snd s))) = ((if initialized (fst s) then 31 else 0) + length L)%nat.
Proof.
  unfold Valid. destruct (initialized (fst s)).
  - intros (na & nh & ns & Ha & Hl & Hh & Hs & Hls & Ho). rewrite (owns_size _ _ Ho), !length_app.
    rewrite (host_length _ _ Hh), (host_length _ _ Hs), Hls.
    rewrite (each_is_length _ 3 _ _ attachment_is_length Ha), Hl. cbn. lia.
  - intros (_ & _ & _ & _ & Ho). by rewrite (owns_size _ _ Ho).
Qed.

(** ** Out of memory *)

Section Refused.
Context (answer : Use -> nat -> Answer) (unset : Handle -> Handle).

Lemma cleanup_undef o : destroy_each destroyAttachment (attachments o) (store o) = Undef -> cleanup o = Undef.
Proof. intros E. unfold cleanup. by rewrite E. Qed.

Lemma recreate_fatal r g o L i :
  Valid L (g, o) -> sync_fails r = false -> (i < 3)%nat -> fatal (answer ForAttachment (next (store o) + 3 * i)) = true ->
  recreate answer unset r g o = Undef.
Proof.
  intros HV Hr Hi Hf. unfold recreate. destruct (leave_valid _ _ _ _ HV Hr) as (o1 & E1 & (Hl & Hd & _ & Ho) & N).
  rewrite E1. cbn [obind negb].
  destruct (createAttachments_fatal answer unset [] _ _ [] L i ltac:(constructor) Ho Hd ltac:(by rewrite Hl) ltac:(by rewrite N))
    as [E|(l & h' & E & Hu)]; rewrite E; [done|]. cbn [obind]. unfold blank. by rewrite cleanup_undef.
Qed.

(** [cleanup] twice. *)
Lemma cleanup_again o L : Idle L o -> cleanup o = Undef.
Proof.
  intros (Hl & Hd & _). apply cleanup_undef. destruct (attachments o) as [|a l]; [done|].
  apply Forall_cons in Hd as [Ha _]. apply (destroy_dead_view [] a l). done.
Qed.

Lemma recreate_sync r g o L :
  Valid L (g, o) -> initialized g = true -> sync_fails r = true -> recreate answer unset r g o = Undef.
Proof.
  unfold Valid, recreate, leave. cbn [fst snd]. intros HV Hi ->. rewrite Hi in *.
  destruct HV as (na & nh & ns & Ha & Hl & Hh & Hs & Hls & Ho).
  destruct (cleanup_objects o na ns _ Ha Hl (storage_there _ _ Hs) Ho) as (h & E & _ & Hid).
  rewrite E. cbn [obind negb]. unfold blank. by rewrite (cleanup_again _ _ Hid).
Qed.

(** The depth buffer that was destroyed is destroyed again by [cleanup]. *)
Lemma stale_depths_undef o na n0 (c gs off oc od fr df fb : Buffer) L :
  each_is attachment_is (attachments o) na -> each_is buffer_is [c; gs; off; oc; od] n0 ->
  storage o = [c; gs; off; oc; od; fr; df; fb] -> owns (store o) (na ++ n0 ++ L) ->
  dead (store o) (buffer df) -> cleanup o = Undef.
Proof.
  intros Ha H0 Hs H Hd. unfold cleanup.
  destruct (destroy_each_gives_back _ _ destroyAttachment_gives_back _ _ _ _ Ha H) as (h1 & E1 & H1 & L1 & _).
  rewrite E1, Hs. cbn [obind]. change [c; gs; off; oc; od; fr; df; fb] with ([c; gs; off; oc; od] ++ [fr; df; fb]).
  rewrite destroy_each_app.
  destruct (destroy_each_gives_back _ _ destroy_if_gives_back _ _ _ _ H0 H1) as (h2 & E2 & _ & L2 & _).
  rewrite E2. cbn [obind destroy_each].
  assert (forall h, destroy_if fr h2 = Ret h -> later h2 h) as Hfr.
  { unfold destroy_if, destroyBuffer. intros h. case_match; [intros [= <-]; reflexivity|].
    intros (h' & E & E')%obind_Ret. etransitivity; by eapply later_destroy. }
  assert (destroy_if fr h2 <> NoFuel) as Hnf.
  { unfold destroy_if, destroyBuffer. case_match; [done|]. pose proof (vkDestroy_fuel (buffer fr) h2).
    destruct (vkDestroy (buffer fr) h2); [apply vkDestroy_fuel|done|done]. }
  destruct (destroy_if fr h2) as [h3| |]; [|done|done]. cbn [obind].
  apply (dead_later _ h3) in Hd; [|by etransitivity; [exact L1|etransitivity; [exact L2|apply Hfr]]].
  unfold destroy_if at 1, destroyBuffer. rewrite (vkDestroy_dead _ _ Hd). by destruct (buffer df).
Qed.

Lemma draw_refused r g o L :
  Valid L (g, o) -> initialized g = true -> opaque r = false -> throws_at InCount r = false ->
  maxFragments g < snd (feedback r) ->
  fatal (answer ForFragments (next (store o))) = true -> draw answer unset r g o = Undef.
Proof.
  unfold Valid. cbn [fst snd]. intros HV Hi Hop Ht Hgt Hf. rewrite Hi in HV.
  destruct HV as (na & nh & ns & Ha & Hl & Hh & Hs & Hls & Ho). unfold draw. rewrite Hi, Hop, Ht. cbn [negb andb].
  destruct (switchBlendPipeline_target (fst (feedback r)) g) as (_ & _ & _ & ->).
  rewrite (proj2 (Z.ltb_lt _ _) Hgt). cbn iota.
  destruct (storage o) as [|c [|gs [|off [|oc [|od [|fr [|df [|fb [|]]]]]]]]]; try done.
  apply (each_is_app_inv _ [c; gs; off; oc; od] [fr; df; fb]) in Hs
    as (n0 & m & -> & B0 & (n5 & ? & -> & B5 & (n6 & n7 & -> & B6 & B7)%each_is_inv)%each_is_inv).
  cbn [grow_fragments]. apply (owns_perm _ _ (n5 ++ n6 ++ na ++ n0 ++ n7 ++ nh ++ L)) in Ho; [|solve_Permutation].
  destruct (destroyBuffer_gives_back _ _ _ _ B5 Ho) as (h1 & E1 & Ho1 & L1 & N1 & _). rewrite E1. cbn [obind].
  destruct (destroyBuffer_gives_back _ _ _ _ B6 Ho1) as (h2 & E2 & Ho2 & L2 & N2 & D2). rewrite E2. cbn [obind].
  destruct (createBuffer_spec answer unset ForFragments fr _ _ Ho2) as (fr' & h3 & E3 & L3 & H3).
  rewrite N2, N1 in E3, H3. rewrite E3. cbn [obind].
  assert (dead h3 (buffer df)) as Hdf.
  { destruct B6 as (x & y & -> & ->). apply (dead_later h2); [exact L3|]. split; [apply D2; set_solver|].
    rewrite N2. eapply owns_lt; [exact Ho1|]. set_solver. }
  assert (exists L', owns h3 (na ++ n0 ++ L')) as [L' Ho3].
  { destruct (answer ForFragments (next (store o))); try done;
      [destruct H3 as [_ Ho3]; eexists; exact Ho3|destruct H3 as [_ Ho3]; eexists; exact Ho3|].
    destruct H3 as (nf & _ & Ho3). exists (nf ++ n7 ++ nh ++ L). eapply owns_perm; [|exact Ho3]. solve_Permutation. }
  assert (forall g', cleanup (set_storage [c; gs; off; oc; od; fr'; df; fb] h3 o) = Undef ->
    blank g' (set_storage [c; gs; off; oc; od; fr'; df; fb] h3 o) = Undef /\
    abandon r g' (set_storage [c; gs; off; oc; od; fr'; df; fb] h3 o) = Undef) as Hend
    by (intros g' E; unfold blank, abandon; by rewrite E).
  assert (cleanup (set_storage [c; gs; off; oc; od; fr'; df; fb] h3 o) = Undef) as Hc
    by (eapply (stale_depths_undef _ na n0 c gs off oc od fr' df fb); [exact Ha|exact B0|done|exact Ho3|exact Hdf]).
  destruct (answer ForFragments (next (store o))); try done; cbn [ended obind]; by apply Hend.
Qed.
End Refused.

(** The device on which the calls succeed that no failure path survives; a failed
    [vkCreateBuffer], where it may fail, leaves a null handle. *)
Definition survivable (answer : Use -> nat -> Answer) (unset : Handle -> Handle) : Prop :=
  (forall k, answer ForAttachment k = Granted) /\ (forall k, answer ForHost k <> Refused) /\
  (forall k, answer ForFragments k = Granted) /\
  (forall u k, u = ForStorage \/ u = ForDepths -> answer u k = ThrowsCreate -> forall x, unset x = Null).


(** C36: After any such session, three failures that the code means to survive are not survived.
    When any of the three attachments of a new size fails (its memory is refused, or its image
    cannot be created or bound), the views of the size before are destroyed a second time,
    because [cleanup] keeps their handles, or, before the first size, handles are used that
    were never set; when the larger fragment buffer fails, [cleanup] destroys the old depth
    buffer a second time; and when [cleanup] itself throws while a size is left, the catch
    clause calls it again and the views are destroyed a second time. *)
Theorem out_of_memory_destroys_twice past answer unset rs n g o r :
  survivable past unset -> Forall sized rs -> session past unset rs newborn = Ret (n, (g, o)) ->
  (forall i, size_eqb (currentTargetSize g) (target r) = false -> sync_fails r = false -> (i < 3)%nat ->
     fatal (answer ForAttachment (next (store o) + 3 * i)%nat) = true -> render_objects answer unset r (g, o) = Undef) /\
  (size_eqb (currentTargetSize g) (target r) = true -> initialized g = true -> opaque r = false ->
     throws r = None \/ throws r = Some InFrame -> maxFragments g < snd (feedback r) -> fatal (answer ForFragments (next (store o))) = true ->
     render_objects answer unset r (g, o) = Undef) /\
  (size_eqb (currentTargetSize g) (target r) = false -> initialized g = true -> sync_fails r = true ->
     render_objects answer unset r (g, o) = Undef).
Proof.
  intros (Ha & Hh & Hf & Hu) Hr E.
  destruct (session_granted past unset Ha Hh Hf Hu rs newborn [] newborn_valid Hr) as (n' & s & L & E' & HV & _).
  rewrite E in E'. injection E' as _ <-. unfold render_objects. split; [|split].
  - intros i Hs Hy Hi Hg. rewrite Hs, andb_false_r. cbn [negb orb]. by rewrite (recreate_fatal _ _ _ _ _ _ _ HV Hy Hi Hg).
  - intros Hs Hi Hop Ht Hgt Hg. rewrite Hs, andb_true_r, Hi. cbn [negb orb].
    assert (throws_at InCount r = false /\ throws_at InPipelines r = false) as [Hn ->]
      by (unfold throws_at; by destruct Ht as [-> | ->]).
    destruct (negb (mode_eqb _ _)); by apply (draw_refused _ _ _ _ _ L).
  - intros Hs Hi Hy. rewrite Hs, andb_false_r. cbn [negb orb]. by rewrite (recreate_sync _ _ _ _ _ _ HV Hi Hy).
Qed.

(** ** Examples *)

(** The calls for [u] whose first object would be the [k]-th end with [a]. *)
Definition fails (a : Answer) (u : Use) (k : nat) (v : Use) (n : nat) : Answer :=
  match u, v with
  | ForStorage, ForStorage | ForAttachment, ForAttachment | ForFragments, ForFragments
  | ForDepths, ForDepths => if Nat.eqb k n then a else Granted
  | _, _ => Granted
  end.
Definition granted (u : Use) (n : nat) : Answer := Granted.
Definition page (width : Z) (fragments : Z) (error : option Point) : Request :=
  mkRequest (width, 100) DRAWMODE_NORMAL false false false (1, fragments) error false.
Definition after (rs : list Request) : Gpu * Objects :=
  match session granted id rs newborn with Ret (_, s) => s | _ => newborn end.

Definition three_frames : list Request := [page 100 10 None; page 200 10 None; page 200 30000 (Some InFrame)].
(** The frames without an image, and whether there is a size at the end. *)
Definition outcome_of (o : outcome (nat * (Gpu * Objects))) : option (nat * bool) :=
  match o with Ret (n, (g, _)) => Some (n, initialized g) | _ => None end.


Lemma out_of_memory_destroys_twice_witness :
  let g := fst (after [page 100 10 None]) in
  let o := snd (after [page 100 10 None]) in
  render_objects (fails Refused ForAttachment 31) id (page 200 10 None) (g, o) = Undef /\
  render_objects (fails ThrowsBind ForFragments 31) id (page 100 30000 None) (g, o) = Undef.
Proof.
  intros g o. assert (survivable granted id) as H by done. split.
  - refine (proj1 (out_of_memory_destroys_twice granted (fails Refused ForAttachment 31) id
      [page 100 10 None] 0 g o (page 200 10 None) H _ _) 0%nat _ _ _ _);
      [by repeat constructor|vm_compute; reflexivity|vm_compute; reflexivity|done|lia|vm_compute; reflexivity].
  - refine (proj1 (proj2 (out_of_memory_destroys_twice granted (fails ThrowsBind ForFragments 31) id
      [page 100 10 None] 0 g o (page 100 30000 None) H _ _)) _ _ _ _ _ _);
      [by repeat constructor|vm_compute; reflexivity|vm_compute; reflexivity|vm_compute; reflexivity|
        vm_compute; reflexivity|by left|vm_compute; reflexivity|vm_compute; reflexivity].
Defined.
