(* ===== verification/FrameSync.v ===== *)
(** * The renderer and the GPU: the protocol of a frame

    [v3d-Common/Rendering/renderheadless.cpp]: the order in which
    [HeadlessRenderer::render] resets fences and command buffers, submits work to
    the one queue and waits for it: [beginTransferRecording],
    [endAndSubmitTransfers], [refreshBuffers], [readFeedback], the end of [render],
    the two waits that recover from a timeout, and what [cleanup] does to the
    synchronisation objects.

    The GPU runs at its own pace beside the host: a configuration is the rest of
    the host's program, its counters and the queue, and any step may be the GPU's.
    Vulkan is not part of the repository: [Vulkan] is the interface that the
    renderer relies on, with the documented behaviour of a queue as its laws.  What
    a call requires of its objects (its valid usage) is [valid]. *)

From S2P Require Import Prelude.
From coqutil Require Import Datatypes.RecordSetters.
Import TriangleBracketNotations.

(** ** A queue and its synchronisation objects *)

Inductive Fence := TransferFence | ComputeFence | WorkFence.
Inductive Cmd := TransferCmd | CountCmd | ComputeCmd | MainCmd | WorkCmd.

#[export] Instance Fence_dec : EqDecision Fence.
Proof. solve_decision. Defined.
#[export] Instance Cmd_dec : EqDecision Cmd.
Proof. solve_decision. Defined.

(** A batch: whether it waits for and whether it signals [transferDoneSemaphore],
    the value it gives the timeline semaphore, and its fence. *)
Record Submission := mkSubmission {
  commands : list Cmd; waits : bool; signals : bool; value : option Z; fence : option Fence
}.

(** The batches that have not been executed, and the state of the objects. *)
Record Queue := mkQueue {
  pending : list Submission; signaled : Fence -> bool; timeline : Z; binary : bool
}.

Definition upd (f : Fence) (b : bool) (sig : Fence -> bool) : Fence -> bool :=
  fun f' => if decide (f' = f) then b else sig f'.

Definition after_fence (s : Submission) (sig : Fence -> bool) : Fence -> bool :=
  match fence s with Some f => upd f true sig | None => sig end.
Definition after_binary (s : Submission) (b : bool) : bool := signals s || (b && negb (waits s)).

(** The oldest batch is executed, once what it waits for is signaled. *)
Definition run_head (q : Queue) : option Queue :=
  match pending q with
  | [] => None
  | s :: rest =>
      if waits s && negb (binary q) then None
      else Some (mkQueue rest (after_fence s (signaled q)) (default (timeline q) (value s))
                   (after_binary s (binary q)))
  end.
Definition runs : Queue -> Queue -> Prop := rtc (fun q q' => run_head q = Some q').

Definition q_submit (s : Submission) (q : Queue) : Queue := q <| pending ::= fun l => l ++ [s] |>.
Definition q_resetFence (f : Fence) (q : Queue) : Queue := q <| signaled ::= upd f false |>.
Definition q_newTimeline (q : Queue) : Queue := q <| timeline := 0 |>.
Definition q_newSync (q : Queue) : Queue :=
  q <| signaled := fun _ => true |> <| timeline := 0 |> <| binary := false |>.

Lemma pending_submit s q : pending (q_submit s q) = pending q ++ [s].
Proof. done. Qed.
Lemma pending_reset f q : pending (q_resetFence f q) = pending q.
Proof. done. Qed.

(** ** Valid usage *)

Definition pending_fence (f : Fence) (q : Queue) : Prop := Exists (fun s => fence s = Some f) (pending q).
Definition pending_cmd (c : Cmd) (q : Queue) : Prop := Exists (fun s => c ∈ commands s) (pending q).
(** What the semaphore will be when the pending batches have run. *)
Definition final_binary (q : Queue) : bool := foldl (fun b s => after_binary s b) (binary q) (pending q).

Definition submit_valid (s : Submission) (q : Queue) : Prop :=
  (forall c, c ∈ commands s -> ~ pending_cmd c q) /\
  (forall f, fence s = Some f -> signaled q f = false /\ ~ pending_fence f q) /\
  (signals s = true -> final_binary q = false) /\ (waits s = true -> final_binary q = true) /\
  (forall v, value s = Some v -> timeline q < v /\ Forall (fun s' => default 0 (value s') < v) (pending q)).

(** ** The interface of Vulkan *)

Class Vulkan := {
  Device : Type;
  view : Device -> Queue;
  vkQueueSubmit : Submission -> Device -> Device;
  vkResetFences : Fence -> Device -> Device;
  newTimelineSemaphore : Device -> Device;
  newSyncObjects : Device -> Device;
  executes : Device -> Device -> Prop
}.
Class VulkanOk `{Vulkan} : Prop := {
  submit_view s d : view (vkQueueSubmit s d) = q_submit s (view d);
  reset_view f d : view (vkResetFences f d) = q_resetFence f (view d);
  timeline_view d : view (newTimelineSemaphore d) = q_newTimeline (view d);
  sync_view d : view (newSyncObjects d) = q_newSync (view d);
  executes_view d d' : executes d d' -> run_head (view d) = Some (view d');
  executes_live d q : run_head (view d) = Some q -> exists d', executes d d'
}.

(** ** The host *)

Record Host := mkHost {
  currentTimelineValue : Z; computeTimelineValue : Z; timelineValue : Z; transferHasPendingWork : bool
}.

Definition reset_counters (h : Host) : Host := mkHost 0 0 0 (transferHasPendingWork h).

Inductive Op :=
  | Act (f : Host -> Host)              (* assignments *)
  | ResetFence (f : Fence)
  | ResetCmd (c : Cmd)                  (* vkResetCommandBuffer *)
  | Submit (s : Host -> Submission)
  | WaitFence (f : Fence)               (* safeWaitForFences *)
  | WaitForever (f : Fence)             (* vkWaitForFences without timeout *)
  | WaitTimeline (v : Host -> Z)        (* safeWaitTimelineSemaphore *)
  | Idle                                (* vkDeviceWaitIdle *)
  | Destroy                             (* attachments, pipelines, buffers *)
  | NewTimeline
  | NewSync
  | Touch.                              (* mapped memory, read or written *)

(** [beginTransferRecording]; [endAndSubmitTransfers] *)
Definition beginTransferRecording : list Op :=
  [Act (fun h => h <| transferHasPendingWork := false |>);
   WaitFence TransferFence; ResetFence TransferFence; ResetCmd TransferCmd].
Definition endAndSubmitTransfers : list Op :=
  [ResetFence TransferFence;
   Submit (fun h => mkSubmission [TransferCmd] false (transferHasPendingWork h) None (Some TransferFence))].

(** Recording uploads: if [uploadBuffer] copies anything, [uploadToPersistentBuffer]
    replaces buffers that have become too small and fills the staging buffers. *)
Definition record (uploads : bool) : list Op :=
  if uploads then [Act (fun h => h <| transferHasPendingWork := true |>); Destroy; Touch] else [].

(** [refreshBuffers] when there is transparent data. *)
Definition refreshBuffers (uploads : bool) : list Op :=
  [WaitTimeline computeTimelineValue; ResetFence ComputeFence] ++ beginTransferRecording ++
  [ResetCmd CountCmd] ++ record uploads ++ [ResetCmd ComputeCmd] ++ endAndSubmitTransfers ++
  [Act (fun h => let v := currentTimelineValue h + 1 in
                 mkHost v v (timelineValue h) (transferHasPendingWork h));
   Submit (fun h => mkSubmission [CountCmd; ComputeCmd] (transferHasPendingWork h) false
                      (Some (computeTimelineValue h)) (Some ComputeFence))].

(** [recordCopyToHost]: the image that the host reads is replaced when the size is new. *)
Definition recordCopyToHost (resized : bool) : list Op := if resized then [Destroy] else [].

(** The graphics pass, to the end of [render]. *)
Definition graphicsPass (uploads resized : bool) : list Op :=
  beginTransferRecording ++ [ResetCmd MainCmd] ++ record uploads ++ recordCopyToHost resized ++
  endAndSubmitTransfers ++
  [Act (fun h => h <| currentTimelineValue ::= Z.succ |>);
   Submit (fun h => mkSubmission [MainCmd] (transferHasPendingWork h) false
                      (Some (currentTimelineValue h)) None);
   Act (fun h => h <| timelineValue := currentTimelineValue h |>);
   WaitTimeline timelineValue; Touch].

(** [cleanup]: it waits for the device after it has destroyed what frames use. *)
Definition cleanup : list Op := [Destroy; Idle; NewTimeline; NewSync].

(** [submitWork] and its like, with a fence of their own. *)
Definition submitWork : list Op :=
  [ResetFence WorkFence; Submit (fun _ => mkSubmission [WorkCmd] false false None (Some WorkFence));
   WaitForever WorkFence].

(** How [render] begins: [inited] tells whether there is something to clean up,
    [works] how many commands are run at once meanwhile. *)
Inductive Entry :=
  | SameSize
  | ModeChanged
  | Recreate (inited : bool) (works : nat)
  | NoAttachments (inited : bool)
  | NoTransparencyBuffers (inited : bool) (works : nat).

Definition recreate (inited : bool) (works : nat) : list Op :=
  Idle :: (if inited then cleanup ++ [Destroy] else []) ++ concat (replicate works submitWork).

Definition enter (e : Entry) : list Op :=
  match e with
  | SameSize => [WaitTimeline timelineValue]
  | ModeChanged => [Idle; Destroy]
  | Recreate b n => recreate b n
  | NoAttachments b => recreate b 0
  | NoTransparencyBuffers b n => recreate b n ++ cleanup
  end.

(** What becomes of the fragment buffers in [readFeedback]. *)
Inductive Growth := Enough | Grown | OutOfMemory.

Definition readFeedback (g : Growth) : list Op :=
  [WaitFence ComputeFence; Touch] ++ match g with Enough => [] | _ => [Destroy] end.

(** What decides the course of a frame: the entry, the environment images that
    [updateIBL] loads, whether there is transparent data, the uploads of the two
    passes, whether the image for the host has another size, and the fragment buffers. *)
Record FrameCase := mkCase {
  entry : Entry; newIBL : option nat; opaque : bool; countUploads : bool; mainUploads : bool;
  resized : bool; growth : Growth
}.

Definition updateIBL (works : option nat) : list Op :=
  match works with Some n => [Idle; Destroy] ++ concat (replicate n submitWork) | None => [] end.

(** [HeadlessRenderer::render] *)
Definition render (c : FrameCase) : list Op :=
  enter (entry c) ++
  match entry c with
  | NoAttachments _ | NoTransparencyBuffers _ _ => []
  | _ =>
      updateIBL (newIBL c) ++ [Touch] ++
      if opaque c then graphicsPass (mainUploads c) (resized c)
      else refreshBuffers (countUploads c) ++ readFeedback (growth c) ++
           match growth c with OutOfMemory => cleanup | _ => graphicsPass (mainUploads c) (resized c) end
  end.

(** ** Host and GPU side by side *)

(** What a call requires of the queue. *)
Definition valid (op : Op) (h : Host) (q : Queue) : Prop :=
  match op with
  | ResetFence f => ~ pending_fence f q
  | ResetCmd c => ~ pending_cmd c q
  | Submit s => submit_valid (s h) q
  | Destroy | NewTimeline | NewSync | Touch => pending q = []
  | Act _ | WaitFence _ | WaitForever _ | WaitTimeline _ | Idle => True
  end.

Section Machine.
Context `{vk : Vulkan}.

(** A step of the host in its program, or of the GPU. *)
Inductive advance : list Op * Host * Device -> list Op * Host * Device -> Prop :=
  | gpu_step ops h d d' : executes d d' -> advance (ops, h, d) (ops, h, d')
  | act_step f ops h d : advance (Act f :: ops, h, d) (ops, f h, d)
  | reset_step f ops h d : advance (ResetFence f :: ops, h, d) (ops, h, vkResetFences f d)
  | cmd_step c ops h d : advance (ResetCmd c :: ops, h, d) (ops, h, d)
  | submit_step s ops h d : advance (Submit s :: ops, h, d) (ops, h, vkQueueSubmit (s h) d)
  | fence_step f ops h d : signaled (view d) f = true -> advance (WaitFence f :: ops, h, d) (ops, h, d)
  | forever_step f ops h d :
      signaled (view d) f = true -> advance (WaitForever f :: ops, h, d) (ops, h, d)
  | timeline_step v ops h d :
      v h <= timeline (view d) -> advance (WaitTimeline v :: ops, h, d) (ops, h, d)
  | idle_step ops h d : pending (view d) = [] -> advance (Idle :: ops, h, d) (ops, h, d)
  | destroy_step ops h d : advance (Destroy :: ops, h, d) (ops, h, d)
  | new_timeline_step ops h d :
      advance (NewTimeline :: ops, h, d) (ops, reset_counters h, newTimelineSemaphore d)
  | new_sync_step ops h d : advance (NewSync :: ops, h, d) (ops, reset_counters h, newSyncObjects d)
  | read_step ops h d : advance (Touch :: ops, h, d) (ops, h, d).

(** A wait that times out: [safeWaitForFences] waits for the device and resets the
    fence, [safeWaitTimelineSemaphore] waits for it and starts with a new semaphore
    and new counters. *)
Inductive timeout : list Op * Host * Device -> list Op * Host * Device -> Prop :=
  | fence_timeout f ops h d : timeout (WaitFence f :: ops, h, d) (Idle :: ResetFence f :: ops, h, d)
  | timeline_timeout v ops h d :
      0 < v h -> timeout (WaitTimeline v :: ops, h, d) (Idle :: NewTimeline :: ops, h, d).

Definition step (c c' : list Op * Host * Device) : Prop := advance c c' \/ timeout c c'.

(** A call that fails throws [V3dVulkanError]; [render] catches it and cleans up. Nearly
    every call is checked: besides the operations themselves (and the endless wait of
    [submitWork]) those that record, map and create between them,
    [vkBeginCommandBuffer], [vkEndCommandBuffer], [vkMapMemory],
    [vkInvalidateMappedMemoryRanges], [vkBindBufferMemory], [vkCreate...]. So an
    exception can come at every point of a frame that has something left to do; what the
    frame has done so far stays done. *)
Inductive throws : list Op * Host * Device -> list Op * Host * Device -> Prop :=
  | call_fails op ops h d : throws (op :: ops, h, d) (cleanup, h, d).

(** Before the first frame: what the constructor creates. *)
Definition fresh (h : Host) (d : Device) : Prop :=
  currentTimelineValue h = 0 /\ computeTimelineValue h = 0 /\ timelineValue h = 0 /\
  pending (view d) = [] /\ timeline (view d) = 0 /\ binary (view d) = false /\
  forall f, signaled (view d) f = true.

(** Frame after frame. *)
Inductive reachable : list Op * Host * Device -> Prop :=
  | start h d : fresh h d -> reachable ([], h, d)
  | next_step c c' : reachable c -> step c c' -> reachable c'
  | next_frame c h d : reachable ([], h, d) -> reachable (render c, h, d).
End Machine.
