(* ===== verification/FrameProtocol.v ===== *)
(** * The protocol of a frame: what every reachable configuration satisfies

    A program logic for the programs of [FrameSync]: [wp ops Q] says that every call of
    [ops] is valid whenever it is reached, that every wait ends, and that [Q] holds
    afterwards, whatever the GPU does meanwhile.  Every piece of
    [HeadlessRenderer::render] has its rule, from and to a state with nothing pending;
    [render_spec] composes them.  The theorems follow for all reachable configurations
    by induction on the steps. *)

From S2P Require Import Prelude FrameSync.
From coqutil Require Import Datatypes.RecordSetters.
Import TriangleBracketNotations.

(** ** A logic for the programs *)

(** Every pending batch will find what it waits for. *)
Fixpoint drains (b : bool) (l : list Submission) : Prop :=
  match l with [] => True | s :: l => (waits s = true -> b = true) /\ drains (after_binary s b) l end.
Definition live (q : Queue) : Prop := drains (binary q) (pending q).

Definition Assn : Type := Host -> Queue -> Prop.

(** [op] is valid whenever it is reached, a wait will end once the queue is empty,
    and [K] holds afterwards, also after a timeout. *)
Definition wp_op (op : Op) (K : Assn) (h : Host) (q : Queue) : Prop :=
  live q /\ forall q', runs q q' ->
    valid op h q' /\
    match op with
    | Act f => K (f h) q'
    | ResetFence f => K h (q_resetFence f q')
    | ResetCmd _ | Destroy | Touch => K h q'
    | Submit s => K h (q_submit (s h) q')
    | WaitFence f =>
        (signaled q' f = true -> K h q') /\
        (pending q' = [] -> signaled q' f = true /\ K h (q_resetFence f q'))
    | WaitForever f =>
        (signaled q' f = true -> K h q') /\ (pending q' = [] -> signaled q' f = true)
    | WaitTimeline v =>
        (v h <= timeline q' -> K h q') /\
        (pending q' = [] -> v h <= timeline q' /\ K (reset_counters h) (q_newTimeline q'))
    | Idle => pending q' = [] -> K h q'
    | NewTimeline => K (reset_counters h) (q_newTimeline q')
    | NewSync => K (reset_counters h) (q_newSync q')
    end.

Fixpoint wp (ops : list Op) (Q : Assn) : Assn :=
  match ops with
  | [] => fun h q => live q /\ forall q', runs q q' -> Q h q'
  | op :: ops => wp_op op (wp ops Q)
  end.

(** ** The queue *)

(** The state when every batch has run. *)
Definition drain (q : Queue) : Queue :=
  mkQueue [] (foldl (fun sig s => after_fence s sig) (signaled q) (pending q))
    (foldl (fun v s => default v (value s)) (timeline q) (pending q)) (final_binary q).

Lemma run_head_inv q q' :
  run_head q = Some q' ->
  exists s rest, pending q = s :: rest /\ (waits s = true -> binary q = true) /\
    q' = mkQueue rest (after_fence s (signaled q)) (default (timeline q) (value s))
           (after_binary s (binary q)).
Proof.
  unfold run_head. destruct (pending q) as [|s rest]; [done|].
  destruct (waits s && negb (binary q)) eqn:E; [done|]. intros [= <-]. exists s, rest.
  split; [done|]. split; [|done]. intros Hw. rewrite Hw in E. by destruct (binary q).
Qed.

Lemma run_head_drain q q' : run_head q = Some q' -> drain q' = drain q.
Proof.
  intros (s & rest & Hp & _ & ->)%run_head_inv. unfold drain, final_binary. rewrite Hp. done.
Qed.
Lemma runs_drain q q' : runs q q' -> drain q' = drain q.
Proof. induction 1 as [|a b c H _ IH]; [done|]. by rewrite IH; apply run_head_drain. Qed.
Lemma drain_empty q : pending q = [] -> drain q = q.
Proof. unfold drain, final_binary. intros Hp. rewrite Hp. destruct q. cbn in *. by rewrite Hp. Qed.

Lemma runs_empty q q' : pending q = [] -> runs q q' -> q' = q.
Proof.
  intros Hp. destruct 1 as [|a b c H _]; [done|]. apply run_head_inv in H as (s & r & H & _). congruence.
Qed.

Lemma live_head q : live q -> pending q <> [] -> exists q', run_head q = Some q'.
Proof.
  unfold live, run_head. destruct (pending q) as [|s l]; [done|]. intros [Hw _] _.
  destruct (waits s), (binary q); eauto. by specialize (Hw eq_refl).
Qed.
Lemma live_run q q' : live q -> run_head q = Some q' -> live q'.
Proof. intros H (s & rest & Hp & _ & ->)%run_head_inv. unfold live in *. rewrite Hp in H. apply H. Qed.
Lemma live_runs q q' : live q -> runs q q' -> live q'.
Proof. intros H R. revert H. induction R as [|a b c H _ IH]; [done|]. intros Hl. by eapply IH, live_run. Qed.

Lemma drains_app b l l' :
  drains b (l ++ l') <-> drains b l /\ drains (foldl (fun b s => after_binary s b) b l) l'.
Proof. revert b. induction l as [|s l IH]; intros b; cbn; [tauto|]. rewrite IH. tauto. Qed.

(** ** Submitting while the queue runs *)

Lemma submit_run s q q' : run_head q = Some q' -> run_head (q_submit s q) = Some (q_submit s q').
Proof.
  intros (s0 & rest & Hp & Hw & ->)%run_head_inv. unfold run_head, q_submit. destruct q as [l sig t b].
  cbn in *. subst l. cbn. destruct (waits s0); [by rewrite Hw|done].
Qed.
Lemma submit_runs s q q' : runs q q' -> runs (q_submit s q) (q_submit s q').
Proof. induction 1; [done|]. eapply rtc_l; [by apply submit_run|done]. Qed.

Lemma submit_valid_run s q q' : submit_valid s q -> run_head q = Some q' -> submit_valid s q'.
Proof.
  intros (Hc & Hf & Hs & Hw & Hv) H. pose proof (run_head_drain _ _ H) as Hd.
  assert (final_binary q' = final_binary q) as Hb by exact (f_equal binary Hd).
  apply run_head_inv in H as (s0 & rest & Hp & _ & Hq).
  assert (pending q' = rest) as Hp' by by rewrite Hq.
  split_and!; [..|by rewrite Hb|by rewrite Hb|].
  - intros c Hin Hx. apply (Hc c Hin). unfold pending_cmd in *. rewrite Hp. rewrite Hp' in Hx.
    by apply Exists_cons_tl.
  - intros f Hfe. destruct (Hf f Hfe) as [Hsig Hn]. unfold pending_fence in *. rewrite Hp in Hn. split.
    + rewrite Hq. cbn [signaled]. unfold after_fence, upd. destruct (fence s0) as [f0|] eqn:Hf0; [|done].
      destruct (decide (f = f0)) as [->|]; [|done]. destruct Hn. by apply Exists_cons_hd.
    + rewrite Hp'. intros Hx. apply Hn. by apply Exists_cons_tl.
  - intros v Hvs. destruct (Hv v Hvs) as [Ht Hl]. rewrite Hp in Hl. inversion Hl; subst.
    split; [|done]. cbn [timeline]. destruct (value s0); cbn in *; lia.
Qed.
Lemma submit_valid_runs s q q' : submit_valid s q -> runs q q' -> submit_valid s q'.
Proof. intros H R. revert H. induction R as [|a b c H _ IH]; [done|]. intros Hs. by eapply IH, submit_valid_run. Qed.

Lemma submit_live s q : live q -> (waits s = true -> final_binary q = true) -> live (q_submit s q).
Proof.
  unfold live, q_submit, final_binary. destruct q as [l sig t b]. cbn. intros Hl Hw.
  apply drains_app. split; [done|]. by split.
Qed.

Lemma pending_cmd_runs c q q' : ~ pending_cmd c q -> runs q q' -> ~ pending_cmd c q'.
Proof.
  intros H R. revert H. induction R as [|a b d H _ IH]; [done|]. intros Hn. apply IH.
  apply run_head_inv in H as (s0 & rest & Hp & _ & ->). intros Hx. apply Hn. unfold pending_cmd in *.
  rewrite Hp. by apply Exists_cons_tl.
Qed.

(** The last batch is done only when all are. *)
Lemma last_fence q q' l s f :
  pending q = l ++ [s] -> Forall (fun s' => fence s' <> Some f) l -> signaled q f = false ->
  runs q q' -> signaled q' f = true -> pending q' = [].
Proof.
  intros Hp Hl Hs R. revert l Hp Hl Hs. induction R as [q|a b c H R IH]; intros l Hp Hl Hs Hsig.
  { by rewrite Hs in Hsig. }
  apply run_head_inv in H as (s0 & rest & Hp' & _ & Hb). rewrite Hp in Hp'. destruct l as [|s1 l].
  - injection Hp' as <- <-. apply (runs_empty b) in R as ->; [by rewrite Hb|by rewrite Hb].
  - injection Hp' as <- <-. inversion Hl; subst. eapply (IH l); [done|done| |done].
    cbn [signaled]. unfold after_fence, upd. destruct (fence s1) eqn:Hf; [|done].
    case_decide; [by subst|done].
Qed.

Lemma last_value q q' l s v :
  pending q = l ++ [s] -> Forall (fun s' => default 0 (value s') < v) l -> timeline q < v ->
  runs q q' -> v <= timeline q' -> pending q' = [].
Proof.
  intros Hp Hl Hs R. revert l Hp Hl Hs. induction R as [q|a b c H R IH]; intros l Hp Hl Hs Hv.
  { lia. }
  apply run_head_inv in H as (s0 & rest & Hp' & _ & Hb). rewrite Hp in Hp'. destruct l as [|s1 l].
  - injection Hp' as <- <-. apply (runs_empty b) in R as ->; [by rewrite Hb|by rewrite Hb].
  - injection Hp' as <- <-. inversion Hl; subst. eapply (IH l); [done|done| |done].
    cbn [timeline]. destruct (value s1); cbn in *; lia.
Qed.

Lemma drained q q' : runs q q' -> pending q' = [] -> q' = drain q.
Proof. intros R Hp. by rewrite <- (runs_drain _ _ R), drain_empty. Qed.

(** ** Rules *)

Lemma wp_runs ops Q h q q' : wp ops Q h q -> runs q q' -> wp ops Q h q'.
Proof.
  intros H R. destruct ops as [|op ops]; cbn [wp] in *.
  - destruct H as [Hl H]. split; [by eapply live_runs|]. intros q'' R'. apply H. by etransitivity.
  - destruct H as [Hl H]. split; [by eapply live_runs|]. intros q'' R'. apply H. by etransitivity.
Qed.

Lemma wp_live ops Q h q : wp ops Q h q -> live q.
Proof. destruct ops; by intros [? _]. Qed.

Lemma wp_op_mono op (K K' : Assn) h q :
  (forall h q, K h q -> K' h q) -> wp_op op K h q -> wp_op op K' h q.
Proof.
  intros HK [Hl H]. split; [done|]. intros q' R. destruct (H q' R) as [Hv Ho]. split; [done|].
  destruct op; intuition auto.
Qed.

Lemma wp_app ops ops' Q h q : wp ops (wp ops' Q) h q -> wp (ops ++ ops') Q h q.
Proof.
  revert h q. induction ops as [|op ops IH]; intros h q; cbn [wp app].
  - intros [_ H]. by apply H.
  - by apply wp_op_mono.
Qed.

Lemma wp_act f ops Q h q : wp ops Q (f h) q -> wp (Act f :: ops) Q h q.
Proof. intros H. split; [by eapply wp_live|]. intros q' R. split; [done|]. by eapply wp_runs. Qed.

Lemma wp_cmd c ops Q h q : ~ pending_cmd c q -> wp ops Q h q -> wp (ResetCmd c :: ops) Q h q.
Proof.
  intros Hc H. split; [by eapply wp_live|]. intros q' R. split; [by eapply pending_cmd_runs|].
  by eapply wp_runs.
Qed.

Lemma wp_submit s ops Q h q :
  live q -> submit_valid (s h) q -> wp ops Q h (q_submit (s h) q) -> wp (Submit s :: ops) Q h q.
Proof.
  intros Hl Hs H. split; [done|]. intros q' R. split; [by eapply submit_valid_runs|].
  eapply wp_runs; [exact H|by apply submit_runs].
Qed.

Section Empty.
Context (q : Queue) (Hp : pending q = []).

Lemma empty_live : live q.
Proof. unfold live. by rewrite Hp. Qed.
Lemma empty_fence f : ~ pending_fence f q.
Proof. unfold pending_fence. rewrite Hp. by intros ?%Exists_nil. Qed.
Lemma empty_cmd c : ~ pending_cmd c q.
Proof. unfold pending_cmd. rewrite Hp. by intros ?%Exists_nil. Qed.

Ltac empty := split; [exact empty_live|]; intros q' ->%(runs_empty _ _ Hp).

Lemma wp_nil (Q : Assn) h : Q h q -> wp [] Q h q.
Proof. intros H. by empty. Qed.
Lemma wp_reset f ops Q h : wp ops Q h (q_resetFence f q) -> wp (ResetFence f :: ops) Q h q.
Proof. intros H. empty. split; [apply empty_fence|done]. Qed.
Lemma wp_idle ops Q h : wp ops Q h q -> wp (Idle :: ops) Q h q.
Proof. intros H. by empty. Qed.
Lemma wp_destroy ops Q h : wp ops Q h q -> wp (Destroy :: ops) Q h q.
Proof. intros H. by empty. Qed.
Lemma wp_touch ops Q h : wp ops Q h q -> wp (Touch :: ops) Q h q.
Proof. intros H. by empty. Qed.
Lemma wp_new_timeline ops Q h :
  wp ops Q (reset_counters h) (q_newTimeline q) -> wp (NewTimeline :: ops) Q h q.
Proof. intros H. by empty. Qed.
Lemma wp_new_sync ops Q h : wp ops Q (reset_counters h) (q_newSync q) -> wp (NewSync :: ops) Q h q.
Proof. intros H. by empty. Qed.
Lemma wp_fence f ops Q h :
  signaled q f = true -> wp ops Q h q -> wp ops Q h (q_resetFence f q) -> wp (WaitFence f :: ops) Q h q.
Proof. intros Hs H H'. by empty. Qed.
Lemma wp_timeline v ops Q h :
  v h <= timeline q -> wp ops Q h q -> wp ops Q (reset_counters h) (q_newTimeline q) ->
  wp (WaitTimeline v :: ops) Q h q.
Proof. intros Hs H H'. by empty. Qed.
End Empty.

(** Waiting for the last batch. *)
Section Last.
Context (q : Queue) (l : list Submission) (s : Submission) (Hlive : live q) (Hp : pending q = l ++ [s]).

Lemma drain_fence f : fence s = Some f -> signaled (drain q) f = true.
Proof.
  intros Hf. unfold drain. cbn [signaled]. rewrite Hp, foldl_app. cbn [foldl].
  unfold after_fence at 1, upd. rewrite Hf. by rewrite decide_True.
Qed.
Lemma drain_value v : value s = Some v -> timeline (drain q) = v.
Proof. intros Hv. unfold drain. cbn [timeline]. rewrite Hp, foldl_app. cbn [foldl]. by rewrite Hv. Qed.

Lemma wp_fence_last f ops Q h :
  fence s = Some f -> Forall (fun s' => fence s' <> Some f) l -> signaled q f = false ->
  wp ops Q h (drain q) -> wp ops Q h (q_resetFence f (drain q)) -> wp (WaitFence f :: ops) Q h q.
Proof.
  intros Hf Hl Hs H H'. split; [done|]. intros q' R. split; [done|]. split.
  - intros Hsig. rewrite (drained q q') by (done || by eapply last_fence). done.
  - intros Hp'. rewrite (drained q q') by done. split; [by apply drain_fence|done].
Qed.

Lemma wp_forever_last f ops Q h :
  fence s = Some f -> Forall (fun s' => fence s' <> Some f) l -> signaled q f = false ->
  wp ops Q h (drain q) -> wp (WaitForever f :: ops) Q h q.
Proof.
  intros Hf Hl Hs H. split; [done|]. intros q' R. split; [done|]. split.
  - intros Hsig. rewrite (drained q q') by (done || by eapply last_fence). done.
  - intros Hp'. rewrite (drained q q') by done. by apply drain_fence.
Qed.

Lemma wp_timeline_last v ops Q h :
  value s = Some (v h) -> Forall (fun s' => default 0 (value s') < v h) l -> timeline q < v h ->
  wp ops Q h (drain q) -> wp ops Q (reset_counters h) (q_newTimeline (drain q)) ->
  wp (WaitTimeline v :: ops) Q h q.
Proof.
  intros Hf Hl Hs H H'. split; [done|]. intros q' R. split; [done|]. split.
  - intros Hv. rewrite (drained q q') by (done || by eapply last_value). done.
  - intros Hp'. rewrite (drained q q') by done. rewrite (drain_value (v h)) by done. done.
Qed.
End Last.

(** ** Programs of a frame *)

(** What holds of the queue and the counters when nothing is pending. *)
Record quiet (h : Host) (q : Queue) : Prop := mkQuiet {
  quiet_pending : pending q = [];
  quiet_binary : binary q = false;
  quiet_timeline : timeline q = currentTimelineValue h;
  quiet_compute : 0 <= computeTimelineValue h <= currentTimelineValue h;
  quiet_frame : 0 <= timelineValue h <= currentTimelineValue h
}.
(** Between two frames. *)
Definition Inv : Assn := fun h q => quiet h q /\ signaled q TransferFence = true.

Lemma quiet_reset f h q : quiet h q -> quiet h (q_resetFence f q).
Proof. intros []. by constructor. Qed.
Lemma quiet_new_timeline h q : quiet h q -> quiet (reset_counters h) (q_newTimeline q).
Proof. intros []. constructor; cbn; (done || lia). Qed.
Lemma quiet_new_sync h q : quiet h q -> quiet (reset_counters h) (q_newSync q).
Proof. intros []. constructor; cbn; (done || lia). Qed.
Lemma quiet_flag b h q : quiet h q -> quiet (h <| transferHasPendingWork := b |>) q.
Proof. intros []. by constructor. Qed.
Lemma reset_other f g q : g <> f -> signaled (q_resetFence f q) g = signaled q g.
Proof. intros Hg. cbn. unfold upd. by rewrite decide_False. Qed.
Lemma reset_same f q : signaled (q_resetFence f q) f = false.
Proof. cbn. unfold upd. by rewrite decide_True. Qed.
#[local] Hint Resolve quiet_reset quiet_new_timeline quiet_new_sync quiet_flag quiet_pending : core.

Section Pieces.
Context (rest : list Op) (Q : Assn).

Lemma wait_spec v h q :
  quiet h q -> v h <= currentTimelineValue h ->
  (forall h' q', quiet h' q' -> signaled q' = signaled q -> wp rest Q h' q') ->
  wp (WaitTimeline v :: rest) Q h q.
Proof.
  intros Hq Hv K. apply wp_timeline; [by apply Hq|by rewrite (quiet_timeline _ _ Hq)|by apply K|].
  apply K; [by apply quiet_new_timeline|done].
Qed.

Lemma begin_spec h q :
  quiet h q -> signaled q TransferFence = true ->
  (forall q', quiet h q' -> (forall f, f <> TransferFence -> signaled q' f = signaled q f) ->
     wp rest Q (h <| transferHasPendingWork := false |>) q') ->
  wp (beginTransferRecording ++ rest) Q h q.
Proof.
  intros Hq Hs K. cbn [beginTransferRecording app]. apply wp_act.
  assert (forall q', quiet h q' -> (forall f, f <> TransferFence -> signaled q' f = signaled q f) ->
    wp (ResetFence TransferFence :: ResetCmd TransferCmd :: rest) Q
      (h <| transferHasPendingWork := false |>) q') as W.
  { intros q' Hq' Hs'. apply wp_reset; [by apply Hq'|]. apply wp_cmd; [apply empty_cmd, Hq'|].
    apply K; [eauto|]. intros f Hf. cbn [q_resetFence signaled]. unfold q_resetFence, upd. cbn.
    rewrite decide_False by done. auto. }
  apply wp_fence; [by apply Hq|done|by apply W|]. apply W; [eauto|].
  intros f Hf. by apply reset_other.
Qed.

Lemma record_spec u h q :
  quiet h q -> transferHasPendingWork h = false ->
  (forall h', quiet h' q -> transferHasPendingWork h' = u ->
     currentTimelineValue h' = currentTimelineValue h -> wp rest Q h' q) ->
  wp (record u ++ rest) Q h q.
Proof.
  intros Hq Hf K. destruct u; cbn [record app]; [|by apply K].
  apply wp_act, wp_destroy; [by apply Hq|]. apply wp_touch; [by apply Hq|]. apply K; [eauto|done|done].
Qed.

Lemma copy_spec z h q : pending q = [] -> wp rest Q h q -> wp (recordCopyToHost z ++ rest) Q h q.
Proof. intros Hp W. destruct z; [by apply wp_destroy|done]. Qed.

Lemma cleanup_spec h q :
  quiet h q ->
  (forall h' q', quiet h' q' -> (forall f, signaled q' f = true) -> wp rest Q h' q') ->
  wp (cleanup ++ rest) Q h q.
Proof.
  intros Hq K. cbn [cleanup app]. apply wp_destroy; [by apply Hq|]. apply wp_idle; [by apply Hq|].
  apply wp_new_timeline; [by apply Hq|]. apply wp_new_sync; [by apply Hq|]. by apply K; auto.
Qed.

(** A transfer and the batch that waits for what it uploads: afterwards they are the
    pending batches, and the counter is that of the second. *)
Lemma handoff_spec f m h q (v := currentTimelineValue h + 1) :
  quiet h q ->
  TransferCmd ∉ commands m -> waits m = transferHasPendingWork h -> signals m = false ->
  value m = Some v -> (forall e, fence m = Some e -> e <> TransferFence /\ signaled q e = false) ->
  (forall q', pending q' = [mkSubmission [TransferCmd] false (waits m) None (Some TransferFence); m] ->
     binary q' = false -> timeline q' = currentTimelineValue h ->
     (forall e, e <> TransferFence -> signaled q' e = signaled q e) ->
     live q' -> wp rest Q (f h) q') ->
  forall s, s (f h) = m ->
  wp (endAndSubmitTransfers ++ [Act f; Submit s] ++ rest) Q h q.
Proof.
  intros Hq Hc Hw Hs Hv Hf K s Hm. pose proof Hq as [Hp Hb Ht Hcv Hfv].
  cbn [endAndSubmitTransfers app]. apply wp_reset; [done|].
  assert (live (q_resetFence TransferFence q)) as L by (by apply empty_live).
  apply wp_submit; [done|..].
  { split_and!; [intros; by apply empty_cmd| | |done|done].
    - intros e [= <-]. split; [apply reset_same|by apply empty_fence].
    - intros _. unfold final_binary. by rewrite (Hp : pending (q_resetFence _ q) = []). }
  apply wp_act. rewrite <- Hw. set (q1 := q_submit _ _).
  assert (pending q1 = [mkSubmission [TransferCmd] false (waits m) None (Some TransferFence)]) as Hp1
    by (unfold q1; by rewrite pending_submit, pending_reset, Hp).
  assert (final_binary q1 = waits m) as Hb1.
  { unfold final_binary. rewrite Hp1. transitivity (waits m || (binary q && true)); [done|].
    rewrite Hb. by destruct (waits m). }
  assert (live q1) as L1 by (apply submit_live; [done|done]).
  assert (submit_valid m q1) as V.
  { split_and!; [..|by rewrite Hs|by rewrite Hb1|].
    - intros c Hin. unfold pending_cmd. rewrite Hp1, Exists_cons, Exists_nil. cbn.
      rewrite list_elem_of_singleton. intros [->|[]]. done.
    - intros e He. destruct (Hf e He) as [Hne Hsig]. split.
      + transitivity (signaled (q_resetFence TransferFence q) e); [done|]. by rewrite reset_other.
      + unfold pending_fence. rewrite Hp1, Exists_cons, Exists_nil. cbn. intros [[= <-]|[]]. done.
    - intros v' [= <-]%(eq_trans (eq_sym Hv)). split; [change (timeline q < v); lia|]. rewrite Hp1.
      constructor; [cbn; lia|done]. }
  apply wp_submit; [done|by rewrite Hm|]. rewrite Hm. apply K.
  - by rewrite pending_submit, Hp1.
  - done.
  - done.
  - intros e He. transitivity (signaled (q_resetFence TransferFence q) e); [done|]. by apply reset_other.
  - apply submit_live; [done|]. by rewrite Hb1.
Qed.

(** [drain] of the two batches of [handoff_spec]. *)
Lemma drain_handoff m q l (t := mkSubmission l false (waits m) None (Some TransferFence)) :
  pending q = [t; m] -> binary q = false -> signals m = false ->
  binary (drain q) = false /\ pending (drain q) = [] /\
  signaled (drain q) TransferFence = true /\
  (forall v, value m = Some v -> timeline (drain q) = v).
Proof.
  intros Hp Hb Hs. unfold drain, final_binary. rewrite Hp, Hb. cbn. split_and!; [|done|..].
  - unfold after_binary. cbn. rewrite Hs. by destruct (waits m).
  - unfold after_fence. cbn. unfold upd. destruct (fence m); repeat case_decide; congruence.
  - by intros v ->.
Qed.

Lemma submitWork_spec h q :
  quiet h q ->
  (forall q', quiet h q' -> signaled q' TransferFence = signaled q TransferFence -> wp rest Q h q') ->
  wp (submitWork ++ rest) Q h q.
Proof.
  intros Hq K. pose proof Hq as [Hp Hb Ht Hcv Hfv]. cbn [submitWork app]. apply wp_reset; [done|].
  set (s := mkSubmission [WorkCmd] false false None (Some WorkFence)).
  set (q0 := q_resetFence WorkFence q).
  assert (pending q0 = []) as Hp0 by done.
  assert (live q0) as L by by apply empty_live.
  assert (pending (q_submit s q0) = [] ++ [s]) as Hp1.
  { by rewrite pending_submit, Hp0. }
  apply wp_submit; [done|..].
  { split_and!; [intros; by apply empty_cmd| |done|done|done].
    intros e [= <-]. split; [apply reset_same|by apply empty_fence]. }
  assert (live (q_submit s q0)) as L1 by by apply submit_live.
  apply (wp_forever_last _ [] s L1 Hp1); [done|done|apply reset_same|].
  apply K.
  - constructor; [done| | |done|done]; unfold drain, final_binary; rewrite Hp1; [|done].
    transitivity (binary q && true); [done|by rewrite Hb].
  - unfold drain. rewrite Hp1. reflexivity.
Qed.
End Pieces.

Lemma works_spec rest Q n h q :
  quiet h q ->
  (forall q', quiet h q' -> signaled q' TransferFence = signaled q TransferFence -> wp rest Q h q') ->
  wp (concat (replicate n submitWork) ++ rest) Q h q.
Proof.
  revert q. induction n as [|n IH]; intros q Hq K; cbn [replicate concat app].
  - by apply K.
  - rewrite <- app_assoc. apply submitWork_spec; [done|]. intros q1 Hq1 E1. apply IH; [done|].
    intros q2 Hq2 E2. apply K; [done|congruence].
Qed.

Section Passes.
Context (rest : list Op) (Q : Assn).

Lemma updateIBL_spec o h q :
  Inv h q -> (forall q', Inv h q' -> wp rest Q h q') -> wp (updateIBL o ++ rest) Q h q.
Proof.
  intros [Hq Hs] K. destruct o as [n|]; cbn [updateIBL app]; [|by apply K].
  apply wp_idle; [eauto|]. apply wp_destroy; [eauto|]. apply works_spec; [done|].
  intros q' Hq' E. apply K. split; [done|congruence].
Qed.

Lemma recreate_spec b n h q :
  Inv h q -> (forall h' q', Inv h' q' -> wp rest Q h' q') -> wp (recreate b n ++ rest) Q h q.
Proof.
  intros [Hq Hs] K. unfold recreate. cbn [app]. apply wp_idle; [eauto|]. rewrite <- app_assoc.
  assert (forall h' q', Inv h' q' -> wp (concat (replicate n submitWork) ++ rest) Q h' q') as W.
  { intros h' q' [Hq' Hs']. apply works_spec; [done|]. intros q'' Hq'' E. apply K. split; [done|congruence]. }
  destruct b; [|by apply W]. rewrite <- app_assoc. apply cleanup_spec; [done|]. intros h' q' Hq' Hs'.
  apply wp_destroy; [eauto|]. by apply W.
Qed.

End Passes.

Section Stages.
Context (rest : list Op) (Q : Assn).

Lemma enter_spec e h q :
  Inv h q -> (forall h' q', Inv h' q' -> wp rest Q h' q') -> wp (enter e ++ rest) Q h q.
Proof.
  intros HI K. pose proof HI as [Hq Hs]. destruct e as [| |b n|b|b n]; cbn [enter app].
  - apply wait_spec; [done|apply Hq|]. intros h' q' Hq' E. apply K. split; [done|by rewrite E].
  - apply wp_idle; [eauto|]. apply wp_destroy; [eauto|]. by apply K.
  - by apply recreate_spec.
  - by apply recreate_spec.
  - rewrite <- app_assoc. apply recreate_spec; [done|]. intros h' q' [Hq' _]. apply cleanup_spec; [done|]. intros. by apply K; split.
Qed.

(** [refreshBuffers] leaves two batches, the second with the fence that
    [readFeedback] waits for. *)
Lemma refreshBuffers_spec u g h q :
  Inv h q -> (forall h' q', Inv h' q' -> wp rest Q h' q') ->
  wp (refreshBuffers u ++ readFeedback g ++ rest) Q h q.
Proof.
  intros [Hq Hs] K. unfold refreshBuffers. rewrite <- !app_assoc. cbn [app].
  apply wait_spec; [done|apply Hq|]. intros h1 q1 Hq1 E1. apply wp_reset; [eauto|].
  apply begin_spec; [eauto|rewrite reset_other, E1 by done; done|].
  intros q2 Hq2 E2. apply wp_cmd; [apply empty_cmd; eauto|].
  apply record_spec; [eauto|done|]. intros h3 Hq3 Hu Hc3. apply wp_cmd; [apply empty_cmd; eauto|].
  eapply (handoff_spec _ _ _ (mkSubmission [CountCmd; ComputeCmd] (transferHasPendingWork h3) false
    (Some (currentTimelineValue h3 + 1)) (Some ComputeFence))); try done.
  { cbn. rewrite ?not_elem_of_cons. split_and?; [done..|apply not_elem_of_nil]. }
  { intros e [= <-]. split; [done|]. rewrite E2 by done. apply reset_same. }
  intros q4 Hp4 Hb4 Ht4 Hf4 L4. cbn [waits] in Hp4.
  destruct (drain_handoff (mkSubmission [CountCmd; ComputeCmd] (transferHasPendingWork h3) false
    (Some (currentTimelineValue h3 + 1)) (Some ComputeFence)) q4 _ Hp4 Hb4 eq_refl) as (Db & Dp & Df & Dt).
  set (h4 := mkHost _ _ _ _).
  assert (quiet h4 (drain q4)) as Hq4.
  { destruct Hq3. constructor; cbn; [done|done|by apply Dt|lia|lia]. }
  assert (forall q', quiet h4 q' -> signaled q' TransferFence = true ->
    wp (Touch :: match g with Enough => [] | _ => [Destroy] end ++ rest) Q h4 q') as W.
  { intros q' Hq' Hs'. apply wp_touch; [eauto|]. destruct g; cbn [app]; try (apply wp_destroy; [eauto|]);
      by apply K. }
  cbn [readFeedback app].
  eapply (wp_fence_last q4 [_] _ L4 Hp4); [done| | |by apply W|apply W; [eauto|]].
  - by constructor.
  - rewrite Hf4, E2 by done. apply reset_same.
  - by rewrite reset_other.
Qed.

Lemma graphicsPass_spec u z h q :
  Inv h q -> (forall h' q', Inv h' q' -> wp rest Q h' q') -> wp (graphicsPass u z ++ rest) Q h q.
Proof.
  intros [Hq Hs] K. unfold graphicsPass. rewrite <- !app_assoc. cbn [app].
  apply begin_spec; [done|done|]. intros q2 Hq2 E2. apply wp_cmd; [apply empty_cmd; eauto|].
  apply record_spec; [eauto|done|]. intros h3 Hq3 Hu Hc3. apply copy_spec; [eauto|].
  eapply (handoff_spec _ _ _ (mkSubmission [MainCmd] (transferHasPendingWork h3) false
    (Some (currentTimelineValue h3 + 1)) None)); try done.
  { cbn. rewrite ?not_elem_of_cons. split_and?; [done..|apply not_elem_of_nil]. }
  intros q4 Hp4 Hb4 Ht4 Hf4 L4. cbn [waits] in Hp4.
  destruct (drain_handoff (mkSubmission [MainCmd] (transferHasPendingWork h3) false
    (Some (currentTimelineValue h3 + 1)) None) q4 _ Hp4 Hb4 eq_refl) as (Db & Dp & Df & Dt).
  apply wp_act. set (h4 := _ <| timelineValue := _ |>).
  assert (quiet h4 (drain q4)) as Hq4.
  { destruct Hq3 as [_ _ _ Hcv Hfv]. constructor; [done|done|by apply Dt| |].
    - change (0 <= computeTimelineValue h3 <= currentTimelineValue h3 + 1). lia.
    - change (0 <= currentTimelineValue h3 + 1 <= currentTimelineValue h3 + 1). lia. }
  assert (forall h' q', quiet h' q' -> signaled q' TransferFence = true -> wp (Touch :: rest) Q h' q') as W.
  { intros h' q' Hq' Hs'. apply wp_touch; [eauto|]. by apply K. }
  eapply (wp_timeline_last q4 [_] _ L4 Hp4); [done| | |by apply W|by apply W; auto].
  - constructor; [|done]. change (0 < currentTimelineValue h3 + 1). destruct Hq3. lia.
  - rewrite Ht4. change (currentTimelineValue h3 < currentTimelineValue h3 + 1). lia.
Qed.
End Stages.

Lemma render_spec c h q : Inv h q -> wp (render c) Inv h q.
Proof.
  intros HI. assert (forall h q, Inv h q -> wp [] Inv h q) as W
    by (intros h' q' HI'; apply wp_nil; [apply HI'|done]).
  unfold render. apply enter_spec; [done|]. intros h1 q1 H1. destruct (entry c); try by apply W.
  all: apply updateIBL_spec; [done|]; intros q2 H2; cbn [app]; apply wp_touch; [apply H2|].
  all: destruct (opaque c); [rewrite <- (app_nil_r (graphicsPass _ _)); by apply graphicsPass_spec|].
  all: apply refreshBuffers_spec; [done|]; intros h3 q3 H3; destruct (growth c).
  all: try (rewrite <- (app_nil_r (graphicsPass _ _)); by apply graphicsPass_spec).
  all: rewrite <- (app_nil_r cleanup); apply cleanup_spec; [apply H3|]; intros; apply W; by split.
Qed.

(** ** Every reachable configuration *)

Section Sound.
Context `{vk : Vulkan} `{!VulkanOk}.

Definition fits (c : list Op * Host * Device) : Prop := wp c.1.1 Inv c.1.2 (view c.2).

(** What a wait leaves to prove when it has timed out. *)
Lemma fence_timeout_fits f ops Q h q :
  wp (WaitFence f :: ops) Q h q -> wp (Idle :: ResetFence f :: ops) Q h q.
Proof.
  intros [L W]. split; [done|]. intros q' R. split; [done|]. intros Hp.
  apply wp_reset; [done|]. by apply W.
Qed.
Lemma timeline_timeout_fits v ops Q h q :
  wp (WaitTimeline v :: ops) Q h q -> wp (Idle :: NewTimeline :: ops) Q h q.
Proof.
  intros [L W]. split; [done|]. intros q' R. split; [done|]. intros Hp.
  apply wp_new_timeline; [done|]. by apply W.
Qed.

Lemma advance_fits c c' : fits c -> advance c c' -> fits c'.
Proof.
  unfold fits. intros W A.
  destruct A as [ops h d d' E|f ops h d|f ops h d|c ops h d|s ops h d|f ops h d Hs|f ops h d Hs
    |v ops h d Hv|ops h d Hp|ops h d|ops h d|ops h d|ops h d]; cbn [fst snd] in *.
  { eapply wp_runs; [exact W|]. apply rtc_once. by apply executes_view. }
  all: destruct W as [L W]; specialize (W _ (rtc_refl _ _)) as [V W].
  - done.
  - by rewrite reset_view.
  - done.
  - by rewrite submit_view.
  - by apply W.
  - by apply W.
  - by apply W.
  - by apply W.
  - done.
  - by rewrite timeline_view.
  - by rewrite sync_view.
  - done.
Qed.

Lemma step_fits c c' : fits c -> step c c' -> fits c'.
Proof.
  intros W [A|T]; [by eapply advance_fits|]. destruct T; unfold fits in *; cbn [fst snd] in *.
  - by apply fence_timeout_fits.
  - by eapply timeline_timeout_fits.
Qed.

Lemma fresh_Inv h d : fresh h d -> Inv h (view d).
Proof.
  intros (Hc & Hk & Ht & Hp & Hl & Hb & Hs). split; [|done]. constructor; [done|done|congruence|lia|lia].
Qed.

Lemma reachable_fits c : reachable c -> fits c.
Proof.
  induction 1 as [h d F|c c' R IH S|c h d R IH]; [|by eapply step_fits|].
  - pose proof (fresh_Inv _ _ F) as HI. apply wp_nil; [apply HI|done].
  - apply render_spec. destruct IH as [_ IH]. by apply IH.
Qed.

(** Steps left: those of the host, and those of the GPU, one for each batch that is
    pending or still to be submitted. *)
Definition weight (op : Op) : nat :=
  match op with Submit _ => 2 | WaitFence _ | WaitTimeline _ => 3 | _ => 1 end.
Definition left (c : list Op * Host * Device) : nat :=
  sum_list_with weight c.1.1 + length (pending (view c.2)).

Lemma step_left c c' : step c c' -> (left c' < left c)%nat.
Proof.
  unfold left. intros [A|T]; [destruct A as [ops h d d' E| | | | | | | | | | | |]|destruct T];
    cbn [fst snd sum_list_with weight]; rewrite ?reset_view, ?submit_view, ?timeline_view, ?sync_view.
  { assert (run_head (view d) = Some (view d')) as (s & rest & -> & _ & ->)%run_head_inv
      by by apply executes_view. cbn. lia. }
  all: rewrite ?pending_reset, ?pending_submit, ?length_app; cbn [length]; try lia.
  all: change (pending (q_newTimeline (view d))) with (pending (view d)) ||
       change (pending (q_newSync (view d))) with (pending (view d)); lia.
Qed.

Lemma step_wf c : Acc (fun c' c => step c c') c.
Proof.
  remember (left c) as n eqn:E. revert c E. induction (lt_wf n) as [n _ IH]. intros c ->.
  constructor. intros c' S%step_left. by eapply IH.
Qed.

(** Whoever waits waits for the GPU, which can go on. *)
Lemma fits_progress ops h d : fits (ops, h, d) -> ops <> [] -> exists c, advance (ops, h, d) c.
Proof.
  intros W Hne. pose proof (wp_live _ _ _ _ W) as L. cbn [fst snd] in L.
  destruct (decide (pending (view d) = [])) as [Hp|Hp].
  - destruct ops as [|op ops]; [done|]. destruct W as [_ W].
    specialize (W _ (rtc_refl _ _)) as [V W]. cbn [fst snd] in *.
    destruct op; eexists; try (by constructor); constructor; by apply W.
  - destruct (live_head _ L Hp) as [q Hq]. destruct (executes_live _ _ Hq) as [d' E].
    eexists. by apply gpu_step.
Qed.
End Sound.

(** C7: whatever the pace of the GPU and however many waits time out, in every frame
    after every other each call of [HeadlessRenderer::render] finds the queue as it
    must: no fence is reset and no command buffer recorded while a batch uses it, every
    batch is submitted with an unsignaled fence, a semaphore that can be signaled or
    waited for and a greater timeline value, nothing that frames use is destroyed and no
    mapped memory written or read (the pixels) before the batches that use it are done;
    and after a frame nothing is pending. *)
Theorem protocol_valid `{vk : Vulkan} `{!VulkanOk} ops h d :
  reachable (ops, h, d) ->
  match ops with
  | op :: _ => valid op h (view d)
  | [] => pending (view d) = [] /\ timeline (view d) = currentTimelineValue h
  end.
Proof.
  intros W%reachable_fits. destruct ops as [|op ops]; destruct W as [L W]; cbn [fst snd] in *.
  - destruct (W _ (rtc_refl _ _)) as [[] _]. done.
  - by destruct (W _ (rtc_refl _ _)) as [V _].
Qed.

(** C8: a frame never hangs and always ends: from every configuration that can be reached
    there are only finitely many steps, of the renderer, of the GPU and of timeouts, and
    as long as the frame has not ended there is one that is not a timeout. *)
Theorem frame_completes `{vk : Vulkan} `{!VulkanOk} ops h d :
  reachable (ops, h, d) ->
  Acc (fun c' c => step c c') (ops, h, d) /\
  (ops <> [] -> exists c, advance (ops, h, d) c) /\
  (exists h' d', rtc advance (ops, h, d) ([], h', d')).
Proof.
  intros W%reachable_fits. split; [apply step_wf|]. split; [by apply fits_progress|].
  revert W. generalize (ops, h, d) as c. intros c W.
  induction (step_wf c) as [[[[|op ops'] h'] d'] _ IH].
  - by exists h', d'.
  - destruct (fits_progress _ _ _ W) as [c' S]; [done|].
    destruct (IH c') as (h'' & d'' & R); [by left|by eapply advance_fits|].
    exists h'', d''. by eapply rtc_l.
Qed.

(** Waiting first makes [cleanup] safe wherever it starts. *)
Lemma idle_cleanup_spec h q : live q -> wp (Idle :: cleanup) Inv h q.
Proof.
  intros L. split; [done|]. intros q' R. split; [done|]. intros Hp.
  change (wp cleanup Inv h q'). cbn [cleanup].
  apply wp_destroy; [done|]. apply wp_idle; [done|]. apply wp_new_timeline; [done|].
  apply wp_new_sync; [done|]. apply wp_nil; [done|]. split; [|done]. constructor; cbn; (done || lia).
Qed.

(** ** A queue that is its own device *)

#[export] Instance queue_vulkan : Vulkan := {
  Device := Queue; view := fun q => q; vkQueueSubmit := q_submit; vkResetFences := q_resetFence;
  newTimelineSemaphore := q_newTimeline; newSyncObjects := q_newSync;
  executes := fun q q' => run_head q = Some q'
}.
#[export] Instance queue_vulkan_ok : VulkanOk.
Proof. constructor; try done. intros d q E. by exists q. Qed.

Definition host0 : Host := mkHost 0 0 0 false.
Definition queue0 : Queue := mkQueue [] (fun _ => true) 0 false.
Definition first_frame : FrameCase := mkCase (Recreate false 2) (Some 1%nat) false true true true Grown.

Lemma fresh0 : fresh host0 queue0.
Proof. by split_and!. Qed.
Lemma first_reachable c : reachable (vk := queue_vulkan) (render c, host0, queue0).
Proof. exact (next_frame (vk := queue_vulkan) c host0 queue0 (start _ _ fresh0)). Qed.

Lemma protocol_valid_witness :
  exists op ops, render first_frame = op :: ops /\ valid op host0 queue0.
Proof.
  exists Idle, (tl (render first_frame)). split; [reflexivity|].
  exact (protocol_valid (Idle :: tl (render first_frame)) host0 queue0 (first_reachable first_frame)).
Defined.

Lemma frame_completes_witness :
  exists h d, rtc (advance (vk := queue_vulkan)) (render first_frame, host0, queue0) ([], h, d).
Proof. exact (proj2 (proj2 (frame_completes _ _ _ (first_reachable first_frame)))). Defined.

(** What the host does next. *)
Definition host_step (c : list Op * Host * Queue) : option (list Op * Host * Queue) :=
  match c with
  | (op :: ops, h, q) =>
      match op with
      | Act f => Some (ops, f h, q)
      | ResetFence f => Some (ops, h, q_resetFence f q)
      | Submit s => Some (ops, h, q_submit (s h) q)
      | WaitFence f | WaitForever f => if signaled q f then Some (ops, h, q) else None
      | WaitTimeline v => if v h <=? timeline q then Some (ops, h, q) else None
      | Idle => if bool_decide (pending q = []) then Some (ops, h, q) else None
      | ResetCmd _ | Destroy | Touch => Some (ops, h, q)
      | NewTimeline => Some (ops, reset_counters h, q_newTimeline q)
      | NewSync => Some (ops, reset_counters h, q_newSync q)
      end
  | _ => None
  end.

Lemma host_step_advance c c' : host_step c = Some c' -> advance (vk := queue_vulkan) c c'.
Proof.
  destruct c as [[[|op ops] h] q]; [done|]. destruct op; cbn; repeat case_match; intros [= <-];
    by constructor; rewrite ?Z.leb_le, ?bool_decide_eq_true in *.
Qed.

(** The host goes on as long as it can; where it waits, the GPU executes a batch. *)
Definition next (c : list Op * Host * Queue) : option (list Op * Host * Queue) :=
  match host_step c with
  | Some c' => Some c'
  | None => (fun q => (c.1, q)) <$> run_head c.2
  end.

Lemma next_advance c c' : next c = Some c' -> advance (vk := queue_vulkan) c c'.
Proof.
  unfold next. destruct (host_step c) eqn:E; [intros [= <-]; by apply host_step_advance|].
  destruct c as [[ops h] q]. intros (q' & E' & ->)%fmap_Some. by apply (gpu_step (vk := queue_vulkan)).
Qed.

Lemma nexts_reachable n c c' :
  Nat.iter n (fun o => o ≫= next) (Some c) = Some c' ->
  reachable (vk := queue_vulkan) c -> reachable (vk := queue_vulkan) c'.
Proof.
  revert c'. induction n as [|n IH]; intros c' E R; cbn in E; [by simplify_eq|].
  apply bind_Some in E as (c1 & E1 & E2). eapply next_step; [by apply (IH c1)|].
  left. by apply next_advance.
Qed.

(** The first frame of an opaque model, up to its last submission. *)
Definition failing_frame : FrameCase :=
  mkCase (Recreate false 2) None true false true true Enough.
Definition failing : option (list Op * Host * Queue) :=
  Nat.iter 22 (fun o => o ≫= next) (Some (render failing_frame, host0, queue0)).

Lemma failing_main :
  match failing with
  | Some (Submit s :: _, h, q) =>
      commands (s h) = [MainCmd] /\ exists t, pending q = [t] /\ commands t = [TransferCmd]
  | _ => False
  end.
Proof. vm_compute. eauto. Qed.

(** C40: An exception in a frame reaches [cleanup], whose first step destroys what
    frames use and whose second waits for the device: so the destruction is valid
    exactly when nothing happens to be pending. If the submission of the main batch
    fails while the transfers of the frame run, it is not: there is a session in which
    the batch of the transfers is still pending at that point. Waiting first would be
    enough: from every configuration of every session in which a call of [render] can
    fail, between any two of its operations, each step would then be valid up to a state
    in which a frame can start. *)
Theorem exception_destroys_pending :
  (exists main rest transfer h q,
     reachable (vk := queue_vulkan) (Submit main :: rest, h, q) /\
     commands (main h) = [MainCmd] /\
     pending q = [transfer] /\ commands transfer = [TransferCmd] /\
     throws (vk := queue_vulkan) (Submit main :: rest, h, q) (cleanup, h, q) /\
     ~ valid Destroy h q) /\
  (forall (vk : Vulkan), VulkanOk -> forall c c', reachable c -> throws c c' ->
     exists h d, c' = (Destroy :: Idle :: [NewTimeline; NewSync], h, d) /\
       (valid Destroy h (view d) <-> pending (view d) = []) /\
       fits (Idle :: c'.1.1, c'.1.2, c'.2)).
Proof.
  split.
  - pose proof failing_main as F.
    destruct failing as [[[[|[| | |main | | | | | | | |] rest] h] q]|] eqn:E; try done.
    destruct F as (Hm & t & Hp & Ht). exists main, rest, t, h, q.
    split; [by eapply (nexts_reachable 22 _ _ E), first_reachable|].
    split_and!; [done..|constructor|]. cbn. by rewrite Hp.
  - intros vk Hvk c c' R T. pose proof (wp_live _ _ _ _ (reachable_fits _ R)) as L.
    destruct T. eexists _, _. split; [reflexivity|]. split; [done|]. by apply idle_cleanup_spec.
Qed.
