(* ===== verification/Manager.v ===== *)
(** * The model manager: state, documents and request caches

    [v3d-Common/V3dModelManager.{h,cpp}], first part: the members of
    [V3dModelManager], the world it reads (clock, widgets, document), the
    effects it has outside itself, and the operations that fill and empty it:
    [AddModel], [Model], [ModelBoundsSnapshot], [Empty], the cached images,
    [SetDocument], [Clear] and the request and page caches.

    A [std::vector<V3dModel>] is the list of its elements together with the
    number of times its buffer was reallocated ([m_Reallocs]): a pointer to an
    element is good as long as that number is the one it was taken at. *)

From Stdlib Require Import Floats.SpecFloat.
From S2P Require Import Prelude Ieee Xstream Bound V3dData IblName IblPath Renderer Model.
From coqutil Require Export Datatypes.RecordSetters.
Export TriangleBracketNotations.

Notation "' p <~ o ;; k" := (obind o (fun x => match x with p => k end))
  (at level 20, p pattern, o at level 99, k at level 200, only parsing) : v3d_scope.

(** ** What the manager relies on *)

(** Qt's images: a fresh image filled with one colour, one built from a pixel
    buffer, and a scaled copy. *)
Inductive format := Format_ARGB32 | Format_RGB32.
Class Images := {
  QImage : Type;
  null_image : QImage;
  isNull : QImage -> bool;
  img_width : QImage -> Z;
  img_height : QImage -> Z;
  filled : Z -> Z -> format -> Z * Z * Z -> QImage;
  of_pixels : Z -> Z -> list Byte.byte -> QImage;
  scaled : Z -> Z -> QImage -> QImage
}.

(** Growth of a [std::vector]: whether [emplace_back] onto a vector of that many
    elements moves them to a new buffer. *)
Class Growth := grows : nat -> bool.

(** A rectangle of [Okular::NormalizedRect]. *)
Record rect := mkRect { rleft : float64; rtop : float64; rright : float64; rbottom : float64 }.

(** Widgets, screens, observers, pages and documents are known by identity. *)
Definition object : Type := Z.

Record World := mkWorld {
  now : Z;                                  (* system_clock::now(), in nanoseconds *)
  alive : object -> bool;                   (* not destroyed *)
  active_window : option object;
  top_windows : list object;                (* topLevelWidgets *)
  all_widgets : list object;
  children : object -> list object;         (* findChildren<QWidget*> *)
  part_urls : object -> list string;        (* urls of the window's KParts::Parts *)
  is_pageview : object -> bool;             (* inherits("PageView"), a scroll area *)
  document_url : object -> string;          (* currentDocument; empty: no url *)
  widget_dpr : object -> float64;           (* devicePixelRatioF *)
  app_dpr : float64;
  widget_size : object -> Z * Z;
  widget_visible : object -> bool;
  window_of : object -> option object;      (* QWidget::window *)
  screen_at : object -> option object;      (* screenAt(frameGeometry().center()) *)
  is_presentation : object -> bool;         (* inherits("PresentationWidget") *)
  is_widget : object -> bool;               (* qobject_cast<QWidget*> *)
  visible_pages : object -> list (Z * rect);  (* visiblePageRects of a document *)
  viewport_page : object -> Z;              (* viewport().pageNumber *)
  closing_down : bool
}.

(** What the manager does to Qt and Okular, in order. *)
Inductive action :=
| DeletePixmap (page observer : object)
| SendKeyRelease (pageView : object)
| SendResize (presentation : object)
| InstallAppFilters
| RemoveAppFilters
| InstallViewportFilter (pageView : object)      (* m_EventFilter on pageView->viewport() *)
| RemoveViewportFilter (pageView : object)
| InstallPresentationFilter (presentation : object)
| RemovePresentationFilter (presentation : object)
| PostRebindEvent
| PostPrompt (imageName iblBase : string)
| StartRefreshTimer (page : Z) (delay : Z)
| HttpGet (url localPath : string)
| WriteFile (path : string) (content : list Byte.byte)
| DeleteNetManager (manager : object).

(** [std::chrono::duration<double>] of a number of nanoseconds. *)
Definition seconds (ns : Z) : float64 := ddiv (double_of_Z ns) (double_of_Z 1000000000).

Definition INT_MAX : Z := 2 ^ 31 - 1.

(** ** The members *)

(** [struct RequestCache] *)
Record RequestCache := mkRequest { size : Z * Z; priority : Z; requestTime : float64 }.
Definition emptyRequest : RequestCache := mkRequest (0, 0) INT_MAX d0.

(** A pointer to [m_Models[page][index]], taken at reallocation [epoch]. *)
Record pointer := mkPointer { ptr_page : nat; ptr_index : nat; ptr_epoch : nat }.

(** [okular/core/generator.h]'s priorities. *)
Definition PAGEVIEW_PRIO : Z := 1.
Definition PAGEVIEW_PRELOAD_PRIO : Z := 4.
Definition PRESENTATION_PRIO : Z := 0.
Definition PRESENTATION_PRELOAD_PRIO : Z := 3.

(** [Okular::PixmapRequest] *)
Record PixmapRequest := mkPixmapRequest {
  req_page : object; req_pageNumber : Z; req_observer : object;
  req_width : Z; req_height : Z; req_priority : Z
}.

Section Manager.
Context {glm : Glm} {libm : Libm} {img : Images} {growth : Growth}.

Record Manager := mkManager {
  m_Document : option object;
  m_Models : list (list V3dModel);
  m_Reallocs : list nat;
  m_ModelImages : list (list QImage);
  m_HeadlessRenderer : option Gpu;
  m_HeadlessRendererMissing : bool;
  m_Dragging : bool;
  m_MousePosition : Z * Z;
  m_LastMousePosition : Z * Z;
  m_PageView : option object;
  m_PageViewObserver : option object;
  m_LastSeenPageViewObserver : option object;
  m_PendingRebindPosted : bool;
  m_EventFilter : bool;
  m_PresentationWidget : option object;
  m_PresentationEventFilter : bool;
  m_PresentationEventFilterOn : option object;
  m_LastEventSource : option object;
  m_PresentationRequestSizes : list (Z * Z);
  m_StartTime : Z;
  m_LastPixmapRefreshTime : Z;
  m_CachedRequestSizes : list RequestCache;
  m_Pages : list (option object);
  m_ModelsWithMissingIBL : gset (nat * nat);
  m_PendingDownloadCount : Z;
  m_IBLNetManager : option object;
  m_IBLDeclinedNames : gset string;
  m_Destroying : bool;
  m_ActiveModel : option pointer;
  m_ActiveModelPage : Z;
  m_SuppressPageViewRender : bool;
  effects : list action;
  rebind_queue : nat;          (* PageViewRebindEvents in the main event queue *)
  in_flight : list (object * DownloadTask)   (* replies not finished, and their network manager *)
}.

Definition emit (a : action) (m : Manager) : Manager := m <| effects ::= fun l => l ++ [a] |>.

(** [v[i]] of a vector, for an index of type [size_t] or [int]. *)
Definition at_index {A} (l : list A) (i : Z) : outcome A :=
  if i <? 0 then Undef else match l !! Z.to_nat i with Some a => Ret a | None => Undef end.

(** The value of an [int] converted to [size_t]. *)
Definition size_t (i : Z) : Z := wrapw 64 i.

(** [if (v.size() < n + 1) v.resize(n + 1)], with its wrap-around. *)
Definition grow {A} (d : A) (n : Z) (l : list A) : list A :=
  let wanted := wrapw 64 (n + 1) in
  if Z.of_nat (length l) <? wanted then vresize (Z.to_nat wanted) d l else l.

(** ** Models *)

Section Files.
(** Whether a file exists; whether a Vulkan device can be created. *)
Variable fileExists : string -> bool.
Variable vulkan : bool.

Definition shaderSearchPaths : list string :=
  bytes_of <$> ["./"; "/usr/lib64/qt6/plugins/okular_generators/";
    "/usr/lib/x86_64-linux-gnu/qt6/plugins/okular/generators/";
    "C:\Program Files\Okular\bin\"]%string.
Definition requiredShaders : list string :=
  bytes_of <$> ["vertex.glsl"; "fragment.glsl"; "count.glsl"; "screen.glsl";
    "blend.glsl"; "sum1.glsl"; "sum2.glsl"; "sum3.glsl"]%string.

(** The first directory that holds every shader; empty when there is none. *)
Definition shaderPath : string :=
  default [] (list_find (fun p => forallb (fun s => fileExists (p ++ s)) requiredShaders)
                shaderSearchPaths ≫= fun r => Some r.2).

Definition ensureHeadlessRenderer (m : Manager) : Manager :=
  if (match m_HeadlessRenderer m with Some _ => true | None => false end)
     || m_HeadlessRendererMissing m then m
  else if bool_decide (shaderPath = []) then m <| m_HeadlessRendererMissing := true |>
  else m <| m_HeadlessRenderer := Some (newGpu (negb vulkan)) |>.

Definition AddModel (model : V3dModel) (pageNumber : Z) (m : Manager) : outcome Manager :=
  let m := ensureHeadlessRenderer m in
  let models := grow [] pageNumber (m_Models m) in
  let reallocs := grow 0%nat pageNumber (m_Reallocs m) in
  page <~ at_index models pageNumber;;
  epoch <~ at_index reallocs pageNumber;;
  let p := Z.to_nat pageNumber in
  model <~ initProjection model;;
  let m := m <| m_Models := <[p := page ++ [model]]> models |>
             <| m_Reallocs := <[p := if grows (length page) then S epoch else epoch]> reallocs |> in
  let images := grow [] pageNumber (m_ModelImages m) in
  row <~ at_index images pageNumber;;
  Ret (m <| m_ModelImages := <[p := row ++ [null_image]]> images |>).
End Files.

(** [m_Models[page][index]], and an update of it. *)
Definition model_at (m : Manager) (page index : nat) : option V3dModel :=
  m_Models m !! page ≫= fun l => l !! index.
Definition set_model (page index : nat) (model : V3dModel) (m : Manager) : Manager :=
  m <| m_Models ::= alter (fun l => <[index := model]> l) page |>.

(** [&m_Models[page][index]] and [*p]: dereferencing null or a pointer into a
    buffer that is gone is undefined. *)
Definition address_of (m : Manager) (page index : nat) : pointer :=
  mkPointer page index (default 0%nat (m_Reallocs m !! page)).
Definition deref (m : Manager) (p : option pointer) : outcome (nat * nat * V3dModel) :=
  match p with
  | None => Undef
  | Some p =>
      if bool_decide (m_Reallocs m !! ptr_page p = Some (ptr_epoch p)) then
        match model_at m (ptr_page p) (ptr_index p) with
        | Some model => Ret (ptr_page p, ptr_index p, model)
        | None => Undef
        end
      else Undef
  end.

(** [m_EmptyModel] is the model of an empty path. *)
Definition m_EmptyModel : V3dModel := newModel (mkVec2 f0 f0) (mkVec2 f1 f1) None.

(** Both range tests of the source are the lookups' failures. *)
Definition Model (pageNumber modelIndex : nat) (m : Manager) : V3dModel :=
  match m_Models m !! pageNumber with
  | None => m_EmptyModel
  | Some l => match l !! modelIndex with None => m_EmptyModel | Some model => model end
  end.

Definition ModelBoundsSnapshot (pageNumber : nat) (m : Manager) : list (vec2 * vec2) :=
  match m_Models m !! pageNumber with
  | None => []
  | Some l => (fun model => (m_minBound model, m_maxBound model)) <$> l
  end.

Definition Empty (m : Manager) : bool := bool_decide (m_Models m = []).

Definition ShouldSuppressPageViewRender (m : Manager) : bool := m_SuppressPageViewRender m.

Definition LastRenderedModelImage (pageNumber modelIndex : nat) (m : Manager) : QImage :=
  match m_ModelImages m !! pageNumber ≫= fun l => l !! modelIndex with
  | Some i => i
  | None => null_image
  end.

Definition CachedModelImage (pageNumber modelIndex : nat) (width height : Z) (m : Manager) : QImage :=
  match m_ModelImages m !! pageNumber ≫= fun l => l !! modelIndex with
  | None => null_image
  | Some cached =>
      if isNull cached then null_image
      else if (0 <? width) && (0 <? height) &&
              (negb (img_width cached =? width) || negb (img_height cached =? height))
      then scaled width height cached
      else cached
  end.

Definition GetCanvasSize (pageNumber : nat) (m : Manager) : outcome vec2 :=
  match m_Models m !! pageNumber with
  | None | Some [] => Ret (mkVec2 f0 f0)
  | Some (model :: _) =>
      h <~ header_of model;;
      Ret (mkVec2 (float_of_Z (canvasWidth h)) (float_of_Z (canvasHeight h)))
  end.

(** ** Documents *)

Definition Clear (m : Manager) : Manager :=
  m <| m_Models := [] |> <| m_Reallocs := [] |> <| m_ModelImages := [] |> <| m_Pages := [] |>
    <| m_CachedRequestSizes := [] |> <| m_ModelsWithMissingIBL := ∅ |>
    <| m_PresentationRequestSizes := [] |>
    <| m_Dragging := false |> <| m_ActiveModel := None |> <| m_ActiveModelPage := -1 |>
    <| m_LastEventSource := None |> <| m_PendingRebindPosted := false |>
    <| m_SuppressPageViewRender := false |>.

Definition SetDocument (document : option object) (m : Manager) : Manager :=
  Clear m <| m_Document := document |>.

(** ** Request and page caches *)

Definition EnsureCachedRequestSize (pageNumber : Z) (m : Manager) : Manager :=
  if Z.of_nat (length (m_CachedRequestSizes m)) <=? pageNumber
  then m <| m_CachedRequestSizes ::=
              vresize (Z.to_nat (wrapw 64 (pageNumber + 1))) emptyRequest |>
  else m.

Definition cacheRequestSizeUnlocked (w : World) (pageNumber width height prio : Z)
    (m : Manager) : outcome Manager :=
  let m := m <| m_CachedRequestSizes ::= grow emptyRequest pageNumber |> in
  let requestTime' := seconds (now w - m_StartTime m) in
  old <~ at_index (m_CachedRequestSizes m) pageNumber;;
  if SFltb (requestTime old) requestTime'
  then Ret (m <| m_CachedRequestSizes ::=
                   <[Z.to_nat pageNumber := mkRequest (width, height) prio requestTime']> |>)
  else Ret m.

Definition CacheRequestSize := cacheRequestSizeUnlocked.

Definition cachePageUnlocked (pageNumber : Z) (page : option object) (m : Manager) :
    outcome Manager :=
  match page with
  | None => Ret m
  | Some _ =>
      let m := m <| m_Pages ::= grow None pageNumber |> in
      _ <~ at_index (m_Pages m) pageNumber;;
      Ret (m <| m_Pages ::= <[Z.to_nat pageNumber := page]> |>)
  end.

Definition CachePage := cachePageUnlocked.

(** The PAGEVIEW_PRIO part of [cacheRequestUnlocked]. *)
Definition notePageView (observer : object) (m : Manager) : Manager :=
  let m := m <| m_PageViewObserver := Some observer |> in
  if bool_decide (m_LastSeenPageViewObserver m = Some observer) then m
  else
    let m := m <| m_LastSeenPageViewObserver := Some observer |> in
    if m_PendingRebindPosted m then m
    else emit PostRebindEvent (m <| m_PendingRebindPosted := true |> <| rebind_queue ::= S |>).

Definition cacheRequestUnlocked (w : World) (r : PixmapRequest) (m : Manager) : outcome Manager :=
  let prio := req_priority r in
  let page := req_pageNumber r in
  let m := if prio =? PAGEVIEW_PRIO then notePageView (req_observer r) m else m in
  let cacheSize := cacheRequestSizeUnlocked w page (req_width r) (req_height r) prio in
  let presentation := (prio =? PRESENTATION_PRIO) || (prio =? PRESENTATION_PRELOAD_PRIO) in
  if negb ((prio =? PAGEVIEW_PRIO) || (prio =? PAGEVIEW_PRELOAD_PRIO) || presentation) then
    if Z.of_nat (length (m_CachedRequestSizes m)) <? wrapw 64 (page + 1) then cacheSize m
    else
      old <~ at_index (m_CachedRequestSizes m) page;;
      if (fst (size old) =? 0) && (snd (size old) =? 0) then cacheSize m else Ret m
  else
    let m' :=
      if presentation then
        let m := m <| m_PresentationRequestSizes ::= grow (0, 0) page |> in
        _ <~ at_index (m_PresentationRequestSizes m) page;;
        Ret (m <| m_PresentationRequestSizes ::=
                    <[Z.to_nat page := (req_width r, req_height r)]> |>)
      else Ret m in
    m <~ m';;
    m <~ cacheSize m;;
    cachePageUnlocked page (Some (req_page r)) m.

Definition CacheRequest := cacheRequestUnlocked.

(** A [QPointer] reads as null once its object is destroyed. *)
Definition qpointer (w : World) (p : option object) : option object :=
  match p with Some o => if alive w o then Some o else None | None => None end.
Definition pageView (w : World) (m : Manager) : option object := qpointer w (m_PageView m).
Definition presentationWidget (w : World) (m : Manager) : option object :=
  qpointer w (m_PresentationWidget m).

(** [m_LastEventSource && m_LastEventSource->inherits("PresentationWidget")]:
    a plain pointer, whose object may be gone. *)
Definition source_is_presentation (w : World) (m : Manager) : outcome bool :=
  match m_LastEventSource m with
  | None => Ret false
  | Some o => if alive w o then Ret (is_presentation w o) else Undef
  end.

(** ** [GetDevicePixelRatio] *)
Definition GetDevicePixelRatio (w : World) : float32 :=
  float_of_double (match active_window w with
                   | Some win => widget_dpr w win
                   | None => app_dpr w
                   end).
End Manager.

(** ** Lemmas *)

(** [L[p][i] = x] of a vector of vectors. *)
Lemma alter_insert_lookup {A} (L : list (list A)) p i (x y : A) :
  L !! p ≫= (fun l => l !! i) = Some y ->
  alter (fun l => <[i := x]> l) p L !! p ≫= (fun l => l !! i) = Some x.
Proof.
  rewrite list_lookup_alter, decide_True by done. destruct (L !! p) as [l|]; [|done]. cbn.
  intros Hi. apply list_lookup_insert_eq. by eapply lookup_lt_Some.
Qed.

Lemma alter_insert_lookup_ne {A} (L : list (list A)) p i q j (x : A) :
  (p, i) <> (q, j) ->
  alter (fun l => <[i := x]> l) p L !! q ≫= (fun l => l !! j) = L !! q ≫= (fun l => l !! j).
Proof.
  intros Hne. rewrite list_lookup_alter. case_decide as Hp; [|done]. subst q.
  destruct (L !! p) as [l|]; [|done]. cbn. apply list_lookup_insert_ne. congruence.
Qed.

(** The numbers of elements of the inner vectors. *)
Definition shape {A} (L : list (list A)) : list nat := length <$> L.

Lemma shape_alter_insert {A} (L : list (list A)) p i (x : A) :
  shape (alter (fun l => <[i := x]> l) p L) = shape L.
Proof.
  unfold shape. apply list_eq. intros k. rewrite !list_lookup_fmap, list_lookup_alter.
  case_decide; [|done]. subst k. destruct (L !! p) as [l|]; [|done]. cbn.
  by rewrite length_insert.
Qed.

Section ManagerLemmas.
Context {glm : Glm} {img : Images} {growth : Growth}.

Lemma model_at_set_model page index x y m :
  model_at m page index = Some y -> model_at (set_model page index x m) page index = Some x.
Proof. unfold model_at, set_model. apply alter_insert_lookup. Qed.

Lemma model_at_set_model_ne page index x m q j :
  (page, index) <> (q, j) -> model_at (set_model page index x m) q j = model_at m q j.
Proof. unfold model_at, set_model. apply alter_insert_lookup_ne. Qed.

Lemma shape_set_model page index x m :
  shape (m_Models (set_model page index x m)) = shape (m_Models m).
Proof. apply shape_alter_insert. Qed.

(** A model is at a place of the shape. *)
Lemma model_at_shape m page index :
  is_Some (model_at m page index) <->
  exists n, shape (m_Models m) !! page = Some n /\ (index < n)%nat.
Proof.
  unfold model_at, shape. rewrite list_lookup_fmap. destruct (m_Models m !! page) as [l|]; cbn.
  - rewrite lookup_lt_is_Some. naive_solver.
  - split; [by intros [? ?]|naive_solver].
Qed.
End ManagerLemmas.

(** ** Concrete instances *)

(** Images as their size and bytes, and vectors that double their buffer. *)
Definition images_token : Images := {|
  QImage := Z * Z * list Byte.byte;
  null_image := (0, 0, []);
  isNull := fun i => fst (fst i) =? 0;
  img_width := fun i => fst (fst i);
  img_height := fun i => snd (fst i);
  filled := fun w h _ _ => (w, h, []);
  of_pixels := fun w h px => (w, h, px);
  scaled := fun w h i => (w, h, snd i)
|}.
Definition growth_token : Growth := fun n => Nat.eqb n 0 || Nat.eqb (2 ^ Nat.log2 n) n.

(** A document shown in PageView 1, without presentation. *)
Definition sample_world : World :=
  mkWorld 2000000000 (fun _ => true) (Some 9) [9] [1] (fun _ => [1]) (fun _ => []) (fun o => o =? 1)
    (fun _ => []) (fun _ => d1) d1 (fun _ => (100, 100)) (fun _ => true) (fun _ => Some 9)
    (fun _ => Some 7) (fun o => o =? 5) (fun _ => true)
    (fun _ => [(0, mkRect d0 d0 d1 d1)]) (fun _ => 0) false.
