(* ===== verification/PageView.v ===== *)
(** * The model manager: windows, page views and pixmap refreshes

    [v3d-Common/V3dModelManager.cpp], second part: which PageView shows the
    document ([resolvePageView], [rebindPageView]), the constructor and the
    destructor, the presentation window, and how a refresh reaches the windows
    ([refreshPixmap], [requestPixmapRefresh]).

    A refresh makes Okular request pixmaps from inside the call; those requests
    are operations of their own ([CacheRequest], [RenderModel]) and the call is
    recorded as an action. *)

From Stdlib Require Import Floats.SpecFloat.
From S2P Require Import Prelude Ieee Xstream Bound V3dData IblName IblPath Renderer Model Manager.

(** ** Which PageView shows a document *)

Section Resolve.
Variable w : World.

(** [pageViewOf] over the widgets of a window. *)
Definition pageViews (l : list object) : list object := filter (fun o => is_pageview w o = true) l.

Fixpoint windows_loop (url : string) (windows : list object) : option object :=
  match windows with
  | [] => None
  | window :: rest =>
      let parts := part_urls w window in
      if bool_decide (parts = []) || negb (bool_decide (url ∈ parts)) then windows_loop url rest
      else
        match pageViews (children w window) with
        | [] => windows_loop url rest
        | first :: _ as views =>
            if Nat.eqb (length parts) 1 then Some first
            else match List.find (widget_visible w) views with
                 | Some view => Some view
                 | None => windows_loop url rest
                 end
        end
  end.

Definition resolvePageViewForDocument (document : option object) : option object :=
  match document with
  | None => None
  | Some d =>
      let url := document_url w d in
      if bool_decide (url = []) then None else windows_loop url (top_windows w)
  end.

(** The sole PageView, else one of the active window, else the last found. *)
Definition resolvePageViewHeuristic : option object :=
  let found := pageViews (all_widgets w) in
  let sole := last found in
  if Nat.eqb (length found) 1 then sole
  else
    match active_window w with
    | None => sole
    | Some active =>
        if is_pageview w active then Some active
        else match pageViews (children w active) with
             | view :: _ => Some view
             | [] => sole
             end
    end.

Definition resolvePageView (document : option object) : option object :=
  match resolvePageViewForDocument document with
  | Some view => Some view
  | None => resolvePageViewHeuristic
  end.
End Resolve.

Inductive window_event := Show | Destroy | OtherEvent.

Section PageView.
Context {glm : Glm} {img : Images} {growth : Growth}.

Definition GetPageViewWidget (w : World) (m : Manager) : option object :=
  resolvePageView w (m_Document m).

(** ** Construction and destruction *)

(** The initialisers of the members. *)
Definition initialManager (document : option object) (start : Z) : Manager :=
  mkManager document [] [] [] None false false (0, 0) (0, 0) None None None false false
    None false None None [] start 0 [] [] ∅ 0 None ∅ false None (-1) false [] 0 [].

Definition newManager (w : World) (document : option object) : Manager :=
  let m := initialManager document (now w) in
  let m := m <| m_PageView := GetPageViewWidget w m |> in
  let m := match m_PageView m with
           | Some view => emit (InstallViewportFilter view) (m <| m_EventFilter := true |>)
           | None => m
           end in
  emit InstallAppFilters m.

Definition destroyManager (w : World) (m : Manager) : Manager :=
  let m := m <| m_Destroying := true |> in
  let m := emit RemoveAppFilters m in
  let m := match pageView w m with
           | Some view => if m_EventFilter m then emit (RemoveViewportFilter view) m else m
           | None => m
           end in
  match presentationWidget w m with
  | Some p => if m_PresentationEventFilter m then emit (RemovePresentationFilter p) m else m
  | None => m
  end.

(** ** Rebinding *)

Definition rebindPageView (w : World) (m : Manager) : Manager :=
  let pending := m_PendingRebindPosted m in
  let m := m <| m_PendingRebindPosted := false |> in
  if negb pending then m
  else
    match resolvePageView w (m_Document m) with
    | None => m
    | Some view =>
        if bool_decide (pageView w m = Some view) then m
        else
          let m := if negb (m_EventFilter m) then m <| m_EventFilter := true |>
                   else match pageView w m with
                        | Some old => emit (RemoveViewportFilter old) m
                        | None => m
                        end in
          emit (InstallViewportFilter view) m <| m_PageView := Some view |>
    end.

Definition keyEventInOwnWindow (w : World) (o : object) (m : Manager) : bool :=
  if negb (is_widget w o) then false
  else
    let keyWindow := window_of w o in
    match presentationWidget w m with
    | Some p => bool_decide (keyWindow = window_of w p)
    | None => false
    end ||
    match pageView w m with
    | Some view => bool_decide (keyWindow = window_of w view)
    | None => false
    end.

Definition noteEventSource (o : object) (m : Manager) : Manager :=
  m <| m_LastEventSource := Some o |>.

(** ** Refreshing *)

(** [(int)n] of a [size_t]. *)
Definition int_of_size_t (n : Z) : Z :=
  let r := wrapw 32 n in if r <? 2 ^ 31 then r else r - 2 ^ 32.

Definition isSome {A} (o : option A) : bool := match o with Some _ => true | None => false end.

(** [presentationActive && m_LastEventSource != nullptr && ...] *)
Definition interactingWithPresentation (w : World) (m : Manager) : outcome bool :=
  if isSome (presentationWidget w m) then source_is_presentation w m else Ret false.

Definition dualScreen (w : World) (m : Manager) : bool :=
  match presentationWidget w m, pageView w m with
  | Some presentation, Some view =>
      match window_of w view with
      | Some pageViewWindow =>
          match screen_at w pageViewWindow, screen_at w presentation with
          | Some a, Some b => negb (a =? b)
          | _, _ => true
          end
      | None => true
      end
  | _, _ => true
  end.

(** The last part of [refreshPixmap]: the presentation window. *)
Definition refreshPresentation (w : World) (pageNumber : Z) (interacting : bool) (m : Manager) :
    Manager :=
  match presentationWidget w m, m_Document m with
  | Some presentation, Some document =>
      if (viewport_page w document =? int_of_size_t pageNumber) &&
         (interacting || dualScreen w m) then
        let m := if interacting && negb (dualScreen w m)
                 then m <| m_SuppressPageViewRender := true |> else m in
        emit (SendResize presentation) m
      else m
  | _, _ => m
  end.

Definition refreshPixmap (w : World) (pageNumber : Z) (m : Manager) : outcome Manager :=
  match m_Pages m !! Z.to_nat pageNumber with
  | Some (Some page) =>
      interacting <~ interactingWithPresentation w m;;
      let allowed := negb interacting || dualScreen w m in
      let refreshed := match pageView w m with
                       | Some view => if widget_visible w view && allowed then Some view else None
                       | None => None
                       end in
      let m1 := if isSome refreshed || negb (isSome (presentationWidget w m))
                then match m_PageViewObserver m with
                     | Some observer => emit (DeletePixmap page observer) m
                     | None => m
                     end
                else m in
      let m2 := match refreshed with
                | Some view => emit (SendKeyRelease view) m1
                | None => m1
                end in
      Ret (refreshPresentation w pageNumber interacting m2)
  | _ => Ret m
  end.

(** 1.0 / 60.0 seconds *)
Definition m_MinTimeBetweenRefreshes : float64 := ddiv d1 (double_of_Z 60).

(** The clock is read again after the refresh: [w'] is the world by then. *)
Definition requestPixmapRefresh (w w' : World) (pageNumber : Z) (m : Manager) : outcome Manager :=
  if SFltb m_MinTimeBetweenRefreshes (seconds (now w - m_LastPixmapRefreshTime m))
  then m <~ refreshPixmap w pageNumber m;;
       Ret (m <| m_LastPixmapRefreshTime := now w' |>)
  else Ret m.

Definition scheduleRefreshPixmap (pageNumber delayMs : Z) (m : Manager) : Manager :=
  emit (StartRefreshTimer pageNumber delayMs) m.

(** The timer of [scheduleRefreshPixmap] fires. *)
Definition refreshTimeout (w : World) (pageNumber : Z) (m : Manager) : outcome Manager :=
  if m_Destroying m then Ret m else refreshPixmap w pageNumber m.

(** ** The presentation window *)

Definition handlePresentationWidgetEvent (w : World) (o : object) (type : window_event)
    (m : Manager) : outcome Manager :=
  if negb (is_presentation w o) then Ret m
  else
    match type with
    | Show =>
        if negb (is_widget w o) then Ret m
        else if bool_decide (presentationWidget w m = Some o) then Ret m
        else
          let m := m <| m_PresentationWidget := Some o |> in
          let m := m <| m_PresentationEventFilter := true |> in
          if bool_decide (qpointer w (m_PresentationEventFilterOn m) = Some o) then Ret m
          else Ret (emit (InstallPresentationFilter o) (m <| m_PresentationEventFilterOn := Some o |>))
    | Destroy =>
        let m := m <| m_PresentationWidget := None |> <| m_SuppressPageViewRender := false |> in
        match m_Document m, pageView w m with
        | Some document, Some view =>
            if negb (closing_down w) && negb (m_Destroying m) && widget_visible w view &&
               (0 <=? viewport_page w document)
            then refreshPixmap w (viewport_page w document) m
            else Ret m
        | _, _ => Ret m
        end
    | OtherEvent => Ret m
    end.
End PageView.
