(* ===== verification/HitTest.v ===== *)
(** * The model manager: where the mouse is

    [v3d-Common/V3dModelManager.cpp], third part: the borders of the visible
    pages in the window the mouse is in, the page under the mouse and the
    position on a page.  The computations are the source's, in [float] and
    [double]; each may grow [m_CachedRequestSizes], so each returns the manager. *)

From Stdlib Require Import Floats.SpecFloat.
From S2P Require Import Prelude Ieee Xstream Bound V3dData IblName IblPath Renderer Model Manager.
From S2P Require Import PageView.

(** [struct PageBorders] *)
Record PageBorders := mkBorders {
  hi : float32; lo : float32; le : float32; ri : float32; pageNumber : Z
}.

Definition f10 : float32 := float_of_Z 10.
Definition vec2_of (p : Z * Z) : vec2 := mkVec2 (float_of_Z (fst p)) (float_of_Z (snd p)).
(** [{ size.x / dpr, size.y / dpr }] *)
Definition scaled_size (p : Z * Z) (dpr : float32) : vec2 :=
  mkVec2 (fdiv (float_of_Z (fst p)) dpr) (fdiv (float_of_Z (snd p)) dpr).

(** [(viewport - page) / 2.0f] *)
Definition centered (viewport page : float32) : float32 := fdiv (fsub viewport page) f2.
(** [-edge * page] and [-(1.0f - edge) * page], in [double]. *)
Definition before (edge : float64) (page : float32) : float32 :=
  float_of_double (dmul (dopp edge) (double_of_float page)).
Definition after (edge : float64) (page : float32) : float32 :=
  float_of_double (dmul (dopp (dsub d1 edge)) (double_of_float page)).

Definition is0 (x : float64) : bool := SFeqb x d0.
Definition is1 (x : float64) : bool := SFeqb x d1.

(** One visible page: centered in the directions it is fully visible in. *)
Definition single_border (view page : vec2) (p : Z) (r : rect) : PageBorders :=
  let wide := is0 (rleft r) && is1 (rright r) in
  let high := is0 (rtop r) && is1 (rbottom r) in
  let v := if high then (centered (vy view) (vy page), centered (vy view) (vy page))
           else (before (rtop r) (vy page), after (rbottom r) (vy page)) in
  let h := if wide then (centered (vx view) (vx page), centered (vx view) (vx page))
           else (before (rleft r) (vx page), after (rright r) (vx page)) in
  mkBorders (fst v) (snd v) (fst h) (snd h) p.

Section HitTest.
Context {glm : Glm} {img : Images} {growth : Growth}.

(** [m_CachedRequestSizes[p].size / dpr], made to exist first. *)
Definition page_size (dpr : float32) (p : Z) (m : Manager) : outcome (vec2 * Manager) :=
  let m := EnsureCachedRequestSize (size_t p) m in
  r <~ at_index (m_CachedRequestSizes m) p;;
  Ret (scaled_size (size r) dpr, m).

(** Several visible pages: left and right borders, page by page. *)
Fixpoint horizontal_borders (dpr : float32) (view : vec2) (pages : list (Z * rect)) (m : Manager) :
    outcome (list PageBorders * Manager) :=
  match pages with
  | [] => Ret ([], m)
  | (p, r) :: rest =>
      'sm <~ page_size dpr p m;;
      let page := fst sm in
      let wide := is0 (rleft r) && is1 (rright r) in
      let inside := negb (is0 (rleft r)) && negb (is1 (rright r)) in
      let h :=
        if wide then (centered (vx view) (vx page), centered (vx view) (vx page))
        else if inside then
          (before (rleft r) (vx page),
           float_of_double (dmul (dopp (rright r)) (double_of_float (vx page))))
        else (f0, f0) in
      'bm <~ horizontal_borders dpr view rest (snd sm);;
      Ret (mkBorders f0 f0 (fst h) (snd h) p :: fst bm, snd bm)
  end.

(** The height of the [n] pages from [i] on. *)
Fixpoint total_height (dpr : float32) (n : nat) (i : Z) (acc : float32) (m : Manager) :
    outcome (float32 * Manager) :=
  match n with
  | O => Ret (acc, m)
  | S n =>
      'sm <~ page_size dpr i m;;
      total_height dpr n (i + 1) (fadd acc (vy (fst sm))) (snd sm)
  end.

(** The first of several pages: its top and bottom borders. *)
Definition first_vertical (dpr : float32) (view : vec2) (first : Z * rect) (last : Z)
    (count : nat) (m : Manager) : outcome (float32 * float32 * Manager) :=
  'sm <~ page_size dpr (fst first) m;;
  let page := fst sm in let m := snd sm in
  let top := rtop (snd first) in
  if is0 top then
    'tm <~ total_height dpr (Z.to_nat (last - fst first + 1)) (fst first) f0 m;;
    let margins := fmul (fsub (float_of_Z (Z.of_nat count)) f1) f10 in
    let high := fdiv (fsub (vy view) (fadd (fst tm) margins)) f2 in
    Ret (high, fsub (fsub (vy view) high) (vy page), snd tm)
  else
    Ret (before top (vy page),
         float_of_double (dsub (double_of_float (vy view))
           (dmul (dsub d1 top) (double_of_float (vy page)))), m).

(** The pages after the first, each below the one before it. *)
Fixpoint vertical_borders (dpr : float32) (view : vec2) (prev_lo : float32)
    (borders : list PageBorders) (m : Manager) : outcome (list PageBorders * Manager) :=
  match borders with
  | [] => Ret ([], m)
  | b :: rest =>
      'sm <~ page_size dpr (pageNumber b) m;;
      let high := fadd (fsub (vy view) prev_lo) f10 in
      let low := fsub (fsub (vy view) high) (vy (fst sm)) in
      'bm <~ vertical_borders dpr view low rest (snd sm);;
      Ret (mkBorders high low (le b) (ri b) (pageNumber b) :: fst bm, snd bm)
  end.

Definition GetPageBordersForVisiblePages (w : World) (m : Manager) :
    outcome (list PageBorders * Manager) :=
  match pageView w m, m_Document m with
  | None, _ => Ret ([], m)
  | Some _, None => Undef
  | Some view, Some document =>
      let visiblePages := visible_pages w document in
      let viewPortSize := vec2_of (widget_size w view) in
      let dpr := GetDevicePixelRatio w in
      match visiblePages with
      | [] => Ret ([], m)
      | [(p, r)] =>
          'sm <~ page_size dpr p m;;
          Ret ([single_border viewPortSize (fst sm) p r], snd sm)
      | first :: _ =>
          'hm <~ horizontal_borders dpr viewPortSize visiblePages m;;
          'vm <~ first_vertical dpr viewPortSize first
                   (fst (default first (last visiblePages))) (length visiblePages) (snd hm);;
          match fst hm with
          | [] => Ret ([], snd vm)
          | b :: rest =>
              'bm <~ vertical_borders dpr viewPortSize (snd (fst vm)) rest (snd vm);;
              Ret (mkBorders (fst (fst vm)) (snd (fst vm)) (le b) (ri b) (pageNumber b) :: fst bm,
                   snd bm)
          end
      end
  end.

Definition GetPresentationPageBorders (w : World) (m : Manager) :
    outcome (list PageBorders * Manager) :=
  match presentationWidget w m, m_Document m with
  | Some widget, Some document =>
      let p := viewport_page w document in
      if p <? 0 then Ret ([], m)
      else
        let m := EnsureCachedRequestSize (size_t p) m in
        if Z.of_nat (length (m_PresentationRequestSizes m)) <=? size_t p then Ret ([], m)
        else
          dev <~ at_index (m_PresentationRequestSizes m) p;;
          if (fst dev <=? 0) || (snd dev <=? 0) then Ret ([], m)
          else
            let page := scaled_size dev (float_of_double (widget_dpr w widget)) in
            let view := vec2_of (widget_size w widget) in
            let horizontal := centered (vx view) (vx page) in
            let vertical := centered (vy view) (vy page) in
            Ret ([mkBorders vertical vertical horizontal horizontal p], m)
  | _, _ => Ret ([], m)
  end.

Definition GetActivePageBorders (w : World) (m : Manager) : outcome (list PageBorders * Manager) :=
  presentation <~ source_is_presentation w m;;
  if presentation then GetPresentationPageBorders w m else GetPageBordersForVisiblePages w m.

Definition GetActiveViewportSize (w : World) (m : Manager) : outcome vec2 :=
  presentation <~ source_is_presentation w m;;
  let fallback := match pageView w m with
                  | Some view => vec2_of (widget_size w view)
                  | None => mkVec2 f0 f0
                  end in
  Ret (match m_LastEventSource m with
       | Some o => if presentation && is_widget w o then vec2_of (widget_size w o) else fallback
       | None => fallback
       end).

(** The mouse strictly inside the page of a border. *)
Definition over_page (mouse view : vec2) (b : PageBorders) : bool :=
  SFltb (le b) (vx mouse) && SFltb (vx mouse) (fsub (vx view) (ri b)) &&
  SFltb (hi b) (vy mouse) && SFltb (vy mouse) (fsub (vy view) (lo b)).

Definition GetPageMouseIsOver (w : World) (m : Manager) : outcome (Z * Manager) :=
  'bm <~ GetActivePageBorders w m;;
  view <~ GetActiveViewportSize w (snd bm);;
  Ret (match List.find (over_page (vec2_of (m_MousePosition (snd bm))) view) (fst bm) with
       | Some b => pageNumber b
       | None => -1
       end, snd bm).

(** The page size a position is normalized by. *)
Definition normalizing_size (w : World) (p : Z) (m : Manager) : outcome (vec2 * Manager) :=
  presentation <~ source_is_presentation w m;;
  let cached :=
    let m := EnsureCachedRequestSize (size_t p) m in
    r <~ at_index (m_CachedRequestSizes m) p;;
    Ret (scaled_size (size r) (GetDevicePixelRatio w), m) in
  if presentation && (size_t p <? Z.of_nat (length (m_PresentationRequestSizes m))) then
    dev <~ at_index (m_PresentationRequestSizes m) p;;
    if ((0 <? fst dev) || (0 <? snd dev)) && (0 <? fst dev) && (0 <? snd dev) then
      let dpr := match presentationWidget w m with
                 | Some widget => float_of_double (widget_dpr w widget)
                 | None => GetDevicePixelRatio w
                 end in
      Ret (scaled_size dev dpr, m)
    else cached
  else cached.

Definition GetNormalizedPositionRelativeToPage (w : World) (pos : vec2) (p : Z) (m : Manager) :
    outcome (vec2 * Manager) :=
  'bm <~ GetActivePageBorders w m;;
  'sm <~ normalizing_size w p (snd bm);;
  let page := fst sm in let m := snd sm in
  match List.find (fun b => pageNumber b =? p) (fst bm) with
  | None => Ret (mkVec2 f0 f0, m)
  | Some b =>
      if SFleb (vx page) f0 || SFleb (vy page) f0 then Ret (mkVec2 f0 f0, m)
      else Ret (mkVec2 (fdiv (fsub (vx pos) (le b)) (vx page))
                       (fdiv (fsub (vy pos) (hi b)) (vy page)), m)
  end.
End HitTest.
