(* ===== verification/Input.v ===== *)
(** * The model manager: mouse, wheel and keyboard

    [v3d-Common/V3dModelManager.cpp], fourth part: the event handlers, and the
    two event filters that call them ([Utility/EventFilter.cpp],
    [Utility/ApplicationEventFilter.cpp]).  A handler answers whether the event
    is consumed. *)

From Stdlib Require Import Floats.SpecFloat.
From S2P Require Import Prelude Ieee Xstream Bound V3dData IblName IblPath Renderer Model Manager.
From S2P Require Import PageView HitTest.

(** [(int)x] of a [double]: truncation, undefined when it does not fit. *)
Definition int_of_double (x : float64) : outcome Z :=
  match x with
  | S754_zero _ => Ret 0
  | S754_finite s m e =>
      let z := (if s then Z.opp else id) (Z.shiftl (Zpos m) e) in
      if (- 2 ^ 31 <=? z) && (z <? 2 ^ 31) then Ret z else Undef
  | _ => Undef
  end.

(** [QMouseEvent]: position, whether it is the left button, modifiers. *)
Record MouseEvent := mkMouse {
  ev_x : float64; ev_y : float64; ev_left : bool;
  ev_control : bool; ev_shift : bool; ev_alt : bool
}.

Inductive key := Key_H | Key_M | Key_Other.

Section Input.
Context {glm : Glm} {libm : Libm} {img : Images} {growth : Growth}.

Definition no_models (m : Manager) : bool := match m_Models m with [] => true | _ => false end.

(** No model, or no window: the event is Okular's. *)
Definition inactive (w : World) (m : Manager) : bool :=
  no_models m || negb (isSome (pageView w m)).

Definition take_position (e : MouseEvent) (m : Manager) : outcome Manager :=
  x <~ int_of_double (ev_x e);;
  y <~ int_of_double (ev_y e);;
  Ret (m <| m_MousePosition := (x, y) |>).

(** A position on the page, relative to the rectangle of a model. *)
Definition on_model_position (p : vec2) (model : V3dModel) : vec2 :=
  mkVec2 (fdiv (fsub (vx p) (vx (m_minBound model)))
               (fsub (vx (m_maxBound model)) (vx (m_minBound model))))
         (fdiv (fsub (vy p) (vy (m_minBound model)))
               (fsub (vy (m_maxBound model)) (vy (m_minBound model)))).

(** The rectangle of a model, in units of a page of the given size. *)
Definition canvas_size (model : V3dModel) (page : vec2) : vec2 :=
  mkVec2 (fmul (fsub (vx (m_maxBound model)) (vx (m_minBound model))) (vx page))
         (fmul (fsub (vy (m_maxBound model)) (vy (m_minBound model))) (vy page)).

(** Strictly inside the rectangle of a model. *)
Definition on_model (p : vec2) (model : V3dModel) : bool :=
  (SFltb (vx (m_minBound model)) (vx p) && SFltb (vx p) (vx (m_maxBound model))) &&
  (SFltb (vy (m_minBound model)) (vy p) && SFltb (vy p) (vy (m_maxBound model))).

(** What the modifiers select: one alone of control, shift and alt, else a
    rotation. *)
Definition drag_of (e : MouseEvent) : drag_mode :=
  match ev_control e, ev_shift e, ev_alt e with
  | true, false, false => DragShift
  | false, true, false => DragZoom
  | false, false, true => DragPan
  | _, _, _ => DragRotate
  end.

(** The part of [mouseMoveEvent] that moves the active model. *)
Definition drag_active (w : World) (e : MouseEvent) (m : Manager) : outcome Manager :=
  let page := m_ActiveModelPage m in
  'nm <~ GetNormalizedPositionRelativeToPage w (vec2_of (m_MousePosition m)) page m;;
  'lm <~ GetNormalizedPositionRelativeToPage w (vec2_of (m_LastMousePosition (snd nm))) page (snd nm);;
  let m := snd lm in
  'pm <~ deref m (m_ActiveModel m);;
  let model := snd pm in
  let n := on_model_position (fst nm) model in
  let l := on_model_position (fst lm) model in
  pageViewSize <~ GetActiveViewportSize w m;;
  match drag_of e with
  | DragShift =>
      let m := EnsureCachedRequestSize (size_t page) m in
      r <~ at_index (m_CachedRequestSizes m) page;;
      model <~ drag DragShift n l (canvas_size model (vec2_of (size r))) model;;
      Ret (set_model (fst (fst pm)) (snd (fst pm)) model m)
  | d =>
      model <~ drag d n l pageViewSize model;;
      Ret (set_model (fst (fst pm)) (snd (fst pm)) model m)
  end.

(** [w'] is the world after the refresh that the move asks for. *)
Definition mouseMoveEvent (w w' : World) (e : MouseEvent) (m : Manager) :
    outcome (bool * Manager) :=
  if inactive w m then Ret (false, m)
  else
    m <~ take_position e m;;
    if negb (m_Dragging m) then Ret (false, m <| m_LastMousePosition := m_MousePosition m |>)
    else
      m <~ drag_active w e m;;
      m <~ requestPixmapRefresh w w' (size_t (m_ActiveModelPage m)) m;;
      Ret (true, m <| m_LastMousePosition := m_MousePosition m |>).

Definition mouseButtonPressEvent (w : World) (e : MouseEvent) (m : Manager) :
    outcome (bool * Manager) :=
  if inactive w m then Ret (false, m)
  else
    m <~ take_position e m;;
    if negb (ev_left e) then Ret (false, m)
    else
      'pm <~ GetPageMouseIsOver w m;;
      let page := fst pm in let m := snd pm in
      if (page =? -1) || (Z.of_nat (length (m_Models m)) <=? page) then Ret (false, m)
      else
        'nm <~ GetNormalizedPositionRelativeToPage w (vec2_of (m_MousePosition m)) page m;;
        let m := snd nm in
        models <~ at_index (m_Models m) page;;
        match list_find (fun model => on_model (fst nm) model) models with
        | Some (i, _) =>
            Ret (true, m <| m_Dragging := true |> <| m_LastMousePosition := m_MousePosition m |>
                         <| m_ActiveModel := Some (address_of m (Z.to_nat page) i) |>
                         <| m_ActiveModelPage := page |>)
        | None => Ret (false, m)
        end.

Definition mouseButtonReleaseEvent (w : World) (e : MouseEvent) (m : Manager) : bool * Manager :=
  if inactive w m then (false, m)
  else if negb (ev_left e) then (false, m)
  else (false, m <| m_Dragging := false |> <| m_ActiveModel := None |>
                 <| m_ActiveModelPage := -1 |> <| m_SuppressPageViewRender := false |>).

(** ** The wheel *)

(** The rectangle covers the page. *)
Definition fills_page (model : V3dModel) : bool :=
  SFleb (vx (m_minBound model)) f0 && SFleb f1 (vx (m_maxBound model)) &&
  SFleb (vy (m_minBound model)) f0 && SFleb f1 (vy (m_maxBound model)).

(** The model a wheel event is for: the dragged one, else the only one of a
    standalone figure. *)
Definition wheel_target (m : Manager) : option (pointer * Z) :=
  let standalone := match m_Models m with
                    | [[model]] => if fills_page model then Some (address_of m 0 0, 0) else None
                    | _ => None
                    end in
  if m_Dragging m then
    match m_ActiveModel m with
    | Some p => if m_ActiveModelPage m =? -1 then None else Some (p, m_ActiveModelPage m)
    | None => standalone
    end
  else standalone.

Definition wheel_clamp (z : float32) : float32 :=
  if SFltb z minZoom then minZoom else if SFltb maxZoom z then maxZoom else z.

(** The new zoom of a wheel step. *)
Definition wheel_zoom (deltaX deltaY : Z) (model : V3dModel) : outcome V3dModel :=
  h <~ header_of model;;
  factor <~ determined (zoomFactor h);;
  let deltaY := if deltaY =? 0 then deltaX else deltaY in
  let zoom := double_of_float (Zoom model) in
  let z := float_of_double (if deltaY <? 0 then ddiv zoom factor else dmul zoom factor) in
  Ret (set_Zoom (wheel_clamp z) model).

Definition wheelEvent (w w' : World) (deltaX deltaY : Z) (m : Manager) : outcome (bool * Manager) :=
  if inactive w m then Ret (false, m)
  else
    match wheel_target m with
    | None => Ret (false, m)
    | Some (target, page) =>
        'nm <~ GetNormalizedPositionRelativeToPage w (vec2_of (m_MousePosition m)) page m;;
        let m := snd nm in
        'pm <~ deref m (Some target);;
        if negb (on_model (fst nm) (snd pm)) then Ret (false, m)
        else
          model <~ wheel_zoom deltaX deltaY (snd pm);;
          let m := EnsureCachedRequestSize (size_t page) m in
          r <~ at_index (m_CachedRequestSizes m) page;;
          model <~ setProjection
                     (canvas_size model (scaled_size (size r) (GetDevicePixelRatio w))) model;;
          m <~ requestPixmapRefresh w w' (size_t page)
                 (set_model (fst (fst pm)) (snd (fst pm)) model m);;
          Ret (true, m)
    end.

(** ** Keys *)

(** Apply a key to the first model under the mouse. *)
Definition key_action (w : World) (act : V3dModel -> V3dModel) (m : Manager) :
    outcome (bool * Manager) :=
  'pm <~ GetPageMouseIsOver w m;;
  let page := fst pm in let m := snd pm in
  if (page =? -1) || (Z.of_nat (length (m_Models m)) <=? page) then Ret (false, m)
  else
    'nm <~ GetNormalizedPositionRelativeToPage w (vec2_of (m_MousePosition m)) page m;;
    let m := snd nm in
    models <~ at_index (m_Models m) page;;
    match list_find (fun model => on_model (fst nm) model) models with
    | Some (i, model) =>
        m <~ refreshPixmap w (size_t page) (set_model (Z.to_nat page) i (act model) m);;
        Ret (true, m)
    | None => Ret (true, m)
    end.

Definition keyPressEvent (w : World) (k : key) (m : Manager) : outcome (bool * Manager) :=
  if inactive w m then Ret (false, m)
  else match k with
       | Key_H => key_action w home m
       | Key_M => key_action w cycleMode m
       | Key_Other => Ret (false, m)
       end.

(** ** The event filters *)

Inductive event :=
| MouseMove (e : MouseEvent)
| MouseButtonPress (e : MouseEvent)
| MouseButtonRelease (e : MouseEvent)
| Wheel (deltaX deltaY : Z)
| KeyPress (k : key)
| PageViewRebindEvent
| ShowEvent
| DestroyEvent
| Other.

(** [EventFilter::eventFilter], on the PageView's viewport and on the
    presentation window; [modelManager] is null once the manager is destroyed. *)
Definition EventFilter_eventFilter (w w' : World) (o : object) (e : event) (m : Manager) :
    outcome (bool * Manager) :=
  if m_Destroying m then Ret (false, m)
  else match e with
       | MouseMove e => mouseMoveEvent w w' e (noteEventSource o m)
       | MouseButtonPress e => mouseButtonPressEvent w e (noteEventSource o m)
       | MouseButtonRelease e => Ret (mouseButtonReleaseEvent w e (noteEventSource o m))
       | Wheel dx dy => wheelEvent w w' dx dy (noteEventSource o m)
       | _ => Ret (false, m)
       end.

(** [ApplicationEventFilter::eventFilter], on the application.  Delivering a
    PageViewRebindEvent takes it off the queue. *)
Definition ApplicationEventFilter_eventFilter (w : World) (o : object) (e : event) (m : Manager) :
    outcome (bool * Manager) :=
  if m_Destroying m then Ret (false, m)
  else match e with
       | KeyPress k => if keyEventInOwnWindow w o m then keyPressEvent w k m else Ret (false, m)
       | PageViewRebindEvent => Ret (true, rebindPageView w (m <| rebind_queue ::= Nat.pred |>))
       | ShowEvent => m <~ handlePresentationWidgetEvent w o Show m;; Ret (false, m)
       | DestroyEvent => m <~ handlePresentationWidgetEvent w o Destroy m;; Ret (false, m)
       | _ => Ret (false, m)
       end.
End Input.
