(* ===== verification/Mesh.v ===== *)
(** * Vertex buffers and the geometry of the tessellation

    [asymptote/render.h] (the vertex buffers), [asymptote/bbox2.h] (the test
    whether projected points are off the screen) and the part of
    [asymptote/triple.h] that the tessellation uses, over the IEEE doubles of
    [Ieee].  An index is a [uint32_t]: a [Z] below 2^32, with the wrap-around
    of its computation written out. *)

From S2P Require Import Prelude Ieee Xstream Bound V3dData Model.
From coqutil Require Export Datatypes.RecordSetters.
Export TriangleBracketNotations.

(** ** Vertices ([render.h]) *)

(** [glm::vec4]: the components of a colour. *)
Record vec4 := mkVec4 { v4r : float32; v4g : float32; v4b : float32; v4a : float32 }.

Record MaterialVertex := mkMaterialVertex {
  mv_position : vec3; mv_normal : vec3; mv_material : Z
}.
Record ColorVertex := mkColorVertex {
  cv_position : vec3; cv_normal : vec3; cv_material : Z; cv_color : vec4
}.
Record PointVertex := mkPointVertex {
  pv_position : vec3; pv_width : float32; pv_material : Z
}.

(** [triple]'s conversion to [glm::vec3] narrows each coordinate. *)
Definition vec3_of (t : triple) : vec3 :=
  mkVec3 (float_of_double (tx t)) (float_of_double (ty t)) (float_of_double (tz t)).

(** The conversion of an integer to [int]. *)
Definition to_int (z : Z) : Z := wrapw 32 (z + 2 ^ 31) - 2 ^ 31.

(** ** [struct VertexBuffer] *)

Record VertexBuffer := mkVertexBuffer {
  materialVertices : list MaterialVertex;
  colorVertices : list ColorVertex;
  pointVertices : list PointVertex;
  indices : list Z;
  renderCount : Z
}.
Definition emptyBuffer : VertexBuffer := mkVertexBuffer [] [] [] [] 0.

(** [clear] leaves [renderCount] alone. *)
Definition clear (b : VertexBuffer) : VertexBuffer :=
  mkVertexBuffer [] [] [] [] (renderCount b).

Definition notRendered (b : VertexBuffer) : VertexBuffer := b <| renderCount := 0 |>.

Definition size32 {A} (l : list A) : Z := wrapw 32 (Z.of_nat (length l)).

(** The three [addVertex]: the index of the new vertex, and the buffer. *)
Definition addMaterialVertex (v : MaterialVertex) (b : VertexBuffer) : Z * VertexBuffer :=
  (size32 (materialVertices b), b <| materialVertices ::= fun l => l ++ [v] |>).
Definition addColorVertex (v : ColorVertex) (b : VertexBuffer) : Z * VertexBuffer :=
  (size32 (colorVertices b), b <| colorVertices ::= fun l => l ++ [v] |>).
Definition addPointVertex (v : PointVertex) (b : VertexBuffer) : Z * VertexBuffer :=
  (size32 (pointVertices b), b <| pointVertices ::= fun l => l ++ [v] |>).

(** [indices.push_back] of each of [l]. *)
Definition push_indices (l : list Z) (b : VertexBuffer) : VertexBuffer :=
  b <| indices ::= fun q => q ++ l |>.

Definition extendOffset (a b : list Z) (offset : Z) : list Z :=
  a ++ ((fun i => wrapw 32 (i + offset)) <$> b).

Definition extendMaterial (other b : VertexBuffer) : VertexBuffer :=
  b <| indices := extendOffset (indices b) (indices other) (size32 (materialVertices b)) |>
    <| materialVertices := materialVertices b ++ materialVertices other |>.
Definition extendColor (other b : VertexBuffer) : VertexBuffer :=
  b <| indices := extendOffset (indices b) (indices other) (size32 (colorVertices b)) |>
    <| colorVertices := colorVertices b ++ colorVertices other |>.
Definition extendPoint (other b : VertexBuffer) : VertexBuffer :=
  b <| indices := extendOffset (indices b) (indices other) (size32 (pointVertices b)) |>
    <| pointVertices := pointVertices b ++ pointVertices other |>.

(** The buffers of the scene: the globals of [bezierpatch.cc] and
    [beziercurve.cc] that the plugin fills. *)
Record Scene := mkScene {
  materialData : VertexBuffer;
  colorData : VertexBuffer;
  transparentData : VertexBuffer;
  lineData : VertexBuffer;
  pointData : VertexBuffer
}.

Definition emptyScene : Scene :=
  mkScene emptyBuffer emptyBuffer emptyBuffer emptyBuffer emptyBuffer.

(** [clearData] of [RenderModel]. *)
Definition clearData (s : Scene) : Scene :=
  mkScene (clear (materialData s)) (clear (colorData s)) (clear (transparentData s))
    (clear (lineData s)) (clear (pointData s)).

(** [hasRenderableData] of [RenderModel]. *)
Definition renderable (s : Scene) : bool :=
  existsb (fun b => negb (Nat.eqb (length (indices b)) 0))
    [materialData s; colorData s; lineData s; transparentData s; pointData s].

(** ** Points ([triple.h]) *)

Definition d3 : float64 := double_of_Z 3.
Definition d5 : float64 := double_of_Z 5.
Definition d6 : float64 := double_of_Z 6.
Definition third : float64 := ddiv d1 d3.
Definition ninth : float64 := ddiv d1 (double_of_Z 9).

(** [std::max] and [std::min]. *)
Definition std_max (a b : float64) : float64 := if SFltb a b then b else a.
Definition std_min (a b : float64) : float64 := if SFltb b a then b else a.

Definition tsub (z w : triple) : triple :=
  mkTriple (dsub (tx z) (tx w)) (dsub (ty z) (ty w)) (dsub (tz z) (tz w)).
(** [z*s], the scalar on the right. *)
Definition tmulr (z : triple) (s : float64) : triple :=
  mkTriple (dmul (tx z) s) (dmul (ty z) s) (dmul (tz z) s).

Definition dot (u v : triple) : float64 :=
  dadd (dadd (dmul (tx u) (tx v)) (dmul (ty u) (ty v))) (dmul (tz u) (tz v)).
Definition abs2 (v : triple) : float64 := dot v v.
Definition cross (u v : triple) : triple :=
  mkTriple (dsub (dmul (ty u) (tz v)) (dmul (tz u) (ty v)))
           (dsub (dmul (tz u) (tx v)) (dmul (tx u) (tz v)))
           (dsub (dmul (tx u) (ty v)) (dmul (ty u) (tx v))).

(** [std::fpclassify(x) == FP_NORMAL] *)
Definition fp_normal (x : float64) : bool :=
  match x with S754_finite _ m _ => 2 ^ 52 <=? Zpos m | _ => false end.

(** [unit(v)], whose default [v0] is the origin. *)
Definition unit3 (v : triple) : triple :=
  let scale := dsqrt (abs2 v) in
  if fp_normal scale then tmulr v (ddiv d1 scale) else origin.

Declare Scope triple_scope.
Delimit Scope triple_scope with T.
Infix "+" := tadd : triple_scope.
Infix "-" := tsub : triple_scope.
Infix "*" := tscale : triple_scope.
Bind Scope triple_scope with triple.

(** [0.5*(a+b)] *)
Definition half (a b : triple) : triple := tscale dhalf (tadd a b).

Definition Straightness (z0 c0 c1 z1 : triple) : float64 :=
  let v := (third * (z1 - z0))%T in
  std_max (abs2 (c0 - v - z0)%T) (abs2 (z1 - v - c1)%T).

Definition Flatness (a b c d : triple) : float64 :=
  let u := (b - a)%T in
  let v := (d - c)%T in
  dmul ninth (std_max (abs2 (cross u (unit3 v))) (abs2 (cross v (unit3 u)))).

Definition bezierPP (a b c : triple) : triple := (d3 * (a + c) - d6 * b)%T.
Definition bezierPPP (a b c d : triple) : triple := (d - a + d3 * (b - c))%T.
Definition bezierPh (a b c d : triple) : triple := (c + d - a - b)%T.
Definition bezierPPh (a b c d : triple) : triple := (d3 * a - d5 * b + c + d)%T.

(** ** The screen ([bbox2.h]) *)

(** The camera: [value_ptr] of the projection-view matrix (16 numbers, by
    columns) and of the normal matrix (9). *)
Record View := mkView { projViewMat : list float64; normalMat : list float64 }.

(** [Transform2T] of [triple.h]. *)
Definition Transform2T (t : list float64) (v : triple) : float64 * float64 :=
  let row i :=
    dadd (dadd (dadd (dmul (nthd t i) (tx v)) (dmul (nthd t (i + 4)) (ty v)))
               (dmul (nthd t (i + 8)) (tz v)))
         (nthd t (i + 12)) in
  let f := ddiv d1 (row 3%nat) in
  (dmul (row 0%nat) f, dmul (row 1%nat) f).

Section Screen.
Context (view : View).

Record bbox2 := mkBbox2 { bx : float64; by_ : float64; bX : float64; bY : float64 }.

Definition Bounds (v : triple) : bbox2 :=
  let '(a, b) := Transform2T (projViewMat view) v in mkBbox2 a b a b.

Definition bounds (s : bbox2) (v : triple) : bbox2 :=
  let '(a, b) := Transform2T (projViewMat view) v in
  let '(x, X) := if SFltb a (bx s) then (a, bX s)
                 else if SFltb (bX s) a then (bx s, a) else (bx s, bX s) in
  let '(y, Y) := if SFltb b (by_ s) then (b, bY s)
                 else if SFltb (bY s) b then (by_ s, b) else (by_ s, bY s) in
  mkBbox2 x y X Y.

(** [bbox2(n, v)]; the array is never empty. *)
Definition bbox2_points (v : list triple) : bbox2 :=
  match v with [] => Bounds origin | v0 :: vs => foldl bounds (Bounds v0) vs end.

(** [bbox2(m, M)]: the eight corners of a box. *)
Definition bbox2_box (m M : triple) : bbox2 :=
  bbox2_points
    [m; mkTriple (tx m) (ty m) (tz M); mkTriple (tx m) (ty M) (tz m); mkTriple (tx m) (ty M) (tz M);
     mkTriple (tx M) (ty m) (tz m); mkTriple (tx M) (ty m) (tz M); mkTriple (tx M) (ty M) (tz m); M].

(** The [offscreen] method. *)
Definition eps : float64 := f64_of_bits 0x3F847AE147AE147B.
Definition bbox2_offscreen (s : bbox2) : bool :=
  let min := dsub dm1 eps in
  let max := dadd d1 eps in
  SFltb (bX s) min || SFltb max (bx s) || SFltb (bY s) min || SFltb max (by_ s).

Definition points_offscreen (v : list triple) : bool := bbox2_offscreen (bbox2_points v).
Definition box_offscreen (m M : triple) : bool := bbox2_offscreen (bbox2_box m M).
End Screen.

(** [billboardTransform] of [V3dFile.cpp]: a vertex turned about a center. *)
Definition billboardTransform (view : View) (center v : vec3) : vec3 :=
  let BBT := nthd (normalMat view) in
  let cx := double_of_float (v3x center) in
  let cy := double_of_float (v3y center) in
  let cz := double_of_float (v3z center) in
  let x := dsub (double_of_float (v3x v)) cx in
  let y := dsub (double_of_float (v3y v)) cy in
  let z := dsub (double_of_float (v3z v)) cz in
  let row i c := float_of_double
    (dadd (dadd (dadd (dmul x (BBT i)) (dmul y (BBT (i + 3)%nat))) (dmul z (BBT (i + 6)%nat))) c) in
  mkVec3 (row 0%nat cx) (row 1%nat cy) (row 2%nat cz).
