(* ===== verification/Tess.v ===== *)
(** * The tessellation

    [asymptote/beziercurve.{h,cc}] and [asymptote/bezierpatch.{h,cc}]: adaptive
    subdivision of Bezier curves, patches and triangles into the vertex buffer
    of an object.

    The three recursive [render] functions have one shape: when the piece is
    flat, push the indices of its corners for every face that is on the screen;
    otherwise give up if its control points are off the screen, else add the new
    vertices and recurse on the parts, whose corners are corners of the piece or
    new vertices.  [curve_step], [patch_step] and [triangle_step] say what each
    [render] does with a piece, in these terms; [render_piece] does it.

    The recursion of the sources has no bound: [fuel] is the depth, and a depth
    that is not enough is the outcome [NoFuel]. *)

From S2P Require Import Prelude Ieee Xstream Bound V3dData Model Mesh.

(** ** One step *)

Record Vertex := mkVertex { pos : triple; norm : triple; vcol : vec4 }.

(** A corner of a part: corner [k] of the piece, [I]k in the sources, or the
    [k]-th vertex it adds, [i]k. *)
Inductive slot := Corner (k : nat) | Fresh (k : nat).

Inductive Action (G : Type) :=
  | Emit (faces : list (list triple * list nat))
  | Split (control : list triple) (vertices : list Vertex) (parts : list (G * list slot)).
Arguments Emit {G} faces.
Arguments Split {G} control vertices parts.

#[local] Abbreviation I0 := (Corner 0).
#[local] Abbreviation I1 := (Corner 1).
#[local] Abbreviation I2 := (Corner 2).
#[local] Abbreviation I3 := (Corner 3).
#[local] Abbreviation i0 := (Fresh 0).
#[local] Abbreviation i1 := (Fresh 1).
#[local] Abbreviation i2 := (Fresh 2).
#[local] Abbreviation i3 := (Fresh 3).
#[local] Abbreviation i4 := (Fresh 4).

Definition resolve (corners fresh : list Z) (s : slot) : Z :=
  match s with Corner k => nth k corners 0 | Fresh k => nth k fresh 0 end.

(** The loop over the parts. *)
Section Fold.
Context {A S : Type} (f : A -> S -> outcome S).
Fixpoint ofold (l : list A) (s : S) : outcome S :=
  match l with [] => Ret s | a :: l => s <~ f a s;; ofold l s end.
End Fold.

(** What a [render] changes: the vertex buffer of the object, and [Onscreen]. *)
Record Tess := mkTess { data : VertexBuffer; Onscreen : bool }.

Definition black : vec4 := mkVec4 f0 f0 f0 f0.

(** The parameters of a tessellation: the camera, the template parameters [T]
    (transparent) and [C] (coloured), and the members that [init] and the outer
    [render] set before the recursion reads them. *)
Record Params := mkParams {
  view : View; isTransparent : bool; isColor : bool;
  MaterialIndex : Z; res2 : float64; Epsilon : float64; epsilon : float64
}.

Section Tess.
Context (k : Params).

(** [addVertex<T,C>] *)
Definition addVertex (v : Vertex) (b : VertexBuffer) : Z * VertexBuffer :=
  let p := vec3_of (pos v) in
  let n := vec3_of (norm v) in
  if isColor k then addColorVertex (mkColorVertex p n (MaterialIndex k) (vcol v)) b
  else if isTransparent k then addColorVertex (mkColorVertex p n (MaterialIndex k) black) b
  else addMaterialVertex (mkMaterialVertex p n (MaterialIndex k)) b.

Fixpoint add_vertices (vs : list Vertex) (b : VertexBuffer) : list Z * VertexBuffer :=
  match vs with
  | [] => ([], b)
  | v :: vs =>
      let '(i, b) := addVertex v b in
      let '(l, b) := add_vertices vs b in (i :: l, b)
  end.

(** The [offscreen] method of the tessellators. *)
Definition offscreen (v : list triple) (t : Tess) : bool * Tess :=
  if points_offscreen (view k) v then (true, t <| Onscreen := false |>) else (false, t).

Definition emit_face (corners : list Z) (t : Tess) (face : list triple * list nat) : Tess :=
  let '(off, t) := offscreen (fst face) t in
  if off then t
  else t <| data ::= push_indices (map (fun c => nth c corners 0) (snd face)) |>.

Section Engine.
Context {G : Type} (step : G -> Action G).

Fixpoint render_piece (fuel : nat) (piece : G * list Z) (t : Tess) : outcome Tess :=
  match fuel with
  | O => NoFuel
  | S fuel =>
      let '(g, corners) := piece in
      match step g with
      | Emit faces => Ret (foldl (emit_face corners) t faces)
      | Split control vertices parts =>
          let '(off, t) := offscreen control t in
          if off then Ret t
          else
            let '(fresh, b) := add_vertices vertices (data t) in
            ofold (render_piece fuel)
              (map (fun p => (fst p, map (resolve corners fresh) (snd p))) parts) (t <| data := b |>)
      end
  end.
End Engine.

Definition lt_res2 (x : float64) : bool := SFltb x (res2 k).

(** [p[i]] *)
Definition pt (p : list triple) (i : nat) : triple := nth i p origin.

(** ** Curves ([beziercurve.cc]) *)

(** [normal(bP, bPP)] of the curves. *)
Definition curve_normal (bP bPP : triple) : triple := (dot bP bP * bPP - dot bP bPP * bP)%T.

Definition curve_step (p : list triple) : Action (list triple) :=
  let p0 := pt p 0 in let p1 := pt p 1 in let p2 := pt p 2 in let p3 := pt p 3 in
  if lt_res2 (Straightness p0 p1 p2 p3) then Emit [([p0; p3], [0; 1]%nat)]
  else
    let m0 := half p0 p1 in
    let m1 := half p1 p2 in
    let m2 := half p2 p3 in
    let m3 := half m0 m1 in
    let m4 := half m1 m2 in
    let m5 := half m3 m4 in
    let s0 := [p0; m0; m3; m5] in
    let s1 := [m5; m4; m2; p3] in
    let n0 := curve_normal (bezierPh p0 p1 p2 p3) (bezierPPh p0 p1 p2 p3) in
    Split p [mkVertex m5 n0 black] [(s0, [I0; i0]); (s1, [i0; I1])].

(** ** Patches ([bezierpatch.h], [bezierpatch.cc]) *)

(** [x > epsilon] *)
Definition gt_epsilon (x : float64) : bool := SFltb (epsilon k) x.
(** [x <= epsilon] *)
Definition le_epsilon (x : float64) : bool := SFleb x (epsilon k).

Definition normal (left3 left2 left1 middle right1 right2 right3 : triple) : triple :=
  let lp := (d3 * (left1 - middle))%T in
  let rp := (d3 * (right1 - middle))%T in
  let n := cross rp lp in
  if gt_epsilon (abs2 n) then n
  else
    let lpp := bezierPP middle left1 left2 in
    let rpp := bezierPP middle right1 right2 in
    let n := (cross rpp lp + cross rp lpp)%T in
    if gt_epsilon (abs2 n) then n
    else
      let lppp := bezierPPP middle left1 left2 left3 in
      let rppp := bezierPPP middle right1 right2 right3 in
      let n := (cross rpp lpp + cross rppp lp + cross rp lppp)%T in
      if gt_epsilon (abs2 n) then n
      else
        let n := (cross rppp lpp + cross rpp lppp)%T in
        if gt_epsilon (abs2 n) then n else cross rppp lppp.

Definition differential (p0 p1 p2 p3 : triple) : triple :=
  let p := (p1 - p0)%T in
  if gt_epsilon (abs2 p) then p
  else
    let p := bezierPP p0 p1 p2 in
    if gt_epsilon (abs2 p) then p else bezierPPP p0 p1 p2 p3.

(** [normal] of seven of the points of [s], given by their numbers. *)
Definition normal_at (s : list triple) (l3 l2 l1 m r1 r2 r3 : nat) : triple :=
  normal (pt s l3) (pt s l2) (pt s l1) (pt s m) (pt s r1) (pt s r2) (pt s r3).

(** A normal, replaced by the next candidate while it vanishes. *)
Definition or_else (n n' : triple) : triple := if le_epsilon (abs2 n) then n' else n.

(** [struct Split3], its member [m]k here [sp]k; [m1] is local to its constructor. *)
Record Split3 := mkSplit3 { sp0 : triple; sp2 : triple; sp3 : triple; sp4 : triple; sp5 : triple }.
Definition split3 (z0 c0 c1 z1 : triple) : Split3 :=
  let a0 := half z0 c0 in
  let a1 := half c0 c1 in
  let a2 := half c1 z1 in
  let a3 := half a0 a1 in
  let a4 := half a1 a2 in
  mkSplit3 a0 a2 a3 a4 (half a3 a4).

(** [Distance] of a patch. *)
Definition patch_distance (p : list triple) : float64 * float64 :=
  let p := pt p in
  let edge a b c d := Straightness (p a) (p b) (p c) (p d) in
  let h := Flatness (p 0%nat) (p 12%nat) (p 3%nat) (p 15%nat) in
  let h := std_max h (edge 0 4 8 12)%nat in
  let h := std_max h (edge 1 5 9 13)%nat in
  let h := std_max h (edge 2 6 10 14)%nat in
  let h := std_max h (edge 3 7 11 15)%nat in
  let v := Flatness (p 0%nat) (p 3%nat) (p 12%nat) (p 15%nat) in
  let v := std_max v (edge 0 1 2 3)%nat in
  let v := std_max v (edge 4 5 6 7)%nat in
  let v := std_max v (edge 8 9 10 11)%nat in
  let v := std_max v (edge 12 13 14 15)%nat in
  (h, v).

(** [c[i]=0.5*(a[i]+b[i])] for the four components: the sum is a [float], the
    product a [double]. *)
Definition half_col (a b : vec4) : vec4 :=
  let h x y := float_of_double (dmul dhalf (double_of_float (fadd x y))) in
  mkVec4 (h (v4r a) (v4r b)) (h (v4g a) (v4g b)) (h (v4b a) (v4b b)) (h (v4a a) (v4a b)).

(** The position of the midpoint of an edge, and the edge's new flatness flag:
    the crack kludge of the sources.  [m] is the midpoint of the adjusted
    corners, [straight] whether the edge passes the straightness test, [adjust]
    the derivative across it, [mid] the point on the curve. *)
Definition edge_point (flat straight : bool) (m : triple) (adjust mid : triple) : triple * bool :=
  if flat then (m, true)
  else if straight then
    (if SFeqb (Epsilon k) d0 then m else (m - Epsilon k * unit3 adjust)%T, true)
  else (mid, false).

(** A part of a patch: its control points, the adjusted corners [P]i, the
    flatness flags and the corner colours. *)
Record PatchPiece := mkPatch {
  p_ctrl : list triple;
  P0 : triple; P1 : triple; P2 : triple; P3 : triple;
  flat0 : bool; flat1 : bool; flat2 : bool; flat3 : bool;
  C0 : vec4; C1 : vec4; C2 : vec4; C3 : vec4
}.

Definition differential_at (s : list triple) (a b c d : nat) : triple :=
  differential (pt s a) (pt s b) (pt s c) (pt s d).
Definition straight_at (p : list triple) (a b c d : nat) : bool :=
  lt_res2 (Straightness (pt p a) (pt p b) (pt p c) (pt p d)).

(** Flat in horizontal direction: split vertically. *)
Definition split_vertically (q : PatchPiece) : Action PatchPiece :=
  let p := p_ctrl q in
  let c0 := split3 (pt p 0) (pt p 1) (pt p 2) (pt p 3) in
  let c1 := split3 (pt p 4) (pt p 5) (pt p 6) (pt p 7) in
  let c2 := split3 (pt p 8) (pt p 9) (pt p 10) (pt p 11) in
  let c3 := split3 (pt p 12) (pt p 13) (pt p 14) (pt p 15) in
  let s0 := [pt p 0; sp0 c0; sp3 c0; sp5 c0; pt p 4; sp0 c1; sp3 c1; sp5 c1;
             pt p 8; sp0 c2; sp3 c2; sp5 c2; pt p 12; sp0 c3; sp3 c3; sp5 c3] in
  let s1 := [sp5 c0; sp4 c0; sp2 c0; pt p 3; sp5 c1; sp4 c1; sp2 c1; pt p 7;
             sp5 c2; sp4 c2; sp2 c2; pt p 11; sp5 c3; sp4 c3; sp2 c3; pt p 15] in
  let n0 := or_else (normal_at s0 12 13 14 15 11 7 3)
              (or_else (normal_at s0 12 13 14 15 2 1 0) (normal_at s0 0 4 8 12 11 7 3)) in
  let n1 := or_else (normal_at s1 3 2 1 0 4 8 12)
              (or_else (normal_at s1 3 2 1 0 13 14 15) (normal_at s1 15 11 7 3 4 8 12)) in
  let '(m0, flat1) := edge_point (flat1 q) (straight_at p 12 13 14 15) (half (P1 q) (P2 q))
                        (differential_at s1 12 8 4 0) (pt s0 15) in
  let '(m1, flat3) := edge_point (flat3 q) (straight_at p 0 1 2 3) (half (P3 q) (P0 q))
                        (differential_at s0 3 7 11 15) (pt s1 0) in
  let c0 := half_col (C1 q) (C2 q) in
  let c1 := half_col (C3 q) (C0 q) in
  Split p [mkVertex m0 n0 c0; mkVertex m1 n1 c1]
    [(mkPatch s0 (P0 q) (P1 q) m0 m1 (flat0 q) flat1 false flat3 (C0 q) (C1 q) c0 c1,
      [I0; I1; i0; i1]);
     (mkPatch s1 m1 m0 (P2 q) (P3 q) false flat1 (flat2 q) flat3 c1 c0 (C2 q) (C3 q),
      [i1; i0; I2; I3])].

(** Flat in vertical direction: split horizontally. *)
Definition split_horizontally (q : PatchPiece) : Action PatchPiece :=
  let p := p_ctrl q in
  let c0 := split3 (pt p 0) (pt p 4) (pt p 8) (pt p 12) in
  let c1 := split3 (pt p 1) (pt p 5) (pt p 9) (pt p 13) in
  let c2 := split3 (pt p 2) (pt p 6) (pt p 10) (pt p 14) in
  let c3 := split3 (pt p 3) (pt p 7) (pt p 11) (pt p 15) in
  let s0 := [pt p 0; pt p 1; pt p 2; pt p 3; sp0 c0; sp0 c1; sp0 c2; sp0 c3;
             sp3 c0; sp3 c1; sp3 c2; sp3 c3; sp5 c0; sp5 c1; sp5 c2; sp5 c3] in
  let s1 := [sp5 c0; sp5 c1; sp5 c2; sp5 c3; sp4 c0; sp4 c1; sp4 c2; sp4 c3;
             sp2 c0; sp2 c1; sp2 c2; sp2 c3; pt p 12; pt p 13; pt p 14; pt p 15] in
  let n0 := or_else (normal_at s0 0 4 8 12 13 14 15)
              (or_else (normal_at s0 0 4 8 12 11 7 3) (normal_at s0 3 2 1 0 13 14 15)) in
  let n1 := or_else (normal_at s1 15 11 7 3 2 1 0)
              (or_else (normal_at s1 15 11 7 3 4 8 12) (normal_at s1 12 13 14 15 2 1 0)) in
  let '(m0, flat0) := edge_point (flat0 q) (straight_at p 0 4 8 12) (half (P0 q) (P1 q))
                        (differential_at s1 0 1 2 3) (pt s0 12) in
  let '(m1, flat2) := edge_point (flat2 q) (straight_at p 15 11 7 3) (half (P2 q) (P3 q))
                        (differential_at s0 15 14 13 12) (pt s1 3) in
  let c0 := half_col (C0 q) (C1 q) in
  let c1 := half_col (C2 q) (C3 q) in
  Split p [mkVertex m0 n0 c0; mkVertex m1 n1 c1]
    [(mkPatch s0 (P0 q) m0 m1 (P3 q) flat0 false flat2 (flat3 q) (C0 q) c0 c1 (C3 q),
      [I0; i0; i1; I3]);
     (mkPatch s1 m0 (P1 q) (P2 q) m1 flat0 (flat1 q) flat2 false c0 (C1 q) (C2 q) c1,
      [i0; I1; I2; i1])].

(** Horizontal and vertical subdivision. *)
Definition split_both (q : PatchPiece) : Action PatchPiece :=
  let p := p_ctrl q in
  let c0 := split3 (pt p 0) (pt p 1) (pt p 2) (pt p 3) in
  let c1 := split3 (pt p 4) (pt p 5) (pt p 6) (pt p 7) in
  let c2 := split3 (pt p 8) (pt p 9) (pt p 10) (pt p 11) in
  let c3 := split3 (pt p 12) (pt p 13) (pt p 14) (pt p 15) in
  let c4 := split3 (pt p 0) (pt p 4) (pt p 8) (pt p 12) in
  let c5 := split3 (sp0 c0) (sp0 c1) (sp0 c2) (sp0 c3) in
  let c6 := split3 (sp3 c0) (sp3 c1) (sp3 c2) (sp3 c3) in
  let c7 := split3 (sp5 c0) (sp5 c1) (sp5 c2) (sp5 c3) in
  let c8 := split3 (sp4 c0) (sp4 c1) (sp4 c2) (sp4 c3) in
  let c9 := split3 (sp2 c0) (sp2 c1) (sp2 c2) (sp2 c3) in
  let c10 := split3 (pt p 3) (pt p 7) (pt p 11) (pt p 15) in
  let s0 := [pt p 0; sp0 c0; sp3 c0; sp5 c0; sp0 c4; sp0 c5; sp0 c6; sp0 c7;
             sp3 c4; sp3 c5; sp3 c6; sp3 c7; sp5 c4; sp5 c5; sp5 c6; sp5 c7] in
  let s1 := [sp5 c4; sp5 c5; sp5 c6; sp5 c7; sp4 c4; sp4 c5; sp4 c6; sp4 c7;
             sp2 c4; sp2 c5; sp2 c6; sp2 c7; pt p 12; sp0 c3; sp3 c3; sp5 c3] in
  let s2 := [sp5 c7; sp5 c8; sp5 c9; sp5 c10; sp4 c7; sp4 c8; sp4 c9; sp4 c10;
             sp2 c7; sp2 c8; sp2 c9; sp2 c10; sp5 c3; sp4 c3; sp2 c3; pt p 15] in
  let s3 := [sp5 c0; sp4 c0; sp2 c0; pt p 3; sp0 c7; sp0 c8; sp0 c9; sp0 c10;
             sp3 c7; sp3 c8; sp3 c9; sp3 c10; sp5 c7; sp5 c8; sp5 c9; sp5 c10] in
  let m4 := pt s0 15 in
  let n0 := or_else (normal_at s0 0 4 8 12 13 14 15)
              (or_else (normal_at s0 0 4 8 12 11 7 3) (normal_at s0 3 2 1 0 13 14 15)) in
  let n1 := or_else (normal_at s1 12 13 14 15 11 7 3)
              (or_else (normal_at s1 12 13 14 15 2 1 0) (normal_at s1 0 4 8 12 11 7 3)) in
  let n2 := or_else (normal_at s2 15 11 7 3 2 1 0)
              (or_else (normal_at s2 15 11 7 3 4 8 12) (normal_at s2 12 13 14 15 2 1 0)) in
  let n3 := or_else (normal_at s3 3 2 1 0 4 8 12)
              (or_else (normal_at s3 3 2 1 0 13 14 15) (normal_at s3 15 11 7 3 4 8 12)) in
  let n4 := normal (pt s2 3) (pt s2 2) (pt s2 1) m4 (pt s2 4) (pt s2 8) (pt s2 12) in
  let '(m0, flat0) := edge_point (flat0 q) (straight_at p 0 4 8 12) (half (P0 q) (P1 q))
                        (differential_at s1 0 1 2 3) (pt s0 12) in
  let '(m1, flat1) := edge_point (flat1 q) (straight_at p 12 13 14 15) (half (P1 q) (P2 q))
                        (differential_at s2 12 8 4 0) (pt s1 15) in
  let '(m2, flat2) := edge_point (flat2 q) (straight_at p 15 11 7 3) (half (P2 q) (P3 q))
                        (differential_at s3 15 14 13 12) (pt s2 3) in
  let '(m3, flat3) := edge_point (flat3 q) (straight_at p 0 1 2 3) (half (P3 q) (P0 q))
                        (differential_at s0 3 7 11 15) (pt s3 0) in
  let c0 := half_col (C0 q) (C1 q) in
  let c1 := half_col (C1 q) (C2 q) in
  let c2 := half_col (C2 q) (C3 q) in
  let c3 := half_col (C3 q) (C0 q) in
  let c4 := half_col c0 c2 in
  Split p
    [mkVertex m0 n0 c0; mkVertex m1 n1 c1; mkVertex m2 n2 c2; mkVertex m3 n3 c3; mkVertex m4 n4 c4]
    [(mkPatch s0 (P0 q) m0 m4 m3 flat0 false false flat3 (C0 q) c0 c4 c3, [I0; i0; i4; i3]);
     (mkPatch s1 m0 (P1 q) m1 m4 flat0 flat1 false false c0 (C1 q) c1 c4, [i0; I1; i1; i4]);
     (mkPatch s2 m4 m1 (P2 q) m2 false flat1 flat2 false c4 c1 (C2 q) c2, [i4; i1; I2; i2]);
     (mkPatch s3 m3 m4 m2 (P3 q) false false flat2 flat3 c3 c4 c2 (C3 q), [i3; i4; i2; I3])].

Definition patch_step (q : PatchPiece) : Action PatchPiece :=
  let '(dx, dy) := patch_distance (p_ctrl q) in
  if lt_res2 dx && lt_res2 dy then
    Emit [([P0 q; P1 q; P2 q], [0; 1; 2]%nat); ([P0 q; P2 q; P3 q], [0; 2; 3]%nat)]
  else if lt_res2 dx then split_vertically q
  else if lt_res2 dy then split_horizontally q
  else split_both q.

(** ** Triangles *)

(** [Distance] of a triangle. *)
Definition triangle_distance (p : list triple) : float64 :=
  let p := pt p in
  let edge a b c d := Straightness (p a) (p b) (p c) (p d) in
  let d := abs2 (tmulr (p 0%nat + p 6%nat + p 9%nat) third - p 4%nat)%T in
  let d := std_max d (edge 0 1 3 6)%nat in
  let d := std_max d (edge 0 2 5 9)%nat in
  std_max d (edge 6 7 8 9)%nat.

Record TrianglePiece := mkTriangle {
  t_ctrl : list triple;
  Q0 : triple; Q1 : triple; Q2 : triple;           (* P0, P1, P2 *)
  tflat0 : bool; tflat1 : bool; tflat2 : bool;     (* flat0, flat1, flat2 *)
  D0 : vec4; D1 : vec4; D2 : vec4                  (* C0, C1, C2 *)
}.

Definition subdivide_triangle (q : TrianglePiece) : Action TrianglePiece :=
  let p := t_ctrl q in
  let h := half in
  let qu := tscale dquarter in
  let l003 := pt p 0 in let p102 := pt p 1 in let p012 := pt p 2 in
  let p201 := pt p 3 in let p111 := pt p 4 in let p021 := pt p 5 in
  let r300 := pt p 6 in let p210 := pt p 7 in let p120 := pt p 8 in
  let u030 := pt p 9 in
  let u021 := h u030 p021 in let u120 := h u030 p120 in
  let p033 := h p021 p012 in let p231 := h p120 p111 in let p330 := h p120 p210 in
  let p123 := h p012 p111 in
  let l012 := h p012 l003 in let p312 := h p111 p201 in let r210 := h p210 r300 in
  let l102 := h l003 p102 in let p303 := h p102 p201 in let r201 := h p201 r300 in
  let u012 := h u021 p033 in let u210 := h u120 p330 in
  let l021 := h p033 l012 in
  let p4xx := (dhalf * p231 + qu (p111 + p102))%T in
  let r120 := h p330 r210 in
  let px4x := (dhalf * p123 + qu (p111 + p210))%T in
  let pxx4 := (qu (p021 + p111) + dhalf * p312)%T in
  let l201 := h l102 p303 in let r102 := h p303 r201 in
  let l210 := h px4x l201 in let r012 := h px4x r102 in let l300 := h l201 r102 in
  let r021 := h pxx4 r120 in let u201 := h u210 pxx4 in let r030 := h u210 r120 in
  let u102 := h u012 p4xx in let l120 := h l021 p4xx in let l030 := h u012 l021 in
  let l111 := h p123 l102 in let r111 := h p312 r210 in let u111 := h u021 p231 in
  let c111 := qu (p033 + p330 + p303 + p111)%T in
  let l := [l003; l102; l012; l201; l111; l021; l300; l210; l120; l030] in
  let r := [l300; r102; r012; r201; r111; r021; r300; r210; r120; r030] in
  let u := [l030; u102; u012; u201; u111; u021; r030; u210; u120; u030] in
  let c := [r030; u201; r021; u102; c111; r012; l030; l120; l210; l300] in
  let n0 := normal l300 r012 r021 r030 u201 u102 l030 in
  let n1 := normal r030 u201 u102 l030 l120 l210 l300 in
  let n2 := normal l030 l120 l210 l300 r012 r021 r030 in
  let '(m0, flat0) := edge_point (tflat0 q) (lt_res2 (Straightness r300 p210 p120 u030))
    (half (Q1 q) (Q2 q)) (differential_at c 0 2 5 9 + differential_at c 0 1 3 6)%T r030 in
  let '(m1, flat1) := edge_point (tflat1 q) (lt_res2 (Straightness l003 p012 p021 u030))
    (half (Q2 q) (Q0 q)) (differential_at c 6 3 1 0 + differential_at c 6 7 8 9)%T l030 in
  let '(m2, flat2) := edge_point (tflat2 q) (lt_res2 (Straightness l003 p102 p201 r300))
    (half (Q0 q) (Q1 q)) (differential_at c 9 8 7 6 + differential_at c 9 5 2 0)%T l300 in
  let c0 := half_col (D1 q) (D2 q) in
  let c1 := half_col (D2 q) (D0 q) in
  let c2 := half_col (D0 q) (D1 q) in
  Split p [mkVertex m0 n0 c0; mkVertex m1 n1 c1; mkVertex m2 n2 c2]
    [(mkTriangle l (Q0 q) m2 m1 false flat1 flat2 (D0 q) c2 c1, [I0; i2; i1]);
     (mkTriangle r m2 (Q1 q) m0 flat0 false flat2 c2 (D1 q) c0, [i2; I1; i0]);
     (mkTriangle u m1 m0 (Q2 q) flat0 flat1 false c1 c0 (D2 q), [i1; i0; I2]);
     (mkTriangle c m0 m1 m2 false false false c0 c1 c2, [i0; i1; i2])].

Definition triangle_step (q : TrianglePiece) : Action TrianglePiece :=
  if lt_res2 (triangle_distance (t_ctrl q)) then
    Emit [([Q0 q; Q1 q; Q2 q], [0; 1; 2]%nat)]
  else subdivide_triangle q.
End Tess.

(** ** The outer [render]: corners first, then the recursion *)

(** The indices of the corners, and what follows: the faces of a straight piece
    (after all corners are added), or the recursion. *)
Definition render_outer {G} (k : Params) (step : G -> Action G) (fuel : nat) (straight : bool)
    (corners : list Vertex) (faces : list (list triple * list nat)) (g : G) (t : Tess) :
    outcome Tess :=
  let '(ids, b) := add_vertices k corners (data t) in
  let t := t <| data := b |> in
  if straight then Ret (foldl (emit_face k ids) t faces)
  else render_piece k step fuel (g, ids) t.

(** [epsilon]: relative to the greatest distance of a control point from the first. *)
Definition epsilon_of (p : list triple) : float64 :=
  let p0 := pt p 0 in
  dmul (foldl (fun e q => std_max e (abs2 (q - p0)%T)) d0 (tail p)) DBL_EPSILON.

Definition FillFactor : float64 := f64_of_bits 0x3FB999999999999A.

(** ** [struct BezierCurve] *)

Section Queue.
Context (view : View) (fuel : nat).

(** [BezierCurve::init] of the resolution. *)
Definition curve_params (materialIndex : Z) (res : float64) : Params :=
  mkParams view false false (to_int materialIndex) (dmul res res) d0 d0.

Definition curve_render (k : Params) (p : list triple) (straight : bool) (t : Tess) : outcome Tess :=
  let p0 := pt p 0 in let p1 := pt p 1 in let p2 := pt p 2 in let p3 := pt p 3 in
  let '(n0, n1) :=
    if straight then (mkTriple d0 d0 d1, mkTriple d0 d0 d1)
    else (curve_normal (p1 - p0)%T (p0 + p2 - d2 * p1)%T,
          curve_normal (p3 - p2)%T (p3 + p1 - d2 * p2)%T) in
  let '(ids, b) := add_vertices k [mkVertex p0 n0 black; mkVertex p3 n1 black] (data t) in
  let t := t <| data := b |> in
  if straight then Ret (t <| data ::= push_indices ids |>)
  else render_piece k (curve_step k) fuel (p, ids) t.

(** [BezierCurve::queue]; the curve appends itself to [lineData]. *)
Definition curve_queue (g : list triple) (straight : bool) (ratio : float64) (materialIndex : Z)
    (t : Tess) (s : Scene) : outcome (Tess * Scene) :=
  let t := mkTess (clear (data t)) true in
  let s := s <| lineData ::= notRendered |> in
  t <~ curve_render (curve_params materialIndex (dmul d1 ratio)) g straight t;;
  Ret (t, s <| lineData ::= extendMaterial (data t) |>).

(** [Pixel::queue] as [V3dPixel::QueueMesh] repeats it: one point. *)
Definition pixel_queue (p : triple) (width : float64) (materialIndex : Z) (s : Scene) : Scene :=
  let v := mkPointVertex (vec3_of p) (float_of_double width) (to_int materialIndex) in
  let s := s <| pointData ::= notRendered |> in
  let '(i, data) := addPointVertex v emptyBuffer in
  let data := push_indices [i] data in
  s <| pointData ::= extendPoint data |>.

(** ** [struct BezierPatch], [struct BezierTriangle] *)

Record Bezier := mkBezier { tess : Tess; transparent : bool; color : bool }.
Definition newBezier : Bezier := mkBezier (mkTess emptyBuffer true) false false.
Definition newCurve : Tess := mkTess emptyBuffer true.

(** [append] and [notRendered]: the buffer depends on the two flags. *)
Definition target (f : VertexBuffer -> VertexBuffer) (g : VertexBuffer -> VertexBuffer)
    (b : Bezier) (s : Scene) : Scene :=
  if transparent b then s <| transparentData ::= f |>
  else if color b then s <| colorData ::= f |>
  else s <| materialData ::= g |>.
Definition append (b : Bezier) : Scene -> Scene :=
  target (extendColor (data (tess b))) (extendMaterial (data (tess b))) b.
Definition bezier_notRendered : Bezier -> Scene -> Scene := target notRendered notRendered.

(** [BezierPatch::init] *)
Definition bezier_params (b : Bezier) (materialIndex : Z) (res epsilon : float64) : Params :=
  mkParams view (transparent b) (color b)
    (to_int (if transparent b
             then (if color b then -1 - materialIndex else 1 + materialIndex)
             else materialIndex))
    (dmul res res) (if transparent b then d0 else dmul FillFactor res) epsilon.

Definition col_at (c : list vec4) (i : nat) : vec4 := nth i c black.

(** [BezierPatch::render] up to [append]. *)
Definition patch_render (k : Params) (p : list triple) (straight : bool) (c : list vec4) (t : Tess) :
    outcome Tess :=
  let p0 := pt p 0 in let p3 := pt p 3 in let p12 := pt p 12 in let p15 := pt p 15 in
  let n0 := or_else k (normal_at k p 3 2 1 0 4 8 12)
    (or_else k (normal_at k p 3 2 1 0 13 14 15) (normal_at k p 15 11 7 3 4 8 12)) in
  let n1 := or_else k (normal_at k p 0 4 8 12 13 14 15)
    (or_else k (normal_at k p 0 4 8 12 11 7 3) (normal_at k p 3 2 1 0 13 14 15)) in
  let n2 := or_else k (normal_at k p 12 13 14 15 11 7 3)
    (or_else k (normal_at k p 12 13 14 15 2 1 0) (normal_at k p 0 4 8 12 11 7 3)) in
  let n3 := or_else k (normal_at k p 15 11 7 3 2 1 0)
    (or_else k (normal_at k p 15 11 7 3 4 8 12) (normal_at k p 12 13 14 15 2 1 0)) in
  let c0 := col_at c 0 in let c1 := col_at c 1 in let c2 := col_at c 2 in let c3 := col_at c 3 in
  render_outer k (patch_step k) fuel straight
    [mkVertex p0 n0 c0; mkVertex p12 n1 c1; mkVertex p15 n2 c2; mkVertex p3 n3 c3]
    [([p0; p12; p15], [0; 1; 2]%nat); ([p0; p15; p3], [0; 2; 3]%nat)]
    (mkPatch p p0 p12 p15 p3 false false false false c0 c1 c2 c3) t.

(** [BezierTriangle::render] up to [append]. *)
Definition triangle_render (k : Params) (p : list triple) (straight : bool) (c : list vec4) (t : Tess) :
    outcome Tess :=
  let p0 := pt p 0 in let p6 := pt p 6 in let p9 := pt p 9 in
  let n0 := normal_at k p 9 5 2 0 1 3 6 in
  let n1 := normal_at k p 0 1 3 6 7 8 9 in
  let n2 := normal_at k p 6 7 8 9 5 2 0 in
  let c0 := col_at c 0 in let c1 := col_at c 1 in let c2 := col_at c 2 in
  render_outer k (triangle_step k) fuel straight
    [mkVertex p0 n0 c0; mkVertex p6 n1 c1; mkVertex p9 n2 c2]
    [([p0; p6; p9], [0; 1; 2]%nat)]
    (mkTriangle p p0 p6 p9 false false false c0 c1 c2) t.

(** The two kinds of surface: the virtual [render] of the structs. *)
Inductive surface := IsPatch | IsTriangle.
Definition surface_render (kind : surface) :=
  match kind with IsPatch => patch_render | IsTriangle => triangle_render end.

(** [BezierPatch::queue] *)
Definition bezier_queue (kind : surface) (g : list triple) (straight : bool) (ratio : float64)
    (Transparent : bool) (colors : option (list vec4)) (materialIndex : Z) (b : Bezier) (s : Scene) :
    outcome (Bezier * Scene) :=
  let b := mkBezier (mkTess (clear (data (tess b))) true) Transparent
             (match colors with Some _ => true | None => false end) in
  let s := bezier_notRendered b s in
  let k := bezier_params b materialIndex (dmul d1 ratio) (epsilon_of g) in
  t <~ surface_render kind k g straight (default [] colors) (tess b);;
  let b := b <| tess := t |> in
  Ret (b, append b s).
End Queue.
