(* ===== verification/TessProps.v ===== *)
(** * What the tessellation leaves in a vertex buffer

    The theorems about [render_piece] are proved once, for any [step] whose
    parts name their corners properly ([Corners]: a decidable condition on one
    step); curves, patches and triangles are instances.  [mesh] is the contract
    of a tessellation with its vertex buffer. *)

From S2P Require Import Prelude Ieee Xstream Bound V3dData Model Mesh Tess.

(** ** Well-formed steps *)

#[export] Instance slot_eq_dec : EqDecision slot.
Proof. solve_decision. Defined.

(** The corners of a piece of [n] corners that adds [m] vertices. *)
Definition slots (n m : nat) : list slot := (Corner <$> seq 0 n) ++ (Fresh <$> seq 0 m).

(** Every face has [a] corners and every part [n], all of them exist, and each
    corner of the piece and each new vertex is used by a face or part. *)
Definition wf_action {G} (n a : nat) (x : Action G) : bool :=
  match x with
  | Emit faces =>
      forallb (fun f => Nat.eqb (length f.2) a && forallb (fun c => Nat.ltb c n) f.2) faces &&
      forallb (fun c => existsb (fun f => bool_decide (c ∈ f.2)) faces) (seq 0 n)
  | Split _ vs parts =>
      forallb (fun p => Nat.eqb (length p.2) n &&
                        forallb (fun s => bool_decide (s ∈ slots n (length vs))) p.2) parts &&
      forallb (fun s => existsb (fun p => bool_decide (s ∈ p.2)) parts) (slots n (length vs))
  end.

Class Corners {G} (step : G -> Action G) (n a : nat) : Prop :=
  step_wf : forall g, wf_action n a (step g) = true.

#[export] Instance curve_corners k : Corners (curve_step k) 2 2.
Proof. intros p. unfold curve_step. by destruct (lt_res2 _ _). Qed.

#[export] Instance patch_corners k : Corners (patch_step k) 4 3.
Proof.
  intros q. unfold patch_step. destruct (patch_distance _) as [dx dy].
  destruct (lt_res2 k dx), (lt_res2 k dy); cbn [andb]; [done|..];
    unfold split_vertically, split_horizontally, split_both;
    repeat (destruct (edge_point _ _ _ _ _ _)); reflexivity.
Qed.

#[export] Instance triangle_corners k : Corners (triangle_step k) 3 3.
Proof.
  intros q. unfold triangle_step. destruct (lt_res2 k _); [done|].
  unfold subdivide_triangle. repeat (destruct (edge_point _ _ _ _ _ _)). reflexivity.
Qed.

(** ** Adding vertices *)

Section Mesh.
Context (k : Params).

Definition coloured : bool := isColor k || isTransparent k.

(** The number of vertices of the kind the tessellation adds. *)
Definition nvert (b : VertexBuffer) : Z :=
  if coloured then Z.of_nat (length (colorVertices b)) else Z.of_nat (length (materialVertices b)).

Lemma nvert_nonneg b : 0 <= nvert b.
Proof. unfold nvert. destruct coloured; lia. Qed.

Lemma addVertex_spec v b i b' :
  addVertex k v b = (i, b') ->
  i = wrapw 32 (nvert b) /\ nvert b' = nvert b + 1 /\ indices b' = indices b /\
  renderCount b' = renderCount b.
Proof.
  unfold addVertex, nvert, coloured, addColorVertex, addMaterialVertex, size32.
  destruct b, (isColor k), (isTransparent k); intros [= <- <-];
    cbn -[Z.add Z.of_nat wrapw length]; rewrite length_app; split_and!;
    (done || (cbn [length]; lia)).
Qed.

Lemma add_vertices_spec vs b ids b' :
  add_vertices k vs b = (ids, b') ->
  length ids = length vs /\ nvert b' = nvert b + Z.of_nat (length vs) /\
  indices b' = indices b /\ renderCount b' = renderCount b /\
  forall j, (j < length vs)%nat -> nth j ids 0 = wrapw 32 (nvert b + Z.of_nat j).
Proof.
  revert b ids b'. induction vs as [|v vs IH]; cbn [add_vertices]; intros b ids b' E.
  { injection E as <- <-. cbn [length]. split_and!; [done|lia|done|done|lia]. }
  destruct (addVertex k v b) as [i b1] eqn:Ev. destruct (add_vertices k vs b1) as [l b2] eqn:El.
  injection E as <- <-. apply addVertex_spec in Ev as (-> & Hn & Hi & Hr).
  destruct (IH _ _ _ El) as (Hl & Hn' & Hi' & Hr' & Hj). cbn [length].
  split_and!; [lia|lia|congruence|congruence|].
  intros [|j] Hlt; cbn [nth]; [by rewrite Z.add_0_r|].
  rewrite Hj by lia. rewrite Hn. f_equal. lia.
Qed.

(** ** The contract *)

(** From [t] to [t']: vertices and indices are only added; [l] are the new
    indices, in groups of [a].  As long as the buffer stays within 2^32 vertices,
    each of them is one of [corners] or a new vertex; and unless something was
    found off the screen, every corner and every new vertex is used. *)
Definition mesh (a : nat) (corners : list Z) (t t' : Tess) : Prop :=
  nvert (data t) <= nvert (data t') /\
  (Onscreen t' = true -> Onscreen t = true) /\
  renderCount (data t') = renderCount (data t) /\
  exists l, indices (data t') = indices (data t) ++ l /\
    Nat.divide a (length l) /\
    (nvert (data t') <= 2 ^ 32 -> forall i, i ∈ l ->
       i ∈ corners \/ nvert (data t) <= i < nvert (data t')) /\
    (nvert (data t') <= 2 ^ 32 -> Onscreen t' = true -> forall i,
       i ∈ corners \/ nvert (data t) <= i < nvert (data t') -> i ∈ l).

Lemma mesh_nil a t : mesh a [] t t.
Proof.
  split_and!; [lia|done|done|]. exists []. rewrite app_nil_r.
  split_and!; [done|by exists 0%nat|set_solver|]. intros _ _ i [Hi|?]; [set_solver|lia].
Qed.

Lemma mesh_app a c1 c2 t t1 t2 :
  mesh a c1 t t1 -> mesh a c2 t1 t2 -> mesh a (c1 ++ c2) t t2.
Proof.
  intros (Hn1 & Ho1 & Hr1 & l1 & E1 & D1 & S1 & V1) (Hn2 & Ho2 & Hr2 & l2 & E2 & D2 & S2 & V2).
  split_and!; [lia|tauto|congruence|]. exists (l1 ++ l2).
  split_and!; [by rewrite E2, E1, app_assoc|rewrite length_app; by apply Nat.divide_add_r| |].
  - intros Hmax i [Hi|Hi]%elem_of_app.
    + destruct (S1 ltac:(lia) i Hi); [rewrite elem_of_app; tauto|lia].
    + destruct (S2 Hmax i Hi); [rewrite elem_of_app; tauto|lia].
  - intros Hmax On i Hi. rewrite elem_of_app in Hi |- *.
    destruct (decide (i ∈ c1 \/ nvert (data t) <= i < nvert (data t1))) as [H1|H1].
    { left. apply V1; [lia|tauto|done]. }
    right. apply V2; [lia|done|]. destruct Hi as [[?|?]|?]; [tauto|tauto|]. right. lia.
Qed.

(** Nothing is drawn: the control points are off the screen. *)
Lemma mesh_offscreen a c t : mesh a c t (t <| Onscreen := false |>).
Proof.
  destruct t as [b o]. split_and!; [unfold nvert; cbn; lia|done|done|].
  exists []. rewrite app_nil_r. split_and!; [done|by exists 0%nat|set_solver|done].
Qed.

Lemma offscreen_cases v t off t' :
  offscreen k v t = (off, t') ->
  if off then t' = t <| Onscreen := false |> else t' = t.
Proof. unfold offscreen. by destruct (points_offscreen _ _); intros [= <- <-]. Qed.

Lemma emit_face_mesh a corners t face :
  length face.2 = a ->
  mesh a (map (fun c => nth c corners 0) face.2) t (emit_face k corners t face).
Proof.
  intros Hl. unfold emit_face. destruct (offscreen k face.1 t) as [off t'] eqn:E.
  apply offscreen_cases in E. destruct off; subst t'; [apply mesh_offscreen|].
  destruct t as [b o], b. split_and!; [unfold nvert; cbn; lia|done|done|]. cbn.
  exists (map (fun c => nth c corners 0) face.2).
  split_and!; [done|rewrite length_map, Hl; by exists 1%nat; rewrite Nat.mul_1_l| |].
  - intros _ i Hi. left. exact Hi.
  - intros _ _ i [Hi|Hi]; [exact Hi|]. unfold nvert in Hi. cbn in Hi. lia.
Qed.

Lemma emit_faces_mesh a corners faces t :
  Forall (fun f => length f.2 = a) faces ->
  mesh a (concat (map (fun f => map (fun c => nth c corners 0) f.2) faces)) t
    (foldl (emit_face k corners) t faces).
Proof.
  intros Hf. revert t. induction Hf as [|f faces Hf Hfs IH]; intros t; cbn; [apply mesh_nil|].
  eapply mesh_app; [by apply emit_face_mesh|apply IH].
Qed.

(** The corners of a mesh matter only as a set. *)
Lemma mesh_same a c c' t t' : (forall i, i ∈ c <-> i ∈ c') -> mesh a c t t' -> mesh a c' t t'.
Proof.
  intros Hc (? & ? & ? & l & ? & ? & S & V). split_and!; [done..|]. exists l.
  split_and!; [done..| |]; intros; [rewrite <- Hc; auto | apply V; rewrite ?Hc; auto].
Qed.

Lemma ofold_mesh {G} a (f : G * list Z -> Tess -> outcome Tess) ps t t' :
  Forall (fun p => forall t t', f p t = Ret t' -> mesh a p.2 t t') ps ->
  ofold f ps t = Ret t' -> mesh a (concat (map snd ps)) t t'.
Proof.
  intros Hf. revert t. induction Hf as [|p ps Hp Hps IH]; intros t; cbn [ofold].
  { intros [= <-]. apply mesh_nil. }
  destruct (f p t) as [t1| |] eqn:E; cbn [obind]; try done. intros E'. cbn [map concat].
  eapply mesh_app; eauto.
Qed.

(** ** The recursion meets it *)

(** The static condition on a step, read back. *)
Lemma wf_emit {G} n a faces :
  wf_action (G := G) n a (Emit faces) = true ->
  Forall (fun f => length f.2 = a) faces /\
  (forall c, (exists f, f ∈ faces /\ c ∈ f.2) <-> (c < n)%nat).
Proof.
  cbn [wf_action]. intros [H1 H2]%andb_prop. rewrite forallb_forall in H1, H2. split.
  { apply list.Forall_forall. intros f Hf%list_elem_of_In. apply H1 in Hf.
    apply andb_prop in Hf as [?%Nat.eqb_eq _]. done. }
  intros c. split.
  - intros (f & Hf%list_elem_of_In & Hc%list_elem_of_In). apply H1 in Hf.
    apply andb_prop in Hf as [_ Hf]. rewrite forallb_forall in Hf.
    by apply Nat.ltb_lt, Hf.
  - intros Hc. specialize (H2 c). rewrite in_seq in H2.
    apply existsb_exists in H2 as (f & Hf & Hb); [|lia]. apply bool_decide_eq_true in Hb.
    exists f. by rewrite list_elem_of_In.
Qed.

Lemma wf_split {G} n a control vs (parts : list (G * list slot)) :
  wf_action n a (Split control vs parts) = true ->
  Forall (fun p => length p.2 = n) parts /\
  (forall s, (exists p, p ∈ parts /\ s ∈ p.2) <-> s ∈ slots n (length vs)).
Proof.
  cbn [wf_action]. intros [H1 H2]%andb_prop. rewrite forallb_forall in H1, H2. split.
  { apply list.Forall_forall. intros f Hf%list_elem_of_In. apply H1 in Hf.
    apply andb_prop in Hf as [?%Nat.eqb_eq _]. done. }
  intros s. split.
  - intros (p & Hp%list_elem_of_In & Hs%list_elem_of_In). apply H1 in Hp.
    apply andb_prop in Hp as [_ Hp]. rewrite forallb_forall in Hp.
    by apply (bool_decide_eq_true _), Hp.
  - intros Hs%list_elem_of_In%H2. apply existsb_exists in Hs as (p & Hp & Hb).
    apply bool_decide_eq_true in Hb. exists p. by rewrite list_elem_of_In.
Qed.

Lemma elem_of_nths (l : list Z) i : i ∈ l <-> exists c, (c < length l)%nat /\ nth c l 0 = i.
Proof.
  rewrite list_elem_of_In. split.
  - intros (c & ? & ?)%(In_nth l i 0). eauto.
  - intros (c & Hc & <-). by apply nth_In.
Qed.

Lemma elem_of_concat_map {A B} (f : A -> list B) (l : list A) b :
  b ∈ concat (map f l) <-> exists a, a ∈ l /\ b ∈ f a.
Proof.
  rewrite list_elem_of_In, in_concat. setoid_rewrite in_map_iff. setoid_rewrite list_elem_of_In.
  split; [intros (? & (a & <- & ?) & ?) | intros (a & ? & ?)]; eauto.
Qed.

Lemma elem_of_concat_maps {A B} (sel : A -> list B) (h : B -> Z) (l : list A) i :
  i ∈ concat (map (fun a => map h (sel a)) l) <-> exists b, (exists a, a ∈ l /\ b ∈ sel a) /\ h b = i.
Proof.
  rewrite elem_of_concat_map. setoid_rewrite list_elem_of_In. setoid_rewrite in_map_iff. split.
  - intros (a & ? & b & <- & ?). exists b. split; [exists a|]; done.
  - intros (b & (a & ? & ?) & <-). exists a. split; [done|]. exists b. done.
Qed.

Lemma elem_of_slots n m s :
  s ∈ slots n m <-> match s with Corner c => (c < n)%nat | Fresh c => (c < m)%nat end.
Proof.
  unfold slots. rewrite elem_of_app, !list_elem_of_fmap. setoid_rewrite elem_of_seq.
  destruct s as [c|c]; split.
  - intros [(c' & [= ->] & ?)|(c' & [=] & _)]. lia.
  - intros. left. exists c. split; [done|lia].
  - intros [(c' & [=] & _)|(c' & [= ->] & ?)]. lia.
  - intros. right. exists c. split; [done|lia].
Qed.

(** Resolved slots: the corners and the new indices. *)
Lemma elem_of_resolved corners fresh i :
  (exists s, s ∈ slots (length corners) (length fresh) /\ resolve corners fresh s = i) <->
  i ∈ corners ++ fresh.
Proof.
  setoid_rewrite elem_of_slots. rewrite elem_of_app, !elem_of_nths. split.
  - intros ([c|c] & ? & <-); [left|right]; eauto.
  - intros [(c & ? & <-)|(c & ? & <-)]; [exists (Corner c)|exists (Fresh c)]; eauto.
Qed.

Section Engine.
Context {G : Type} {step : G -> Action G} {n a : nat} `{!Corners step n a}.

(** What holds of a mesh that starts by adding vertices. *)
Lemma mesh_add corners fresh vs b t t' :
  add_vertices k vs (data t) = (fresh, b) ->
  mesh a (corners ++ fresh) (t <| data := b |>) t' -> mesh a corners t t'.
Proof.
  intros E. apply add_vertices_spec in E as (Hl & Hn & Hi & Hr & Hj).
  destruct t as [b0 o0]. change ((mkTess b0 o0) <| data := b |>) with (mkTess b o0).
  cbn [data Onscreen] in *. intros (Hn' & Ho & Hr' & l & El & D & S & V).
  cbn [data Onscreen] in *.
  assert (forall i, nvert (data t') <= 2 ^ 32 ->
    i ∈ fresh <-> nvert b0 <= i < nvert b) as Hfresh.
  { intros i Hmax. pose proof (nvert_nonneg b0). rewrite elem_of_nths. split.
    - intros (c & Hc & <-). rewrite Hl in Hc. rewrite Hj by done.
      rewrite wrapw_id by (unfold in_range; lia). lia.
    - intros Hi'. exists (Z.to_nat (i - nvert b0)). split; [lia|].
      rewrite Hj by lia. rewrite wrapw_id by (unfold in_range; lia). lia. }
  split_and!; cbn [data Onscreen]; [lia|done|congruence|].
  exists l. split_and!; [congruence|done| |].
  - intros Hmax i Hin. destruct (S Hmax i Hin) as [[?|Hf]%elem_of_app|?]; [by left| |right; lia].
    right. apply Hfresh in Hf; lia.
  - intros Hmax On i Hin. apply V; [done|done|]. rewrite elem_of_app.
    destruct Hin as [?|?]; [tauto|]. destruct (decide (i < nvert b)); [|right; lia].
    left. right. apply Hfresh; lia.
Qed.

Lemma render_piece_mesh fuel piece t t' :
  length piece.2 = n -> render_piece k step fuel piece t = Ret t' -> mesh a piece.2 t t'.
Proof.
  revert piece t t'. induction fuel as [|fuel IH]; intros [g corners] t t' Hlen; cbn; [done|].
  cbn in Hlen. pose proof (step_wf g) as Hwf.
  destruct (step g) as [faces|control vs parts].
  - intros [= <-]. apply wf_emit in Hwf as [Hf Hc].
    eapply mesh_same; [|by apply emit_faces_mesh]. intros i.
    rewrite elem_of_concat_maps, elem_of_nths, Hlen. by setoid_rewrite Hc.
  - destruct (offscreen k control t) as [off t1] eqn:Eo. apply offscreen_cases in Eo.
    destruct off; subst t1; [intros [= <-]; apply mesh_offscreen|].
    destruct (add_vertices k vs (data t)) as [fresh b] eqn:Ev.
    apply wf_split in Hwf as [Hp Hs]. intros E. eapply mesh_add; [exact Ev|].
    apply add_vertices_spec in Ev as (Hl & _).
    eapply mesh_same; [|eapply ofold_mesh; [|exact E]].
    + intros i. rewrite map_map. cbn [snd].
      rewrite elem_of_concat_maps, <- elem_of_resolved, Hlen, Hl.
      by setoid_rewrite Hs.
    + apply List.Forall_map. eapply list.Forall_impl; [exact Hp|].
      intros [g' ss] Hss t2 t3. apply IH. cbn in *. by rewrite length_map.
Qed.

Lemma render_outer_mesh fuel straight vs faces g t t' :
  length vs = n -> wf_action (G := G) n a (Emit faces) = true ->
  render_outer k step fuel straight vs faces g t = Ret t' -> mesh a [] t t'.
Proof.
  intros Hn Hw. unfold render_outer. destruct (add_vertices k vs (data t)) as [ids b] eqn:Ev.
  pose proof (add_vertices_spec _ _ _ _ Ev) as (Hl & _). intros E.
  eapply mesh_add; [exact Ev|]. cbn [app]. destruct straight.
  - injection E as <-. apply wf_emit in Hw as [Hf Hc].
    eapply mesh_same; [|by apply emit_faces_mesh]. intros i.
    rewrite elem_of_concat_maps, elem_of_nths, Hl, Hn. by setoid_rewrite Hc.
  - apply (render_piece_mesh fuel (g, ids)); [cbn; lia|done].
Qed.
End Engine.
End Mesh.

(** ** Surfaces *)

Lemma ofold_keeps {A S} (P : S -> Prop) (f : A -> S -> outcome S) l s s' :
  (forall a s s', f a s = Ret s' -> P s -> P s') -> ofold f l s = Ret s' -> P s -> P s'.
Proof.
  intros Hf. revert s. induction l as [|a l IH]; intros s; cbn [ofold]; [by intros [= <-]|].
  intros E Hs. apply obind_Ret in E as (s1 & E1 & E). eauto.
Qed.

(** The vertices of the buffer that a surface of these flags does not use. *)
Definition unused (k : Params) (b : VertexBuffer) : Prop :=
  pointVertices b = [] /\ (if coloured k then materialVertices b = [] else colorVertices b = []).

Lemma addVertex_unused k v b : unused k b -> unused k (addVertex k v b).2.
Proof.
  unfold unused, coloured, addVertex, addColorVertex, addMaterialVertex.
  destruct b, (isColor k), (isTransparent k); intros [? ?]; done.
Qed.

Lemma add_vertices_unused k vs b : unused k b -> unused k (add_vertices k vs b).2.
Proof.
  revert b. induction vs as [|v vs IH]; intros b Hb; cbn [add_vertices]; [done|].
  pose proof (addVertex_unused k v b Hb) as H. destruct (addVertex k v b) as [i b1].
  specialize (IH b1 H). by destruct (add_vertices k vs b1).
Qed.

Lemma emit_faces_unused k c faces t :
  unused k (data t) -> unused k (data (foldl (emit_face k c) t faces)).
Proof.
  revert t. induction faces as [|f faces IH]; intros t Ht; cbn; [done|]. apply IH.
  unfold emit_face. destruct (offscreen k f.1 t) as [off t'] eqn:E. apply offscreen_cases in E.
  destruct t as [b o], b. destruct off; by subst t'.
Qed.

Lemma render_piece_unused {G} k (step : G -> Action G) fuel piece t t' :
  render_piece k step fuel piece t = Ret t' -> unused k (data t) -> unused k (data t').
Proof.
  revert piece t t'. induction fuel as [|fuel IH]; intros [g c] t t'; cbn; [done|].
  destruct (step g) as [faces|control vs parts].
  { intros [= <-]. apply emit_faces_unused. }
  destruct (offscreen k control t) as [off t1] eqn:Eo. apply offscreen_cases in Eo.
  destruct off; subst t1; [intros [= <-]; by destruct t|].
  pose proof (add_vertices_unused k vs (data t)) as Hv.
  destruct (add_vertices k vs (data t)) as [fresh b]. intros E Ht.
  eapply (ofold_keeps (fun t => unused k (data t))); [|exact E|destruct t; by apply Hv].
  intros p t1 t2. apply IH.
Qed.

Lemma render_outer_unused {G} k (step : G -> Action G) fuel straight vs faces g t t' :
  render_outer k step fuel straight vs faces g t = Ret t' -> unused k (data t) -> unused k (data t').
Proof.
  unfold render_outer. intros E Ht. pose proof (add_vertices_unused k vs (data t) Ht) as Hv.
  destruct (add_vertices k vs (data t)) as [ids b]. destruct t as [b0 o]. destruct straight.
  - injection E as <-. by apply emit_faces_unused.
  - by eapply render_piece_unused.
Qed.

Definition corners_of (kind : surface) : nat := match kind with IsPatch => 4 | IsTriangle => 3 end.

Lemma surface_render_mesh fuel kind k p straight c t t' :
  surface_render fuel kind k p straight c t = Ret t' ->
  mesh k 3 [] t t' /\ (unused k (data t) -> unused k (data t')).
Proof.
  destruct kind; cbn; intros E; (split; [|by eapply render_outer_unused]).
  - eapply (render_outer_mesh k (step := patch_step k) (n := 4)); [| |exact E]; done.
  - eapply (render_outer_mesh k (step := triangle_step k) (n := 3)); [| |exact E]; done.
Qed.

(** The number of vertices of a surface. *)
Definition bezier_size (b : Bezier) : Z :=
  let d := data (tess b) in
  if transparent b || color b then Z.of_nat (length (colorVertices d))
  else Z.of_nat (length (materialVertices d)).

(** A run of [queue]: the flags, the recursion's contract and the append. *)
Lemma bezier_queue_run view fuel kind g straight ratio T colors mi b s b' s' :
  bezier_queue view fuel kind g straight ratio T colors mi b s = Ret (b', s') ->
  let b0 := mkBezier (mkTess (clear (data (tess b))) true) T
              (match colors with Some _ => true | None => false end) in
  let k := bezier_params view b0 mi (dmul d1 ratio) (epsilon_of g) in
  transparent b' = T /\ color b' = color b0 /\ bezier_size b' = nvert k (data (tess b')) /\
  mesh k 3 [] (tess b0) (tess b') /\ unused k (data (tess b')) /\
  s' = append b' (bezier_notRendered b' s).
Proof.
  unfold bezier_queue. set (col := match colors with Some _ => true | None => false end).
  set (b0 := mkBezier _ T col). set (k := bezier_params _ b0 _ _ _). intros E.
  apply obind_Ret in E as (t & E & Er). set (b1 := mkBezier t T col).
  change (Ret (b1, append b1 (bezier_notRendered b1 s)) = Ret (b', s')) in Er.
  injection Er as <- <-. apply surface_render_mesh in E as (M & U).
  split_and!; [done|done| |done| |done].
  { unfold bezier_size, nvert, coloured. cbn. by rewrite orb_comm. }
  apply U. by destruct (data (tess b)), T, col.
Qed.

(** The indices of a freshly queued surface. *)
Lemma bezier_queue_below view fuel kind g straight ratio T colors mi b s b' s' :
  bezier_queue view fuel kind g straight ratio T colors mi b s = Ret (b', s') ->
  bezier_size b' <= 2 ^ 32 -> forall i, i ∈ indices (data (tess b')) -> 0 <= i < bezier_size b'.
Proof.
  intros E. apply bezier_queue_run in E as (_ & _ & -> & (_ & _ & _ & l & El & _ & S & _) & _).
  rewrite El. cbn [tess data indices clear app]. intros Hmax i Hi.
  destruct (S Hmax i Hi) as [?|[H ?]]; [set_solver|]. split; [|done].
  etransitivity; [apply nvert_nonneg|exact H].
Qed.

(** C21: The mesh of a Bezier patch or triangle, for every control net, camera and
    resolution, once the subdivision ends: it consists of triangles (the number
    of indices is a multiple of three); every index is that of a vertex of the
    mesh, as long as there are at most 2^32 of them; if nothing was found off
    the screen, every vertex belongs to a triangle; the vertices are all of the
    kind that the flags select, and exactly this mesh, behind what was there,
    goes to the scene buffer that the flags select, marked for upload. *)
Theorem surface_mesh view fuel kind g straight ratio T colors mi b s b' s' :
  bezier_queue view fuel kind g straight ratio T colors mi b s = Ret (b', s') ->
  let d := data (tess b') in
  transparent b' = T /\ (color b' = true <-> is_Some colors) /\
  Nat.divide 3 (length (indices d)) /\
  (bezier_size b' <= 2 ^ 32 -> forall i, i ∈ indices d -> 0 <= i < bezier_size b') /\
  (bezier_size b' <= 2 ^ 32 -> Onscreen (tess b') = true ->
     forall i, 0 <= i < bezier_size b' -> i ∈ indices d) /\
  pointVertices d = [] /\
  (if transparent b' || color b' then materialVertices d = [] else colorVertices d = []) /\
  s' = append b' (bezier_notRendered b' s).
Proof.
  intros E d. pose proof (bezier_queue_below _ _ _ _ _ _ _ _ _ _ _ _ _ E) as Hbelow.
  apply bezier_queue_run in E as (HT & HC & Hn & (_ & _ & _ & l & El & D & _ & V) & (Up & Uc) & Es).
  subst d. split_and!; [done| |by rewrite El|done| |done| |done].
  - rewrite HC. cbn. destruct colors as [c|]; split; [by exists c|done|done|by intros [? [=]]].
  - intros Hmax On i Hi. rewrite El. rewrite Hn in *. apply V; [done|done|right].
    replace (nvert _ (data (tess (mkBezier _ _ _)))) with 0; [done|].
    unfold nvert. by destruct (coloured _).
  - rewrite HT, HC. unfold coloured in Uc. cbn in *. by rewrite orb_comm.
Qed.

(** A camera that looks at the unit square. *)
Definition unit_view : View :=
  mkView [d1; d0; d0; d0; d0; d1; d0; d0; d0; d0; d1; d0; d0; d0; d0; d1]
         [d1; d0; d0; d0; d1; d0; d0; d0; d1].

(** A quarter of a disk of radius 1/2, and its tessellation at a resolution of a
    hundredth. *)
Definition hundredths (x y : Z) : triple :=
  mkTriple (ddiv (double_of_Z x) d100) (ddiv (double_of_Z y) d100) d0.
Definition sample_triangle : list triple :=
  [hundredths 50 0; hundredths 50 14; hundredths 33 0; hundredths 40 27; hundredths 28 20;
   hundredths 17 0; hundredths 0 50; hundredths 0 33; hundredths 0 17; hundredths 0 0].

Lemma surface_mesh_witness :
  exists b' s',
    bezier_queue unit_view 6 IsTriangle sample_triangle false (ddiv d1 d100) false None 3 newBezier
      emptyScene = Ret (b', s') /\
    (forall i, i ∈ indices (data (tess b')) <-> 0 <= i < bezier_size b').
Proof.
  assert (match bezier_queue unit_view 6 IsTriangle sample_triangle false (ddiv d1 d100) false None 3
    newBezier emptyScene with
    | Ret (b', _) => Onscreen (tess b') && (bezier_size b' <=? 2 ^ 32)
    | _ => false end = true) as H by (vm_compute; reflexivity).
  destruct (bezier_queue _ _ _ _ _ _ _ _ _ _ _) as [[b' s']| |] eqn:E; [|discriminate..].
  apply andb_prop in H as [H1 H2]. apply Z.leb_le in H2. exists b', s'. split; [reflexivity|].
  destruct (surface_mesh unit_view 6 IsTriangle sample_triangle false (ddiv d1 d100) false None 3
    newBezier emptyScene b' s' E) as (_ & _ & _ & Hin & Hall & _).
  intros i. split; [apply (Hin H2)|apply (Hall H2 H1)].
Defined.
