(* ===== verification/TessTotal.v ===== *)
(** * When the tessellation ends

    The recursive [render] functions have no bound on their depth.  [ends_within]
    decides, from the geometry alone, whether the subdivision of a piece ends
    within a given depth; it is exact: with that much fuel the recursion returns,
    whatever the state, and with less it does not.  At resolution 0 a curve on
    the screen is subdivided for ever. *)

From S2P Require Import Prelude Ieee Xstream Bound V3dData Model Mesh Tess TessProps.

Section Ends.
Context (k : Params) {G : Type} (step : G -> Action G).

Fixpoint ends_within (fuel : nat) (g : G) : bool :=
  match fuel with
  | O => false
  | S fuel =>
      match step g with
      | Emit _ => true
      | Split control _ parts =>
          points_offscreen (view k) control || forallb (fun p => ends_within fuel (fst p)) parts
      end
  end.

Lemma ends_within_spec fuel g corners t :
  if ends_within fuel g then exists t', render_piece k step fuel (g, corners) t = Ret t'
  else render_piece k step fuel (g, corners) t = NoFuel.
Proof.
  revert g corners t. induction fuel as [|fuel IH]; intros g corners t; cbn; [done|].
  destruct (step g) as [faces|control vs parts]; [eauto|]. unfold offscreen.
  destruct (points_offscreen _ control); cbn [orb]; [eauto|].
  destruct (add_vertices k vs (data t)) as [fresh b].
  match goal with |- context [ofold _ _ ?t1] => generalize t1 end.
  induction parts as [|[g' ss] ps IHp]; intros t1; cbn; [eauto|].
  specialize (IH g' (map (resolve corners fresh) ss) t1).
  destruct (ends_within fuel g'); cbn [andb]; [|by rewrite IH].
  destruct IH as [t2 ->]. cbn [obind]. apply IHp.
Qed.

Lemma ends_within_more fuel fuel' g :
  (fuel <= fuel')%nat -> ends_within fuel g = true -> ends_within fuel' g = true.
Proof.
  revert fuel' g. induction fuel as [|fuel IH]; intros [|fuel'] g Hle; cbn; try (done || lia).
  destruct (step g) as [faces|control vs parts]; [done|]. rewrite !orb_true_iff.
  intros [?|H]; [by left|right]. rewrite forallb_forall in H |- *.
  intros p Hp. apply IH; [lia|by apply H].
Qed.

(** More fuel than needed changes nothing. *)
Lemma render_piece_more fuel fuel' piece t t' :
  (fuel <= fuel')%nat -> render_piece k step fuel piece t = Ret t' ->
  render_piece k step fuel' piece t = Ret t'.
Proof.
  revert fuel' piece t t'. induction fuel as [|fuel IH]; intros [|fuel'] [g c] t t' Hle; cbn;
    try (done || lia).
  destruct (step g) as [faces|control vs parts]; [done|].
  destruct (offscreen k control t) as [[] t1]; [done|].
  destruct (add_vertices k vs (data t1)) as [fresh b].
  match goal with |- context [ofold _ _ ?t1] => generalize t1 end.
  induction parts as [|p ps IHp]; intros t2; cbn [map ofold]; [done|]. intros E.
  apply obind_Ret in E as (t3 & E3 & E). rewrite (IH fuel' _ _ _ ltac:(lia) E3). by apply IHp.
Qed.

(** A set of pieces that are neither flat nor off the screen and whose first
    part is again in the set: no fuel is enough. *)
Lemma render_piece_diverges (K : G -> Prop) :
  (forall g, K g -> exists control vs p ps,
     step g = Split control vs (p :: ps) /\ points_offscreen (view k) control = false /\ K p.1) ->
  forall fuel g, K g -> ends_within fuel g = false.
Proof.
  intros HK fuel. induction fuel as [|fuel IH]; intros g Hg; cbn; [done|].
  destruct (HK g Hg) as (control & vs & p & ps & -> & -> & Hp). cbn. by rewrite (IH _ Hp).
Qed.
End Ends.

(** ** Surfaces *)

(** The piece that [BezierPatch::render] and [BezierTriangle::render] start with. *)
Definition surface_ends (k : Params) (kind : surface) (fuel : nat) (p : list triple) (c : list vec4) :
    bool :=
  match kind with
  | IsPatch => ends_within k (patch_step k) fuel
      (mkPatch p (pt p 0) (pt p 12) (pt p 15) (pt p 3) false false false false
         (col_at c 0) (col_at c 1) (col_at c 2) (col_at c 3))
  | IsTriangle => ends_within k (triangle_step k) fuel
      (mkTriangle p (pt p 0) (pt p 6) (pt p 9) false false false
         (col_at c 0) (col_at c 1) (col_at c 2))
  end.

(** The recursion of a patch or triangle ends exactly when the subdivision of
    its control net reaches flat or invisible pieces within some depth
    ([surface_ends], computed from the net, the camera and the resolution): with
    at least that depth [queue] returns, from every state and always with the
    same result; with less it does not return. *)
Theorem surface_queue_ends view kind g ratio T colors mi fuel :
  let b0 := mkBezier newCurve T (match colors with Some _ => true | None => false end) in
  let k := bezier_params view b0 mi (dmul d1 ratio) (epsilon_of g) in
  forall b s,
  (surface_ends k kind fuel g (default [] colors) = true ->
     exists r, forall fuel', (fuel <= fuel')%nat ->
       bezier_queue view fuel' kind g false ratio T colors mi b s = Ret r) /\
  (surface_ends k kind fuel g (default [] colors) = false ->
     bezier_queue view fuel kind g false ratio T colors mi b s = NoFuel).
Proof.
  intros b0 k b s.
  assert (forall G (step : G -> Action G) vs faces q t,
    if ends_within k step fuel q
    then exists t', forall fuel', (fuel <= fuel')%nat ->
           render_outer k step fuel' false vs faces q t = Ret t'
    else render_outer k step fuel false vs faces q t = NoFuel) as Hout.
  { intros G step vs faces q t. unfold render_outer.
    destruct (add_vertices k vs (data t)) as [ids v].
    match goal with |- context [render_piece k step fuel (q, ids) ?t1] =>
      pose proof (ends_within_spec k step fuel q ids t1) as H end.
    destruct (ends_within k step fuel q); [|done]. destruct H as [t' Ht].
    exists t'. intros fuel' Hf. by eapply render_piece_more. }
  unfold bezier_queue. set (t0 := tess (mkBezier _ T _)).
  assert (if surface_ends k kind fuel g (default [] colors)
    then exists t', forall fuel', (fuel <= fuel')%nat ->
           surface_render fuel' kind k g false (default [] colors) t0 = Ret t'
    else surface_render fuel kind k g false (default [] colors) t0 = NoFuel) as H.
  { destruct kind; apply Hout. }
  change (bezier_params view _ mi (dmul d1 ratio) (epsilon_of g)) with k.
  destruct (surface_ends _ _ _ _ _); [|split; [done|]; intros _; by rewrite H].
  split; [intros _|done].
  destruct H as [t' H]. eexists. intros fuel' Hf. by rewrite (H fuel' Hf).
Qed.

(** ** Resolution 0 *)

(** Not a negative number: what sums of squares are. *)
Definition nonneg (x : spec_float) : bool :=
  match x with S754_finite s _ _ | S754_infinity s => negb s | _ => true end.

Lemma nonneg_not_lt0 x : nonneg x = true -> SFltb x d0 = false.
Proof. by destruct x as [[]|[]| |[]]. Qed.

Lemma nonneg_round_aux p e m x l : nonneg (binary_round_aux p e false m x l) = true.
Proof.
  unfold binary_round_aux. destruct (shr_fexp _ _ m x l) as [mrs e'].
  destruct (shr_fexp _ _ _ e' _) as [mrs'' e'']. destruct (shr_m mrs''); [done| |done].
  by destruct (_ <=? _).
Qed.

Lemma nonneg_mul x : nonneg (dmul x x) = true.
Proof.
  unfold dmul, SFmul. destruct x as [s|s| |s m e]; try (by destruct s); [done|].
  rewrite xorb_nilpotent. apply nonneg_round_aux.
Qed.

Lemma nonneg_add x y : nonneg x = true -> nonneg y = true -> nonneg (dadd x y) = true.
Proof.
  unfold dadd, SFadd.
  destruct x as [[]|[]| |[] m e], y as [[]|[]| |[] m' e']; try done; cbn [cond_Zopp]; intros _ _.
  unfold binary_normalize. destruct (_ + _) as [|p|p] eqn:E; [done| |lia].
  unfold binary_round. destruct (shl_align p _ _). apply nonneg_round_aux.
Qed.

Lemma nonneg_abs2 v : nonneg (abs2 v) = true.
Proof. unfold abs2, dot. apply nonneg_add; [apply nonneg_add|]; apply nonneg_mul. Qed.

Lemma Straightness_nonneg z0 c0 c1 z1 : nonneg (Straightness z0 c0 c1 z1) = true.
Proof. unfold Straightness, std_max. destruct (SFltb _ _); apply nonneg_abs2. Qed.

Lemma curve_step_zero k p :
  res2 k = d0 -> exists vs parts, curve_step k p = Split p vs parts.
Proof.
  intros Hr. unfold curve_step, lt_res2.
  rewrite Hr, nonneg_not_lt0 by apply Straightness_nonneg. eauto.
Qed.

Lemma curve_zero_no_index k fuel piece t t' :
  res2 k = d0 -> render_piece k (curve_step k) fuel piece t = Ret t' ->
  indices (data t') = indices (data t).
Proof.
  intros Hr. revert piece t t'. induction fuel as [|fuel IH]; intros [p c] t t'; cbn; [done|].
  destruct (curve_step_zero k p Hr) as (vs & parts & ->).
  destruct (offscreen k p t) as [off t1] eqn:Eo. apply offscreen_cases in Eo.
  destruct off; subst t1; [intros [= <-]; by destruct t|].
  destruct (add_vertices k vs (data t)) as [fresh b] eqn:Ev.
  apply add_vertices_spec in Ev as (_ & _ & Hi & _).
  match goal with |- context [ofold _ _ ?t1] => set (t2 := t1) end. intros E.
  transitivity (indices (data t2)); [|by destruct t].
  eapply (ofold_keeps (fun t => indices (data t) = indices (data t2))); [|exact E|done].
  intros q s s' Es Hs. by rewrite (IH _ _ _ Es).
Qed.

Lemma curve_step_origin k :
  res2 k = d0 -> let p := [origin; origin; origin; origin] in
  exists vs ss ps, curve_step k p = Split p vs ((p, ss) :: ps).
Proof.
  intros Hr p. unfold curve_step. change (pt p _) with origin.
  assert (half origin origin = origin) as -> by (vm_compute; reflexivity).
  unfold lt_res2. rewrite Hr, nonneg_not_lt0 by apply Straightness_nonneg. eauto.
Qed.

(** At resolution 0, which [QueueMesh] computes when the bounds of the scene
    have no extent, no curve is ever flat: whatever the curve, the recursion draws
    nothing if it returns at all, and for the curve that is one point on the
    screen it does not return: no depth of recursion is enough. *)
Theorem zero_resolution_diverges view mi t s :
  (forall fuel p t' s',
     curve_queue view fuel p false d0 mi t s = Ret (t', s') -> indices (data t') = []) /\
  (points_offscreen view [origin; origin; origin; origin] = false -> forall fuel,
     curve_queue view fuel [origin; origin; origin; origin] false d0 mi t s = NoFuel).
Proof.
  set (k := curve_params view mi (dmul d1 d0)). assert (res2 k = d0) as Hk by done. split.
  - intros fuel p t' s' E. unfold curve_queue in E. fold k in E.
    apply obind_Ret in E as (t1 & E & [= <- _]). unfold curve_render in E. cbn in E.
    by apply curve_zero_no_index in E; [rewrite E; destruct (data t)|].
  - intros Hon fuel. unfold curve_queue. fold k. unfold curve_render.
    destruct (add_vertices _ _ _) as [ids b]. cbn [obind].
    match goal with |- context [render_piece k ?st fuel (?q, ids) ?t1] =>
      pose proof (ends_within_spec k st fuel q ids t1) as H end.
    rewrite (render_piece_diverges k (curve_step k) (fun q => q = [origin; origin; origin; origin])) in H;
      [by rewrite H| |done].
    intros g ->. destruct (curve_step_origin k Hk) as (vs & ss & ps & E).
    do 4 eexists. split; [exact E|]. by split.
Qed.

Lemma zero_resolution_diverges_witness :
  points_offscreen unit_view [origin; origin; origin; origin] = false /\
  forall s, curve_queue unit_view 1000 [origin; origin; origin; origin] false d0 0 newCurve s = NoFuel.
Proof.
  assert (points_offscreen unit_view [origin; origin; origin; origin] = false) as H
    by (vm_compute; reflexivity).
  split; [exact H|]. intros s.
  apply (proj2 (zero_resolution_diverges unit_view 0 newCurve s) H).
Defined.

Definition sample_params : Params :=
  bezier_params unit_view (mkBezier newCurve false false) 3 (dmul d1 (ddiv d1 d100))
    (epsilon_of sample_triangle).

Lemma surface_queue_ends_witness :
  surface_ends sample_params IsTriangle 5 sample_triangle [] = true /\
  exists r, forall fuel', (5 <= fuel')%nat -> forall s,
    s = emptyScene ->
    bezier_queue unit_view fuel' IsTriangle sample_triangle false (ddiv d1 d100) false None 3
      newBezier s = Ret r.
Proof.
  split; [vm_compute; reflexivity|].
  destruct (proj1 (surface_queue_ends unit_view IsTriangle sample_triangle (ddiv d1 d100) false None
    3 5 newBezier emptyScene)) as [r Hr].
  { vm_compute. reflexivity. }
  exists r. intros fuel' Hf s ->. exact (Hr fuel' Hf).
Defined.
