(* ===== verification/Polyline.v ===== *)
(** * What a tessellated curve is

    The specification of [BezierCurve::render] ([asymptote/beziercurve.cc]): a
    curve is halved until every piece is straight within the resolution
    ([flattened]); what is drawn is the polyline through the end points of the
    pieces, in order, and each vertex is used once. *)

From S2P Require Import Prelude Ieee Xstream Bound V3dData Model Mesh Tess TessProps.

Section Polyline.
Context (k : Params).

(** Straight within the resolution. *)
Definition flat (p : list triple) : bool :=
  lt_res2 k (Straightness (pt p 0) (pt p 1) (pt p 2) (pt p 3)).

(** The two halves of a curve, by de Casteljau. *)
Definition curve_halves (p : list triple) : list triple * list triple :=
  let m0 := half (pt p 0) (pt p 1) in
  let m1 := half (pt p 1) (pt p 2) in
  let m2 := half (pt p 2) (pt p 3) in
  let m3 := half m0 m1 in
  let m4 := half m1 m2 in
  let m5 := half m3 m4 in
  ([pt p 0; m0; m3; m5], [m5; m4; m2; pt p 3]).

(** [l] are the pieces of [p], in order, all of them flat and none larger than
    needed. *)
Inductive flattened : list triple -> list (list triple) -> Prop :=
  | flattened_flat p : flat p = true -> flattened p [p]
  | flattened_halves p l0 l1 :
      flat p = false -> flattened (curve_halves p).1 l0 -> flattened (curve_halves p).2 l1 ->
      flattened p (l0 ++ l1).

(** The corners of the polyline of [p]. *)
Definition joints (p : list triple) (pieces : list (list triple)) : list triple :=
  map (fun q => pt q 0) pieces ++ [pt p 3].

(** The indices of a polyline: each pair of neighbours is a segment. *)
Fixpoint segments (path : list Z) : list Z :=
  match path with
  | a :: (b :: _) as rest => a :: b :: segments rest
  | _ => []
  end.

Lemma segments_join l a r : segments (l ++ a :: r) = segments (l ++ [a]) ++ segments (a :: r).
Proof.
  induction l as [|x [|y l] IH]; [done|done|].
  cbn [app segments] in *. by rewrite IH.
Qed.

(** The position of a vertex. *)
Definition point (b : VertexBuffer) (i : Z) : option vec3 :=
  mv_position <$> materialVertices b !! Z.to_nat i.

Lemma point_prefix b b' vs i x :
  materialVertices b' = materialVertices b ++ vs -> point b i = Some x -> point b' i = Some x.
Proof.
  unfold point. intros ->. destruct (materialVertices b !! Z.to_nat i) as [v|] eqn:E; [|done].
  by rewrite (lookup_app_l_Some _ _ _ _ E).
Qed.

Lemma points_prefix b b' vs l xs :
  materialVertices b' = materialVertices b ++ vs ->
  map (point b) l = map Some xs -> map (point b') l = map Some xs.
Proof.
  intros Hb. revert xs. induction l as [|i l IH]; intros [|x xs]; cbn; try done.
  intros [= Hi Hl]. by rewrite (point_prefix _ _ _ _ _ Hb Hi), (IH _ Hl).
Qed.

Context (HC : isColor k = false) (HT : isTransparent k = false).

Lemma nvert_material b : nvert k b = Z.of_nat (length (materialVertices b)).
Proof. unfold nvert, coloured. by rewrite HC, HT. Qed.

Lemma curve_step_cases p :
  if flat p then curve_step k p = Emit [([pt p 0; pt p 3], [0; 1]%nat)]
  else exists v, pos v = pt (curve_halves p).2 0 /\
    curve_step k p = Split p [v] [((curve_halves p).1, [Corner 0; Fresh 0]);
                                  ((curve_halves p).2, [Fresh 0; Corner 1])].
Proof. unfold curve_step, flat. destruct (lt_res2 _ _); [done|].
  eexists. split; [|reflexivity]. done.
Qed.

(** What is drawn for one piece with end points [a] and [b]. *)
Definition drawn (p : list triple) (a b : Z) (t t' : Tess) : Prop :=
  exists mid pieces vs,
    flattened p pieces /\
    indices (data t') = indices (data t) ++ segments (a :: mid ++ [b]) /\
    materialVertices (data t') = materialVertices (data t) ++ vs /\
    mid ≡ₚ seqZ (nvert k (data t)) (nvert k (data t') - nvert k (data t)) /\
    map (point (data t')) (a :: mid ++ [b]) = map Some (map vec3_of (joints p pieces)).

Lemma add_vertex_material v t i b :
  add_vertices k [v] (data t) = ([i], b) ->
  i = wrapw 32 (nvert k (data t)) /\ indices b = indices (data t) /\
  nvert k b = nvert k (data t) + 1 /\
  exists w, mv_position w = vec3_of (pos v) /\ materialVertices b = materialVertices (data t) ++ [w].
Proof.
  cbn. unfold addVertex. rewrite HC, HT. unfold addMaterialVertex, size32. rewrite !nvert_material.
  destruct (data t). cbn. intros [= <- <-]. cbn. rewrite length_app. cbn.
  split_and!; [done|done|lia|]. eexists. split; [|reflexivity]. done.
Qed.

Lemma seqZ_middle n m l : 0 <= m -> 0 <= l ->
  seqZ (n + 1) m ++ n :: seqZ (n + 1 + m) l ≡ₚ seqZ n (m + 1 + l).
Proof.
  intros. rewrite <- Permutation_middle. rewrite (seqZ_app n (m + 1) l) by lia.
  rewrite (seqZ_cons n) by lia. replace (Z.pred (m + 1)) with m by lia.
  replace (Z.succ n) with (n + 1) by lia. by replace (n + (m + 1)) with (n + 1 + m) by lia.
Qed.

Lemma curve_mesh fuel p a b t t' :
  render_piece k (curve_step k) fuel (p, [a; b]) t = Ret t' -> mesh k 2 [a; b] t t'.
Proof. intros E. by apply (render_piece_mesh k (n := 2) (a := 2) fuel (p, [a; b])). Qed.

(** The joints of two halves. *)
Lemma joints_join p a b c mid0 mid1 l0 l1 (f g : Z -> option vec3) :
  (forall l xs, map f l = map Some xs -> map g l = map Some xs) ->
  map f (a :: mid0 ++ [c]) = map Some (map vec3_of (joints (curve_halves p).1 l0)) ->
  map g (c :: mid1 ++ [b]) = map Some (map vec3_of (joints (curve_halves p).2 l1)) ->
  map g (a :: (mid0 ++ c :: mid1) ++ [b]) = map Some (map vec3_of (joints p (l0 ++ l1))).
Proof.
  intros Hfg X0%Hfg X1. unfold joints in *.
  rewrite app_comm_cons, !map_app in X0. apply app_inj_tail in X0 as [X0 _].
  replace (a :: (mid0 ++ c :: mid1) ++ [b]) with ((a :: mid0) ++ (c :: mid1 ++ [b]))
    by (cbn; by rewrite <- app_assoc).
  rewrite map_app, X0, X1, !map_app, <- !app_assoc. done.
Qed.

(** Two halves drawn one after the other, with a new vertex [c] between them. *)
Lemma drawn_join p a b c t t1 t2 t' w :
  flat p = false ->
  indices (data t1) = indices (data t) ->
  materialVertices (data t1) = materialVertices (data t) ++ [w] ->
  c = nvert k (data t) ->
  drawn (curve_halves p).1 a c t1 t2 -> drawn (curve_halves p).2 c b t2 t' -> drawn p a b t t'.
Proof.
  intros Hp Hi Hw Hc (mid0 & l0 & vs0 & F0 & I0 & V0 & P0 & X0)
    (mid1 & l1 & vs1 & F1 & I1 & V1 & P1 & X1).
  exists (mid0 ++ c :: mid1), (l0 ++ l1), ([w] ++ vs0 ++ vs1). split_and!.
  - by constructor.
  - rewrite I1, I0, Hi, <- !app_assoc. f_equal.
    change (a :: mid0 ++ (c :: mid1) ++ [b]) with ((a :: mid0) ++ c :: (mid1 ++ [b])).
    by rewrite segments_join.
  - by rewrite V1, V0, Hw, <- !app_assoc.
  - rewrite P0, P1, !nvert_material, V1, V0, Hw, Hc, nvert_material, !length_app. cbn [length].
    set (n := Z.of_nat (length (materialVertices (data t)))).
    replace (seqZ n _) with (seqZ n (Z.of_nat (length vs0) + 1 + Z.of_nat (length vs1)))
      by (f_equal; lia).
    rewrite <- seqZ_middle by lia. apply reflexive_eq. repeat (f_equal; try lia).
  - eapply joints_join; [|exact X0|exact X1]. intros l xs. by apply points_prefix with vs1.
Qed.

Lemma curve_drawn fuel p a b t t' :
  render_piece k (curve_step k) fuel (p, [a; b]) t = Ret t' ->
  Onscreen t' = true -> nvert k (data t') <= 2 ^ 32 ->
  point (data t) a = Some (vec3_of (pt p 0)) -> point (data t) b = Some (vec3_of (pt p 3)) ->
  drawn p a b t t'.
Proof.
  revert p a b t t'. induction fuel as [|fuel IH]; intros p a b t t'; [done|].
  cbn [render_piece]. pose proof (curve_step_cases p) as Hs. destruct (flat p) eqn:Hf.
  - rewrite Hs. intros [= <-] On _ Ha Hb. cbn [foldl] in *. revert On. unfold emit_face.
    destruct (offscreen k _ t) as [off t1] eqn:Eo. apply offscreen_cases in Eo.
    destruct off; subst t1; [by destruct t|]. intros _.
    exists [], [p], []. split_and!.
    + by constructor.
    + by destruct t as [[] o].
    + rewrite app_nil_r. by destruct t as [[] o].
    + rewrite !nvert_material. destruct t as [[] o]. cbn. by rewrite Z.sub_diag.
    + destruct t as [[] o]. cbn in *. unfold point in *. cbn in *. by rewrite Ha, Hb.
  - destruct Hs as (v & Hv & ->). destruct (offscreen k p t) as [off t1] eqn:Eo.
    apply offscreen_cases in Eo. destruct off; subst t1; [intros [= <-]; by destruct t|].
    destruct (add_vertices k [v] (data t)) as [fresh d] eqn:Ev.
    pose proof (add_vertices_spec k _ _ _ _ Ev) as (Hl & _). cbn [length] in Hl.
    destruct fresh as [|i [|]]; try done. apply add_vertex_material in Ev as (-> & Hi & Hn & w & Hw & Hm).
    set (t1 := mkTess d (Onscreen t)). cbn [map fst snd resolve nth ofold].
    intros E On Hmax Ha Hb. apply obind_Ret in E as (t2 & E2 & E).
    apply obind_Ret in E as (t3 & E3 & [= ->]).
    replace (t <| data := d |>) with t1 in E2 by (by destruct t).
    pose proof (curve_mesh _ _ _ _ _ _ E2) as (Hn2 & _).
    pose proof (curve_mesh _ _ _ _ _ _ E3) as (Hn3 & On3 & _).
    change (data t1) with d in Hn2. pose proof (nvert_nonneg k (data t)).
    rewrite wrapw_id in E2, E3 by (unfold in_range; lia).
    assert (point d (nvert k (data t)) = Some (vec3_of (pt (curve_halves p).2 0))) as Hc.
    { unfold point. rewrite Hm, nvert_material, Nat2Z.id, list_lookup_middle by done.
      cbn. by rewrite Hw, Hv. }
    assert (drawn (curve_halves p).1 a (nvert k (data t)) t1 t2) as D0.
    { apply IH; [done|auto|lia|by eapply point_prefix|done]. }
    assert (exists vs, materialVertices (data t2) = materialVertices d ++ vs) as [vs Hvs]
      by (destruct D0 as (? & ? & vs & _ & _ & ? & _); eauto).
    eapply (drawn_join p a b (nvert k (data t)) t t1 t2 t' w); [done|done|done|done|done|].
    apply IH; [done|done|done|by eapply point_prefix|].
    eapply point_prefix; [exact Hvs|]. by eapply point_prefix.
Qed.
End Polyline.

(** C29: A Bezier curve, tessellated without finding anything off the screen: the
    curve has been halved by de Casteljau's rule exactly until every piece is
    straight within the resolution, and the segments drawn are those of one
    polyline, which starts at the curve's first vertex and ends at its last, uses
    every vertex of the buffer exactly once, and passes in order through the end
    points of the pieces (narrowed to [float]).  The same mesh is appended to the
    line buffer of the scene. *)
Theorem curve_polyline view fuel p ratio mi t s t' s' :
  curve_queue view fuel p false ratio mi t s = Ret (t', s') ->
  Onscreen t' = true -> Z.of_nat (length (materialVertices (data t'))) <= 2 ^ 32 ->
  exists mid pieces,
    let path := 0 :: mid ++ [1] in
    flattened (curve_params view mi (dmul d1 ratio)) p pieces /\
    indices (data t') = segments path /\
    path ≡ₚ seqZ 0 (Z.of_nat (length (materialVertices (data t')))) /\
    map (point (data t')) path = map Some (map vec3_of (joints p pieces)) /\
    s' = s <| lineData ::= fun b => extendMaterial (data t') (notRendered b) |>.
Proof.
  unfold curve_queue. set (k := curve_params view mi (dmul d1 ratio)). intros E On Hmax.
  apply obind_Ret in E as (t1 & E & Er).
  injection Er as -> <-. unfold curve_render in E.
  destruct (add_vertices _ _ _) as [ids b] eqn:Ev. cbn in Ev. injection Ev as <- <-.
  apply curve_drawn in E; [|done|done|done|by rewrite nvert_material|done|done].
  destruct E as (mid & pieces & vs & F & Hi & Hv & Hp & Hx). cbn in Hi, Hv.
  exists mid, pieces. split_and!; [done|done| |done|by destruct s].
  rewrite !nvert_material in Hp by done. rewrite Hv in *. cbn -[Z.sub Z.of_nat] in Hp |- *.
  rewrite Hp. set (n := length vs). replace (Z.of_nat (S (S n))) with (2 + Z.of_nat n) by lia.
  change (Z.of_nat 2) with 2. rewrite (seqZ_app 0 2) by lia. change (seqZ 0 2) with [0; 1].
  cbn [app]. apply perm_skip. rewrite <- Permutation_cons_append.
  apply perm_skip, reflexive_eq. f_equal; lia.
Qed.

(** An arch. *)
Definition arch : list triple :=
  let T x y := mkTriple (ddiv (double_of_Z x) d100) (ddiv (double_of_Z y) d100) d0 in
  [T 0 0; T 0 40; T 40 40; T 40 0].

Lemma curve_polyline_witness :
  let s := emptyScene in
  exists t' s' mid,
    curve_queue unit_view 10 arch false (ddiv d1 d100) 0 newCurve s = Ret (t', s') /\
    Onscreen t' = true /\
    indices (data t') = segments (0 :: mid ++ [1]).
Proof.
  intros s.
  assert (match curve_queue unit_view 10 arch false (ddiv d1 d100) 0 newCurve s with
    | Ret (t', _) => Onscreen t' && (Z.of_nat (length (materialVertices (data t'))) <=? 2 ^ 32)
    | _ => false end = true) as H by (vm_compute; reflexivity).
  destruct (curve_queue unit_view 10 arch false (ddiv d1 d100) 0 newCurve s) as [[t' s']| |] eqn:E;
    [|discriminate..].
  apply andb_prop in H as [H1 H2]. apply Z.leb_le in H2.
  destruct (curve_polyline unit_view 10 arch (ddiv d1 d100) 0 newCurve s t' s' E H1 H2)
    as (mid & pieces & _ & Hi & _).
  exists t', s', mid. auto.
Defined.
