(* ===== verification/Objects.v ===== *)
(** * Queueing the objects of a file

    [v3d-Common/V3dFile/V3dObjects.cpp], [QueueMesh] of every class but the
    solids: from the members of an object and what it kept from the frame before
    to the scene's vertex buffers.

    Of the members that a class keeps between frames, those that some code reads
    are modelled: the tessellators [C] and [S], the on-screen flags, [S_color] and
    [vertexData].  [isTransparent] and the object's own [lineData] are never read
    anywhere, nor is [fullyOnscreen] of the surfaces and flat shapes.

    [std::hypot], [std::cos], [std::sin] and the functions of glm are parameters. *)

From S2P Require Import Prelude Ieee Xstream Bound V3dData Model Mesh Tess.

Notation "' p <~ o ;; k" := (obind o (fun x => match x with p => k end))
  (at level 20, p pattern, o at level 99, k at level 200, only parsing) : v3d_scope.

Class MeshMath := {
  std_hypot : float64 -> float64 -> float64;
  glm_cross_d : triple -> triple -> triple;
  glm_normalize_d : triple -> triple;
  glm_max_d : float64 -> float64 -> float64;
  std_cos : float64 -> float64;
  std_sin : float64 -> float64
}.

(** The arguments of [QueueMesh], with the globals it reads: the camera,
    [camp::materials] and [camp::pixelsPerBp].  [q_fuel] bounds the depth of the
    recursive subdivision. *)
Record Request := mkRequest {
  imageWidth : Z; imageHeight : Z; sceneMinBound : triple; sceneMaxBound : triple;
  q_remesh : bool; q_orthographic : bool; q_mode : DrawMode;
  q_view : View; q_materials : list V3dMaterial; pixelsPerBp : float64; q_fuel : nat
}.

Definition f3 : float32 := float_of_Z 3.
Definition f4 : float32 := float_of_Z 4.

(** Determinate members. *)
Definition point_of (t : TRIPLE) : outcome triple := determined (determinate t).

Section Map.
Context {A B : Type} (f : A -> outcome B).
Fixpoint omapM (l : list A) : outcome (list B) :=
  match l with [] => Ret [] | a :: l => b <~ f a;; bs <~ omapM l;; Ret (b :: bs) end.
End Map.

Section Objects.
Context {math : MeshMath}.
Context (q : Request).

(** [size2] and [s] of the sources, and [size3.length()/size2]. *)
Definition size2 : float64 :=
  std_hypot (double_of_Z (imageWidth q)) (double_of_Z (imageHeight q)).
Definition pair_length (x y : float64) : float64 := dsqrt (dadd (dmul x x) (dmul y y)).
Definition scene_width : float64 := dsub (tx (sceneMaxBound q)) (tx (sceneMinBound q)).
Definition scene_height : float64 := dsub (ty (sceneMaxBound q)) (ty (sceneMinBound q)).
Definition scale_ratio (s : float64) : float64 :=
  ddiv (pair_length (dmul s scene_width) (dmul s scene_height)) size2.

Definition perspective_scale : float64 :=
  let perspective := if q_orthographic q then d0 else ddiv d1 (tz (sceneMaxBound q)) in
  if SFeqb perspective d0 then d1 else dmul (tz (sceneMinBound q)) perspective.

Definition ratio : float64 := scale_ratio perspective_scale.

Definition mode_is (m : DrawMode) : bool := bool_decide (q_mode q = m).

(** Whether the material is transparent; only asked in the normal mode. *)
Definition material_transparent (materialIndex : Z) : outcome bool :=
  if mode_is DRAWMODE_NORMAL then
    match q_materials q !! Z.to_nat materialIndex with
    | Some m => a <~ determined (c4a (diffuse m));; Ret (SFltb a f1)
    | None => Ret false
    end
  else Ret false.

Definition off (m M : triple) : bool := box_offscreen (q_view q) m M.

(** Queueing curves one after the other through the same [BezierCurve]. *)
Definition queue_edges (edges : list (list triple)) (straight : bool) (r : float64) (mi : Z)
    (C : Tess) (s : Scene) : outcome (Tess * Scene) :=
  ofold (fun e '(C, s) => curve_queue (q_view q) (q_fuel q) e straight r mi C s) edges (C, s).

(** ** Bezier patches and triangles *)

Record Surface := mkSurface { sC : Tess; sS : Bezier }.
Definition newSurface : Surface := mkSurface newCurve newBezier.

(** The boundary curves drawn in outline mode. *)
Definition outline_edges (kind : surface) : list (list nat) :=
  match kind with
  | IsPatch => [[0; 4; 8; 12]; [12; 13; 14; 15]; [15; 11; 7; 3]; [3; 2; 1; 0]]
  | IsTriangle => [[0; 1; 3; 6]; [6; 7; 8; 9]; [9; 5; 2; 0]]
  end%nat.

(** Fully off the screen: what [QueueMesh] does with [S]. *)
Definition surface_offscreen (T : bool) (st : Surface) (s : Scene) : Surface * Scene :=
  let S := mkBezier (mkTess (clear (data (tess (sS st)))) false) T false in
  (mkSurface (sC st) S, bezier_notRendered S s).

(** [V3dBezierPatch::QueueMesh] and [V3dBezierTriangle::QueueMesh]. *)
Definition surface_QueueMesh (kind : surface) (mi : Z) (Controls : list triple) (Min Max : triple)
    (st : Surface) (s : Scene) : outcome (Surface * Scene) :=
  T <~ material_transparent mi;;
  if off Min Max then Ret (surface_offscreen T st s)
  else if mode_is DRAWMODE_OUTLINE then
    '(C, s) <~ queue_edges (map (map (pt Controls)) (outline_edges kind)) false ratio mi (sC st) s;;
    Ret (mkSurface C (sS st), s)
  else if negb (q_remesh q) && Onscreen (tess (sS st)) then Ret (st, append (sS st) s)
  else
    '(S', s) <~ bezier_queue (q_view q) (q_fuel q) kind Controls false ratio T None mi (sS st) s;;
    Ret (mkSurface (sC st) S', s).

Definition surface_bounds (kind : surface) : list triple -> triple * triple :=
  match kind with
  | IsPatch => computeBezierPatchBounds
  | IsTriangle => computeBezierTriangleBounds
  end.

(** Sums of opacities, compared with the number of corners. *)
Definition opacity_below (colors : list RGBA) (full : float32) : outcome bool :=
  if mode_is DRAWMODE_NORMAL then
    alphas <~ omapM (fun c => determined (c4a c)) colors;;
    match alphas with
    | [] => Ret false
    | a :: l => Ret (SFltb (foldl fadd a l) full)
    end
  else Ret false.

Definition vec4_of (c : RGBA) : outcome vec4 :=
  r <~ determined (c4r c);; g <~ determined (c4g c);;
  b <~ determined (c4b c);; a <~ determined (c4a c);; Ret (mkVec4 r g b a).
End Objects.

(** The same request with another [remesh]. *)
Definition with_remesh (r : bool) (q : Request) : Request :=
  mkRequest (imageWidth q) (imageHeight q) (sceneMinBound q) (sceneMaxBound q) r (q_orthographic q)
    (q_mode q) (q_view q) (q_materials q) (pixelsPerBp q) (q_fuel q).

Section CornerColors.
Context {math : MeshMath}.
Context (q : Request).

(** [V3dBezierPatchWithCornerColors::QueueMesh] and
    [V3dBezierTriangleWithCornerColors::QueueMesh].  In outline mode a temporary
    object without colours does the work; for a patch with [remesh] set. *)
Definition corners_QueueMesh (kind : surface) (mi : Z) (Controls : list triple)
    (cornerColors : list RGBA) (Min Max : option triple) (st : Surface) (s : Scene) :
    outcome (Surface * Scene) :=
  if mode_is q DRAWMODE_OUTLINE then
    let '(lo, hi) := surface_bounds kind Controls in
    let q := match kind with IsPatch => with_remesh true q | IsTriangle => q end in
    '(_, s) <~ surface_QueueMesh q kind mi Controls lo hi newSurface s;;
    Ret (st, s)
  else
    T <~ opacity_below q cornerColors (match kind with IsPatch => f4 | IsTriangle => f3 end);;
    lo <~ determined Min;;
    hi <~ determined Max;;
    if off q lo hi then Ret (surface_offscreen T st s)
    else if negb (q_remesh q) && Onscreen (tess (sS st)) then Ret (st, append (sS st) s)
    else
      corners <~ omapM vec4_of cornerColors;;
      '(S', s) <~ bezier_queue (q_view q) (q_fuel q) kind Controls false (ratio q) T (Some corners)
                   mi (sS st) s;;
      Ret (mkSurface (sC st) S', s).
End CornerColors.

(** ** Straight triangles and quadrilaterals *)

(** [quadOnscreen] or [triOnscreen], the triangle list [S] and its vertex format. *)
Record Flat := mkFlat { fC : Tess; fS : VertexBuffer; fOnscreen : bool; S_color : bool }.
Definition newFlat : Flat := mkFlat newCurve emptyBuffer true false.

(** The box of the vertices, by [std::min] and [std::max]. *)
Definition flat_box (v : list triple) : triple * triple :=
  foldl (fun '(m, M) p =>
      (mkTriple (std_min (tx m) (tx p)) (std_min (ty m) (ty p)) (std_min (tz m) (tz p)),
       mkTriple (std_max (tx M) (tx p)) (std_max (ty M) (ty p)) (std_max (tz M) (tz p))))
    (pt v 0, pt v 0) (tail v).

(** The triangles of a quadrilateral [(p1,p2,p3)], [(p1,p3,p4)], or of a triangle. *)
Definition flat_faces (v : list triple) : list (list nat) :=
  if Nat.eqb (length v) 4 then [[0; 1; 2]; [0; 2; 3]]%nat else [[0; 1; 2]]%nat.

(** The closed outline, as straight curves. *)
Definition flat_edges (v : list triple) : list (list triple) :=
  imap (fun i a => let b := pt v ((i + 1) mod length v) in [a; a; b; b]) v.

Section Flat.
Context {math : MeshMath}.
Context (q : Request).

Definition flat_normal (v : list triple) : triple :=
  glm_normalize_d (glm_cross_d (pt v 1 - pt v 0)%T (pt v 2 - pt v 0)%T).

(** The indices of the faces on the screen, from the vertex [base] on. *)
Definition flat_indices (v : list triple) (base : nat) : list Z :=
  concat (map (fun f => if points_offscreen (q_view q) (map (pt v) f) then []
                        else map (fun i => wrapw 32 (Z.of_nat (base + i))) f) (flat_faces v)).
Definition flat_visible (v : list triple) : bool :=
  forallb (fun f => negb (points_offscreen (q_view q) (map (pt v) f))) (flat_faces v).

(** [V3dStraightPlanarQuad::QueueMesh] (four vertices) and
    [V3dStraightTriangle::QueueMesh] (three). *)
Definition flat_QueueMesh (mi : Z) (centerIndex : UINT) (v : list triple) (st : Flat) (s : Scene) :
    outcome (Flat * Scene) :=
  let normal := flat_normal v in
  let '(Min, Max) := flat_box v in
  transparent <~ material_transparent q mi;;
  let notRendered s := if transparent then s <| transparentData ::= notRendered |>
                       else s <| materialData ::= notRendered |> in
  if off q Min Max then
    Ret (st <| fOnscreen := false |> <| fS := clear (fS st) |>, notRendered s)
  else if mode_is q DRAWMODE_OUTLINE then
    '(C, s) <~ queue_edges q (flat_edges v) true (scale_ratio q d1) mi (fC st) s;;
    Ret (st <| fC := C |>, s)
  else
    fast <~ (if negb (q_remesh q) && fOnscreen st
             then ci <~ determined centerIndex;; Ret (ci =? 0) else Ret false);;
    if fast then
      Ret (st, if S_color st then s <| transparentData ::= extendColor (fS st) |>
               else s <| materialData ::= extendMaterial (fS st) |>)
    else
      let s := notRendered s in
      let S := clear (fS st) in
      if transparent then
        let base := length (colorVertices S) in
        let vertex p := mkColorVertex (vec3_of p) (vec3_of normal) (to_int (1 + mi)) black in
        let S := push_indices (flat_indices v base)
                   (S <| colorVertices ::= fun l => l ++ map vertex v |>) in
        Ret (mkFlat (fC st) S (flat_visible v) true, s <| transparentData ::= extendColor S |>)
      else
        let base := length (materialVertices S) in
        let vertex p := mkMaterialVertex (vec3_of p) (vec3_of normal) (to_int mi) in
        let S := push_indices (flat_indices v base)
                   (S <| materialVertices ::= fun l => l ++ map vertex v |>) in
        Ret (mkFlat (fC st) S (flat_visible v) false, s <| materialData ::= extendMaterial S |>).

(** [size3] without the factor [s]. *)
Definition plain_ratio : float64 :=
  ddiv (pair_length (scene_width q) (scene_height q)) (size2 q).

(** [V3dStraightPlanarQuadWithCornerColors::QueueMesh] and
    [V3dStraightTriangleWithCornerColors::QueueMesh]. *)
Definition flat_corners_QueueMesh (mi : Z) (centerIndex : UINT) (v : list triple)
    (cornerColors : list RGBA) (st : Flat) (s : Scene) : outcome (Flat * Scene) :=
  let normal := flat_normal v in
  let '(Min, Max) := flat_box v in
  let notRendered transparent s := if transparent : bool then s <| transparentData ::= notRendered |>
                                   else s <| colorData ::= notRendered |> in
  let extend transparent S s := if transparent : bool then s <| transparentData ::= extendColor S |>
                                else s <| colorData ::= extendColor S |> in
  if off q Min Max then
    Ret (st <| fOnscreen := false |> <| fS := clear (fS st) |>, notRendered (S_color st) s)
  else if mode_is q DRAWMODE_OUTLINE then
    '(C, s) <~ queue_edges q (flat_edges v) true plain_ratio mi (fC st) s;;
    Ret (st <| fC := C |>, s)
  else
    transparent <~ opacity_below q cornerColors (if Nat.eqb (length v) 4 then f4 else f3);;
    fast <~ (if negb (q_remesh q) && fOnscreen st
             then ci <~ determined centerIndex;; Ret (ci =? 0) else Ret false);;
    if fast then Ret (st, extend transparent (fS st) s)
    else
      let s := notRendered transparent s in
      let S := clear (fS st) in
      colors <~ omapM vec4_of cornerColors;;
      let base := length (colorVertices S) in
      let vertex p c := mkColorVertex (vec3_of p) (vec3_of normal) (-1 - to_int mi) c in
      let S := push_indices (flat_indices v base)
                 (S <| colorVertices ::= fun l => l ++ zip_with vertex v colors |>) in
      Ret (mkFlat (fC st) S (flat_visible v) true, extend transparent S s).
End Flat.

(** ** Triangle groups, curves, lines and pixels *)

(** What these keep: [vertexData] and [fullyOnscreen]. *)
Record Plain := mkPlain { vertexData : VertexBuffer; fullyOnscreen : bool }.
Definition newPlain : Plain := mkPlain emptyBuffer false.

Section Plain.
Context {math : MeshMath}.
Context (q : Request).

(** [!remesh && fullyOnscreen && centerIndex == 0] *)
Definition plain_fast (centerIndex : UINT) (st : Plain) : outcome bool :=
  if negb (q_remesh q) && fullyOnscreen st
  then ci <~ determined centerIndex;; Ret (ci =? 0) else Ret false.

Definition plain_hidden (st : Plain) : Plain := mkPlain (clear (vertexData st)) false.

(** Three indices of a triangle. *)
Definition uint3 (i : UINT * UINT * UINT) : outcome (list Z) :=
  a <~ determined (fst (fst i));; b <~ determined (snd (fst i));; c <~ determined (snd i);;
  Ret [a; b; c].

(** The loop over the triangles that finds a transparent one. *)
Fixpoint any_transparent (nC : Z) (colors : list RGBA) (CI : list (UINT * UINT * UINT)) : outcome bool :=
  match CI with
  | [] => Ret false
  | i :: CI =>
      ci <~ uint3 i;;
      if forallb (fun c => c <? nC) ci then
        alphas <~ omapM (fun c => col <~ determined (colors !! Z.to_nat c);; determined (c4a col)) ci;;
        match alphas with
        | [x; y; z] => if SFltb (fadd (fadd x y) z) f3 then Ret true else any_transparent nC colors CI
        | _ => any_transparent nC colors CI
        end
      else any_transparent nC colors CI
  end.

(** The vertex with index [i] of a group. *)
Definition group_vertex (g : TriangleGroup) (nN nC material : Z) (i : nat) : outcome ColorVertex :=
  pos <~ determined (vertexPositions g !! i);;
  pos <~ point_of pos;;
  norm <~ (if Z.of_nat i <? nN then n <~ determined (vertexNormalArray g !! i);; point_of n
           else Ret (mkTriple d0 d0 d1));;
  col <~ (if Z.of_nat i <? nC then c <~ determined (vertexColorArray g !! i);; vec4_of c
          else Ret black);;
  Ret (mkColorVertex (vec3_of pos) (vec3_of norm) material col).

(** The triangles all of whose positions exist. *)
Definition group_indices (g : TriangleGroup) : outcome (list Z) :=
  l <~ omapM uint3 (positionIndices g);;
  Ret (concat (List.filter (forallb (fun i => i <? nP g)) l)).

(** [V3dTriangleGroup::QueueMesh].  Without vertex colours [1+(int)materialIndex]
    overflows for the greatest [int]. *)
Definition group_QueueMesh (mi : Z) (centerIndex : UINT) (g : TriangleGroup) (st : Plain) (s : Scene) :
    outcome (Plain * Scene) :=
  if (nI g =? 0) || (nP g =? 0) then Ret (st, s)
  else if mode_is q DRAWMODE_OUTLINE then Ret (st, s)
  else if off q (sceneMinBound q) (sceneMaxBound q) then
    Ret (plain_hidden st, s <| transparentData ::= notRendered |> <| colorData ::= notRendered |>)
  else
    transparent <~ material_transparent q mi;;
    let extend transparent b s := if transparent : bool then s <| transparentData ::= extendColor b |>
                                  else s <| colorData ::= extendColor b |> in
    fast <~ plain_fast centerIndex st;;
    if fast then Ret (st, extend transparent (vertexData st) s)
    else
      let s := if transparent then s <| transparentData ::= notRendered |>
               else s <| colorData ::= notRendered |> in
      nC <~ determined (nC g);;
      nN <~ determined (nN g);;
      materialIdx <~ (if 0 <? nC then Ret (-1 - to_int mi)
                      else if to_int mi =? 2 ^ 31 - 1 then Undef else Ret (1 + to_int mi));;
      vertices <~ omapM (group_vertex g nN nC materialIdx) (seq 0 (Z.to_nat (nP g)));;
      some <~ (if 0 <? nC
               then any_transparent nC (vertexColorArray g) (colorIndices g) else Ret false);;
      let transparent := transparent || some in
      outIndices <~ group_indices g;;
      let colBuffer := mkVertexBuffer [] vertices [] outIndices 0 in
      Ret (mkPlain colBuffer true, extend transparent colBuffer s).

(** [V3dBezierCurve::QueueMesh]; its [BezierCurve] is a local variable. *)
Definition curve_QueueMesh (mi : Z) (centerIndex : UINT) (Controls : list triple) (Min Max : triple)
    (st : Plain) (s : Scene) : outcome (Plain * Scene) :=
  if off q Min Max then
    Ret (plain_hidden st, s <| transparentData ::= notRendered |> <| materialData ::= notRendered |>)
  else
    fast <~ plain_fast centerIndex st;;
    if fast then Ret (st, s <| materialData ::= extendMaterial (vertexData st) |>)
    else
      '(S', s) <~ curve_queue (q_view q) (q_fuel q) Controls false (ratio q) mi newCurve s;;
      Ret (mkPlain (data S') (Onscreen S'), s).

(** [V3dLineSegment::QueueMesh] *)
Definition line_QueueMesh (mi : Z) (endpoints : list triple) (Min Max : triple) (st : Plain) (s : Scene) :
    outcome (Plain * Scene) :=
  let Controls := [pt endpoints 0; origin; origin; pt endpoints 1] in
  if off q Min Max then
    Ret (plain_hidden st, s <| transparentData ::= notRendered |> <| materialData ::= notRendered |>)
  else
    '(S', s) <~ curve_queue (q_view q) (q_fuel q) Controls true (ratio q) mi newCurve s;;
    Ret (mkPlain (data S') (Onscreen S'), s).

(** [V3dPixel::QueueMesh] *)
Definition pixel_QueueMesh (mi : Z) (position : triple) (width : float64) (st : Plain) (s : Scene) :
    Plain * Scene :=
  let h := ddiv (dmul dhalf width) (pixelsPerBp q) in
  let H := mkTriple h h h in
  if off q (position - H)%T (position + H)%T then
    (plain_hidden st, s <| pointData ::= notRendered |>)
  else (mkPlain (vertexData st) true, pixel_queue position width mi s).
End Plain.

(** ** [QueueMesh] of the classes that share a definition *)

Section Classes.
Context {math : MeshMath}.
Context (q : Request).

Definition V3dBezierPatch_QueueMesh := surface_QueueMesh q IsPatch.
Definition V3dBezierTriangle_QueueMesh := surface_QueueMesh q IsTriangle.
Definition V3dBezierPatchWithCornerColors_QueueMesh := corners_QueueMesh q IsPatch.
Definition V3dBezierTriangleWithCornerColors_QueueMesh := corners_QueueMesh q IsTriangle.
Definition V3dStraightPlanarQuad_QueueMesh := flat_QueueMesh q.
Definition V3dStraightTriangle_QueueMesh := flat_QueueMesh q.
Definition V3dStraightPlanarQuadWithCornerColors_QueueMesh := flat_corners_QueueMesh q.
Definition V3dStraightTriangleWithCornerColors_QueueMesh := flat_corners_QueueMesh q.
End Classes.
