(* ===== verification/Solids.v ===== *)
(** * Queueing the solids

    [v3d-Common/V3dFile/V3dObjects.cpp]: spheres, half spheres, disks, cylinders
    and tubes.  Each frame they are decomposed into Bezier triangles and patches
    (and the core into a line or a curve), which are queued as temporary objects;
    a solid keeps nothing between frames. *)

From S2P Require Import Prelude Ieee Xstream Bound V3dData Model Mesh Tess Objects.

(** ** [class Align] *)

Record Align := mkAlign { a_center : triple; a_ct : float64; a_st : float64; a_cp : float64; a_sp : float64 }.

Section Solids.
Context {math : MeshMath}.

(** The constructor; [dir] may be null. *)
Definition align (center : triple) (dir : option triple) : Align :=
  match dir with
  | Some d => mkAlign center (std_cos (tx d)) (std_sin (tx d)) (std_cos (ty d)) (std_sin (ty d))
  | None => mkAlign center d0 d0 d0 d0
  end.

Definition align_T0 (A : Align) (v : triple) : triple := tadd v (a_center A).

Definition align_T (A : Align) (v : triple) : triple :=
  let X := dadd (dmul (tx v) (a_ct A)) (dmul (tz v) (a_st A)) in
  let Y := ty v in
  mkTriple (dadd (dsub (dmul X (a_cp A)) (dmul Y (a_sp A))) (tx (a_center A)))
           (dadd (dadd (dmul X (a_sp A)) (dmul Y (a_cp A))) (ty (a_center A)))
           (dadd (dadd (dmul (dopp (tx v)) (a_st A)) (dmul (tz v) (a_ct A))) (tz (a_center A))).

(** ** The sphere *)

(** [dot3] is [dot]; [norm3], and [unit3], which divides by the norm. *)
Definition norm3 (v : triple) : float64 := dsqrt (dot v v).
Definition unit_div (v : triple) : triple :=
  let n := norm3 v in mkTriple (ddiv (tx v) n) (ddiv (ty v) n) (ddiv (tz v) n).

Definition sqrt2 : float64 := dsqrt d2.
Definition d4 : float64 := double_of_Z 4.
Definition four_thirds : float64 := ddiv d4 d3.

Definition gcMidPoint (P Q : triple) : triple :=
  let scale := ddiv d1 (dmul sqrt2 (dsqrt (dadd d1 (dot P Q)))) in
  tmulr (P + Q)%T scale.

Definition bezierEdge (P Q : triple) : triple * triple :=
  let x := dot P Q in
  let k := ddiv (dmul four_thirds (dsqrt (dsub d1 x))) (dadd sqrt2 (dsqrt (dadd d1 x))) in
  let u := unit_div (Q - x * P)%T in
  let v := unit_div (P - x * Q)%T in
  ((P + k * u)%T, (Q + k * v)%T).

Definition makeBezierTriangle (A B C : triple) : list triple :=
  let '(ab0, ab1) := bezierEdge A B in
  let '(bc0, bc1) := bezierEdge B C in
  let '(ca0, ca1) := bezierEdge C A in
  let S9 := (A + B + C + d3 * (ab0 + ab1 + bc0 + bc1 + ca0 + ca1))%T in
  let dir := unit_div (A + B + C)%T in
  let dotSD := dot S9 dir in
  let d144 := double_of_Z 144 in
  let disc := dsub (dmul (dmul d144 dotSD) dotSD) (dmul d144 (dsub (dot S9 S9) (double_of_Z 729))) in
  let disc := if SFltb disc d0 then d0 else disc in
  let R := ddiv (dadd (dmul (double_of_Z (-12)) dotSD) (dsqrt disc)) (double_of_Z 72) in
  [A; ab0; ca1; ab1; (R * dir)%T; ca0; B; bc0; bc1; C].

Fixpoint subdivideTriangle (A B C : triple) (depth : nat) : list (list triple) :=
  match depth with
  | O => [makeBezierTriangle A B C]
  | S depth =>
      let midAB := gcMidPoint A B in
      let midBC := gcMidPoint B C in
      let midCA := gcMidPoint C A in
      subdivideTriangle A midAB midCA depth ++ subdivideTriangle B midBC midAB depth ++
      subdivideTriangle C midCA midBC depth ++ subdivideTriangle midAB midBC midCA depth
  end.

Definition sphereOctant : list (list triple) :=
  subdivideTriangle (mkTriple d1 d0 d0) (mkTriple d0 d1 d0) (mkTriple d0 d0 d1) 2.

(** The control nets of [sphere]: the octant reflected and moved. *)
Definition sphere_pieces (center : triple) (r : float64) (dir : option triple) : list (list triple) :=
  let A := align center dir in
  let t := match dir with Some _ => align_T A | None => align_T0 A end in
  let sign := [-1; 1] in
  ix ← sign; iy ← sign; iz ← (match dir with Some _ => [1] | None => sign end);
  let rx := dmul (double_of_Z ix) r in
  let ry := dmul (double_of_Z iy) r in
  let rz := dmul (double_of_Z iz) r in
  map (map (fun p => t (mkTriple (dmul rx (tx p)) (dmul ry (ty p)) (dmul rz (tz p))))) sphereOctant.

(** ** The disk and the cylinder *)

Definition circle_a : float64 := dmul four_thirds (dsub sqrt2 d1).

Definition unitdisk : list triple :=
  let a := circle_a in
  let b := dsub d1 (ddiv (dmul d2 a) d3) in
  let T x y := mkTriple x y d0 in
  let na := dopp a in
  let nb := dopp b in
  [T d1 d0; T d1 na; T a dm1; T d0 dm1; T d1 a; T b d0; T d0 nb; T na dm1;
   T a d1; T d0 b; T nb d0; T dm1 na; T d0 d1; T na d1; T dm1 a; T dm1 d0].

Definition disk_piece (center : triple) (r : float64) (dir : option triple) : list triple :=
  let A := align center dir in
  map (fun v => align_T A (mkTriple (dmul r (tx v)) (dmul r (ty v)) d0)) unitdisk.

(** [1/3] and [2/3] in the source are quotients of [int]s. *)
Definition unitcylinder : list triple :=
  let a := circle_a in
  let z1 := double_of_Z (1 `quot` 3) in
  let z2 := double_of_Z (2 `quot` 3) in
  let column x y := [mkTriple x y d0; mkTriple x y z1; mkTriple x y z2; mkTriple x y d1] in
  column d1 d0 ++ column d1 a ++ column a d1 ++ column d0 d1.

Definition cylinder_pieces (center : triple) (r h : float64) (dir : option triple) : list (list triple) :=
  let A := align center dir in
  i ← [-1; 1]; let rx := dmul (double_of_Z i) r in
  j ← [-1; 1]; let ry := dmul (double_of_Z j) r in
  [map (fun v => align_T A (mkTriple (dmul rx (tx v)) (dmul ry (ty v)) (dmul h (tz v)))) unitcylinder].

(** ** The tube *)

(** [class Rmf] *)
Record Rmf := mkRmf { r_r : triple; r_s : triple; r_p : triple; r_t : triple }.
Definition newRmf (p r t : triple) : Rmf := mkRmf r (cross t r) p t.

Section Frames.
Context (z0 c0 c1 z1 : triple).

(** [abs2(v) > n] *)
Definition longer (v : triple) (n : float64) : bool := SFltb n (abs2 v).

Definition perp (v : triple) : triple :=
  let u := cross v (mkTriple d0 d1 d0) in
  let norm := dmul DBL_EPSILON (abs2 v) in
  if longer u norm then unit3 u
  else
    let u := cross v (mkTriple d0 d0 d1) in
    if longer u norm then unit3 u else mkTriple d1 d0 d0.

Definition rmf_norm : float64 :=
  dmul DBL_EPSILON (glm_max_d (glm_max_d (glm_max_d (abs2 z0) (abs2 c0)) (abs2 c1)) (abs2 z1)).

(** [z1-z0+3*(c0-c1)] *)
Definition third_difference : triple := (z1 - z0 + d3 * (c0 - c1))%T.

(** The lambda [d] of [rmf]: the direction at [t]; its last case for [t == 1]
    is not normalised. *)
Definition direction_at (t : float64) : triple :=
  if SFeqb t d1 then
    let dir := (z1 - c1)%T in
    if longer dir rmf_norm then unit3 dir
    else
      let dir := (d2 * c1 - c0 - z1)%T in
      if longer dir rmf_norm then unit3 dir else third_difference
  else
    let a := third_difference in
    let b := (d2 * (z0 + c1) - d4 * c0)%T in
    let c := (c0 - z0)%T in
    let t2 := dmul t t in
    let dir := (tmulr a t2 + tmulr b t + c)%T in
    if longer dir rmf_norm then unit3 dir
    else
      let dir := (tmulr a (dmul d2 t) + b)%T in
      if longer dir rmf_norm then unit3 dir else unit3 a.

Definition first_direction : triple :=
  let shorter v := SFltb (abs2 v) rmf_norm in
  let T := (c0 - z0)%T in
  if shorter T then
    let T := (z0 - d2 * c0 + c1)%T in
    if shorter T then third_difference else T
  else T.

(** One step of the loop of [rmf]: the frame at [s] from the frame before. *)
Definition rmf_step (Ri : Rmf) (s : float64) : Rmf :=
  let onemt := dsub d1 s in
  let onemt2 := dmul onemt onemt in
  let onemt3 := dmul onemt2 onemt in
  let s3 := dmul d3 s in
  let onemt2 := dmul onemt2 s3 in
  let onemt := dmul onemt (dmul s3 s) in
  let t3 := dmul (dmul s s) s in
  let p := (onemt3 * z0 + onemt2 * c0 + onemt * c1 + t3 * z1)%T in
  let v1 := (p - r_p Ri)%T in
  if negb (SFeqb (tx v1) d0) || negb (SFeqb (ty v1) d0) || negb (SFeqb (tz v1) d0) then
    let r := r_r Ri in
    let u1 := unit3 v1 in
    let ti := r_t Ri in
    let tp := (ti - dmul d2 (dot u1 ti) * u1)%T in
    let ti := direction_at s in
    let rp := (r - dmul d2 (dot u1 r) * u1)%T in
    let u2 := unit3 (ti - tp)%T in
    let rp := (rp - dmul d2 (dot u2 rp) * u2)%T in
    newRmf p (unit3 rp) (unit3 ti)
  else Ri.

Fixpoint rmf_loop (Ri : Rmf) (ts : list float64) : list Rmf :=
  match ts with
  | [] => []
  | s :: ts => let R := rmf_step Ri s in R :: rmf_loop R ts
  end.

(** [rmf]: the first parameter only gives the length of the result. *)
Definition rmf (ts : list float64) : list Rmf :=
  match ts with
  | [] => []
  | _ :: ts =>
      let T := unit3 first_direction in
      let R0 := newRmf z0 (perp T) T in R0 :: rmf_loop R0 ts
  end.
End Frames.

(** The lambda [f] of [tube]: a quarter of the tube. *)
Definition tube_quarter (v : list triple) (frames : list Rmf) (w : float64)
    (abcd : float64 * float64 * float64 * float64) : list triple :=
  let '(a, b, c, d) := abcd in
  let aw := dmul circle_a w in
  let arc := [(w, d0); (w, aw); (aw, w); (d0, w)] in
  concat (zip_with (fun R p =>
    map (fun '(x, y) =>
      let coord g :=
        let R0 := g (r_r R) in let R1 := g (r_s R) in
        let T0 := dadd (dmul R0 a) (dmul R1 b) in
        let T1 := dadd (dmul R0 c) (dmul R1 d) in
        dadd (dadd (dmul T0 x) (dmul T1 y)) (g p) in
      mkTriple (coord tx) (coord ty) (coord tz)) arc) frames v).

Definition tube_pieces (v : list triple) (w : float64) : list (list triple) :=
  let frames := rmf (pt v 0) (pt v 1) (pt v 2) (pt v 3)
                  [d0; ddiv d1 d3; ddiv d2 d3; d1] in
  map (tube_quarter v frames w)
    [(d1, d0, d0, d1); (d0, dm1, d1, d0); (dm1, d0, d0, dm1); (d0, d1, dm1, d0)].

(** ** [QueueMesh] of the solids *)

Context (q : Request).

(** A temporary [V3dBezierPatch] or [V3dBezierTriangle], queued with [remesh]. *)
Definition queue_temporary (kind : surface) (mi : Z) (p : list triple) (s : Scene) : outcome Scene :=
  let '(Min, Max) := surface_bounds kind p in
  '(_, s) <~ surface_QueueMesh (with_remesh true q) kind mi p Min Max newSurface s;;
  Ret s.

Definition sphere (center : triple) (r : float64) (dir : option triple) (mi : Z) (s : Scene) :
    outcome Scene :=
  ofold (queue_temporary IsTriangle mi) (sphere_pieces center r dir) s.

Definition disk (center : triple) (r : float64) (dir : option triple) (mi : Z) (s : Scene) :
    outcome Scene :=
  queue_temporary IsPatch mi (disk_piece center r dir) s.

Definition cylinder (center : triple) (r h : float64) (dir : option triple) (core : bool) (mi : Z)
    (s : Scene) : outcome Scene :=
  s <~ ofold (queue_temporary IsPatch mi) (cylinder_pieces center r h dir) s;;
  if core then
    let Center := align_T (align center dir) (mkTriple d0 d0 h) in
    let '(Min, Max) := lineBounds center Center in
    '(_, s) <~ line_QueueMesh (with_remesh true q) mi [center; Center] Min Max newPlain s;;
    Ret s
  else Ret s.

Definition tube (v : list triple) (w : float64) (core : bool) (mi : Z) (s : Scene) : outcome Scene :=
  s <~ ofold (queue_temporary IsPatch mi) (tube_pieces v w) s;;
  if core then
    let '(Min, Max) := computeBezierCurveBounds (pt v 0) (pt v 1) (pt v 2) (pt v 3) in
    '(_, s) <~ curve_QueueMesh (with_remesh true q) mi None v Min Max newPlain s;;
    Ret s
  else Ret s.

(** The five classes; the angles of a direction make the [triple] that [Align] takes. *)
Definition V3dSphere_QueueMesh (center : triple) (radius : float64) (mi : Z) : Scene -> outcome Scene :=
  sphere center radius None mi.
Definition V3dHemiSphere_QueueMesh (center : triple) (radius polarAngle azimuthalAngle : float64)
    (mi : Z) : Scene -> outcome Scene :=
  sphere center radius (Some (mkTriple polarAngle azimuthalAngle d0)) mi.
Definition V3dDisk_QueueMesh (center : triple) (radius polarAngle azimuthalAngle : float64)
    (mi : Z) : Scene -> outcome Scene :=
  disk center radius (Some (mkTriple polarAngle azimuthalAngle d0)) mi.
Definition V3dCylinder_QueueMesh (center : triple) (radius height polarAngle azimuthalAngle : float64)
    (core : Z) (mi : Z) : Scene -> outcome Scene :=
  cylinder center radius height (Some (mkTriple polarAngle azimuthalAngle d0)) (negb (core =? 0)) mi.
Definition V3dTube_QueueMesh (controlPoints : list triple) (width : float64) (core : Z) (mi : Z) :
    Scene -> outcome Scene :=
  tube controlPoints width (negb (core =? 0)) mi.
End Solids.
