(* ===== verification/QueueMesh.v ===== *)
(** * Queueing a file

    [V3dFile::QueueMesh] of [v3d-Common/V3dFile/V3dFile.cpp]: every object queues
    itself, and the vertices a billboard has added are turned towards the camera.
    [object_QueueMesh] is the virtual call, by the class of the object; the state
    that an object keeps between frames goes beside it. *)

From S2P Require Import Prelude Ieee Xstream Bound V3dData Model Mesh Tess Objects Solids.

(** ** Objects and what they keep *)

Inductive ObjectState :=
  | SurfaceState (st : Surface)
  | FlatState (st : Flat)
  | PlainState (st : Plain).

(** The state of a newly constructed object; the solids keep nothing. *)
Definition new_state (sh : shape) : ObjectState :=
  match sh with
  | BezierPatch _ | BezierTriangle _ | BezierPatchWithCornerColors _ _
  | BezierTriangleWithCornerColors _ _ => SurfaceState newSurface
  | StraightPlanarQuad _ | StraightTriangle _ | StraightPlanarQuadWithCornerColors _ _
  | StraightTriangleWithCornerColors _ _ => FlatState newFlat
  | _ => PlainState newPlain
  end.

Section Queue.
Context {math : MeshMath}.

(** Running the [QueueMesh] of a class on the state of an object of that class;
    an object never has the state of another class. *)
Definition on_surface (st : ObjectState) (f : Surface -> outcome (Surface * Scene)) :
    outcome (ObjectState * Scene) :=
  match st with SurfaceState st => '(st, s) <~ f st;; Ret (SurfaceState st, s) | _ => Undef end.
Definition on_flat (st : ObjectState) (f : Flat -> outcome (Flat * Scene)) :
    outcome (ObjectState * Scene) :=
  match st with FlatState st => '(st, s) <~ f st;; Ret (FlatState st, s) | _ => Undef end.
Definition on_plain (st : ObjectState) (f : Plain -> outcome (Plain * Scene)) :
    outcome (ObjectState * Scene) :=
  match st with PlainState st => '(st, s) <~ f st;; Ret (PlainState st, s) | _ => Undef end.

(** The virtual call. *)
Definition object_QueueMesh (q : Request) (o : V3dObject) (st : ObjectState) (s : Scene) :
    outcome (ObjectState * Scene) :=
  mi <~ determined (materialIndex o);;
  let bezier run cps :=
    on_surface st (fun st =>
      p <~ omapM point_of cps;; lo <~ determined (Min o);; hi <~ determined (Max o);;
      run mi p lo hi st s) in
  let corners run cps cols :=
    on_surface st (fun st => p <~ omapM point_of cps;; run mi p cols (Min o) (Max o) st s) in
  let flat run vs := on_flat st (fun st =>
    v <~ omapM point_of vs;; run mi (centerIndex o) v st s) in
  let flat_corners run vs cols := on_flat st (fun st =>
    v <~ omapM point_of vs;; run mi (centerIndex o) v cols st s) in
  let solid run := s <~ run s;; Ret (st, s) in
  match members o with
  | BezierPatch cps => bezier (V3dBezierPatch_QueueMesh q) cps
  | BezierTriangle cps => bezier (V3dBezierTriangle_QueueMesh q) cps
  | BezierPatchWithCornerColors cps cols =>
      corners (V3dBezierPatchWithCornerColors_QueueMesh q) cps cols
  | BezierTriangleWithCornerColors cps cols =>
      corners (V3dBezierTriangleWithCornerColors_QueueMesh q) cps cols
  | StraightPlanarQuad vs => flat (V3dStraightPlanarQuad_QueueMesh q) vs
  | StraightTriangle vs => flat (V3dStraightTriangle_QueueMesh q) vs
  | StraightPlanarQuadWithCornerColors vs cols =>
      flat_corners (V3dStraightPlanarQuadWithCornerColors_QueueMesh q) vs cols
  | StraightTriangleWithCornerColors vs cols =>
      flat_corners (V3dStraightTriangleWithCornerColors_QueueMesh q) vs cols
  | Triangles g => on_plain st (fun st => group_QueueMesh q mi (centerIndex o) g st s)
  | Sphere c r =>
      c <~ point_of c;; r <~ determined r;; solid (V3dSphere_QueueMesh q c r mi)
  | HemiSphere c r polar azimuth =>
      c <~ point_of c;; r <~ determined r;;
      polar <~ determined polar;; azimuth <~ determined azimuth;;
      solid (V3dHemiSphere_QueueMesh q c r polar azimuth mi)
  | Disk c r polar azimuth =>
      c <~ point_of c;; r <~ determined r;;
      polar <~ determined polar;; azimuth <~ determined azimuth;;
      solid (V3dDisk_QueueMesh q c r polar azimuth mi)
  | Cylinder c r h polar azimuth core =>
      c <~ point_of c;; r <~ determined r;; h <~ determined h;;
      polar <~ determined polar;; azimuth <~ determined azimuth;; core <~ determined core;;
      solid (V3dCylinder_QueueMesh q c r h polar azimuth core mi)
  | Tube cps w core =>
      v <~ omapM point_of cps;; w <~ determined w;; core <~ determined core;;
      solid (V3dTube_QueueMesh q v w core mi)
  | BezierCurve cps => on_plain st (fun st =>
      p <~ omapM point_of cps;; lo <~ determined (Min o);; hi <~ determined (Max o);;
      curve_QueueMesh q mi (centerIndex o) p lo hi st s)
  | LineSegment ends => on_plain st (fun st =>
      p <~ omapM point_of ends;; lo <~ determined (Min o);; hi <~ determined (Max o);;
      line_QueueMesh q mi p lo hi st s)
  | Pixel p w => on_plain st (fun st =>
      p <~ point_of p;; w <~ determined w;; Ret (pixel_QueueMesh q mi p w st s))
  end.

(** ** Billboards *)

Definition turn_material (t : vec3 -> vec3) (v : MaterialVertex) : MaterialVertex :=
  mkMaterialVertex (t (mv_position v)) (mv_normal v) (mv_material v).
Definition turn_color (t : vec3 -> vec3) (v : ColorVertex) : ColorVertex :=
  mkColorVertex (t (cv_position v)) (cv_normal v) (cv_material v) (cv_color v).

(** The elements from the [n]-th on. *)
Definition map_from {A} (n : nat) (f : A -> A) (l : list A) : list A :=
  take n l ++ map f (drop n l).

(** The loops over the vertices that an object has added to three of the buffers. *)
Definition billboard (t : vec3 -> vec3) (before s : Scene) : Scene :=
  mkScene
    ((materialData s) <| materialVertices ::=
       map_from (length (materialVertices (materialData before))) (turn_material t) |>)
    ((colorData s) <| colorVertices ::=
       map_from (length (colorVertices (colorData before))) (turn_color t) |>)
    (transparentData s)
    ((lineData s) <| materialVertices ::=
       map_from (length (materialVertices (lineData before))) (turn_material t) |>)
    (pointData s).

(** The center of an object, if it is a billboard. *)
Definition center_of (centers : list TRIPLE) (o : V3dObject) : outcome (option vec3) :=
  ci <~ determined (centerIndex o);;
  if (0 <? ci) && (ci <=? Z.of_nat (length centers)) then
    c <~ determined (centers !! Z.to_nat (ci - 1));;
    c <~ point_of c;; Ret (Some (vec3_of c))
  else Ret None.

(** One iteration of the loop over the objects. *)
Definition queue_object (q : Request) (centers : list TRIPLE) (o : V3dObject) (st : ObjectState)
    (s : Scene) : outcome (ObjectState * Scene) :=
  '(st, s1) <~ object_QueueMesh q o st s;;
  c <~ center_of centers o;;
  match c with
  | Some c => Ret (st, billboard (billboardTransform (q_view q) c) s s1)
  | None => Ret (st, s1)
  end.

Fixpoint queue_objects (q : Request) (centers : list TRIPLE) (os : list (V3dObject * ObjectState))
    (s : Scene) : outcome (list (V3dObject * ObjectState) * Scene) :=
  match os with
  | [] => Ret ([], s)
  | (o, st) :: os =>
      '(st, s) <~ queue_object q centers o st s;;
      '(os, s) <~ queue_objects q centers os s;;
      Ret ((o, st) :: os, s)
  end.

(** [camp::pixelsPerBp] as [V3dFile::QueueMesh] sets it. *)
Definition pixels_per_bp (width : Z) (h : V3dHeaderInfo) : float64 :=
  if 0 <? canvasWidth h then ddiv (double_of_Z width) (double_of_Z (canvasWidth h)) else d1.

(** [V3dFile::QueueMesh]; [q] brings the arguments and the camera, the globals
    [materials] and [pixelsPerBp] are set here. *)
Definition file_QueueMesh (q : Request) (f : V3dFile) (sts : list ObjectState) (s : Scene) :
    outcome (list ObjectState * Scene) :=
  let q := mkRequest (imageWidth q) (imageHeight q) (sceneMinBound q) (sceneMaxBound q) (q_remesh q)
             (q_orthographic q) (q_mode q) (q_view q) (materials f)
             (pixels_per_bp (imageWidth q) (headerInfo f)) (q_fuel q) in
  '(os, s) <~ queue_objects q (centers f) (zip (objects f) sts) s;;
  Ret (map snd os, s).

(** The states of a file that has just been loaded. *)
Definition new_states (f : V3dFile) : list ObjectState := map (fun o => new_state (members o)) (objects f).
End Queue.
