(* ===== verification/QueueSafety.v ===== *)
(** * Every index refers to a vertex

    The draw calls of the renderer read a vertex for each index of a buffer, so
    an index past the vertices would read outside the buffer.  The invariant
    [scene_ok] says that there is none; it is kept by [QueueMesh] of every class
    and of the file, together with the invariant of what the objects keep
    between frames, as long as no buffer exceeds 2^32 vertices ([small]), the
    range of an index. *)

From S2P Require Import Prelude Ieee Xstream Bound V3dData Model Mesh Tess TessProps.
From S2P Require Import Objects Solids QueueMesh.

(** ** The invariant *)

(** The indices of a buffer are below [n]. *)
Definition below (n : nat) (b : VertexBuffer) : Prop :=
  forall i, i ∈ indices b -> 0 <= i < Z.of_nat n.

Definition mcount (b : VertexBuffer) : nat := length (materialVertices b).
Definition ccount (b : VertexBuffer) : nat := length (colorVertices b).
Definition pcount (b : VertexBuffer) : nat := length (pointVertices b).

Definition scene_ok (s : Scene) : Prop :=
  below (mcount (materialData s)) (materialData s) /\
  below (ccount (colorData s)) (colorData s) /\
  below (ccount (transparentData s)) (transparentData s) /\
  below (mcount (lineData s)) (lineData s) /\
  below (pcount (pointData s)) (pointData s).

(** The sizes of the buffers, and when indices can number their vertices. *)
Definition sizes (s : Scene) : list nat :=
  [mcount (materialData s); ccount (colorData s); ccount (transparentData s);
   mcount (lineData s); pcount (pointData s)].
Definition small (s : Scene) : Prop := Forall (fun n => Z.of_nat n <= 2 ^ 32) (sizes s).
Definition grows (s s' : Scene) : Prop := Forall2 le (sizes s) (sizes s').

#[export] Instance grows_preorder : PreOrder grows.
Proof.
  split; [intros s | intros s1 s2 s3]; unfold grows; [reflexivity | apply transitivity].
Qed.

Lemma small_grows s s' : grows s s' -> small s' -> small s.
Proof.
  unfold small, grows. generalize (sizes s), (sizes s').
  induction 1; inversion 1; constructor; [lia|auto].
Qed.

(** ** Extending a buffer *)

Lemma below_extend (a b : VertexBuffer) n m c :
  below n a -> below m b -> Z.of_nat (n + m) <= 2 ^ 32 ->
  indices c = extendOffset (indices a) (indices b) (wrapw 32 (Z.of_nat n)) -> below (n + m) c.
Proof.
  intros Ha Hb Hmax E i. rewrite E. unfold extendOffset.
  intros [Hi|(j & -> & Hj)%list_elem_of_fmap]%elem_of_app; [apply Ha in Hi; lia|].
  apply Hb in Hj. rewrite (wrapw_id _ (Z.of_nat n)) by (unfold in_range; lia).
  rewrite wrapw_id by (unfold in_range; lia). lia.
Qed.

Lemma below_extendMaterial a b :
  below (mcount a) a -> below (mcount b) b -> Z.of_nat (mcount (extendMaterial b a)) <= 2 ^ 32 ->
  below (mcount (extendMaterial b a)) (extendMaterial b a).
Proof.
  unfold mcount, extendMaterial. destruct a, b. cbn. rewrite length_app. intros Ha Hb Hmax.
  by apply (below_extend _ _ _ _ _ Ha Hb Hmax).
Qed.

Lemma below_extendColor a b :
  below (ccount a) a -> below (ccount b) b -> Z.of_nat (ccount (extendColor b a)) <= 2 ^ 32 ->
  below (ccount (extendColor b a)) (extendColor b a).
Proof.
  unfold ccount, extendColor. destruct a, b. cbn. rewrite length_app. intros Ha Hb Hmax.
  by apply (below_extend _ _ _ _ _ Ha Hb Hmax).
Qed.

Lemma below_extendPoint a b :
  below (pcount a) a -> below (pcount b) b -> Z.of_nat (pcount (extendPoint b a)) <= 2 ^ 32 ->
  below (pcount (extendPoint b a)) (extendPoint b a).
Proof.
  unfold pcount, extendPoint. destruct a, b. cbn. rewrite length_app. intros Ha Hb Hmax.
  by apply (below_extend _ _ _ _ _ Ha Hb Hmax).
Qed.

(** A step on the scene that keeps the invariant if [P] holds. *)
Definition keeps (P : Prop) (s s' : Scene) : Prop :=
  grows s s' /\ (small s' -> P -> scene_ok s -> scene_ok s').

Lemma keeps_refl P s : keeps P s s.
Proof. by split. Qed.

Lemma keeps_trans (P Q : Prop) s1 s2 s3 :
  keeps P s1 s2 -> keeps Q s2 s3 -> keeps (P /\ Q) s1 s3.
Proof.
  intros [G1 K1] [G2 K2]. split; [by transitivity s2|].
  intros Hs [HP HQ] Hok. apply K2; [done..|]. apply K1; [|done..]. by eapply small_grows.
Qed.

Lemma keeps_weaken (P Q : Prop) s s' : (small s' -> Q -> P) -> keeps P s s' -> keeps Q s s'.
Proof. intros H [G K]. split; [done|]. auto. Qed.

(** Opens a goal about one updated buffer. *)
Ltac open_scene :=
  match goal with s : Scene |- _ => destruct s as [a1 a2 a3 a4 a5] end;
  unfold keeps, grows, small, sizes, scene_ok; cbn;
  repeat rewrite list.Forall2_cons; repeat rewrite list.Forall_cons.

Ltac count_le :=
  unfold mcount, ccount, pcount, extendMaterial, extendColor, extendPoint, notRendered;
  repeat match goal with b : VertexBuffer |- _ => destruct b end;
  cbn; rewrite ?length_app; lia.

Lemma keeps_material b s :
  keeps (below (mcount b) b) s (s <| materialData ::= extendMaterial b |>).
Proof.
  open_scene. split; [split_and!; try done; count_le|].
  intros (Hs & _) Hb (? & ? & ? & ? & ?). split_and!; try done. by apply below_extendMaterial.
Qed.

Lemma keeps_color b s : keeps (below (ccount b) b) s (s <| colorData ::= extendColor b |>).
Proof.
  open_scene. split; [split_and!; try done; count_le|].
  intros (_ & Hs & _) Hb (? & ? & ? & ? & ?). split_and!; try done. by apply below_extendColor.
Qed.

Lemma keeps_transparent b s :
  keeps (below (ccount b) b) s (s <| transparentData ::= extendColor b |>).
Proof.
  open_scene. split; [split_and!; try done; count_le|].
  intros (_ & _ & Hs & _) Hb (? & ? & ? & ? & ?). split_and!; try done. by apply below_extendColor.
Qed.

Lemma keeps_line b s : keeps (below (mcount b) b) s (s <| lineData ::= extendMaterial b |>).
Proof.
  open_scene. split; [split_and!; try done; count_le|].
  intros (_ & _ & _ & Hs & _) Hb (? & ? & ? & ? & ?). split_and!; try done.
  by apply below_extendMaterial.
Qed.

Lemma keeps_point b s : keeps (below (pcount b) b) s (s <| pointData ::= extendPoint b |>).
Proof.
  open_scene. split; [split_and!; try done; count_le|].
  intros (_ & _ & _ & _ & Hs & _) Hb (? & ? & ? & ? & ?). split_and!; try done.
  by apply below_extendPoint.
Qed.

(** Marking a buffer for upload touches neither vertices nor indices. *)
Definition same_mesh (s s' : Scene) : Prop :=
  sizes s = sizes s' /\
  Forall2 (fun b b' => indices b = indices b')
    [materialData s; colorData s; transparentData s; lineData s; pointData s]
    [materialData s'; colorData s'; transparentData s'; lineData s'; pointData s'].

Lemma keeps_same s s' : same_mesh s s' -> keeps True s s'.
Proof.
  intros [Hs Hi]. split; [unfold grows; by rewrite Hs|].
  revert Hs Hi. unfold scene_ok, below, sizes. intros [= H1 H2 H3 H4 H5].
  repeat rewrite list.Forall2_cons. intros (I1 & I2 & I3 & I4 & I5 & _) _ _.
  by rewrite H1, H2, H3, H4, H5, I1, I2, I3, I4, I5.
Qed.

Ltac same_mesh := match goal with |- same_mesh ?s _ => destruct s as [[] [] [] [] []] end;
  split; [done|]; by repeat constructor.

Lemma keeps_nr_material s : keeps True s (s <| materialData ::= notRendered |>).
Proof. apply keeps_same. same_mesh. Qed.
Lemma keeps_nr_color s : keeps True s (s <| colorData ::= notRendered |>).
Proof. apply keeps_same. same_mesh. Qed.
Lemma keeps_nr_transparent s : keeps True s (s <| transparentData ::= notRendered |>).
Proof. apply keeps_same. same_mesh. Qed.
Lemma keeps_nr_line s : keeps True s (s <| lineData ::= notRendered |>).
Proof. apply keeps_same. same_mesh. Qed.
Lemma keeps_nr_point s : keeps True s (s <| pointData ::= notRendered |>).
Proof. apply keeps_same. same_mesh. Qed.

#[export] Hint Resolve keeps_refl keeps_nr_material keeps_nr_color keeps_nr_transparent
  keeps_nr_line keeps_nr_point keeps_material keeps_color keeps_transparent keeps_line keeps_point : v3d.

(** ** Curves *)

Lemma mesh_push k a l t : length l = a -> mesh k a l t (t <| data ::= push_indices l |>).
Proof.
  intros Hl. destruct t as [b o], b. split_and!; [unfold nvert; cbn; lia|done|done|]. cbn.
  exists l. split_and!; [done|rewrite Hl; exists 1%nat; lia|by left|].
  intros _ _ i [Hi|Hi]; [exact Hi|]. unfold nvert in Hi. cbn in Hi. lia.
Qed.

Lemma curve_render_mesh fuel k p straight t t' :
  curve_render fuel k p straight t = Ret t' -> mesh k 2 [] t t'.
Proof.
  unfold curve_render. destruct (if straight then _ else _) as [n0 n1].
  destruct (add_vertices k _ (data t)) as [ids b] eqn:Ev.
  pose proof (add_vertices_spec _ _ _ _ _ Ev) as (Hl & _). intros E.
  eapply mesh_add; [exact Ev|]. cbn [app]. destruct straight.
  - injection E as <-. by apply mesh_push.
  - by apply (render_piece_mesh k (n := 2) fuel (p, ids)).
Qed.

Lemma mesh_from_empty k a t t' :
  nvert k (data t) = 0 -> indices (data t) = [] -> mesh k a [] t t' ->
  nvert k (data t') <= 2 ^ 32 -> forall i, i ∈ indices (data t') -> 0 <= i < nvert k (data t').
Proof.
  intros H0 Hi (_ & _ & _ & l & El & _ & S & _) Hmax i. rewrite El, Hi, H0 in *.
  intros Hin. destruct (S Hmax i Hin); [set_solver|lia].
Qed.

Lemma small_line s : small s -> Z.of_nat (mcount (lineData s)) <= 2 ^ 32.
Proof. intros H. by apply (list.Forall_lookup_1 _ _ 3 _ H). Qed.
Lemma small_material s : small s -> Z.of_nat (mcount (materialData s)) <= 2 ^ 32.
Proof. intros H. by apply (list.Forall_lookup_1 _ _ 0 _ H). Qed.
Lemma small_color s : small s -> Z.of_nat (ccount (colorData s)) <= 2 ^ 32.
Proof. intros H. by apply (list.Forall_lookup_1 _ _ 1 _ H). Qed.
Lemma small_transparent s : small s -> Z.of_nat (ccount (transparentData s)) <= 2 ^ 32.
Proof. intros H. by apply (list.Forall_lookup_1 _ _ 2 _ H). Qed.

Lemma curve_queue_keeps view fuel g straight r mi t s t' s' :
  curve_queue view fuel g straight r mi t s = Ret (t', s') ->
  keeps True s s' /\ (small s' -> below (mcount (data t')) (data t')).
Proof.
  unfold curve_queue. intros E. apply obind_Ret in E as (t1 & E & [= <- <-]).
  apply curve_render_mesh in E.
  assert (small (s <| lineData ::= notRendered |> <| lineData ::= extendMaterial (data t1) |>) ->
          below (mcount (data t1)) (data t1)) as Hb.
  { intros Hs%small_line i Hi. eapply mesh_from_empty in E; [exact E|done|done| |exact Hi].
    revert Hs. unfold nvert. cbn. destruct s as [a1 a2 a3 [] a5], (data t1).
    unfold mcount. cbn. rewrite length_app. lia. }
  split; [|done]. eapply keeps_weaken; [|exact (keeps_trans _ _ _ _ _ (keeps_nr_line s)
    (keeps_line (data t1) (s <| lineData ::= notRendered |>)))].
  intros Hs _. split; [done|]. by apply Hb.
Qed.

(** A loop over objects or pieces. *)
Lemma ofold_keeps_scene {A} (f : A -> Scene -> outcome Scene) l s s' :
  (forall a s s', f a s = Ret s' -> keeps True s s') -> ofold f l s = Ret s' -> keeps True s s'.
Proof.
  intros Hf. revert s. induction l as [|a l IH]; intros s; cbn [ofold].
  { intros [= <-]. apply keeps_refl. }
  intros E. apply obind_Ret in E as (s1 & E1 & E).
  eapply keeps_weaken; [|eapply keeps_trans; [by eapply Hf|by apply IH]]. done.
Qed.

Lemma queue_edges_keeps q edges straight r mi C s C' s' :
  queue_edges q edges straight r mi C s = Ret (C', s') -> keeps True s s'.
Proof.
  unfold queue_edges. revert C s. induction edges as [|e edges IH]; intros C s; cbn [ofold].
  { intros [= <- <-]. apply keeps_refl. }
  intros E. apply obind_Ret in E as ([C1 s1] & E1 & E). apply curve_queue_keeps in E1 as [K _].
  eapply keeps_weaken; [|eapply keeps_trans; [exact K|by eapply IH]]. done.
Qed.

(** ** Surfaces *)

(** The mesh a surface keeps: its indices are below the number of its vertices. *)
Definition bezier_ok (b : Bezier) : Prop :=
  forall i, i ∈ indices (data (tess b)) -> 0 <= i < bezier_size b.

Lemma append_keeps b s : keeps (bezier_ok b) s (append b s).
Proof.
  unfold append, target, bezier_ok, bezier_size.
  destruct (transparent b), (color b); cbn [orb];
    first [apply keeps_transparent|apply keeps_color|apply keeps_material].
Qed.

Lemma bezier_notRendered_keeps b s : keeps True s (bezier_notRendered b s).
Proof.
  unfold bezier_notRendered, target. destruct (transparent b), (color b); auto with v3d.
Qed.

Lemma small_append b s : small (append b s) -> bezier_size b <= 2 ^ 32.
Proof.
  unfold append, target, bezier_size.
  destruct (transparent b), (color b); cbn [orb];
    [intros H%small_transparent|intros H%small_transparent|intros H%small_color|
     intros H%small_material]; revert H; destruct s as [[] [] [] [] []], (data (tess b));
    unfold mcount, ccount; cbn; rewrite length_app; lia.
Qed.

Lemma bezier_queue_keeps view fuel kind g straight r T colors mi b s b' s' :
  bezier_queue view fuel kind g straight r T colors mi b s = Ret (b', s') ->
  keeps True s s' /\ (small s' -> bezier_ok b').
Proof.
  intros E. pose proof (bezier_queue_below _ _ _ _ _ _ _ _ _ _ _ _ _ E) as Hi.
  apply bezier_queue_run in E as (_ & _ & _ & _ & _ & ->).
  assert (small (append b' (bezier_notRendered b' s)) -> bezier_ok b') as Hok.
  { intros Hs%small_append. exact (Hi Hs). }
  split; [|done]. eapply keeps_weaken; [|eapply keeps_trans;
    [apply bezier_notRendered_keeps|apply append_keeps]].
  intros Hs _. split; [done|]. by apply Hok.
Qed.

(** ** The classes *)

(** What the [QueueMesh] of a class has to satisfy, for an invariant [ok] of what
    its objects keep. *)
Definition safe {St} (ok : St -> Prop) (st : St) (s : Scene) (r : St * Scene) : Prop :=
  keeps (ok st) s r.2 /\ (small r.2 -> ok st -> ok r.1).

(** Nothing of the state is used, or all of it is kept. *)
Lemma safe_new {St} (ok : St -> Prop) st s st' s' :
  keeps True s s' -> (small s' -> ok st') -> safe ok st s (st', s').
Proof. intros K H. split; [by eapply keeps_weaken; [|exact K]|auto]. Qed.
Lemma safe_same {St} (ok : St -> Prop) st s s' : keeps (ok st) s s' -> safe ok st s (st, s').
Proof. by split. Qed.
Lemma safe_still {St} (ok : St -> Prop) st s st' s' :
  keeps True s s' -> (ok st -> ok st') -> safe ok st s (st', s').
Proof. intros K H. split; [by eapply keeps_weaken; [|exact K]|auto]. Qed.

Section Classes.
Context {math : MeshMath}.

Definition surface_ok (st : Surface) : Prop := bezier_ok (sS st).

Lemma surface_offscreen_safe T st s : safe surface_ok st s (surface_offscreen T st s).
Proof.
  unfold surface_offscreen. apply safe_new; [apply bezier_notRendered_keeps|].
  intros _ i Hi. cbn in Hi. by apply not_elem_of_nil in Hi.
Qed.

Lemma surface_QueueMesh_safe q kind mi p lo hi st s r :
  surface_QueueMesh q kind mi p lo hi st s = Ret r -> safe surface_ok st s r.
Proof.
  unfold surface_QueueMesh. intros E. apply obind_Ret in E as (T & _ & E). revert E.
  destruct (off q lo hi); [intros [= <-]; apply surface_offscreen_safe|].
  destruct (mode_is q _).
  { intros E. apply obind_Ret in E as ([C s1] & E & [= <-]).
    apply safe_still; [by eapply queue_edges_keeps|done]. }
  destruct (_ && _); [intros [= <-]; apply safe_same, append_keeps|].
  intros E. apply obind_Ret in E as ([S1 s1] & E & [= <-]).
  apply bezier_queue_keeps in E as [K H]. by apply safe_new.
Qed.

Lemma queue_temporary_keeps q kind mi p s s' :
  queue_temporary q kind mi p s = Ret s' -> keeps True s s'.
Proof.
  unfold queue_temporary. destruct (surface_bounds kind p) as [lo hi]. intros E.
  apply obind_Ret in E as ([st s1] & E & [= <-]). apply surface_QueueMesh_safe in E as [K _].
  eapply keeps_weaken; [|exact K]. intros _ _ i Hi. by apply not_elem_of_nil in Hi.
Qed.

Lemma corners_QueueMesh_safe q kind mi p cols lo hi st s r :
  corners_QueueMesh q kind mi p cols lo hi st s = Ret r -> safe surface_ok st s r.
Proof.
  unfold corners_QueueMesh. destruct (mode_is q _).
  { destruct (surface_bounds kind p) as [lo' hi']. intros E.
    apply obind_Ret in E as ([st1 s1] & E & [= <-]). apply surface_QueueMesh_safe in E as [K _].
    apply safe_still; [|done]. eapply keeps_weaken; [|exact K].
    intros _ _ i Hi. by apply not_elem_of_nil in Hi. }
  intros E. apply obind_Ret in E as (T & _ & E). apply obind_Ret in E as (l & _ & E).
  apply obind_Ret in E as (h & _ & E). revert E.
  destruct (off q l h); [intros [= <-]; apply surface_offscreen_safe|].
  destruct (_ && _); [intros [= <-]; apply safe_same, append_keeps|].
  intros E. apply obind_Ret in E as (cs & _ & E).
  apply obind_Ret in E as ([S1 s1] & E & [= <-]).
  apply bezier_queue_keeps in E as [K H]. by apply safe_new.
Qed.

(** The fresh buffer of a flat shape. *)
Lemma flat_indices_below q v n i :
  (length v = 3 \/ length v = 4)%nat -> n = length v -> i ∈ flat_indices q v 0 -> 0 <= i < Z.of_nat n.
Proof.
  intros Hv ->. unfold flat_indices. rewrite elem_of_concat_map. intros (f & Hf & Hi).
  destruct (points_offscreen _ _); [by apply not_elem_of_nil in Hi|].
  apply list_elem_of_In, in_map_iff in Hi as (j & <- & Hj).
  assert (j < length v)%nat as Hlt.
  { unfold flat_faces in Hf. destruct (Nat.eqb_spec (length v) 4) as [->|];
      apply list_elem_of_In in Hf; cbn in Hf; destruct Hf as [<-|Hf]; cbn in Hj;
      try destruct Hf as [<-|[]]; cbn in Hj; lia. }
  cbn [Nat.add]. rewrite wrapw_id by (unfold in_range; lia). lia.
Qed.

Definition flat_ok (st : Flat) : Prop :=
  if S_color st then below (ccount (fS st)) (fS st) else below (mcount (fS st)) (fS st).

Lemma flat_QueueMesh_safe q mi ci v st s r :
  (length v = 3 \/ length v = 4)%nat ->
  flat_QueueMesh q mi ci v st s = Ret r -> safe flat_ok st s r.
Proof.
  intros Hv. unfold flat_QueueMesh. destruct (flat_box v) as [lo hi]. intros E.
  apply obind_Ret in E as (T & _ & E).
  assert (keeps True s (if T then s <| transparentData ::= notRendered |>
                        else s <| materialData ::= notRendered |>)) as Knr
    by (destruct T; auto with v3d). revert E.
  destruct (off q lo hi).
  { intros [= <-]. apply safe_new; [done|]. intros _. unfold flat_ok.
    destruct st as [C [] o [|]]; cbn; intros i Hi; by apply not_elem_of_nil in Hi. }
  destruct (mode_is q _).
  { intros E. apply obind_Ret in E as ([C s1] & E & [= <-]).
    apply safe_still; [by eapply queue_edges_keeps|by destruct st]. }
  intros E. apply obind_Ret in E as (fast & _ & E). destruct fast.
  { injection E as <-. apply safe_same. unfold flat_ok. destruct (S_color st); auto with v3d. }
  destruct T; injection E as <-.
  - match goal with |- safe _ _ _ (mkFlat _ ?S1 _ _, _) => set (S := S1) end.
    assert (below (ccount S) S) as HS.
    { intros i Hi. apply (flat_indices_below q v); [done| |exact Hi].
      unfold ccount, S. cbn. by rewrite length_map. }
    apply safe_new; [|done]. eapply keeps_weaken; [|exact (keeps_trans _ _ _ _ _ Knr
      (keeps_transparent S (s <| transparentData ::= notRendered |>)))]. done.
  - match goal with |- safe _ _ _ (mkFlat _ ?S1 _ _, _) => set (S := S1) end.
    assert (below (mcount S) S) as HS.
    { intros i Hi. apply (flat_indices_below q v); [done| |exact Hi].
      unfold mcount, S. cbn. by rewrite length_map. }
    apply safe_new; [|done]. eapply keeps_weaken; [|exact (keeps_trans _ _ _ _ _ Knr
      (keeps_material S (s <| materialData ::= notRendered |>)))]. done.
Qed.

Definition flat_corners_ok (st : Flat) : Prop := below (ccount (fS st)) (fS st).

Lemma omapM_length {A B} (f : A -> outcome B) l r : omapM f l = Ret r -> length r = length l.
Proof.
  revert r. induction l as [|a l IH]; intros r; cbn [omapM]; [by intros [= <-]|].
  intros E. apply obind_Ret in E as (b & _ & E). apply obind_Ret in E as (bs & E & [= <-]).
  cbn. by rewrite (IH _ E).
Qed.

Lemma flat_corners_QueueMesh_safe q mi ci v cols st s r :
  (length v = 3 \/ length v = 4)%nat -> length cols = length v ->
  flat_corners_QueueMesh q mi ci v cols st s = Ret r -> safe flat_corners_ok st s r.
Proof.
  intros Hv Hc. unfold flat_corners_QueueMesh. destruct (flat_box v) as [lo hi].
  assert (forall T : bool, keeps True s (if T then s <| transparentData ::= notRendered |>
                                  else s <| colorData ::= notRendered |>)) as Knr
    by (intros []; auto with v3d).
  destruct (off q lo hi).
  { intros [= <-]. apply safe_new; [by destruct (S_color st); auto with v3d|].
    intros _ i Hi. destruct st as [C [] o c]. by apply not_elem_of_nil in Hi. }
  destruct (mode_is q _).
  { intros E. apply obind_Ret in E as ([C s1] & E & [= <-]).
    apply safe_still; [by eapply queue_edges_keeps|by destruct st]. }
  intros E. apply obind_Ret in E as (T & _ & E). apply obind_Ret in E as (fast & _ & E).
  destruct fast.
  { injection E as <-. apply safe_same. unfold flat_corners_ok. destruct T; auto with v3d. }
  apply obind_Ret in E as (colors & Ec & E). apply omapM_length in Ec. injection E as <-.
  match goal with |- safe _ _ _ (mkFlat _ ?S1 _ _, _) => set (S := S1) end.
  assert (below (ccount S) S) as HS.
  { intros i Hi. apply (flat_indices_below q v); [done| |exact Hi].
    unfold ccount, S. cbn. rewrite length_zip_with. lia. }
  apply safe_new; [|done]. specialize (Knr T). destruct T.
  - eapply keeps_weaken; [|exact (keeps_trans _ _ _ _ _ Knr
      (keeps_transparent S (s <| transparentData ::= notRendered |>)))]. done.
  - eapply keeps_weaken; [|exact (keeps_trans _ _ _ _ _ Knr
      (keeps_color S (s <| colorData ::= notRendered |>)))]. done.
Qed.

(** *** Groups, curves, lines, pixels *)

Definition group_ok (st : Plain) : Prop := below (ccount (vertexData st)) (vertexData st).
Definition line_ok (st : Plain) : Prop := below (mcount (vertexData st)) (vertexData st).

Lemma uint3_det i l : uint3 i = Ret l -> forall c, c ∈ l ->
  i.1.1 = Some c \/ i.1.2 = Some c \/ i.2 = Some c.
Proof.
  destruct i as [[[a|] [b|]] [c|]]; cbn; intros [= <-] x Hx; revert Hx;
    rewrite !elem_of_cons; intros [->|[->|[->|[]%not_elem_of_nil]]]; auto.
Qed.

(** Indices are unsigned. *)
Definition unsigned_indices (g : TriangleGroup) : Prop :=
  forall i, i ∈ positionIndices g -> forall c,
    i.1.1 = Some c \/ i.1.2 = Some c \/ i.2 = Some c -> 0 <= c.

Lemma omapM_elem {A B} (f : A -> outcome B) l r b :
  omapM f l = Ret r -> b ∈ r -> exists a, a ∈ l /\ f a = Ret b.
Proof.
  revert r. induction l as [|a l IH]; intros r; cbn [omapM].
  { intros [= <-] []%not_elem_of_nil. }
  intros E. apply obind_Ret in E as (b1 & E1 & E). apply obind_Ret in E as (bs & E & [= <-]).
  intros [->|Hb]%elem_of_cons; [exists a; split; [apply list_elem_of_here|done]|].
  destruct (IH _ E Hb) as (a' & ? & ?). exists a'. split; [by apply list_elem_of_further|done].
Qed.

Lemma group_indices_below g l i :
  unsigned_indices g -> group_indices g = Ret l -> i ∈ l -> 0 <= i < nP g.
Proof.
  intros Hu E. unfold group_indices in E. apply obind_Ret in E as (ls & E & [= <-]).
  rewrite <- (map_id (List.filter _ ls)), elem_of_concat_map.
  intros (t & Ht & Hi). apply list_elem_of_In, filter_In in Ht as [Ht Hlt].
  rewrite forallb_forall in Hlt. apply list_elem_of_In in Hi as Hi'. apply Hlt in Hi'. zbool.
  split; [|done]. apply list_elem_of_In in Ht. destruct (omapM_elem _ _ _ _ E Ht) as (a & Ha & Et).
  by apply (Hu a Ha), (uint3_det a t Et).
Qed.

Lemma group_QueueMesh_safe q mi ci g st s r :
  unsigned_indices g -> 0 <= nP g ->
  group_QueueMesh q mi ci g st s = Ret r -> safe group_ok st s r.
Proof.
  intros Hu HnP. unfold group_QueueMesh.
  destruct (_ || _); [intros [= <-]; by apply safe_same, keeps_refl|].
  destruct (mode_is q _); [intros [= <-]; by apply safe_same, keeps_refl|].
  destruct (off q _ _).
  { intros [= <-]. apply safe_new; [|intros _ i Hi; by apply not_elem_of_nil in Hi].
    eapply keeps_weaken; [|exact (keeps_trans _ _ _ _ _ (keeps_nr_transparent s)
      (keeps_nr_color (s <| transparentData ::= notRendered |>)))]. done. }
  intros E. apply obind_Ret in E as (T & _ & E). apply obind_Ret in E as (fast & _ & E).
  destruct fast; [injection E as <-; apply safe_same; unfold group_ok; destruct T; auto with v3d|].
  apply obind_Ret in E as (nc & _ & E). apply obind_Ret in E as (nn & _ & E).
  apply obind_Ret in E as (mx & _ & E). apply obind_Ret in E as (vs & Ev & E).
  apply obind_Ret in E as (some & _ & E). apply obind_Ret in E as (ix & Ei & [= <-]).
  apply omapM_length in Ev. rewrite length_seq in Ev.
  set (b := mkVertexBuffer [] vs [] ix 0).
  assert (below (ccount b) b) as Hb.
  { intros i Hi. apply (group_indices_below g ix) in Hi; [|done|done].
    unfold ccount. cbn. rewrite Ev. lia. }
  apply safe_new; [|done].
  set (s1 := if T then s <| transparentData ::= notRendered |> else s <| colorData ::= notRendered |>).
  assert (keeps True s s1) as K1 by (unfold s1; destruct T; auto with v3d).
  destruct (T || some); (eapply keeps_weaken; [|eapply keeps_trans; [exact K1|]]);
    [|apply (keeps_transparent b s1)| |apply (keeps_color b s1)]; done.
Qed.

Lemma plain_hidden_safe st s s' :
  keeps True s s' -> safe group_ok st s (plain_hidden st, s') /\ safe line_ok st s (plain_hidden st, s').
Proof.
  intros K. split; (apply safe_new; [done|]); intros _ i Hi; by apply not_elem_of_nil in Hi.
Qed.

Lemma curve_QueueMesh_safe q mi ci p lo hi st s r :
  curve_QueueMesh q mi ci p lo hi st s = Ret r -> safe line_ok st s r.
Proof.
  unfold curve_QueueMesh. destruct (off q lo hi).
  { intros [= <-]. apply plain_hidden_safe. eapply keeps_weaken; [|exact (keeps_trans _ _ _ _ _
      (keeps_nr_transparent s) (keeps_nr_material (s <| transparentData ::= notRendered |>)))]. done. }
  intros E. apply obind_Ret in E as (fast & _ & E). destruct fast.
  { injection E as <-. apply safe_same, keeps_material. }
  apply obind_Ret in E as ([t s1] & E & [= <-]). apply curve_queue_keeps in E as [K H].
  by apply safe_new.
Qed.

Lemma line_QueueMesh_safe q mi ends lo hi st s r :
  line_QueueMesh q mi ends lo hi st s = Ret r -> safe line_ok st s r.
Proof.
  unfold line_QueueMesh. destruct (off q lo hi).
  { intros [= <-]. apply plain_hidden_safe. eapply keeps_weaken; [|exact (keeps_trans _ _ _ _ _
      (keeps_nr_transparent s) (keeps_nr_material (s <| transparentData ::= notRendered |>)))]. done. }
  intros E. apply obind_Ret in E as ([t s1] & E & [= <-]). apply curve_queue_keeps in E as [K H].
  by apply safe_new.
Qed.

Lemma pixel_QueueMesh_keeps q mi p w st s : keeps True s (pixel_QueueMesh q mi p w st s).2.
Proof.
  unfold pixel_QueueMesh. destruct (off q _ _); [apply keeps_nr_point|]. unfold pixel_queue. cbn.
  set (v := mkPointVertex (vec3_of p) (float_of_double w) (to_int mi)).
  set (b := mkVertexBuffer [] [] [v] [0] 0).
  eapply keeps_weaken; [|exact (keeps_trans _ _ _ _ _ (keeps_nr_point s)
    (keeps_point b (s <| pointData ::= notRendered |>)))].
  intros _ _. split; [done|]. intros i Hi%list_elem_of_singleton. by subst i.
Qed.

(** *** Solids *)

Lemma keeps_fresh {St} (ok : St -> Prop) st s r :
  (forall s', small s' -> ok st) -> safe ok st s r -> keeps True s r.2.
Proof. intros H [K _]. eapply keeps_weaken; [|exact K]. intros Hs _. by eapply H. Qed.

Lemma new_line_ok : line_ok newPlain.
Proof. intros i Hi. by apply not_elem_of_nil in Hi. Qed.

Lemma sphere_keeps q c r dir mi s s' : sphere q c r dir mi s = Ret s' -> keeps True s s'.
Proof. apply ofold_keeps_scene. intros p s1 s2. apply queue_temporary_keeps. Qed.

Lemma cylinder_keeps q c r h dir core mi s s' :
  cylinder q c r h dir core mi s = Ret s' -> keeps True s s'.
Proof.
  unfold cylinder. intros E. apply obind_Ret in E as (s1 & E1 & E).
  eapply ofold_keeps_scene in E1; [|intros p a b; apply queue_temporary_keeps].
  destruct core; [|by injection E as <-]. destruct (lineBounds _ _) as [lo hi].
  apply obind_Ret in E as ([st s2] & E & [= <-]). apply line_QueueMesh_safe in E.
  eapply keeps_weaken; [|exact (keeps_trans _ _ _ _ _ E1
    (keeps_fresh _ _ _ _ (fun _ _ => new_line_ok) E))]. done.
Qed.

Lemma tube_keeps q v w core mi s s' : tube q v w core mi s = Ret s' -> keeps True s s'.
Proof.
  unfold tube. intros E. apply obind_Ret in E as (s1 & E1 & E).
  eapply ofold_keeps_scene in E1; [|intros p a b; apply queue_temporary_keeps].
  destruct core; [|by injection E as <-]. destruct (computeBezierCurveBounds _ _ _ _) as [lo hi].
  apply obind_Ret in E as ([st s2] & E & [= <-]). apply curve_QueueMesh_safe in E.
  eapply keeps_weaken; [|exact (keeps_trans _ _ _ _ _ E1
    (keeps_fresh _ _ _ _ (fun _ _ => new_line_ok) E))]. done.
Qed.

(** *** Any object *)

(** The sizes of the arrays of an object, and the ranges of its indices. *)
Definition sized (sh : shape) : Prop :=
  match sh with
  | StraightPlanarQuad vs => length vs = 4%nat
  | StraightTriangle vs => length vs = 3%nat
  | StraightPlanarQuadWithCornerColors vs cols => length vs = 4%nat /\ length cols = 4%nat
  | StraightTriangleWithCornerColors vs cols => length vs = 3%nat /\ length cols = 3%nat
  | Triangles g => unsigned_indices g /\ 0 <= nP g
  | _ => True
  end.

(** The invariant of what an object keeps. *)
Definition state_ok (sh : shape) (st : ObjectState) : Prop :=
  match st with
  | SurfaceState st => surface_ok st
  | FlatState st =>
      match sh with
      | StraightPlanarQuad _ | StraightTriangle _ => flat_ok st
      | _ => flat_corners_ok st
      end
  | PlainState st =>
      match sh with
      | Triangles _ => group_ok st
      | BezierCurve _ | LineSegment _ => line_ok st
      | _ => True
      end
  end.

Lemma new_state_ok sh : state_ok sh (new_state sh).
Proof. destruct sh; try done; intros i Hi; by apply not_elem_of_nil in Hi. Qed.

Lemma on_surface_safe st f s r sh :
  (forall st r, f st = Ret r -> safe surface_ok st s r) ->
  on_surface st f = Ret r -> safe (state_ok sh) st s r.
Proof.
  intros Hf. destruct st as [st|st|st]; cbn; try done. intros E.
  apply obind_Ret in E as ([st' s'] & E & [= <-]). exact (Hf _ _ E).
Qed.

Lemma on_flat_safe st f s r sh (ok : Flat -> Prop) :
  (forall st, state_ok sh (FlatState st) = ok st) ->
  (forall st r, f st = Ret r -> safe ok st s r) ->
  on_flat st f = Ret r -> safe (state_ok sh) st s r.
Proof.
  intros Hok Hf. destruct st as [st|st|st]; cbn; try done. intros E.
  apply obind_Ret in E as ([st' s'] & E & [= <-]). unfold safe. cbn [fst snd]. rewrite !Hok. exact (Hf _ _ E).
Qed.

Lemma on_plain_safe st f s r sh (ok : Plain -> Prop) :
  (forall st, state_ok sh (PlainState st) = ok st) ->
  (forall st r, f st = Ret r -> safe ok st s r) ->
  on_plain st f = Ret r -> safe (state_ok sh) st s r.
Proof.
  intros Hok Hf. destruct st as [st|st|st]; cbn; try done. intros E.
  apply obind_Ret in E as ([st' s'] & E & [= <-]). unfold safe. cbn [fst snd]. rewrite !Hok. exact (Hf _ _ E).
Qed.
End Classes.
