(* ===== verification/LoadShape.v ===== *)
(** * The shape of loaded objects

    Every object that [V3dFile::load] stores has the arrays of its class in full
    length, and a triangle group has unsigned indices, whatever the bytes
    ([sized]).  The frames of a loaded file rest on this. *)

From S2P Require Import Prelude Ieee Xstream Bound V3dData Mesh QueueSafety V3dLoad LoadSafety.
Import Stdio.

Section Shape.
Context {S : Type} `{XdrInOk S}.

Definition sized_object (o : V3dObject) : Prop := sized (members o).

(** ** Unsigned reads *)

Lemma returns_get_u32 {A} (conv : Z -> A) old (P : A -> Prop) :
  P old -> (forall v, 0 <= v < 2 ^ 32 -> P (conv v)) -> returns (get_u32 conv old) P.
Proof.
  intros Ho Hv x a x' E. unfold get_u32 in E.
  destruct (xi_buf x) as [f|] eqn:Hf; [|unfold extract in E; by rewrite Hf in E].
  destruct (extract_cases 4 be_value _ conv old x f u_int32_decodes Hf) as (f' & _ & Hc).
  case_decide; [destruct Hc as (E' & _)|destruct Hc as (E' & _)];
    rewrite E' in E; injection E as <- <-; [|done].
  apply Hv. pose proof (be_value_range (take 4 (in_rest f))) as [Hlo Hhi]. split; [done|].
  rewrite length_take in Hhi. eapply Z.lt_le_trans; [exact Hhi|]. apply Z.pow_le_mono_r; lia.
Qed.

Definition unsigned (i : UINT) : Prop := forall c, i = Some c -> 0 <= c.
Definition unsigned3 (i : UINT * UINT * UINT) : Prop :=
  unsigned i.1.1 /\ unsigned i.1.2 /\ unsigned i.2.

Lemma returns_index : returns (get_u32 Some (Some 0)) unsigned.
Proof. apply returns_get_u32; [intros c [= <-]; lia|intros v [Hv _] c [= <-]; done]. Qed.

Lemma returns_indices0 : returns read_indices0 unsigned3.
Proof.
  unfold read_indices0; cbv zeta. do 3 (eapply returns_bind; [apply returns_index|]; intros).
  by apply returns_ret.
Qed.

Lemma returns_read_triangle eni nC eci :
  returns (read_triangle eni nC eci) (fun t => unsigned3 t.1.1).
Proof.
  unfold read_triangle. eapply returns_bind; [apply returns_indices0|]. intros p Hp.
  repeat (apply returns_then; intros). by apply returns_ret.
Qed.

(** [times] collects what its body returns. *)
Lemma returns_times_all {A} n (m : M S A) (P : A -> Prop) :
  returns m P -> returns (times n m) (Forall P).
Proof.
  intros Hm. induction n as [|n IH]; cbn; [by apply returns_ret; constructor|].
  eapply returns_bind; [exact Hm|]. intros a Ha. eapply returns_bind; [exact IH|].
  intros l Hl. apply returns_ret. by constructor.
Qed.

(** ** Constructors *)

Lemma returns_group dp : returns (V3dTriangleGroup dp) sized_object.
Proof.
  unfold V3dTriangleGroup. apply returns_then. intros nI.
  eapply returns_bind with (P := fun n => 0 <= n).
  { apply returns_get_u32; [lia|by intros v [Hv _]]. }
  intros nP HnP. destruct (_ || _).
  { apply returns_ret. split; [|cbn; lia]. intros i []%not_elem_of_nil. }
  do 6 (apply returns_then; intros). apply returns_then. intros [cols eci].
  eapply returns_bind; [apply returns_times_all, returns_read_triangle|]. intros idx Hidx.
  do 2 (apply returns_then; intros). apply returns_ret. split; [|done].
  cbn. intros i (t & -> & Ht)%list_elem_of_fmap c Hc.
  destruct (proj1 (list.Forall_forall _ _) Hidx t Ht) as (H1 & H2 & H3).
  destruct Hc as [Hc|[Hc|Hc]]; eauto.
Qed.

Lemma bounded_object_members ty ci mi f cps sh (P : V3dObject -> Prop) :
  (forall o, members o = sh -> P o) -> returns (S := S) (bounded_object ty ci mi f cps sh) P.
Proof. intros HP. apply returns_then. intros ps. apply returns_ret. by apply HP. Qed.

Lemma returns_sized dp ty ctor : constructor_of dp ty = Some ctor -> returns ctor sized_object.
Proof.
  unfold constructor_of. intros Hc.
  repeat (case_match; [injection Hc as <-; first
    [ apply returns_group
    | unfold V3dLineSegment, V3dStraightTriangle,
        V3dStraightPlanarQuad, V3dBezierCurve, V3dBezierTriangle, V3dBezierPatch,
        V3dStraightTriangleWithCornerColors, V3dStraightPlanarQuadWithCornerColors,
        V3dBezierTriangleWithCornerColors, V3dBezierPatchWithCornerColors,
        V3dDisk, V3dCylinder, V3dTube, V3dSphere, V3dHemiSphere, V3dPixel, plain, sized_object;
      repeat (first [apply bounded_object_members; intros ? ->; cbn; done
        | eapply returns_bind; [apply returns_times|] | apply returns_then]; intros);
      apply returns_ret; cbn; done ] |]).
  done.
Qed.

(** The arrays of a group have the lengths that its counts say. *)
Definition full_group (g : TriangleGroup) : Prop :=
  length (vertexPositions g) = Z.to_nat (nP g) /\
  (forall n, nN g = Some n -> length (vertexNormalArray g) = Z.to_nat n) /\
  (forall n, nC g = Some n -> 0 < n -> length (vertexColorArray g) = Z.to_nat n).
Definition full_object (o : V3dObject) : Prop :=
  match members o with Triangles g => full_group g | _ => True end.

Lemma returns_group_full dp : returns (V3dTriangleGroup dp) full_object.
Proof.
  unfold V3dTriangleGroup. do 2 (apply returns_then; intros).
  destruct (_ || _); [apply returns_ret; by split_and!|].
  eapply returns_bind; [apply returns_times|]. intros ps Hps. apply returns_then. intros nN0.
  eapply returns_bind; [apply returns_times|]. intros ns Hns.
  do 3 (apply returns_then; intros). set (nC := if maxCount <? a3 then 0 else a3).
  eapply returns_bind with (P := fun c => 0 < nC -> length c.1 = Z.to_nat nC).
  { destruct (Z.ltb_spec 0 nC) as [Hpos|Hneg]; [|apply returns_ret; cbn; lia].
    eapply returns_bind; [apply returns_times|]. intros cols Hc. apply returns_then. intros eci.
    by apply returns_ret. }
  intros [cols eci] Hc. do 3 (apply returns_then; intros). apply returns_ret.
  split_and!; cbn; [done|by intros n [= <-]|by intros n [= <-]].
Qed.

Lemma returns_full dp ty ctor : constructor_of dp ty = Some ctor -> returns ctor full_object.
Proof.
  unfold constructor_of. intros Hc.
  repeat (case_match; [injection Hc as <-; first
    [ apply returns_group_full
    | unfold V3dLineSegment, V3dStraightTriangle,
        V3dStraightPlanarQuad, V3dBezierCurve, V3dBezierTriangle, V3dBezierPatch,
        V3dStraightTriangleWithCornerColors, V3dStraightPlanarQuadWithCornerColors,
        V3dBezierTriangleWithCornerColors, V3dBezierPatchWithCornerColors,
        V3dDisk, V3dCylinder, V3dTube, V3dSphere, V3dHemiSphere, V3dPixel, plain, full_object;
      repeat (first [apply bounded_object_members; intros ? ->; cbn; done
        | apply returns_then]; intros);
      apply returns_ret; cbn; done ] |]).
  done.
Qed.

(** ** The canvas *)

(** The canvas of the header is an [unsigned], whatever was read. *)
Definition canvas_ok (h : V3dHeaderInfo) : Prop :=
  0 <= canvasWidth h < 2 ^ 32 /\ 0 <= canvasHeight h < 2 ^ 32.

Lemma canvas_load_image h : canvas_ok h -> keeps canvas_ok (load_image h).
Proof.
  intros Hh. unfold load_image. do 2 (apply keeps_then; intros).
  split_ifs; [by apply keeps_stop|]. apply keeps_then. intros n.
  split_ifs; [by apply keeps_stop|]. apply keeps_then. intros r.
  split_ifs; [by apply keeps_stop|]. apply keeps_then. intros p.
  split_ifs; [by apply keeps_stop|by apply keeps_continue].
Qed.

Lemma canvas_background h : canvas_ok h -> returns (read_background h) canvas_ok.
Proof.
  intros Hh. unfold read_background. repeat (apply returns_then; intros). by apply returns_ret.
Qed.

Lemma canvas_header_entry dp key len h : canvas_ok h -> keeps canvas_ok (header_entry dp key len h).
Proof.
  intros Hh. unfold header_entry. cbv zeta.
  destruct (key =? HeaderTypes.CANVAS_WIDTH).
  { eapply returns_bind with (P := fun v => 0 <= v < 2 ^ 32); [by apply returns_get_u32; [apply Hh|]|].
    intros v Hv. apply keeps_continue. split; [exact Hv|apply Hh]. }
  destruct (key =? HeaderTypes.CANVAS_HEIGHT).
  { eapply returns_bind with (P := fun v => 0 <= v < 2 ^ 32); [by apply returns_get_u32; [apply Hh|]|].
    intros v Hv. apply keeps_continue. split; [apply Hh|exact Hv]. }
  repeat match goal with
  | |- keeps _ (if ?b then _ else _) =>
      destruct b; [first
        [ by apply canvas_load_image
        | by (eapply returns_bind; [by apply canvas_background | intros; by apply keeps_continue])
        | repeat (apply keeps_then; intros); by apply keeps_continue ]|]
  end.
  unfold load_unknown. apply keeps_then. intros r. cbv zeta.
  split_ifs; try (by apply keeps_stop); apply keeps_then; intros; by apply returns_ret.
Qed.

Lemma canvas_header_loop dp n h : canvas_ok h -> keeps canvas_ok (header_loop dp n h).
Proof.
  revert h. induction n as [|n IH]; intros h Hh; cbn; [by apply keeps_continue|].
  do 2 (apply keeps_then; intros). split_ifs; [by apply keeps_stop|].
  do 2 (apply keeps_then; intros). split_ifs; [by apply keeps_stop|].
  do 2 (apply keeps_then; intros).
  eapply returns_bind; [by apply canvas_header_entry|]. intros [h' s] Hh'; cbn in *.
  destruct s; [by apply keeps_stop | by apply IH].
Qed.
(** ** Files *)

(** What the constructors guarantee holds of every object of a file. *)
Section Files.
Context (P : V3dObject -> Prop).
Context (HP : forall dp ty ctor, constructor_of dp ty = Some ctor -> returns ctor P).

Definition file_all (f : V3dFile) : Prop := Forall P (objects f) /\ canvas_ok (headerInfo f).

Lemma load_object_all version dp ty f :
  file_all f -> keeps file_all (load_object version dp ty f).
Proof.
  intros Hf. unfold load_object. split_ifs.
  - unfold load_material. repeat (apply keeps_then; intros). by apply keeps_continue.
  - unfold load_centers. do 2 (apply keeps_then; intros). split_ifs; [by apply keeps_stop|].
    apply keeps_then. intros n. split_ifs; [by apply keeps_stop | | by apply keeps_continue].
    apply keeps_then. intros r. by apply returns_ret.
  - unfold load_header. do 2 (apply keeps_then; intros). split_ifs; [by apply keeps_stop|].
    apply keeps_then. intros n. split_ifs; [by apply keeps_stop|].
    eapply returns_bind; [apply canvas_header_loop, Hf|]. intros r Hr. apply returns_ret. by split; [apply Hf|].
  - destruct (constructor_of dp ty) as [ctor|] eqn:E; [|by apply keeps_continue].
    eapply returns_bind; [by eapply HP|]. intros o Hb.
    apply keeps_continue. split; [|apply Hf]. cbn. apply Forall_app. split; [apply Hf|by repeat constructor].
Qed.

Lemma load_loop_all fuel version dp f :
  file_all f -> returns (load_loop fuel version dp f) file_all.
Proof.
  revert f. induction fuel as [|fuel IH]; intros f Hf; cbn; [done|].
  do 2 (apply returns_then; intros). split_ifs; [by apply returns_ret|].
  apply returns_then. intros ty. eapply returns_bind; [by apply load_object_all|].
  intros [f' s] Hf'; cbn in *. destruct s; [by apply returns_ret | by apply IH].
Qed.

Lemma load_all fuel x r x' : inside x -> load fuel x = Ret (r, x') -> file_all r.
Proof.
  intros Hx E. destruct (load_unfold fuel x r x' Hx E)
    as [(Ho & _ & _ & Hh)|(version & dp & x1 & x2 & _ & El)].
  - unfold file_all. rewrite Ho, Hh. by split; [constructor|].
  - refine (load_loop_all _ _ _ _ _ _ _ _ El). by split; [constructor|].
Qed.
End Files.
End Shape.

Definition file_sized (f : V3dFile) : Prop := Forall sized_object (objects f).

(** What [V3dFile] has read from any bytes. *)
Lemma load_file_sized data f x :
  load_file (Some (mkFILE data 0 None)) = Ret (f, x) -> file_sized f.
Proof.
  unfold load_file. fold (opened data). intros E.
  refine (proj1 (load_all _ _ _ _ _ _ (inside_opened data) E)). intros dp ty ctor. apply returns_sized.
Qed.
Lemma load_file_full data f x :
  load_file (Some (mkFILE data 0 None)) = Ret (f, x) -> Forall full_object (objects f).
Proof.
  unfold load_file. fold (opened data). intros E.
  refine (proj1 (load_all _ _ _ _ _ _ (inside_opened data) E)). intros dp ty ctor. apply returns_full.
Qed.
Lemma load_file_canvas data f x :
  load_file (Some (mkFILE data 0 None)) = Ret (f, x) -> canvas_ok (headerInfo f).
Proof.
  unfold load_file. fold (opened data). intros E.
  refine (proj2 (load_all (fun _ => True) _ _ _ _ _ (inside_opened data) E)). by repeat intro.
Qed.
