(* ===== verification/Frames.v ===== *)
(** * The frames of a loaded file

    From the classes ([QueueSafety]) to files: the virtual call, the billboards,
    the loop over the objects, and any sequence of frames of a file that
    [V3dFile::load] has returned. *)

From S2P Require Import Prelude Ieee Xstream Bound V3dData V3dLoad LoadSafety Model Mesh Tess.
From S2P Require Import LoadShape TessProps Objects Solids QueueMesh QueueSafety.
Import Stdio.

Section Frames.
Context {math : MeshMath}.

(** ** Objects *)

Lemma points_length l p : omapM point_of l = Ret p -> length p = length l.
Proof. apply omapM_length. Qed.

Lemma stateless_safe sh st s s' :
  keeps True s s' -> safe (state_ok sh) st s (st, s').
Proof. intros K. by apply safe_still. Qed.

(** A solid: its members are read, then its pieces are queued. *)
Ltac solid lemma :=
  intros E; repeat (apply obind_Ret in E as (? & ? & E)); injection E as <-;
  by eapply stateless_safe, lemma; eassumption.

Lemma object_QueueMesh_safe q o st s r :
  sized (members o) -> object_QueueMesh q o st s = Ret r -> safe (state_ok (members o)) st s r.
Proof.
  intros Hz. unfold object_QueueMesh. intros E. apply obind_Ret in E as (mi & _ & E).
  destruct (members o); revert E.
  1, 2: apply on_surface_safe; intros st' r' E; apply obind_Ret in E as (p & _ & E);
    apply obind_Ret in E as (lo & _ & E); apply obind_Ret in E as (hi & _ & E);
    by eapply surface_QueueMesh_safe.
  1, 2: apply on_surface_safe; intros st' r' E; apply obind_Ret in E as (p & _ & E);
    by eapply corners_QueueMesh_safe.
  1, 2: apply (on_flat_safe _ _ _ _ _ flat_ok); [done|]; intros st' r' E;
    apply obind_Ret in E as (p & Hp%points_length & E); cbn in Hz;
    eapply flat_QueueMesh_safe; [|exact E]; lia.
  1, 2: apply (on_flat_safe _ _ _ _ _ flat_corners_ok); [done|]; intros st' r' E;
    apply obind_Ret in E as (p & Hp%points_length & E); cbn in Hz; destruct Hz;
    eapply flat_corners_QueueMesh_safe; [| |exact E]; lia.
  - apply (on_plain_safe _ _ _ _ _ group_ok); [done|]. intros st' r' E. destruct Hz.
    by eapply group_QueueMesh_safe.
  - solid sphere_keeps.
  - solid sphere_keeps.
  - solid queue_temporary_keeps.
  - solid cylinder_keeps.
  - solid tube_keeps.
  - apply (on_plain_safe _ _ _ _ _ line_ok); [done|]. intros st' r' E.
    apply obind_Ret in E as (p & _ & E). apply obind_Ret in E as (lo & _ & E).
    apply obind_Ret in E as (hi & _ & E). by eapply curve_QueueMesh_safe.
  - apply (on_plain_safe _ _ _ _ _ line_ok); [done|]. intros st' r' E.
    apply obind_Ret in E as (p & _ & E). apply obind_Ret in E as (lo & _ & E).
    apply obind_Ret in E as (hi & _ & E). by eapply line_QueueMesh_safe.
  - apply (on_plain_safe _ _ _ _ _ (fun _ => True)); [done|]. intros st' r' E.
    apply obind_Ret in E as (p & _ & E). apply obind_Ret in E as (w & _ & E). injection E as <-.
    pose proof (pixel_QueueMesh_keeps q mi p w st' s) as K.
    destruct (pixel_QueueMesh q mi p w st' s). by apply safe_new.
Qed.

(** ** Billboards *)

Lemma length_map_from {A} n (f : A -> A) l : length (map_from n f l) = length l.
Proof.
  unfold map_from. rewrite length_app, length_map, length_take, length_drop. lia.
Qed.

Lemma billboard_same t before s : same_mesh s (billboard t before s).
Proof.
  unfold billboard. destruct s as [[] [] a3 [] a5]. split.
  - unfold sizes, mcount, ccount. cbn. by rewrite !length_map_from.
  - cbn. by repeat constructor.
Qed.

Lemma queue_object_safe q cs o st s r :
  sized (members o) -> queue_object q cs o st s = Ret r -> safe (state_ok (members o)) st s r.
Proof.
  intros Hz. unfold queue_object. intros E. apply obind_Ret in E as ([st1 s1] & E1 & E).
  apply object_QueueMesh_safe in E1 as [K H]; [|done]. apply obind_Ret in E as (c & _ & E).
  destruct c as [c|]; injection E as <-; [|by split]. cbn [fst snd] in *.
  pose proof (keeps_same _ _ (billboard_same (billboardTransform (q_view q) c) s s1)) as Kb.
  split; cbn [fst snd].
  - eapply keeps_weaken; [|exact (keeps_trans _ _ _ _ _ K Kb)]. done.
  - intros Hs. apply H. eapply small_grows; [apply Kb|exact Hs].
Qed.

(** ** Files *)

Definition states_ok (os : list (V3dObject * ObjectState)) : Prop :=
  Forall (fun x => state_ok (members x.1) x.2) os.

Lemma queue_objects_safe q cs os s r :
  Forall (fun x => sized (members x.1)) os ->
  queue_objects q cs os s = Ret r ->
  safe states_ok os s r /\ map fst r.1 = map fst os.
Proof.
  intros Hz. revert s r. induction Hz as [|[o st] os Ho Hos IH]; intros s r; cbn [queue_objects].
  { intros [= <-]. split; [by apply safe_same, keeps_refl|done]. }
  intros E. apply obind_Ret in E as ([st1 s1] & E1 & E). apply obind_Ret in E as ([os1 s2] & E2 & [= <-]).
  apply queue_object_safe in E1 as [K1 H1]; [|done]. apply IH in E2 as [[K2 H2] Hm]. cbn [fst snd] in *.
  split; [|cbn; by rewrite Hm]. split; cbn [fst snd].
  - eapply keeps_weaken; [|exact (keeps_trans _ _ _ _ _ K1 K2)].
    intros _ Hok. by inversion Hok.
  - intros Hs Hok. inversion Hok; subst. constructor; [|by apply H2].
    apply H1; [|done]. eapply small_grows; [apply K2|exact Hs].
Qed.

Definition file_ok (f : V3dFile) (sts : list ObjectState) : Prop :=
  length sts = length (objects f) /\ states_ok (zip (objects f) sts).

Lemma file_QueueMesh_safe q f sts s r :
  Forall (fun o => sized (members o)) (objects f) -> length sts = length (objects f) ->
  file_QueueMesh q f sts s = Ret r -> safe (file_ok f) sts s r.
Proof.
  intros Hz Hl. unfold file_QueueMesh. intros E. apply obind_Ret in E as ([os s1] & E & [= <-]).
  apply queue_objects_safe in E as [[K H] Hm].
  2: { apply list.Forall_forall. intros [o st] Hx%elem_of_zip_l. by eapply list.Forall_forall in Hz. }
  cbn [fst snd] in *.
  assert (map fst os = objects f) as Hf.
  { rewrite Hm. apply (fst_zip (objects f) sts). by rewrite Hl. }
  assert (zip (objects f) (map snd os) = os) as Hzip.
  { rewrite <- Hf. clear. induction os as [|[o st] os IH]; cbn; [done|]. by f_equal. }
  split; cbn [fst snd].
  - eapply keeps_weaken; [|exact K]. by intros _ [_ ?].
  - intros Hs [_ Hok]. split; [rewrite length_map, <- Hf; by rewrite length_map|].
    rewrite Hzip. by apply H.
Qed.

(** ** Any sequence of frames *)

Lemma new_file_ok f : file_ok f (new_states f).
Proof.
  unfold file_ok, new_states, states_ok. rewrite length_map. split; [done|].
  induction (objects f) as [|o os IH]; cbn; [done|]. constructor; [apply new_state_ok|done].
Qed.

Lemma clearData_ok g : scene_ok (clearData g).
Proof. destruct g as [[] [] [] [] []]. by split_and!; intros i Hi%not_elem_of_nil. Qed.

(** A frame clears the shared buffers, which may hold the vertices of other
    models, and queues the file; the objects keep their states for the next
    frame, which may have another camera, size, mode and [remesh]. *)
Inductive rendered (f : V3dFile) : list ObjectState -> Scene -> Prop :=
  | first_frame q g sts s :
      file_QueueMesh q f (new_states f) (clearData g) = Ret (sts, s) -> small s ->
      rendered f sts s
  | next_frame q g sts0 s0 sts s :
      rendered f sts0 s0 -> file_QueueMesh q f sts0 (clearData g) = Ret (sts, s) -> small s ->
      rendered f sts s.

Lemma rendered_ok f sts s :
  file_sized f -> rendered f sts s -> file_ok f sts /\ scene_ok s.
Proof.
  intros Hz. induction 1 as [q g sts s E Hs|q g sts0 s0 sts s _ [Hok _] E Hs].
  - pose proof (new_file_ok f) as Hok. destruct Hok as [Hl Hn].
    destruct (file_QueueMesh_safe _ _ _ _ _ Hz Hl E) as [[_ K] H].
    split; [by apply H|]. apply K; [done|done|apply clearData_ok].
  - destruct (file_QueueMesh_safe _ _ _ _ _ Hz (proj1 Hok) E) as [[_ K] H].
    split; [by apply H|]. apply K; [done|done|apply clearData_ok].
Qed.
End Frames.

(** C13: Every draw call stays inside its vertex buffer: whatever the bytes a
    file was loaded from, and whatever cameras, sizes, draw modes and [remesh]
    flags its frames had, each index that [V3dFile::QueueMesh] leaves in one of
    the five buffers refers to a vertex of that buffer, on the slow path and on
    the path that reuses the mesh of an earlier frame, as long as no buffer has
    more than 2^32 vertices. *)
Theorem every_frame_valid {math : MeshMath} data f x sts s :
  load_file (Some (mkFILE data 0 None)) = Ret (f, x) -> rendered f sts s -> scene_ok s.
Proof. intros E%load_file_sized H. by apply (rendered_ok f sts s). Qed.

(** ** Two frames of a small file *)

(** Mathematical functions for the examples. *)
Definition plain_math : MeshMath := {|
  std_hypot x y := dsqrt (dadd (dmul x x) (dmul y y));
  glm_cross_d := cross; glm_normalize_d := unit3; glm_max_d := std_max;
  std_cos _ := d1; std_sin _ := d0
|}.

Definition sample_request (remesh : bool) : Request :=
  let c := mkTriple d1 d1 d1 in
  mkRequest 400 400 (origin - c)%T c remesh true DRAWMODE_NORMAL unit_view [] d1 10.

(** A material, a triangle and a curve, in single precision. *)
Definition sample_scene : list Byte.byte :=
  let p x y := word x ++ word y ++ word 0 in
  let half := 0x3F000000 in
  word 2 ++ word 0 ++
  word ObjectTypes.MATERIAL ++ concat (replicate 16 (word 0x3F800000)) ++
  word ObjectTypes.TRIANGLE ++ p 0 0 ++ p half 0 ++ p 0 half ++ word 0 ++ word 0 ++
  word ObjectTypes.CURVE ++ p 0 0 ++ p 0 half ++ p half half ++ p half 0 ++ word 0 ++ word 0.

Definition sample_scene_file : V3dFile :=
  match load_file (Some (mkFILE sample_scene 0 None)) with Ret (f, _) => f | _ => emptyFile end.

(** The first frame, and one that reuses the meshes. *)
Definition sample_frames : outcome (list ObjectState * Scene * (list ObjectState * Scene)) :=
  '(sts, s) <~ file_QueueMesh (math := plain_math) (sample_request true) sample_scene_file
                 (new_states sample_scene_file) (clearData emptyScene);;
  r <~ file_QueueMesh (math := plain_math) (sample_request false) sample_scene_file sts (clearData s);;
  Ret (sts, s, r).

Definition small_dec (s : Scene) : bool := forallb (fun n => Z.of_nat n <=? 2 ^ 32) (sizes s).
Lemma small_dec_ok s : small_dec s = true -> small s.
Proof.
  unfold small_dec, small. rewrite forallb_forall. intros H. apply list.Forall_forall.
  intros n Hn. apply Z.leb_le, H. by apply list_elem_of_In.
Qed.

Definition sample_frames_check : bool :=
  match sample_frames with
  | Ret (_, s, (_, s')) =>
      small_dec s && small_dec s' && Nat.eqb (length (indices (materialData s'))) 35
  | _ => false
  end.

Lemma every_frame_valid_witness :
  exists x sts s,
    load_file (Some (mkFILE sample_scene 0 None)) = Ret (sample_scene_file, x) /\
    rendered (math := plain_math) sample_scene_file sts s /\
    length (indices (materialData s)) = 35%nat /\ scene_ok s.
Proof.
  assert (exists x, load_file (Some (mkFILE sample_scene 0 None)) = Ret (sample_scene_file, x))
    as [x E] by (vm_compute; eexists; reflexivity).
  assert (sample_frames_check = true) as H by (vm_compute; reflexivity).
  unfold sample_frames_check, sample_frames in H.
  destruct (file_QueueMesh _ _ (new_states _) _) as [[sts s]| |] eqn:E1; [|discriminate..].
  cbn [obind] in H.
  destruct (file_QueueMesh _ _ sts _) as [[sts' s']| |] eqn:E2; [|discriminate..].
  cbn [obind] in H. apply andb_prop in H as [[H1 H2]%andb_prop H3].
  assert (rendered (math := plain_math) sample_scene_file sts' s') as Hr.
  { eapply next_frame; [eapply first_frame; [exact E1|by apply small_dec_ok]|exact E2|by apply small_dec_ok]. }
  exists x, sts', s'. split; [exact E|]. split; [exact Hr|]. split; [by apply Nat.eqb_eq|].
  exact (every_frame_valid sample_scene _ x sts' s' E Hr).
Defined.
