(* ===== verification/QueueProps.v ===== *)
(** * Reusing the mesh of an earlier frame

    A frame without [remesh] does not tessellate again what was wholly on the
    screen: the mesh kept by the object is appended as it is.  For surfaces, flat
    triangles and quadrilaterals it goes to the buffer that it was built for, whatever
    the camera, and is the same as the mesh built again for the first request; for
    curves and for triangle groups with transparent vertex colours the source
    appends the mesh to another buffer than the one it was built for.  The last
    part is about the vertices that a billboard turns. *)

From S2P Require Import Prelude Ieee Xstream Bound V3dData V3dLoad Model Mesh Tess TessProps.
From S2P Require Import Objects Solids QueueMesh QueueSafety Frames.

(** ** The recursion leaves the upload mark alone *)

Definition mark (t : Tess) : Z := renderCount (data t).

Lemma add_vertices_mark k vs b : renderCount (add_vertices k vs b).2 = renderCount b.
Proof.
  revert b. induction vs as [|v vs IH]; intros b; cbn [add_vertices]; [done|].
  destruct (addVertex k v b) as [i b1] eqn:E.
  assert (renderCount b1 = renderCount b) as <-.
  { unfold addVertex in E. destruct (isColor k), (isTransparent k); injection E as _ <-; by destruct b. }
  specialize (IH b1). by destruct (add_vertices k vs b1).
Qed.

Lemma emit_faces_mark k corners faces t : mark (foldl (emit_face k corners) t faces) = mark t.
Proof.
  revert t. induction faces as [|f faces IH]; intros t; cbn [foldl]; [done|]. rewrite IH.
  unfold emit_face, offscreen. destruct t as [b o]. destruct (points_offscreen _ _); [done|].
  by destruct b.
Qed.

Lemma ofold_mark {A} (f : A -> Tess -> outcome Tess) l t t' :
  (forall a t t', f a t = Ret t' -> mark t' = mark t) -> ofold f l t = Ret t' -> mark t' = mark t.
Proof.
  intros Hf. revert t. induction l as [|a l IH]; intros t; cbn [ofold]; [by intros [= <-]|].
  intros E. apply obind_Ret in E as (t1 & E1 & E). by rewrite (IH _ E), (Hf _ _ _ E1).
Qed.

Lemma render_piece_mark k {G} (step : G -> Action G) fuel p t t' :
  render_piece k step fuel p t = Ret t' -> mark t' = mark t.
Proof.
  revert p t t'. induction fuel as [|fuel IH]; intros [g corners] t t'; cbn [render_piece]; [done|].
  destruct (step g) as [faces|control vertices parts]; [intros [= <-]; apply emit_faces_mark|].
  unfold offscreen. destruct (points_offscreen _ _); [intros [= <-]; by destruct t|].
  destruct (add_vertices k vertices (data t)) as [fresh b] eqn:E. intros H%ofold_mark; [|exact IH].
  pose proof (add_vertices_mark k vertices (data t)) as Hm. rewrite E in Hm. rewrite H. exact Hm.
Qed.

Lemma surface_render_mark kind fuel k p straight c t t' :
  surface_render fuel kind k p straight c t = Ret t' -> mark t' = mark t.
Proof.
  assert (forall G (step : G -> Action G) vs faces g,
    render_outer k step fuel straight vs faces g t = Ret t' -> mark t' = mark t) as H.
  { intros G step vs faces g. unfold render_outer.
    destruct (add_vertices k vs (data t)) as [ids b] eqn:E.
    pose proof (add_vertices_mark k vs (data t)) as Hm. rewrite E in Hm.
    destruct straight; [intros [= <-]; rewrite emit_faces_mark|intros ->%render_piece_mark]; exact Hm. }
  destruct kind; apply H.
Qed.

(** ** Queueing twice *)

(** Marking a buffer commutes with appending to it. *)
Lemma notRendered_append b s :
  append b (bezier_notRendered b s) = bezier_notRendered b (append b s).
Proof.
  unfold append, bezier_notRendered, target.
  destruct s as [[] [] [] [] []], (transparent b), (color b); reflexivity.
Qed.

(** Queueing a surface that has been queued gives the same mesh. *)
Lemma bezier_queue_again view fuel kind g straight ratio T colors mi b s b' s' s2 :
  bezier_queue view fuel kind g straight ratio T colors mi b s = Ret (b', s') ->
  bezier_queue view fuel kind g straight ratio T colors mi b' s2 =
    Ret (b', bezier_notRendered b' (append b' s2)).
Proof.
  unfold bezier_queue. set (col := match colors with Some _ => true | None => false end).
  set (b0 := mkBezier _ T col). set (k := bezier_params _ b0 _ _ _). intros E.
  apply obind_Ret in E as (t & E & Er). set (b1 := mkBezier t T col).
  change (Ret (b1, append b1 (bezier_notRendered b1 s)) = Ret (b', s')) in Er.
  injection Er as <- <-. pose proof (surface_render_mark _ _ _ _ _ _ _ _ E) as Hm.
  unfold mark in Hm. cbn [tess data renderCount clear b0] in Hm.
  replace (clear (data (tess b1))) with (clear (data (tess b))) by (unfold clear; cbn; by rewrite Hm).
  fold b0. fold k. rewrite E. cbn [obind].
  change (Ret (b1, append b1 (bezier_notRendered b1 s2)) = Ret (b1, bezier_notRendered b1 (append b1 s2))).
  by rewrite notRendered_append.
Qed.

(** ** Scenes up to the upload marks *)

Definition unmark (s : Scene) : Scene :=
  mkScene (notRendered (materialData s)) (notRendered (colorData s)) (notRendered (transparentData s))
    (notRendered (lineData s)) (notRendered (pointData s)).

Lemma unmark_notRendered b s : unmark (bezier_notRendered b s) = unmark s.
Proof.
  unfold bezier_notRendered, target.
  destruct s as [[] [] [] [] []], (transparent b), (color b); reflexivity.
Qed.

(** The buffers that a reused mesh goes to, and the mesh appended to one. *)
Inductive Destination := InMaterial | InColor | InTransparent.
Definition append_mesh (d : Destination) (m : VertexBuffer) (s : Scene) : Scene :=
  match d with
  | InMaterial => s <| materialData ::= extendMaterial m |>
  | InColor => s <| colorData ::= extendColor m |>
  | InTransparent => s <| transparentData ::= extendColor m |>
  end.

Definition destination (b : Bezier) : Destination :=
  if transparent b then InTransparent else if color b then InColor else InMaterial.

Lemma append_destination b s : append b s = append_mesh (destination b) (data (tess b)) s.
Proof. unfold append, target, destination. by destruct (transparent b), (color b). Qed.

Lemma bezier_queue_scene view fuel kind g straight ratio T colors mi b s b' s' :
  bezier_queue view fuel kind g straight ratio T colors mi b s = Ret (b', s') ->
  s' = bezier_notRendered b' (append b' s).
Proof.
  unfold bezier_queue. set (col := match colors with Some _ => true | None => false end).
  intros E. apply obind_Ret in E as (t & _ & [= <- <-]). rewrite <- notRendered_append. done.
Qed.

(** A later frame of the same file in the same mode, without [remesh]: the camera, the
    viewport, the size of the image and the box of the scene may be others. *)
Definition later (q q' : Request) : Prop :=
  q_remesh q' = false /\ q_mode q' = q_mode q /\ q_materials q' = q_materials q.

Lemma later_mode {math : MeshMath} q q' m : later q q' -> mode_is q' m = mode_is q m.
Proof. intros (_ & Hm & _). unfold mode_is. by rewrite Hm. Qed.
Lemma later_material {math : MeshMath} q q' mi :
  later q q' -> material_transparent q' mi = material_transparent q mi.
Proof. intros H. unfold material_transparent. rewrite (later_mode q) by done. by destruct H as (_ & _ & ->). Qed.
Lemma later_opacity {math : MeshMath} q q' c f : later q q' -> opacity_below q' c f = opacity_below q c f.
Proof. intros H. unfold opacity_below. by rewrite (later_mode q). Qed.

Section Again.
Context {math : MeshMath}.
Context (q : Request).
Context (Hremesh : q_remesh q = true) (Hmode : mode_is q DRAWMODE_OUTLINE = false).

(** A frame that turned [s] into [s1] and left the state [st] of the object has added one
    mesh: a later frame in which the object is [seen] appends this mesh to the same buffer,
    and so does building it again, except for the upload marks. *)
Definition reuse_same {St} (run : Request -> St -> Scene -> outcome (St * Scene)) (seen : Request -> bool)
    (st : St) (s s1 : Scene) : Prop :=
  exists d m, unmark s1 = unmark (append_mesh d m s) /\
    (forall q' s2, later q q' -> seen q' = true -> run q' st s2 = Ret (st, append_mesh d m s2)) /\
    (forall s2, exists s3, run q st s2 = Ret (st, s3) /\ unmark s3 = unmark (append_mesh d m s2)).

Lemma surface_again kind mi p lo hi st s st1 s1 :
  surface_QueueMesh q kind mi p lo hi st s = Ret (st1, s1) -> Onscreen (tess (sS st1)) = true ->
  reuse_same (fun q st s => surface_QueueMesh q kind mi p lo hi st s) (fun q => negb (off q lo hi)) st1 s s1.
Proof.
  unfold surface_QueueMesh at 1.
  rewrite Hmode, Hremesh. intros E On. apply obind_Ret in E as (T & ET & E).
  destruct (off q lo hi) eqn:Eo; [injection E as <- <-; discriminate|]. cbn [negb andb] in *.
  apply obind_Ret in E as ([S1 s1'] & E & [= <- ->]). cbn [sS sC] in *.
  exists (destination S1), (data (tess S1)). split; [|split].
  - rewrite (bezier_queue_scene _ _ _ _ _ _ _ _ _ _ _ _ _ E), unmark_notRendered. by rewrite append_destination.
  - intros q' s2 Hl Hs. unfold surface_QueueMesh. apply negb_true_iff in Hs.
    rewrite (later_material q), ET, (later_mode q), Hmode, Hs, (proj1 Hl) by done.
    cbn [obind negb andb sS]. by rewrite On, append_destination.
  - intros s2. unfold surface_QueueMesh. rewrite ET, Hmode, Hremesh, Eo. cbn [obind negb andb sS sC].
    rewrite (bezier_queue_again _ _ _ _ _ _ _ _ _ _ _ _ _ s2 E). cbn [obind].
    eexists. split; [reflexivity|]. by rewrite unmark_notRendered, append_destination.
Qed.

Lemma corners_again kind mi p cols lo hi st s st1 s1 :
  corners_QueueMesh q kind mi p cols (Some lo) (Some hi) st s = Ret (st1, s1) -> Onscreen (tess (sS st1)) = true ->
  reuse_same (fun q st s => corners_QueueMesh q kind mi p cols (Some lo) (Some hi) st s)
    (fun q => negb (off q lo hi)) st1 s s1.
Proof.
  unfold reuse_same, corners_QueueMesh. cbn [determined obind]. rewrite Hmode, Hremesh. intros E On.
  apply obind_Ret in E as (T & ET & E). rewrite ET. cbn [obind] in *.
  destruct (off q lo hi) eqn:Eo; [injection E as <- <-; discriminate|]. cbn [negb andb] in *.
  apply obind_Ret in E as (cs & Ecs & E). rewrite Ecs. cbn [obind].
  apply obind_Ret in E as ([S1 s1'] & E & [= <- ->]). cbn [sS sC] in *.
  exists (destination S1), (data (tess S1)). split; [|split].
  - rewrite (bezier_queue_scene _ _ _ _ _ _ _ _ _ _ _ _ _ E), unmark_notRendered. by rewrite append_destination.
  - intros q' s2 Hl Hs. apply negb_true_iff in Hs.
    rewrite (later_opacity q), ET, (later_mode q), Hmode by done. cbn [obind].
    rewrite Hs, (proj1 Hl), On. cbn [negb andb]. by rewrite append_destination.
  - intros s2. rewrite (bezier_queue_again _ _ _ _ _ _ _ _ _ _ _ _ _ s2 E). cbn [obind].
    eexists. split; [reflexivity|]. by rewrite unmark_notRendered, append_destination.
Qed.

Lemma flat_again mi v st s st1 s1 :
  flat_QueueMesh q mi (Some 0) v st s = Ret (st1, s1) -> fOnscreen st1 = true ->
  reuse_same (fun q st s => flat_QueueMesh q mi (Some 0) v st s)
    (fun q => negb (off q (fst (flat_box v)) (snd (flat_box v)))) st1 s s1.
Proof.
  unfold reuse_same, flat_QueueMesh. destruct (flat_box v) as [lo hi]. cbn [fst snd].
  rewrite Hmode, Hremesh. intros E On. apply obind_Ret in E as (T & ET & E).
  destruct (off q lo hi); [injection E as <- <-; destruct st; discriminate|].
  cbn [negb andb obind determined] in *. destruct st as [C0 [] o c].
  exists (if T then InTransparent else InMaterial), (fS st1).
  destruct T; injection E as <- <-; cbn in On |- *.
  all: (split; [destruct s as [[] [] [] [] []]; reflexivity|]; split;
    [intros q' s2 Hl Hs; apply negb_true_iff in Hs;
      rewrite (later_material q), ET, (later_mode q), Hmode, Hs, (proj1 Hl), On by done; reflexivity
    |intros s2; rewrite ET; cbn; rewrite On; eexists; split; [reflexivity|];
      destruct s2 as [[] [] [] [] []]; reflexivity]).
Qed.

Lemma flat_corners_again mi v cols st s st1 s1 :
  flat_corners_QueueMesh q mi (Some 0) v cols st s = Ret (st1, s1) -> fOnscreen st1 = true ->
  reuse_same (fun q st s => flat_corners_QueueMesh q mi (Some 0) v cols st s)
    (fun q => negb (off q (fst (flat_box v)) (snd (flat_box v)))) st1 s s1.
Proof.
  unfold reuse_same, flat_corners_QueueMesh. destruct (flat_box v) as [lo hi]. cbn [fst snd].
  generalize (if Nat.eqb (length v) 4 then f4 else f3). intros full.
  rewrite Hmode, Hremesh. intros E On.
  destruct (off q lo hi); [injection E as <- <-; destruct st; discriminate|].
  apply obind_Ret in E as (T & ET & E). cbn [negb andb obind determined] in *.
  apply obind_Ret in E as (cs & Ecs & E). destruct st as [C0 [] o c].
  exists (if T then InTransparent else InColor), (fS st1).
  injection E as <- <-; cbn in On |- *.
  split; [destruct s as [[] [] [] [] []], T; reflexivity|]. split.
  - intros q' s2 Hl Hs. apply negb_true_iff in Hs. cbn beta.
    rewrite Hs, (later_mode q q'), Hmode, (later_opacity q q'), ET, (proj1 Hl), On by done. by destruct T.
  - intros s2. rewrite ET. cbn [obind]. rewrite Ecs. cbn. rewrite On. eexists. split; [reflexivity|].
    destruct s2 as [[] [] [] [] []], T; reflexivity.
Qed.
End Again.

(** ** Objects *)

(** The classes whose mesh is reused faithfully; the flat ones reuse it only when
    they are no billboards. *)
Definition reusing (o : V3dObject) : bool :=
  match members o with
  | BezierPatch _ | BezierTriangle _ | BezierPatchWithCornerColors _ _
  | BezierTriangleWithCornerColors _ _ => true
  | StraightPlanarQuad _ | StraightTriangle _ | StraightPlanarQuadWithCornerColors _ _
  | StraightTriangleWithCornerColors _ _ => bool_decide (centerIndex o = Some 0)
  | _ => false
  end.

(** Nothing of the object was found off the screen. *)
Definition whole (st : ObjectState) : bool :=
  match st with
  | SurfaceState st => Onscreen (tess (sS st))
  | FlatState st => fOnscreen st
  | PlainState st => fullyOnscreen st
  end.

Section Object.
Context {math : MeshMath}.

Lemma on_surface_inv st f st1 s1 :
  on_surface st f = Ret (st1, s1) ->
  exists a a1, st = SurfaceState a /\ st1 = SurfaceState a1 /\ f a = Ret (a1, s1).
Proof.
  destruct st as [a|a|a]; cbn; try done. intros E. apply obind_Ret in E as ([a1 s] & E & [= <- <-]).
  by exists a, a1.
Qed.

Lemma on_flat_inv st f st1 s1 :
  on_flat st f = Ret (st1, s1) ->
  exists a a1, st = FlatState a /\ st1 = FlatState a1 /\ f a = Ret (a1, s1).
Proof.
  destruct st as [a|a|a]; cbn; try done. intros E. apply obind_Ret in E as ([a1 s] & E & [= <- <-]).
  by exists a, a1.
Qed.

Lemma corners_bounds q kind mi p cols lo hi st s r :
  mode_is q DRAWMODE_OUTLINE = false -> corners_QueueMesh q kind mi p cols lo hi st s = Ret r ->
  exists l h, lo = Some l /\ hi = Some h.
Proof.
  unfold corners_QueueMesh. intros -> E. apply obind_Ret in E as (T & _ & E).
  apply obind_Ret in E as (l & El & E). apply obind_Ret in E as (h & Eh & _).
  destruct lo; [|done]. destruct hi; [|done]. by eexists _, _.
Qed.

(** The box of such an object is on the screen: what its [QueueMesh] tests first. *)
Definition seen (o : V3dObject) (q : Request) : bool :=
  match members o with
  | BezierPatch _ | BezierTriangle _ | BezierPatchWithCornerColors _ _
  | BezierTriangleWithCornerColors _ _ =>
      match Min o, Max o with Some lo, Some hi => negb (off q lo hi) | _, _ => false end
  | StraightPlanarQuad vs | StraightTriangle vs | StraightPlanarQuadWithCornerColors vs _
  | StraightTriangleWithCornerColors vs _ =>
      match omapM point_of vs with
      | Ret v => negb (off q (fst (flat_box v)) (snd (flat_box v)))
      | _ => false
      end
  | _ => false
  end.

End Object.

(** The triangle of the sample file. *)
Definition sample_object : V3dObject :=
  default (plain 0 None None (Pixel (None, None, None) None)) (head (objects sample_scene_file)).

(** Another camera and size, without [remesh]. *)
Definition next_request : Request :=
  mkRequest 200 50 (mkTriple (dopp d2) (dopp d2) (dopp d2)) (mkTriple d2 d2 d2) false true DRAWMODE_NORMAL
    (mkView [dhalf; d0; d0; d0; d0; dhalf; d0; d0; d0; d0; dhalf; d0; d0; d0; d0; d1]
      [d1; d0; d0; d0; d1; d0; d0; d0; d1])
    [] d1 10.

Lemma ret_check {A} (m : outcome A) (p : A -> bool) :
  match m with Ret a => p a | _ => false end = true -> exists a, m = Ret a /\ p a = true.
Proof. destruct m as [a| |]; [|done..]. by exists a. Qed.


(** ** Meshes that are reused in another buffer *)

Lemma curve_queue_scene view fuel g straight r mi t s t' s' :
  curve_queue view fuel g straight r mi t s = Ret (t', s') ->
  s' = s <| lineData ::= notRendered |> <| lineData ::= extendMaterial (data t') |>.
Proof.
  unfold curve_queue. intros E. apply obind_Ret in E as (t1 & _ & E). by injection E as <- <-.
Qed.

Section Curve.
Context {math : MeshMath} (q : Request) (mi : Z) (p : list triple) (lo hi : triple).

(** The slow path and the fast path of a curve. *)
Lemma curve_built st s st1 s1 ci :
  q_remesh q = true -> curve_QueueMesh q mi ci p lo hi st s = Ret (st1, s1) ->
  fullyOnscreen st1 = true ->
  lineData s1 = extendMaterial (vertexData st1) (notRendered (lineData s)) /\
  materialData s1 = materialData s.
Proof.
  unfold curve_QueueMesh, plain_fast. intros -> E On. cbn [negb andb] in E.
  destruct (off q lo hi); [injection E as <- _; discriminate|].
  cbn [obind] in E. apply obind_Ret in E as ([t' s'] & E%curve_queue_scene & Er).
  injection Er as <- <-. subst s'. by destruct s.
Qed.

Lemma curve_fast st s :
  q_remesh q = false -> off q lo hi = false -> fullyOnscreen st = true ->
  curve_QueueMesh q mi (Some 0) p lo hi st s =
    Ret (st, s <| materialData ::= extendMaterial (vertexData st) |>).
Proof. intros Hr Hoff On. unfold curve_QueueMesh, plain_fast. by rewrite Hr, Hoff, On. Qed.
End Curve.

(** A curve is reused in the wrong buffer: the frame that tessellates it adds
    its segments to the buffer of lines, but a later frame without [remesh], in
    which the curve is still on the screen, adds the same segments to the buffer
    of material triangles, and nothing to the buffer of lines. *)
Theorem curve_reused_among_triangles {math : MeshMath} q mi p lo hi st s st1 s1 q' s2 :
  q_remesh q = true -> curve_QueueMesh q mi (Some 0) p lo hi st s = Ret (st1, s1) ->
  fullyOnscreen st1 = true -> q_remesh q' = false -> off q' lo hi = false ->
  lineData s1 = extendMaterial (vertexData st1) (notRendered (lineData s)) /\
  materialData s1 = materialData s /\
  curve_QueueMesh q' mi (Some 0) p lo hi st1 s2 =
    Ret (st1, s2 <| materialData ::= extendMaterial (vertexData st1) |>).
Proof.
  intros Hr E On Hr' Hoff. destruct (curve_built _ _ _ _ _ _ _ _ _ _ Hr E On) as [-> ->].
  split; [done|]. split; [done|]. by apply curve_fast.
Qed.

Lemma curve_reused_among_triangles_witness :
  let half := mkTriple dhalf d0 d0 in
  let up := mkTriple d0 dhalf d0 in
  let curve := [origin; up; tadd half up; half] in
  exists st1 s1 s2,
    curve_QueueMesh (math := plain_math) (sample_request true) 0 (Some 0) curve origin half newPlain
      emptyScene = Ret (st1, s1) /\
    curve_QueueMesh (math := plain_math) (sample_request false) 0 (Some 0) curve origin half st1
      emptyScene = Ret (st1, s2) /\
    length (indices (lineData s1)) = 32%nat /\ length (indices (materialData s2)) = 32%nat /\
    indices (lineData s2) = [].
Proof.
  intros half up curve.
  assert (match curve_QueueMesh (math := plain_math) (sample_request true) 0 (Some 0) curve origin half
      newPlain emptyScene with
    | Ret (st1, s1) => fullyOnscreen st1 && Nat.eqb (length (indices (lineData s1))) 32 &&
        Nat.eqb (length (indices (materialData
          (emptyScene <| materialData ::= extendMaterial (vertexData st1) |>)))) 32
    | _ => false end = true) as H by (vm_compute; reflexivity).
  destruct (curve_QueueMesh _ _ _ _ _ _ newPlain _) as [[st1 s1]| |] eqn:E; [|discriminate..].
  apply andb_prop in H as [[H1 H2]%andb_prop H3].
  destruct (curve_reused_among_triangles (math := plain_math) (sample_request true) 0 curve origin half
    newPlain emptyScene st1 s1 (sample_request false) emptyScene eq_refl E H1 eq_refl
    ltac:(vm_compute; reflexivity)) as (_ & _ & E2).
  eexists st1, s1, _. split; [reflexivity|]. split; [exact E2|].
  split; [by apply Nat.eqb_eq|]. split; [by apply Nat.eqb_eq|]. reflexivity.
Defined.

(** What does not depend on [remesh]. *)
Section Remesh.
Context {math : MeshMath} (q : Request) (r : bool).
Lemma remesh_off m M : off (with_remesh r q) m M = off q m M.
Proof. unfold off, with_remesh. by cbn [q_view]. Qed.
Lemma remesh_mode m : mode_is (with_remesh r q) m = mode_is q m.
Proof. unfold mode_is, with_remesh. by cbn [q_mode]. Qed.
Lemma remesh_material mi : material_transparent (with_remesh r q) mi = material_transparent q mi.
Proof. unfold material_transparent, with_remesh. by cbn [q_materials q_mode]. Qed.
End Remesh.

(** A triangle group with transparent vertex colours is reused as opaque: when
    its material is opaque but some triangle has corners whose opacities sum to
    less than 3, the frame that builds its mesh adds it to the transparent buffer
    (marking the buffer of opaque colours for upload instead), and a later frame
    without [remesh] adds the same mesh to the buffer of opaque colours. *)
Theorem transparent_group_reused_as_opaque q mi g st s st1 s1 n s2 :
  q_remesh q = true -> group_QueueMesh q mi (Some 0) g st s = Ret (st1, s1) ->
  fullyOnscreen st1 = true -> nI g <> 0 -> nP g <> 0 -> mode_is q DRAWMODE_OUTLINE = false ->
  off q (sceneMinBound q) (sceneMaxBound q) = false -> material_transparent q mi = Ret false ->
  nC g = Some n -> 0 < n -> any_transparent n (vertexColorArray g) (colorIndices g) = Ret true ->
  transparentData s1 = extendColor (vertexData st1) (transparentData s) /\
  colorData s1 = notRendered (colorData s) /\
  group_QueueMesh (with_remesh false q) mi (Some 0) g st1 s2 =
    Ret (st1, s2 <| colorData ::= extendColor (vertexData st1) |>).
Proof.
  intros Hr E On HnI HnP Hm Hoff HT HC Hn Hany. unfold group_QueueMesh in *.
  rewrite (remesh_mode q false), (remesh_material q false mi).
  replace ((nI g =? 0) || (nP g =? 0)) with false in *
    by (symmetry; apply orb_false_iff; split; by apply Z.eqb_neq).
  replace (off (with_remesh false q) _ _) with (off q (sceneMinBound q) (sceneMaxBound q))
    by (symmetry; apply remesh_off).
  rewrite Hm, Hoff, HT in *. unfold plain_fast in *. change (q_remesh (with_remesh false q)) with false. rewrite On.
  rewrite Hr in E. cbn [negb andb obind determined Z.eqb] in *. rewrite HC in E. cbn [obind determined] in E.
  apply obind_Ret in E as (nn & _ & E). apply obind_Ret in E as (mx & _ & E).
  apply obind_Ret in E as (vs & _ & E). apply obind_Ret in E as (some & Es & E).
  rewrite (proj2 (Z.ltb_lt 0 n) Hn), Hany in Es. injection Es as <-.
  apply obind_Ret in E as (ix & _ & E). destruct s as [a1 a2 a3 a4 a5]. cbn in E.
  injection E as <- <-. by split_and!.
Qed.

(** One triangle, half transparent at every corner. *)
Definition sample_group : TriangleGroup :=
  let p x y := (Some x, Some y, Some d0) in
  let half := Some (S754_finite false 8388608 (-24)) in
  let one := (Some 0, Some 1, Some 2) in
  mkTriangleGroup 1 3 [p d0 d0; p dhalf d0; p d0 dhalf] (Some 0) [] (Some 0) (Some 3)
    (replicate 3 (mkRGBA half half half half)) (Some 0) [one] [one] [one].

Lemma transparent_group_reused_as_opaque_witness :
  exists st1 s1 s2,
    group_QueueMesh (sample_request true) 0 (Some 0) sample_group newPlain
      emptyScene = Ret (st1, s1) /\
    group_QueueMesh (with_remesh false (sample_request true)) 0 (Some 0)
      sample_group st1 emptyScene = Ret (st1, s2) /\
    indices (transparentData s1) = [0; 1; 2] /\ indices (colorData s2) = [0; 1; 2].
Proof.
  assert (match group_QueueMesh (sample_request true) 0 (Some 0) sample_group
      newPlain emptyScene with
    | Ret (st1, s1) => fullyOnscreen st1 && bool_decide (indices (transparentData s1) = [0; 1; 2]) &&
        bool_decide (indices (colorData
          (emptyScene <| colorData ::= extendColor (vertexData st1) |>)) = [0; 1; 2])
    | _ => false end = true) as H by (vm_compute; reflexivity).
  destruct (group_QueueMesh _ _ _ _ newPlain _) as [[st1 s1]| |] eqn:E; [|discriminate..].
  apply andb_prop in H as [[H1 H2]%andb_prop H3].
  destruct (transparent_group_reused_as_opaque (sample_request true) 0 sample_group
    newPlain emptyScene st1 s1 3 emptyScene eq_refl E H1 ltac:(discriminate) ltac:(discriminate)
    ltac:(vm_compute; reflexivity) ltac:(vm_compute; reflexivity) ltac:(vm_compute; reflexivity)
    eq_refl ltac:(lia) ltac:(vm_compute; reflexivity)) as (_ & _ & E2).
  eexists st1, s1, _. split; [reflexivity|]. split; [exact E2|].
  split; [by apply bool_decide_eq_true in H2|by apply bool_decide_eq_true in H3].
Defined.
