(* ===== verification/Appends.v ===== *)
(** * Queueing only appends

    [QueueMesh] of an object adds vertices and indices behind those of the five
    buffers and changes none that was there ([appended]).  With this the loops of
    [V3dFile::QueueMesh] over the vertices of a billboard turn exactly what the
    billboard itself has added. *)

From S2P Require Import Prelude Ieee Xstream Bound V3dData V3dLoad Model Mesh Tess TessProps.
From S2P Require Import Objects Solids QueueMesh Frames.

(** ** The order *)

Definition buffer_le (b b' : VertexBuffer) : Prop :=
  materialVertices b `prefix_of` materialVertices b' /\
  colorVertices b `prefix_of` colorVertices b' /\
  pointVertices b `prefix_of` pointVertices b'.

#[export] Instance buffer_le_preorder : PreOrder buffer_le.
Proof.
  split; [intros b; by split_and!|].
  intros a b c (?&?&?) (?&?&?). split_and!; by etransitivity.
Qed.

Definition appended (s s' : Scene) : Prop :=
  buffer_le (materialData s) (materialData s') /\ buffer_le (colorData s) (colorData s') /\
  buffer_le (transparentData s) (transparentData s') /\ buffer_le (lineData s) (lineData s') /\
  buffer_le (pointData s) (pointData s').

#[export] Instance appended_preorder : PreOrder appended.
Proof.
  split; [intros s; by split_and!|].
  intros a b c (?&?&?&?&?) (?&?&?&?&?). split_and!; by etransitivity.
Qed.

Definition grows_buffer (f : VertexBuffer -> VertexBuffer) : Prop := forall b, buffer_le b (f b).

Lemma grows_notRendered : grows_buffer notRendered.
Proof. intros []. by split_and!. Qed.
Lemma grows_extendMaterial x : grows_buffer (extendMaterial x).
Proof. intros []. split_and!; cbn; try done. by eexists. Qed.
Lemma grows_extendColor x : grows_buffer (extendColor x).
Proof. intros []. split_and!; cbn; try done. by eexists. Qed.
Lemma grows_extendPoint x : grows_buffer (extendPoint x).
Proof. intros []. split_and!; cbn; try done. by eexists. Qed.
Create HintDb grow.
#[local] Hint Resolve grows_notRendered grows_extendMaterial grows_extendColor grows_extendPoint : grow.

(** One buffer grows, the others stay. *)
Lemma appended_material f s : grows_buffer f -> appended s (s <| materialData ::= f |>).
Proof. intros H. destruct s. by split_and!; try apply H. Qed.
Lemma appended_color f s : grows_buffer f -> appended s (s <| colorData ::= f |>).
Proof. intros H. destruct s. by split_and!; try apply H. Qed.
Lemma appended_transparent f s : grows_buffer f -> appended s (s <| transparentData ::= f |>).
Proof. intros H. destruct s. by split_and!; try apply H. Qed.
Lemma appended_line f s : grows_buffer f -> appended s (s <| lineData ::= f |>).
Proof. intros H. destruct s. by split_and!; try apply H. Qed.
Lemma appended_point f s : grows_buffer f -> appended s (s <| pointData ::= f |>).
Proof. intros H. destruct s. by split_and!; try apply H. Qed.
#[local] Hint Resolve appended_material appended_color appended_transparent appended_line
  appended_point : grow.

Lemma target_appends f g b s : grows_buffer f -> grows_buffer g -> appended s (target f g b s).
Proof. intros. unfold target. destruct (transparent b), (color b); auto with grow. Qed.
Lemma append_appends b s : appended s (append b s).
Proof. apply target_appends; auto with grow. Qed.
Lemma notRendered_appends b s : appended s (bezier_notRendered b s).
Proof. apply target_appends; auto with grow. Qed.
#[local] Hint Resolve append_appends notRendered_appends : grow.

(** ** The classes *)

Lemma Ret_snd {A B} (a a' : A) (b b' : B) : Ret (a, b) = Ret (a', b') -> b = b'.
Proof. by intros [= _ ->]. Qed.

(** Runs through the branches of a [QueueMesh] to the scenes it returns. *)
Ltac branches E :=
  repeat first
    [ apply obind_Ret in E as ([? ?] & ? & E)
    | apply obind_Ret in E as (? & ? & E)
    | match type of E with (if ?b then _ else _) = _ => destruct b end
    | match type of E with (let '(_, _) := ?x in _) = _ => destruct x end
    | progress cbv beta zeta in E ].

(** The last steps of a branch, from the scene that [H] has reached. *)
Ltac grown :=
  repeat match goal with |- context [if ?b then _ else _] => destruct b end;
  first [ reflexivity | solve [auto with grow] | (etransitivity; [|solve [auto with grow]]; grown) ].

Lemma curve_queue_appends view fuel g straight r mi t s t' s' :
  curve_queue view fuel g straight r mi t s = Ret (t', s') -> appended s s'.
Proof. unfold curve_queue. intros E. branches E. apply Ret_snd in E as <-. grown. Qed.

Lemma bezier_queue_appends view fuel kind g straight r T colors mi b s b' s' :
  bezier_queue view fuel kind g straight r T colors mi b s = Ret (b', s') -> appended s s'.
Proof. intros E. apply bezier_queue_run in E as (_ & _ & _ & _ & _ & ->). grown. Qed.

Lemma ofold_appends {A} (f : A -> Scene -> outcome Scene) l s s' :
  (forall a s s', f a s = Ret s' -> appended s s') -> ofold f l s = Ret s' -> appended s s'.
Proof.
  intros Hf. revert s. induction l as [|a l IH]; intros s; cbn [ofold]; [by intros [= <-]|].
  intros E. apply obind_Ret in E as (s1 & E1 & E). etransitivity; [by eapply Hf|by apply IH].
Qed.

(** The class after its members have been read. *)
Ltac of_class lemma :=
  let E := fresh "E" in intros E;
  repeat match type of E with obind _ _ = _ => apply obind_Ret in E as (? & ? & E) end;
  first [by eapply lemma | apply Ret_snd in E as <-; eapply lemma; eassumption].

Section Classes.
Context {math : MeshMath}.

Lemma queue_edges_appends q edges straight r mi C s C' s' :
  queue_edges q edges straight r mi C s = Ret (C', s') -> appended s s'.
Proof.
  unfold queue_edges. revert C s. induction edges as [|e edges IH]; intros C s; cbn [ofold].
  { by intros [= <- <-]. }
  intros E. apply obind_Ret in E as ([C1 s1] & E1%curve_queue_appends & E).
  etransitivity; [exact E1|by eapply IH].
Qed.

Lemma surface_appends q kind mi p lo hi st s st' s' :
  surface_QueueMesh q kind mi p lo hi st s = Ret (st', s') -> appended s s'.
Proof.
  unfold surface_QueueMesh, surface_offscreen. intros E. branches E; apply Ret_snd in E as <-; try grown.
  - by eapply queue_edges_appends.
  - by eapply bezier_queue_appends.
Qed.

Lemma corners_appends q kind mi p cols Min Max st s st' s' :
  corners_QueueMesh q kind mi p cols Min Max st s = Ret (st', s') -> appended s s'.
Proof.
  unfold corners_QueueMesh, surface_offscreen. intros E. branches E; apply Ret_snd in E as <-; try grown.
  - by eapply surface_appends.
  - by eapply bezier_queue_appends.
Qed.

Lemma flat_appends q mi ci v st s st' s' :
  flat_QueueMesh q mi ci v st s = Ret (st', s') -> appended s s'.
Proof.
  unfold flat_QueueMesh. intros E. branches E; apply Ret_snd in E as <-; try grown.
  by eapply queue_edges_appends.
Qed.

Lemma flat_corners_appends q mi ci v cols st s st' s' :
  flat_corners_QueueMesh q mi ci v cols st s = Ret (st', s') -> appended s s'.
Proof.
  unfold flat_corners_QueueMesh. intros E. branches E; apply Ret_snd in E as <-; try grown.
  by eapply queue_edges_appends.
Qed.

Lemma group_appends q mi ci g st s st' s' :
  group_QueueMesh q mi ci g st s = Ret (st', s') -> appended s s'.
Proof. unfold group_QueueMesh. intros E. branches E; apply Ret_snd in E as <-; grown. Qed.

Lemma curve_appends q mi ci p lo hi st s st' s' :
  curve_QueueMesh q mi ci p lo hi st s = Ret (st', s') -> appended s s'.
Proof.
  unfold curve_QueueMesh. intros E. branches E; apply Ret_snd in E as <-; try grown.
  by eapply curve_queue_appends.
Qed.

Lemma line_appends q mi p lo hi st s st' s' :
  line_QueueMesh q mi p lo hi st s = Ret (st', s') -> appended s s'.
Proof.
  unfold line_QueueMesh. intros E. branches E; apply Ret_snd in E as <-; try grown.
  by eapply curve_queue_appends.
Qed.

Lemma pixel_appends q mi p w st s st' s' :
  pixel_QueueMesh q mi p w st s = (st', s') -> appended s s'.
Proof.
  unfold pixel_QueueMesh, pixel_queue. intros E. apply (f_equal snd) in E. cbn [snd] in E. subst s'.
  destruct (off q _ _); cbn [snd]; [grown|].
  cbn [addPointVertex emptyBuffer fst snd]. etransitivity; [|apply appended_point, grows_extendPoint].
  grown.
Qed.

Lemma temporary_appends q kind mi p s s' :
  queue_temporary q kind mi p s = Ret s' -> appended s s'.
Proof.
  unfold queue_temporary. intros E. branches E. injection E as <-. by eapply surface_appends.
Qed.

Lemma pieces_append q kind mi l s s' :
  ofold (queue_temporary q kind mi) l s = Ret s' -> appended s s'.
Proof. apply ofold_appends. intros p a b. apply temporary_appends. Qed.

Lemma cylinder_appends q c r h dir core mi s s' :
  cylinder q c r h dir core mi s = Ret s' -> appended s s'.
Proof.
  unfold cylinder. intros E. apply obind_Ret in E as (s1 & E1%pieces_append & E).
  destruct core; [|by injection E as <-]. destruct (lineBounds _ _) as [lo hi].
  apply obind_Ret in E as ([st s2] & E & [= <-]). etransitivity; [exact E1|by eapply line_appends].
Qed.

Lemma tube_appends q v w core mi s s' : tube q v w core mi s = Ret s' -> appended s s'.
Proof.
  unfold tube. intros E. apply obind_Ret in E as (s1 & E1%pieces_append & E).
  destruct core; [|by injection E as <-]. destruct (computeBezierCurveBounds _ _ _ _) as [lo hi].
  apply obind_Ret in E as ([st s2] & E & [= <-]). etransitivity; [exact E1|by eapply curve_appends].
Qed.

(** ** Any object *)

(** What holds of the scene that every run of the class returns. *)
Lemma on_surface_scene (P : Scene -> Prop) st f st' s' :
  (forall a a' s', f a = Ret (a', s') -> P s') -> on_surface st f = Ret (st', s') -> P s'.
Proof. intros Hf. destruct st; cbn; try done. intros E. branches E. apply Ret_snd in E as <-. eauto. Qed.
Lemma on_flat_scene (P : Scene -> Prop) st f st' s' :
  (forall a a' s', f a = Ret (a', s') -> P s') -> on_flat st f = Ret (st', s') -> P s'.
Proof. intros Hf. destruct st; cbn; try done. intros E. branches E. apply Ret_snd in E as <-. eauto. Qed.
Lemma on_plain_scene (P : Scene -> Prop) st f st' s' :
  (forall a a' s', f a = Ret (a', s') -> P s') -> on_plain st f = Ret (st', s') -> P s'.
Proof. intros Hf. destruct st; cbn; try done. intros E. branches E. apply Ret_snd in E as <-. eauto. Qed.

Lemma object_appends q o st s st' s' :
  object_QueueMesh q o st s = Ret (st', s') -> appended s s'.
Proof.
  unfold object_QueueMesh. intros E. apply obind_Ret in E as (mi & _ & E).
  destruct (members o); revert E.
  1, 2: apply on_surface_scene; intros a a' s1; of_class surface_appends.
  1, 2: apply on_surface_scene; intros a a' s1; of_class corners_appends.
  1, 2: apply on_flat_scene; intros a a' s1; of_class flat_appends.
  1, 2: apply on_flat_scene; intros a a' s1; of_class flat_corners_appends.
  - apply on_plain_scene. intros a a' s1. of_class group_appends.
  - of_class pieces_append.
  - of_class pieces_append.
  - of_class temporary_appends.
  - of_class cylinder_appends.
  - of_class tube_appends.
  - apply on_plain_scene. intros a a' s1. of_class curve_appends.
  - apply on_plain_scene. intros a a' s1. of_class line_appends.
  - apply on_plain_scene. intros a a' s1 E. apply obind_Ret in E as (? & _ & E).
    apply obind_Ret in E as (? & _ & [= E]). by eapply pixel_appends.
Qed.
End Classes.

(** ** Billboards *)

Lemma map_from_app {A} (f : A -> A) (l l' : list A) :
  l `prefix_of` l' -> map_from (length l) f l' = l ++ map f (drop (length l) l').
Proof. intros [k ->]. unfold map_from. by rewrite take_app_length, drop_app_length. Qed.

(** What a buffer holds behind the [n]-th vertex of a kind. *)
Definition added {A} (before after : list A) : list A := drop (length before) after.

(** C32: A billboard turns its own vertices and no others: when an object has a
    center, the vertices that it has added to the buffers of materials, of
    colours and of lines have the position that [billboardTransform] gives them
    about that center, and all vertices that were there before stay as they were.
    The vertices it has added to the transparent and point buffers are not
    turned. *)
Theorem billboard_turns_its_own {math : MeshMath} q centers o st s st' s' c :
  center_of centers o = Ret (Some c) -> queue_object q centers o st s = Ret (st', s') ->
  exists s1, object_QueueMesh q o st s = Ret (st', s1) /\
  let turn := billboardTransform (q_view q) c in
  materialVertices (materialData s') = materialVertices (materialData s) ++
    map (turn_material turn) (added (materialVertices (materialData s)) (materialVertices (materialData s1))) /\
  colorVertices (colorData s') = colorVertices (colorData s) ++
    map (turn_color turn) (added (colorVertices (colorData s)) (colorVertices (colorData s1))) /\
  materialVertices (lineData s') = materialVertices (lineData s) ++
    map (turn_material turn) (added (materialVertices (lineData s)) (materialVertices (lineData s1))) /\
  transparentData s' = transparentData s1 /\ pointData s' = pointData s1.
Proof.
  intros Hc E. unfold queue_object in E. apply obind_Ret in E as ([st1 s1] & E1 & E).
  rewrite Hc in E. cbn [obind] in E. pose proof (f_equal (fun r => match r with Ret (a, _) => a | _ => st end) E) as H1.
  cbn in H1. subst st1. apply Ret_snd in E as <-. exists s1. split; [exact E1|]. intros turn.
  apply object_appends in E1 as ((Hm & _) & (_ & Hcol & _) & _ & (Hl & _) & _).
  unfold billboard, added. destruct s1 as [[] [] a3 [] a5]. cbn in *.
  split_and!; [by apply map_from_app..|done|done].
Qed.

(** A camera from behind, and the sample triangle about its first corner. *)
Definition turned_view : View :=
  mkView (projViewMat unit_view) [dm1; d0; d0; d0; d1; d0; d0; d0; dm1].
Definition turned_request : Request :=
  let r := sample_request true in
  mkRequest (imageWidth r) (imageHeight r) (sceneMinBound r) (sceneMaxBound r) true true DRAWMODE_NORMAL
    turned_view [] d1 10.
Definition sample_billboard : V3dObject :=
  let p x y := (Some x, Some y, Some d0) in
  plain ObjectTypes.TRIANGLE (Some 1) (Some 0) (StraightTriangle [p d0 d0; p dhalf d0; p d0 dhalf]).
Definition sample_centers : list TRIPLE := [(Some d0, Some d0, Some d0)].

Lemma billboard_turns_its_own_witness :
  exists st' s' s1,
    queue_object (math := plain_math) turned_request sample_centers sample_billboard
      (FlatState newFlat) emptyScene = Ret (st', s') /\
    object_QueueMesh (math := plain_math) turned_request sample_billboard (FlatState newFlat) emptyScene =
      Ret (st', s1) /\
    length (materialVertices (materialData s')) = 3%nat /\
    materialVertices (materialData s') =
      map (turn_material (billboardTransform turned_view (mkVec3 f0 f0 f0)))
        (materialVertices (materialData s1)).
Proof.
  assert (match queue_object (math := plain_math) turned_request sample_centers sample_billboard
      (FlatState newFlat) emptyScene with
    | Ret (_, s') => Nat.eqb (length (materialVertices (materialData s'))) 3 | _ => false end = true) as H
    by (vm_compute; reflexivity).
  destruct (queue_object _ _ _ _ _) as [[st' s']| |] eqn:E; [|discriminate..]. apply Nat.eqb_eq in H.
  destruct (billboard_turns_its_own (math := plain_math) turned_request sample_centers sample_billboard
    (FlatState newFlat) emptyScene st' s' (mkVec3 f0 f0 f0) eq_refl E) as (s1 & E1 & Hm & _).
  exists st', s', s1. split; [reflexivity|]. split; [exact E1|]. split; [exact H|].
  rewrite Hm. reflexivity.
Defined.
