(* ===== verification/Upload.v ===== *)
(** * Uploading and drawing the vertex buffers

    The part of [HeadlessRenderer::render] ([v3d-Common/Rendering/
    renderheadless.cpp]) between the queued scene and the draw calls: the gate of
    [uploadBuffer], which copies a buffer to the device only when it is marked
    ([renderCount] is 0), the persistent device buffers of
    [uploadToPersistentBuffer], and the indexed draws from them.  Recording and
    submitting commands is left out: a draw reads what was copied before it.
    Creating a device buffer succeeds. *)

From S2P Require Import Prelude Ieee Xstream Bound V3dData V3dLoad Model Mesh Tess.
From S2P Require Import LoadShape Objects Solids QueueMesh QueueSafety Frames.
Import Stdio.

(** ** Device buffers *)

(** The elements of a device buffer; [None] is indeterminate.  The buffer itself
    may be missing (a null handle). *)
Definition DeviceBuffer (A : Type) : Type := option (list (option A)).

(** [std::max(16, dataSize)]: an index takes 4 bytes, a vertex more than 16. *)
Definition min_indices : nat := 4.
Definition min_vertices : nat := 0.

(** [uploadToPersistentBuffer]: a buffer that is missing or too small is replaced;
    the bytes behind the data come from behind the host's vector. *)
Definition uploadToPersistentBuffer {A} (least : nat) (l : list A) (dst : DeviceBuffer A) :
    DeviceBuffer A :=
  let copied := map Some l ++ replicate (least - length l) None in
  match dst with
  | Some old => Some (copied ++ drop (length copied) old)
  | None => Some copied
  end.

Record DevicePair (V : Type) := mkPair { vertexBuffer : DeviceBuffer V; indexBuffer : DeviceBuffer Z }.
Arguments mkPair {V}.
Arguments vertexBuffer {V}.
Arguments indexBuffer {V}.
Definition noPair {V} : DevicePair V := mkPair None None.

Definition maxFramesInFlight : Z := 1.

Section Type_.
Context {V : Type}.

(** [uploadBuffer] of the vertices [vs] of a host buffer [b]. *)
Definition uploadBuffer (vs : list V) (b : VertexBuffer) (remesh copied : bool) (p : DevicePair V) :
    DevicePair V :=
  let badBuffer := match vertexBuffer p with None => true | Some _ => false end in
  let copy := negb copied &&
    (remesh || (wrapw 32 (renderCount b) <? maxFramesInFlight) || badBuffer) in
  if copy then
    mkPair
      (match vs with
       | [] => vertexBuffer p
       | _ => uploadToPersistentBuffer min_vertices vs (vertexBuffer p)
       end)
      (match indices b with
       | [] => indexBuffer p
       | ix => uploadToPersistentBuffer min_indices ix (indexBuffer p)
       end)
  else p.

(** An element of a device buffer; reading past its end is out of bounds. *)
Definition fetch {A} (l : list (option A)) (i : Z) : outcome A :=
  x <~ determined (l !! Z.to_nat i);; determined x.

(** [vkCmdDrawIndexed] of [n] indices: the vertices it reads. *)
Definition draw_indexed (n : nat) (p : DevicePair V) : outcome (list V) :=
  v <~ determined (vertexBuffer p);;
  ix <~ determined (indexBuffer p);;
  omapM (fun k => i <~ fetch ix (Z.of_nat k);; fetch v i) (seq 0 n).

(** One kind of data in a frame: the count pass uploads it when [early], the main
    pass does with the flag [copied], and draws it. *)
Definition draw_data (vs : list V) (b : VertexBuffer) (remesh early copied : bool) (p : DevicePair V) :
    outcome (list V * DevicePair V) :=
  match indices b with
  | [] => Ret ([], p)
  | _ =>
      let p := if early then uploadBuffer vs b remesh false p else p in
      let p := uploadBuffer vs b remesh copied p in
      l <~ draw_indexed (length (indices b)) p;;
      Ret (l, p)
  end.
End Type_.

(** ** A frame *)

(** The persistent buffers of a [HeadlessRenderer]; those of [triangleData], which
    the plugin never fills, are left out. *)
Record DeviceBuffers := mkDeviceBuffers {
  onPoint : DevicePair PointVertex; onMaterial : DevicePair MaterialVertex;
  onColor : DevicePair ColorVertex; onLine : DevicePair MaterialVertex;
  onTransparent : DevicePair ColorVertex
}.

(** Before the first frame, and after [cleanup]. *)
Definition noBuffers : DeviceBuffers := mkDeviceBuffers noPair noPair noPair noPair noPair.

(** The vertices the draw calls of a frame read, in the order of the calls. *)
Record Drawn := mkDrawn {
  drawnPoints : list PointVertex; drawnMaterials : list MaterialVertex;
  drawnColors : list ColorVertex; drawnLines : list MaterialVertex;
  drawnTransparent : list ColorVertex
}.

Definition count_up (b : VertexBuffer) : VertexBuffer := b <| renderCount ::= Z.succ |>.

(** [Opaque]: there is no transparent data. *)
Definition setOpaque (s : Scene) : bool := Nat.eqb (length (indices (transparentData s))) 0.

(** The uploads and draws of [render]. *)
Definition draw_buffers (interlock remesh : bool) (s : Scene) (g : DeviceBuffers) :
    outcome (Drawn * Scene * DeviceBuffers) :=
  let opaque := setOpaque s in
  let early := negb opaque && negb interlock in
  '(point, gp) <~ draw_data (pointVertices (pointData s)) (pointData s) remesh early early (onPoint g);;
  '(material, gm) <~ draw_data (materialVertices (materialData s)) (materialData s) remesh early early
                       (onMaterial g);;
  '(color, gc) <~ draw_data (colorVertices (colorData s)) (colorData s) remesh early early (onColor g);;
  '(line, gl) <~ draw_data (materialVertices (lineData s)) (lineData s) remesh early early (onLine g);;
  '(transparent, gt) <~ (if opaque then Ret ([], onTransparent g)
                         else draw_data (colorVertices (transparentData s)) (transparentData s) remesh
                                true true (onTransparent g));;
  Ret (mkDrawn point material color line transparent,
       mkScene (count_up (materialData s)) (count_up (colorData s))
         (if opaque then transparentData s else count_up (transparentData s))
         (count_up (lineData s)) (count_up (pointData s)),
       mkDeviceBuffers gp gm gc gl gt).

(** ** What a frame draws *)

(** A device pair starts with the given data. *)
Definition holds {V} (vs : list V) (ix : list Z) (p : DevicePair V) : Prop :=
  (exists tv, vertexBuffer p = Some (map Some vs ++ tv)) /\
  (exists ti, indexBuffer p = Some (map Some ix ++ ti)).

(** The vertices that the indices name. *)
Definition expand {V} (vs : list V) (ix : list Z) : list V := omap (fun i => vs !! Z.to_nat i) ix.

Section TypeProps.
Context {V : Type}.

Lemma holds_upload {A} least (l : list A) dst :
  exists t, uploadToPersistentBuffer least l dst = Some (map Some l ++ t).
Proof. destruct dst; cbn; eexists; rewrite <- ?app_assoc; reflexivity. Qed.

Lemma below_vertices (vs : list V) n ix :
  (forall i, i ∈ ix -> 0 <= i < Z.of_nat n) -> n = length vs -> ix <> [] -> vs <> [].
Proof.
  intros Hb -> Hix ->. destruct ix as [|i ix]; [done|].
  specialize (Hb i (list_elem_of_here _ _)). cbn in Hb. lia.
Qed.

(** Marked, forced, already there, or missing on the device. *)
Definition ready (vs : list V) (b : VertexBuffer) (remesh : bool) (p : DevicePair V) : Prop :=
  remesh = true \/ renderCount b = 0 \/ holds vs (indices b) p \/ vertexBuffer p = None.

Lemma uploadBuffer_holds vs b remesh p :
  vs <> [] -> indices b <> [] -> ready vs b remesh p ->
  holds vs (indices b) (uploadBuffer vs b remesh false p).
Proof.
  intros Hv Hi Hr. unfold uploadBuffer. cbn [negb andb].
  destruct (remesh || _ || _) eqn:E.
  - unfold holds. cbn [vertexBuffer indexBuffer]. destruct vs as [|v vs]; [done|].
    destruct (indices b) as [|i ix]; [done|]. split; apply holds_upload.
  - apply orb_false_iff in E as [[-> E]%orb_false_iff Hbad].
    destruct Hr as [|[Hr|[Hr|Hr]]]; [done| |exact Hr|]; [by rewrite Hr in E|by rewrite Hr in Hbad].
Qed.

(** A second upload in the same frame changes nothing that is drawn. *)
Lemma uploadBuffer_keeps (vs : list V) b remesh copied p :
  vs <> [] -> indices b <> [] -> holds vs (indices b) p ->
  holds vs (indices b) (uploadBuffer vs b remesh copied p).
Proof.
  intros Hv Hi Hh. destruct copied; [exact Hh|]. apply uploadBuffer_holds; [done..|by right; right; left].
Qed.

Lemma omapM_fetch (vs : list V) tv ix :
  (forall i, i ∈ ix -> 0 <= i < Z.of_nat (length vs)) ->
  omapM (fetch (map Some vs ++ tv)) ix = Ret (expand vs ix).
Proof.
  unfold expand. induction ix as [|i ix IH]; intros Hb; [done|]. cbn [omapM omap list_omap].
  destruct (lookup_lt_is_Some_2 vs (Z.to_nat i)) as [v Hv].
  { specialize (Hb i (list_elem_of_here _ _)). lia. }
  unfold fetch at 1. rewrite lookup_app_l by (rewrite length_map; by eapply lookup_lt_Some).
  rewrite list_lookup_fmap, Hv. cbn [fmap option_fmap option_map determined obind].
  rewrite IH; [done|]. intros j Hj. apply Hb. by apply list_elem_of_further.
Qed.

Lemma omapM_ext {A B} (f g : A -> outcome B) l :
  (forall a, a ∈ l -> f a = g a) -> omapM f l = omapM g l.
Proof.
  induction l as [|a l IH]; intros H; cbn [omapM]; [done|].
  rewrite (H a (list_elem_of_here _ _)), IH; [done|]. intros b Hb. apply H. by apply list_elem_of_further.
Qed.

Lemma omapM_map {A B C} (f : B -> outcome C) (g : A -> B) l :
  omapM (fun a => f (g a)) l = omapM f (map g l).
Proof. induction l as [|a l IH]; cbn; [done|]. by rewrite IH. Qed.

Lemma draw_indexed_holds (vs : list V) ix p :
  holds vs ix p -> (forall i, i ∈ ix -> 0 <= i < Z.of_nat (length vs)) ->
  draw_indexed (length ix) p = Ret (expand vs ix).
Proof.
  intros [[tv Ev] [ti Ei]] Hb. unfold draw_indexed. rewrite Ev, Ei. cbn [determined obind].
  rewrite <- (omapM_fetch vs tv ix Hb).
  transitivity (omapM (fun k => fetch (map Some vs ++ tv) (nth k ix 0)) (seq 0 (length ix))).
  - apply omapM_ext. intros k [_ Hk]%elem_of_seq. unfold fetch at 1. rewrite Nat2Z.id.
    rewrite lookup_app_l by (rewrite length_map; lia). rewrite list_lookup_fmap.

    destruct (lookup_lt_is_Some_2 ix k) as [i Hi]; [lia|].
    rewrite Hi, (nth_lookup_Some _ _ 0 _ Hi). done.
  - rewrite omapM_map. f_equal. clear. apply list_eq. intros k.
    rewrite list_lookup_fmap. destruct (decide (k < length ix)%nat) as [Hk|Hk].
    + rewrite lookup_seq_lt by done. cbn. destruct (lookup_lt_is_Some_2 ix k Hk) as [i Hi].
      by rewrite Hi, (nth_lookup_Some _ _ 0 _ Hi).
    + rewrite lookup_seq_ge by lia. symmetry. apply lookup_ge_None. lia.
Qed.

(** One kind of data: what is drawn, and that the device holds it then. *)
Lemma draw_data_spec vs b remesh early copied p :
  (forall i, i ∈ indices b -> 0 <= i < Z.of_nat (length vs)) ->
  (copied = true -> early = true) -> (indices b <> [] -> ready vs b remesh p) ->
  exists p', draw_data vs b remesh early copied p = Ret (expand vs (indices b), p') /\
    (indices b <> [] -> holds vs (indices b) p').
Proof.
  intros Hb Hce Hr. unfold draw_data. destruct (indices b) as [|i ix] eqn:Ei.
  { exists p. split; done. }
  rewrite <- Ei in *. assert (indices b <> []) as Hi by by rewrite Ei.
  assert (vs <> []) as Hv by (by eapply below_vertices).
  specialize (Hr Hi). set (p1 := if early then _ else p).
  assert (holds vs (indices b) (uploadBuffer vs b remesh copied p1)) as H2.
  { subst p1. destruct early; [apply uploadBuffer_keeps; [done..|by apply uploadBuffer_holds]|].
    destruct copied; [by specialize (Hce eq_refl)|]. by apply uploadBuffer_holds. }
  rewrite (draw_indexed_holds vs _ _ H2 Hb). cbn [obind]. by eexists.
Qed.
End TypeProps.

(** ** A whole frame *)

(** What the draw calls are meant to read: the queued data, index by index. *)
Definition expand_scene (s : Scene) : Drawn :=
  mkDrawn (expand (pointVertices (pointData s)) (indices (pointData s)))
    (expand (materialVertices (materialData s)) (indices (materialData s)))
    (expand (colorVertices (colorData s)) (indices (colorData s)))
    (expand (materialVertices (lineData s)) (indices (lineData s)))
    (expand (colorVertices (transparentData s)) (indices (transparentData s))).

(** Every buffer with data will be uploaded, or is on the device already. *)
Definition frame_ready (remesh : bool) (s : Scene) (g : DeviceBuffers) : Prop :=
  let one {V} vs b (p : DevicePair V) := indices b <> [] -> ready vs b remesh p in
  one (pointVertices (pointData s)) (pointData s) (onPoint g) /\
  one (materialVertices (materialData s)) (materialData s) (onMaterial g) /\
  one (colorVertices (colorData s)) (colorData s) (onColor g) /\
  one (materialVertices (lineData s)) (lineData s) (onLine g) /\
  one (colorVertices (transparentData s)) (transparentData s) (onTransparent g).

(** The device holds every buffer that has data. *)
Definition in_sync (s : Scene) (g : DeviceBuffers) : Prop :=
  let one {V} (vs : list V) b p := indices b <> [] -> holds vs (indices b) p in
  one (pointVertices (pointData s)) (pointData s) (onPoint g) /\
  one (materialVertices (materialData s)) (materialData s) (onMaterial g) /\
  one (colorVertices (colorData s)) (colorData s) (onColor g) /\
  one (materialVertices (lineData s)) (lineData s) (onLine g) /\
  one (colorVertices (transparentData s)) (transparentData s) (onTransparent g).

(** The scene after a frame: the marks are counted up, nothing else. *)
Definition counted (s : Scene) : Scene :=
  mkScene (count_up (materialData s)) (count_up (colorData s))
    (if setOpaque s then transparentData s else count_up (transparentData s))
    (count_up (lineData s)) (count_up (pointData s)).

Lemma draw_buffers_ready interlock remesh s g :
  scene_ok s -> frame_ready remesh s g ->
  exists g', draw_buffers interlock remesh s g = Ret (expand_scene s, counted s, g') /\ in_sync s g'.
Proof.
  intros (Bm & Bc & Bt & Bl & Bp) (Rp & Rm & Rc & Rl & Rt). unfold draw_buffers.
  set (early := negb (setOpaque s) && negb interlock).
  destruct (draw_data_spec _ _ remesh early early _ Bp (fun H => H) Rp) as (gp & -> & Hp). cbn [obind].
  destruct (draw_data_spec _ _ remesh early early _ Bm (fun H => H) Rm) as (gm & -> & Hm). cbn [obind].
  destruct (draw_data_spec _ _ remesh early early _ Bc (fun H => H) Rc) as (gc & -> & Hc). cbn [obind].
  destruct (draw_data_spec _ _ remesh early early _ Bl (fun H => H) Rl) as (gl & -> & Hl). cbn [obind].
  destruct (draw_data_spec _ _ remesh true true _ Bt (fun H => H) Rt) as (gt & Et & Ht).
  destruct (setOpaque s) eqn:Ho.
  - cbn [obind]. eexists. split.
    + unfold expand_scene, counted. rewrite Ho. apply Nat.eqb_eq, length_zero_iff_nil in Ho.
      by rewrite Ho.
    + apply Nat.eqb_eq, length_zero_iff_nil in Ho. split_and!; [done..|]. by rewrite Ho.
  - rewrite Et. cbn [obind]. eexists. split; [unfold counted; by rewrite Ho|by split_and!].
Qed.
