(* ===== verification/Marks.v ===== *)
(** * What a frame with [remesh] uploads

    A buffer is copied to the device when it is marked ([renderCount] is 0).  In a
    frame with [remesh] every object marks the buffers it adds to, except a
    triangle group that is transparent through its vertex colours alone.  So such
    a frame draws exactly what was queued, whatever the device held before. *)

From S2P Require Import Prelude Ieee Xstream Bound V3dData V3dLoad Model Mesh Tess TessProps.
From S2P Require Import LoadShape Objects Solids QueueMesh QueueSafety Frames Appends Upload.
Import Stdio.

(** ** The order *)

(** Marked, or as before. *)
Definition marked_buffer (b b' : VertexBuffer) : Prop :=
  renderCount b' = 0 \/ (indices b' = indices b /\ renderCount b' = renderCount b).

#[export] Instance marked_buffer_preorder : PreOrder marked_buffer.
Proof.
  split; [intros b; by right|].
  intros a b c H [?|[Hi Hr]]; [by left|]. unfold marked_buffer in *. rewrite Hi, Hr. exact H.
Qed.

Definition marked (s s' : Scene) : Prop :=
  marked_buffer (materialData s) (materialData s') /\ marked_buffer (colorData s) (colorData s') /\
  marked_buffer (transparentData s) (transparentData s') /\ marked_buffer (lineData s) (lineData s') /\
  marked_buffer (pointData s) (pointData s').

#[export] Instance marked_preorder : PreOrder marked.
Proof.
  split; [intros s; by split_and!|].
  intros a b c (?&?&?&?&?) (?&?&?&?&?). split_and!; by etransitivity.
Qed.

(** Marking a buffer, with or without adding to it. *)
Definition marks (f : VertexBuffer -> VertexBuffer) : Prop := forall b, renderCount (f (notRendered b)) = 0.

Lemma marks_id : marks (fun b => b).
Proof. by intros []. Qed.
Lemma marks_extendMaterial x : marks (extendMaterial x).
Proof. by intros []. Qed.
Lemma marks_extendColor x : marks (extendColor x).
Proof. by intros []. Qed.
Lemma marks_extendPoint x : marks (extendPoint x).
Proof. by intros []. Qed.

Create HintDb mark.
#[local] Hint Resolve marks_id marks_extendMaterial marks_extendColor marks_extendPoint : mark.

Ltac one_mark := intros; match goal with s : Scene |- _ => destruct s end;
  split_and!; try (by right); left; auto with mark.

Lemma mark_material s : marked s (s <| materialData ::= notRendered |>).
Proof. one_mark. Qed.
Lemma mark_color s : marked s (s <| colorData ::= notRendered |>).
Proof. one_mark. Qed.
Lemma mark_transparent s : marked s (s <| transparentData ::= notRendered |>).
Proof. one_mark. Qed.
Lemma mark_line s : marked s (s <| lineData ::= notRendered |>).
Proof. one_mark. Qed.
Lemma mark_point s : marked s (s <| pointData ::= notRendered |>).
Proof. one_mark. Qed.

Lemma extend_material f s : marks f ->
  marked s (s <| materialData ::= notRendered |> <| materialData ::= f |>).
Proof. intros Hf. destruct s. split_and!; try (by right). left. apply Hf. Qed.
Lemma extend_color f s : marks f ->
  marked s (s <| colorData ::= notRendered |> <| colorData ::= f |>).
Proof. intros Hf. destruct s. split_and!; try (by right). left. apply Hf. Qed.
Lemma extend_transparent f s : marks f ->
  marked s (s <| transparentData ::= notRendered |> <| transparentData ::= f |>).
Proof. intros Hf. destruct s. split_and!; try (by right). left. apply Hf. Qed.
Lemma extend_line f s : marks f ->
  marked s (s <| lineData ::= notRendered |> <| lineData ::= f |>).
Proof. intros Hf. destruct s. split_and!; try (by right). left. apply Hf. Qed.
Lemma extend_point f s : marks f ->
  marked s (s <| pointData ::= notRendered |> <| pointData ::= f |>).
Proof. intros Hf. destruct s. split_and!; try (by right). left. apply Hf. Qed.

Lemma bezier_marks b s : marked s (bezier_notRendered b s).
Proof. unfold bezier_notRendered, target. destruct (transparent b), (color b); one_mark. Qed.
Lemma bezier_append_marks b s : marked s (append b (bezier_notRendered b s)).
Proof.
  unfold append, bezier_notRendered, target.
  destruct (transparent b), (color b);
    (apply extend_transparent || apply extend_color || apply extend_material); auto with mark.
Qed.

#[local] Hint Resolve mark_material mark_color mark_transparent mark_line mark_point
  extend_material extend_color extend_transparent extend_line extend_point
  bezier_marks bezier_append_marks : mark.

Ltac mark :=
  repeat match goal with |- context [if ?b then _ else _] => destruct b end;
  first [ reflexivity | solve [auto with mark] | (etransitivity; [|solve [auto with mark]]; mark) ].

(** ** The classes, with [remesh] *)

Lemma curve_queue_marks view fuel g straight r mi t s t' s' :
  curve_queue view fuel g straight r mi t s = Ret (t', s') -> marked s s'.
Proof. unfold curve_queue. intros E. branches E. apply Ret_snd in E as <-. mark. Qed.

Lemma bezier_queue_marks view fuel kind g straight r T colors mi b s b' s' :
  bezier_queue view fuel kind g straight r T colors mi b s = Ret (b', s') -> marked s s'.
Proof. intros E. apply bezier_queue_run in E as (_ & _ & _ & _ & _ & ->). mark. Qed.

Lemma ofold_marks {A} (f : A -> Scene -> outcome Scene) l s s' :
  (forall a s s', f a s = Ret s' -> marked s s') -> ofold f l s = Ret s' -> marked s s'.
Proof.
  intros Hf. revert s. induction l as [|a l IH]; intros s; cbn [ofold]; [by intros [= <-]|].
  intros E. apply obind_Ret in E as (s1 & E1 & E). etransitivity; [by eapply Hf|by apply IH].
Qed.

Section Classes.
Context {math : MeshMath}.

Lemma queue_edges_marks q edges straight r mi C s C' s' :
  queue_edges q edges straight r mi C s = Ret (C', s') -> marked s s'.
Proof.
  unfold queue_edges. revert C s. induction edges as [|e edges IH]; intros C s; cbn [ofold].
  { by intros [= <- <-]. }
  intros E. apply obind_Ret in E as ([C1 s1] & E1%curve_queue_marks & E).
  etransitivity; [exact E1|by eapply IH].
Qed.

Lemma surface_marks q kind mi p lo hi st s st' s' : q_remesh q = true ->
  surface_QueueMesh q kind mi p lo hi st s = Ret (st', s') -> marked s s'.
Proof.
  unfold surface_QueueMesh, surface_offscreen. intros -> E. cbn [negb andb] in E.
  branches E; apply Ret_snd in E as <-; try mark.
  - by eapply queue_edges_marks.
  - by eapply bezier_queue_marks.
Qed.

Lemma corners_marks q kind mi p cols Min Max st s st' s' : q_remesh q = true ->
  corners_QueueMesh q kind mi p cols Min Max st s = Ret (st', s') -> marked s s'.
Proof.
  unfold corners_QueueMesh, surface_offscreen. intros Hr E. rewrite Hr in E. cbn [negb andb] in E.
  branches E; apply Ret_snd in E as <-; try mark.
  - eapply surface_marks; [|eassumption]. by destruct kind.
  - by eapply bezier_queue_marks.
Qed.

Lemma flat_marks q mi ci v st s st' s' : q_remesh q = true ->
  flat_QueueMesh q mi ci v st s = Ret (st', s') -> marked s s'.
Proof.
  unfold flat_QueueMesh. intros -> E. cbn [negb andb obind] in E.
  branches E; apply Ret_snd in E as <-; try mark.
  by eapply queue_edges_marks.
Qed.

Lemma flat_corners_marks q mi ci v cols st s st' s' : q_remesh q = true ->
  flat_corners_QueueMesh q mi ci v cols st s = Ret (st', s') -> marked s s'.
Proof.
  unfold flat_corners_QueueMesh. intros -> E. cbn [negb andb obind] in E.
  branches E; apply Ret_snd in E as <-; try mark.
  by eapply queue_edges_marks.
Qed.

(** No triangle of the group is transparent through its colours. *)
Definition opaque_colors (g : TriangleGroup) : Prop :=
  forall n, nC g = Some n -> 0 < n -> any_transparent n (vertexColorArray g) (colorIndices g) <> Ret true.

Lemma group_marks q mi ci g st s st' s' : q_remesh q = true -> opaque_colors g ->
  group_QueueMesh q mi ci g st s = Ret (st', s') -> marked s s'.
Proof.
  unfold group_QueueMesh, plain_fast. intros -> Hg E. cbn [negb andb] in E.
  destruct (_ || _); [apply Ret_snd in E as <-; mark|].
  destruct (mode_is q _); [apply Ret_snd in E as <-; mark|].
  destruct (off q _ _).
  { apply Ret_snd in E as <-. etransitivity; [apply mark_transparent|apply mark_color]. }
  apply obind_Ret in E as (T & _ & E). cbn [obind] in E. apply obind_Ret in E as (n & Hn & E).
  apply obind_Ret in E as (? & _ & E). apply obind_Ret in E as (? & _ & E).
  apply obind_Ret in E as (vs & _ & E). apply obind_Ret in E as (some & Hs & E).
  assert (some = false) as ->.
  { destruct (nC g) as [n'|] eqn:HC; [|done]. injection Hn as <-.
    destruct (0 <? n') eqn:Hp; [|by injection Hs as <-]. apply Z.ltb_lt in Hp.
    destruct some; [|done]. by destruct (Hg n' HC Hp). }
  rewrite orb_false_r in E. apply obind_Ret in E as (ix & _ & E). apply Ret_snd in E as <-.
  destruct T; mark.
Qed.

Lemma curve_marks q mi ci p lo hi st s st' s' : q_remesh q = true ->
  curve_QueueMesh q mi ci p lo hi st s = Ret (st', s') -> marked s s'.
Proof.
  unfold curve_QueueMesh, plain_fast. intros -> E. cbn [negb andb obind] in E.
  branches E; apply Ret_snd in E as <-; [mark|]. by eapply curve_queue_marks.
Qed.

Lemma line_marks q mi p lo hi st s st' s' :
  line_QueueMesh q mi p lo hi st s = Ret (st', s') -> marked s s'.
Proof.
  unfold line_QueueMesh. intros E. branches E; apply Ret_snd in E as <-; [mark|].
  by eapply curve_queue_marks.
Qed.

Lemma pixel_marks q mi p w st s st' s' :
  pixel_QueueMesh q mi p w st s = (st', s') -> marked s s'.
Proof.
  unfold pixel_QueueMesh, pixel_queue. intros E. apply (f_equal snd) in E. cbn [snd] in E. subst s'.
  destruct (off q _ _); cbn [snd]; [mark|]. cbn [addPointVertex emptyBuffer fst snd].
  apply extend_point, marks_extendPoint.
Qed.

Lemma temporary_marks q kind mi p s s' :
  queue_temporary q kind mi p s = Ret s' -> marked s s'.
Proof.
  unfold queue_temporary. destruct (surface_bounds kind p) as [lo hi]. intros E.
  apply obind_Ret in E as ([st s1] & E & [= <-]). by eapply (surface_marks (with_remesh true q)).
Qed.

Lemma pieces_mark q kind mi l s s' :
  ofold (queue_temporary q kind mi) l s = Ret s' -> marked s s'.
Proof. apply ofold_marks. intros p a b. apply temporary_marks. Qed.

Lemma cylinder_marks q c r h dir core mi s s' :
  cylinder q c r h dir core mi s = Ret s' -> marked s s'.
Proof.
  unfold cylinder. intros E. apply obind_Ret in E as (s1 & E1%pieces_mark & E).
  destruct core; [|by injection E as <-]. destruct (lineBounds _ _) as [lo hi].
  apply obind_Ret in E as ([st s2] & E & [= <-]). etransitivity; [exact E1|by eapply line_marks].
Qed.

Lemma tube_marks q v w core mi s s' : tube q v w core mi s = Ret s' -> marked s s'.
Proof.
  unfold tube. intros E. apply obind_Ret in E as (s1 & E1%pieces_mark & E).
  destruct core; [|by injection E as <-]. destruct (computeBezierCurveBounds _ _ _ _) as [lo hi].
  apply obind_Ret in E as ([st s2] & E & [= <-]). etransitivity; [exact E1|].
  by eapply (curve_marks (with_remesh true q)).
Qed.

(** ** Files *)

(** No group of the file is transparent through its vertex colours alone. *)
Definition uploads_itself (o : V3dObject) : Prop :=
  match members o with Triangles g => opaque_colors g | _ => True end.

Lemma object_marks q o st s st' s' : q_remesh q = true -> uploads_itself o ->
  object_QueueMesh q o st s = Ret (st', s') -> marked s s'.
Proof.
  unfold object_QueueMesh, uploads_itself. intros Hr Ho E. apply obind_Ret in E as (mi & _ & E).
  destruct (members o); revert E.
  1, 2: apply on_surface_scene; intros a a' s1; of_class surface_marks.
  1, 2: apply on_surface_scene; intros a a' s1; of_class corners_marks.
  1, 2: apply on_flat_scene; intros a a' s1; of_class flat_marks.
  1, 2: apply on_flat_scene; intros a a' s1; of_class flat_corners_marks.
  - apply on_plain_scene. intros a a' s1. of_class group_marks.
  - of_class pieces_mark.
  - of_class pieces_mark.
  - of_class temporary_marks.
  - of_class cylinder_marks.
  - of_class tube_marks.
  - apply on_plain_scene. intros a a' s1. of_class curve_marks.
  - apply on_plain_scene. intros a a' s1. of_class line_marks.
  - apply on_plain_scene. intros a a' s1 E. apply obind_Ret in E as (? & _ & E).
    apply obind_Ret in E as (? & _ & [= E]). by eapply pixel_marks.
Qed.

Lemma billboard_marked t before s : marked s (billboard t before s).
Proof. destruct s as [[] [] [] [] []]. by split_and!; right. Qed.

Lemma queue_object_marks q cs o st s st' s' : q_remesh q = true -> uploads_itself o ->
  queue_object q cs o st s = Ret (st', s') -> marked s s'.
Proof.
  unfold queue_object. intros Hr Ho E. apply obind_Ret in E as ([st1 s1] & E1%object_marks & E); [|done..].
  apply obind_Ret in E as (c & _ & E). destruct c; apply Ret_snd in E as <-; [|done].
  etransitivity; [exact E1|apply billboard_marked].
Qed.

Lemma queue_objects_mark q cs os s os' s' :
  q_remesh q = true -> Forall (fun x => uploads_itself x.1) os ->
  queue_objects q cs os s = Ret (os', s') -> marked s s'.
Proof.
  intros Hr Ho. revert s os' s'. induction Ho as [|[o st] os Ho Hos IH]; intros s os' s'; cbn [queue_objects].
  { by intros [= _ <-]. }
  intros E. apply obind_Ret in E as ([st1 s1] & E1%queue_object_marks & E); [|done..].
  apply obind_Ret in E as ([os1 s2] & E2%IH & E). apply Ret_snd in E as <-. by etransitivity.
Qed.

Lemma file_marks q f sts s sts' s' :
  q_remesh q = true -> Forall uploads_itself (objects f) ->
  file_QueueMesh q f sts s = Ret (sts', s') -> marked s s'.
Proof.
  unfold file_QueueMesh. intros Hr Ho E. apply obind_Ret in E as ([os s1] & E & Er).
  apply Ret_snd in Er as <-. eapply queue_objects_mark; [|..|exact E]; [done|].
  apply list.Forall_forall. intros [o st] Hx%elem_of_zip_l. by eapply list.Forall_forall in Ho.
Qed.

(** From a cleared scene on, what has data is marked. *)
Lemma cleared_marks s0 s b :
  marked (clearData s0) s ->
  b ∈ [materialData s; colorData s; transparentData s; lineData s; pointData s] ->
  indices b <> [] -> renderCount b = 0.
Proof.
  intros (M1 & M2 & M3 & M4 & M5) Hb Hi.
  assert (forall b', marked_buffer b' b -> indices b' = [] -> renderCount b = 0) as H.
  { intros b' [?|[E _]] E'; [done|]. by rewrite E, E' in Hi. }
  repeat (apply elem_of_cons in Hb as [->|Hb]; [by eapply H; [eassumption|destruct s0 as [[] [] [] [] []]]|]).
  by apply not_elem_of_nil in Hb.
Qed.

Lemma marked_ready s0 s g : marked (clearData s0) s -> frame_ready false s g.
Proof.
  intros M. split_and!; intros Hi; right; left; (eapply cleared_marks; [exact M| |exact Hi]);
    rewrite !elem_of_cons; tauto.
Qed.
End Classes.

(** C12: A frame with [remesh] draws exactly what was queued: for a file loaded from
    any bytes, after any frames before, whatever the device buffers hold (stale
    data, or nothing after a cleanup) and with or without fragment interlock, the
    draw calls are defined and read, index by index, the vertices that
    [V3dFile::QueueMesh] has queued, and afterwards the device holds every buffer
    that has data; the renderer's own [remesh] flag is not needed.  Excepted are
    files with a triangle group that is transparent through its vertex colours,
    whose buffer the source does not mark. *)
Theorem remesh_frame_draws_queue {math : MeshMath} data f x q sts0 s0 sts s interlock g :
  load_file (Some (mkFILE data 0 None)) = Ret (f, x) -> Forall uploads_itself (objects f) ->
  sts0 = new_states f \/ rendered f sts0 s0 -> q_remesh q = true ->
  file_QueueMesh q f sts0 (clearData s0) = Ret (sts, s) -> small s ->
  exists g', draw_buffers interlock false s g = Ret (expand_scene s, counted s, g') /\ in_sync s g'.
Proof.
  intros Hf%load_file_sized Hu Hs Hr E Hsmall. apply draw_buffers_ready.
  - assert (rendered f sts s) as Hren.
    { destruct Hs as [->|Hs]; [by eapply first_frame|by eapply next_frame]. }
    exact (proj2 (rendered_ok f sts s Hf Hren)).
  - apply (marked_ready s0). by eapply file_marks.
Qed.

Definition one_frame_check : bool :=
  match file_QueueMesh (math := plain_math) (sample_request true) sample_scene_file
          (new_states sample_scene_file) (clearData emptyScene) with
  | Ret (_, s) => small_dec s && Nat.eqb (length (indices (materialData s))) 3
  | _ => false
  end.

Definition is_group (o : V3dObject) : bool :=
  match members o with Triangles _ => true | _ => false end.

Lemma no_groups_upload os : existsb is_group os = false -> Forall uploads_itself os.
Proof.
  induction os as [|o os IH]; cbn [existsb]; [by constructor|]. intros [Ho H]%orb_false_iff.
  constructor; [|by apply IH]. unfold is_group, uploads_itself in *. by destruct (members o).
Qed.

Lemma remesh_frame_draws_queue_witness :
  exists x sts s g',
    load_file (Some (mkFILE sample_scene 0 None)) = Ret (sample_scene_file, x) /\
    file_QueueMesh (math := plain_math) (sample_request true) sample_scene_file
      (new_states sample_scene_file) (clearData emptyScene) = Ret (sts, s) /\
    length (indices (materialData s)) = 3%nat /\
    draw_buffers false false s noBuffers = Ret (expand_scene s, counted s, g').
Proof.
  assert (exists x, load_file (Some (mkFILE sample_scene 0 None)) = Ret (sample_scene_file, x))
    as [x E] by (vm_compute; eexists; reflexivity).
  assert (Forall uploads_itself (objects sample_scene_file)) as Hu
    by (apply no_groups_upload; vm_compute; reflexivity).
  assert (one_frame_check = true) as H by (vm_compute; reflexivity).
  unfold one_frame_check in H.
  destruct (file_QueueMesh _ _ (new_states _) _) as [[sts s]| |] eqn:E1; [|discriminate..].
  apply andb_prop in H as [H1 H2].
  assert (exists g', draw_buffers false false s noBuffers = Ret (expand_scene s, counted s, g') /\
            in_sync s g') as (g' & Hd & _).
  { eapply (remesh_frame_draws_queue (math := plain_math) sample_scene sample_scene_file x
      (sample_request true) (new_states sample_scene_file) emptyScene sts s false noBuffers).
    - exact E.
    - exact Hu.
    - left. reflexivity.
    - reflexivity.
    - exact E1.
    - by apply small_dec_ok. }
  exists x, sts, s, g'. split; [exact E|]. split; [reflexivity|]. split; [by apply Nat.eqb_eq|exact Hd].
Defined.
