(* ===== verification/Sync.v ===== *)
(** * What two frames in a row upload

    A frame without [remesh] uploads only the marked buffers, so it draws what is
    queued only if every buffer that is not marked has the contents that the frame
    before gave it.  [synced] relates the scenes of two frames in this way; it is
    kept by [QueueMesh] of a [faithful] object: one that marks what it changes,
    and otherwise adds the mesh that it has added before. *)

From S2P Require Import Prelude Ieee Xstream Bound V3dData V3dLoad Model Mesh Tess TessProps.
From S2P Require Import LoadShape Objects Solids QueueMesh QueueSafety Frames QueueProps Appends Upload.
From S2P Require Import Marks.

(** ** The five buffers *)

Inductive kind := KMaterial | KColor | KTransparent | KLine | KPoint.

#[export] Instance kind_eq_dec : EqDecision kind.
Proof. solve_decision. Defined.

Definition slot (k : kind) (s : Scene) : VertexBuffer :=
  match k with
  | KMaterial => materialData s | KColor => colorData s | KTransparent => transparentData s
  | KLine => lineData s | KPoint => pointData s
  end.

(** What a buffer holds, but for its mark. *)
Definition content (k : kind) (s : Scene) : VertexBuffer := notRendered (slot k s).
Definition isMarked (k : kind) (s : Scene) : Prop := renderCount (slot k s) = 0.

Definition extend (k : kind) (m : VertexBuffer) : VertexBuffer -> VertexBuffer :=
  match k with
  | KMaterial | KLine => extendMaterial m
  | KColor | KTransparent => extendColor m
  | KPoint => extendPoint m
  end.

Lemma extend_notRendered k m b : notRendered (extend k m b) = extend k m (notRendered b).
Proof. by destruct k, b. Qed.
Lemma extend_mark k m b : renderCount (extend k m b) = renderCount b.
Proof. by destruct k, b. Qed.
Lemma extend_cleared k m b : extend k (clear m) (notRendered b) = notRendered b.
Proof. by destruct k, b; cbn; unfold extendOffset; cbn; rewrite !app_nil_r. Qed.

(** The same contents, with a mark that was there. *)
Definition stays (k : kind) (s s' : Scene) : Prop :=
  content k s' = content k s /\ (isMarked k s -> isMarked k s').

#[export] Instance stays_preorder k : PreOrder (stays k).
Proof.
  split; [by split|]. intros a b c [H1 M1] [H2 M2]. split; [congruence|auto].
Qed.

(** ** The runs of one object *)

(** Only the buffer [t], and that of the lines, may get new contents. *)
Definition others (t : kind) (s s' : Scene) : Prop :=
  forall k, k <> KLine -> k <> t -> stays k s s'.

(** Lines that are drawn are marked. *)
Definition lines (s s' : Scene) : Prop := isMarked KLine s' \/ stays KLine s s'.

(** A run that adds the mesh [m] to [t]: it marks [t], or it is a reuse ([same]). *)
Definition adds (t : kind) (m : VertexBuffer) (same : Prop) (s s' : Scene) : Prop :=
  others t s s' /\ lines s s' /\ content t s' = extend t m (content t s) /\
  (isMarked t s' \/ (same /\ slot t s' = extend t m (slot t s))).

(** A run that marks [t], whatever it adds. *)
Definition remakes (t : kind) (s s' : Scene) : Prop :=
  others t s s' /\ lines s s' /\ (t = KLine \/ isMarked t s').

(** ** The runs of one object in two frames *)

(** From the first frame's [s0], [s0'] and the second's [s], [s']. *)
Definition pair_step (reuse : Prop) (s0 s0' s s' : Scene) : Prop :=
  lines s s' /\
  forall k, k <> KLine ->
    isMarked k s' \/ (stays k s0 s0' /\ stays k s s') \/
    (reuse /\ exists m, content k s0' = extend k m (content k s0) /\ slot k s' = extend k m (slot k s)).

Lemma pair_weaken (P Q : Prop) s0 s0' s s' :
  (P -> Q) -> pair_step P s0 s0' s s' -> pair_step Q s0 s0' s s'.
Proof. intros H [Hl Hp]. split; [exact Hl|]. intros k Hk. destruct (Hp k Hk) as [?|[?|[? ?]]]; eauto. Qed.

Lemma adds_pair t m m' same same' s0 s0' s s' :
  adds t m same' s0 s0' -> adds t m' same s s' -> (same -> m' = m) ->
  pair_step same s0 s0' s s'.
Proof.
  intros (O0 & _ & C0 & _) (O & L & C & M) Hm. split; [exact L|]. intros k Hk.
  destruct (decide (k = t)) as [->|Ht]; [|right; left; split; [by apply O0|by apply O]].
  destruct M as [M|[Hs M]]; [by left|]. right; right. split; [done|]. exists m.
  split; [exact C0|]. by rewrite <- (Hm Hs).
Qed.

Lemma remakes_pair t s0 s0' s s' :
  remakes t s0 s0' -> remakes t s s' -> pair_step False s0 s0' s s'.
Proof.
  intros (O0 & _ & _) (O & L & M). split; [exact L|]. intros k Hk.
  destruct (decide (k = t)) as [->|Ht]; [destruct M as [?|M]; [done|by left]|].
  right; left. split; [by apply O0|by apply O].
Qed.

Lemma pair_refl s0 s : pair_step False s0 s0 s s.
Proof. split; [by right|]. intros k _. right; left. by split. Qed.

Lemma pair_trans s0 s1 s2 s s' s'' :
  pair_step False s0 s1 s s' -> pair_step False s1 s2 s' s'' -> pair_step False s0 s2 s s''.
Proof.
  intros [L1 P1] [L2 P2]. split.
  - destruct L2 as [?|L2]; [by left|]. destruct L1 as [L1|L1]; [left; by apply L2|].
    right. by etransitivity.
  - intros k Hk. destruct (P2 k Hk) as [?|[[A2 B2]|[[] _]]]; [by left|].
    destruct (P1 k Hk) as [M|[[A1 B1]|[[] _]]]; [left; by apply B2|].
    right; left. split; by etransitivity.
Qed.

(** Runs over the same list. *)
Lemma ofold_pair {A} (f0 f : A -> Scene -> outcome Scene) l s0 s0' s s' :
  (forall a s0 s0' s s', f0 a s0 = Ret s0' -> f a s = Ret s' -> pair_step False s0 s0' s s') ->
  ofold f0 l s0 = Ret s0' -> ofold f l s = Ret s' -> pair_step False s0 s0' s s'.
Proof.
  intros Hf. revert s0 s. induction l as [|a l IH]; intros s0 s; cbn [ofold].
  { intros [= <-] [= <-]. apply pair_refl. }
  intros E0 E. apply obind_Ret in E0 as (s1 & H1 & E0). apply obind_Ret in E as (s2 & H2 & E).
  eapply pair_trans; [by eapply Hf|by apply IH].
Qed.

(** ** Two frames *)

Definition same_or_marked (k : kind) (s0 s : Scene) : Prop :=
  isMarked k s \/ content k s = content k s0.
Definition lines_ok (s : Scene) : Prop := isMarked KLine s \/ indices (lineData s) = [].
Definition synced (s0 s : Scene) : Prop :=
  lines_ok s /\ forall k, k <> KLine -> same_or_marked k s0 s.

Lemma stays_indices k s s' : stays k s s' -> indices (slot k s') = indices (slot k s).
Proof. intros [E _]. exact (f_equal indices E). Qed.

Lemma pair_synced P s0 s0' s s' : pair_step P s0 s0' s s' -> synced s0 s -> synced s0' s'.
Proof.
  intros [L Hp] [Sl S]. split.
  - destruct L as [?|L]; [by left|]. destruct Sl as [M|E]; [left; by apply L|].
    right. by rewrite <- E; apply (stays_indices KLine).
  - intros k Hk. destruct (Hp k Hk) as [?|[[[A0 _] [A B]]|[_ (m & A0 & A)]]]; [by left|..].
    + destruct (S k Hk) as [M|E]; [left; by apply B|]. right. congruence.
    + destruct (S k Hk) as [M|E]; [left; unfold isMarked; by rewrite A, extend_mark|].
      right. rewrite A0, <- E. unfold content. by rewrite A, extend_notRendered.
Qed.

Lemma cleared_synced s0 s : synced (clearData s0) (clearData s).
Proof. split; [by right|]. intros k _. right. by destruct k. Qed.

(** ** Changing one buffer *)

Definition update (k : kind) (f : VertexBuffer -> VertexBuffer) (s : Scene) : Scene :=
  match k with
  | KMaterial => s <| materialData ::= f |> | KColor => s <| colorData ::= f |>
  | KTransparent => s <| transparentData ::= f |> | KLine => s <| lineData ::= f |>
  | KPoint => s <| pointData ::= f |>
  end.

Lemma slot_update k f s : slot k (update k f s) = f (slot k s).
Proof. by destruct k. Qed.
Lemma slot_update_ne k k' f s : k <> k' -> slot k (update k' f s) = slot k s.
Proof. by destruct k, k'. Qed.

Lemma stays_update_ne k k' f s : k <> k' -> stays k s (update k' f s).
Proof. intros H. unfold stays, content, isMarked. by rewrite slot_update_ne. Qed.
Lemma stays_mark k k' s : stays k s (update k' notRendered s).
Proof.
  destruct (decide (k = k')) as [->|H]; [|by apply stays_update_ne].
  unfold stays, content, isMarked. rewrite slot_update. by destruct (slot k' s).
Qed.

Section Updates.
Context (t : kind) (Ht : t <> KLine).

Lemma others_update f s : others t s (update t f s).
Proof. intros k _ Hk. by apply stays_update_ne. Qed.

Lemma adds_new m same s : adds t m same s (update t (extend t m) (update t notRendered s)).
Proof.
  split_and!.
  - intros k _ Hk. etransitivity; by apply stays_update_ne.
  - right. etransitivity; by apply stays_update_ne.
  - unfold content. rewrite !slot_update, extend_notRendered. by destruct (slot t s).
  - left. unfold isMarked. by rewrite !slot_update, extend_mark.
Qed.

Lemma adds_again m (same : Prop) s : same -> adds t m same s (update t (extend t m) s).
Proof.
  intros Hs. split_and!; [apply others_update|right; by apply stays_update_ne| |].
  - unfold content. by rewrite slot_update, extend_notRendered.
  - right. split; [done|apply slot_update].
Qed.

Lemma adds_none m same s : adds t (clear m) same s (update t notRendered s).
Proof.
  split_and!; [apply others_update|right; by apply stays_update_ne| |].
  - unfold content at 2. rewrite extend_cleared. apply stays_mark.
  - left. unfold isMarked. by rewrite slot_update.
Qed.

Lemma adds_remakes m s s' : adds t m False s s' -> remakes t s s'.
Proof. intros (O & L & _ & [M|[[] _]]). split_and!; eauto. Qed.
End Updates.

Lemma adds_weaken t m (P Q : Prop) s s' : (P -> Q) -> adds t m P s s' -> adds t m Q s s'.
Proof. intros H (?&?&?&[?|[? ?]]); split_and!; eauto. Qed.

(** Marking more than needed. *)
Lemma adds_mark t m same k s s' :
  adds t m same s s' -> k <> t -> adds t m same s (update k notRendered s').
Proof.
  intros (O & L & C & M) Hk. split_and!.
  - intros k' H1 H2. etransitivity; [by apply O|apply stays_mark].
  - destruct L as [M'|L]; [left; by apply stays_mark|right; etransitivity; [exact L|apply stays_mark]].
  - unfold content in *. by rewrite slot_update_ne.
  - unfold isMarked in *. by rewrite slot_update_ne.
Qed.

Lemma mark_adds t m same k s s' :
  k <> t -> k <> KLine -> adds t m same (update k notRendered s) s' -> adds t m same s s'.
Proof.
  intros Hk Hl (O & L & C & M). split_and!.
  - intros k' H1 H2. etransitivity; [apply (stays_mark k' k)|by apply O].
  - destruct L as [?|L]; [by left|]. right. etransitivity; [apply (stays_mark KLine k)|exact L].
  - unfold content in *. by rewrite slot_update_ne in C.
  - by rewrite slot_update_ne in M.
Qed.

Lemma remakes_mark t k s s' : remakes t s s' -> remakes t s (update k notRendered s').
Proof.
  intros (O & L & M). split_and!.
  - intros k' H1 H2. etransitivity; [by apply O|apply stays_mark].
  - destruct L as [M'|L]; [left; by apply stays_mark|right; etransitivity; [exact L|apply stays_mark]].
  - destruct M as [?|M]; [by left|right; by apply stays_mark].
Qed.
Lemma remakes_lines s : remakes KLine s s.
Proof. split_and!; [by intros k|by right|by left]. Qed.

(** ** The classes *)

Lemma Ret_inj_pair {A B} (a a' : A) (b b' : B) : Ret (a, b) = Ret (a', b') -> a = a' /\ b = b'.
Proof. by intros [= -> ->]. Qed.

Lemma curve_queue_remakes view fuel g straight r mi t s t' s' :
  curve_queue view fuel g straight r mi t s = Ret (t', s') -> remakes KLine s s'.
Proof.
  intros ->%curve_queue_scene. split_and!; [|left|by left].
  - intros k Hk _. etransitivity; [by apply (stays_update_ne k KLine notRendered)|].
    by apply (stays_update_ne k KLine).
  - unfold isMarked. by destruct s.
Qed.

Definition surface_slot (T : bool) : kind := if T then KTransparent else KMaterial.
Lemma surface_slot_line T : surface_slot T <> KLine.
Proof. by destruct T. Qed.
#[local] Hint Resolve surface_slot_line : core.

Section Classes.
Context {math : MeshMath}.

(** Whether the material is transparent, in frames that draw surfaces. *)
Definition is_transparent (q : Request) (mi : Z) : bool :=
  match material_transparent q mi with Ret T => T | _ => false end.
Lemma is_transparent_Ret q mi T : material_transparent q mi = Ret T -> is_transparent q mi = T.
Proof. unfold is_transparent. by intros ->. Qed.

Definition bezier_like (T : bool) (b : Bezier) : Prop := transparent b = T /\ color b = false.

Lemma append_update T b s :
  bezier_like T b -> append b s = update (surface_slot T) (extend (surface_slot T) (data (tess b))) s.
Proof. intros [HT HC]. unfold append, target. rewrite HT, HC. by destruct T. Qed.
Lemma notRendered_update T b s :
  bezier_like T b -> bezier_notRendered b s = update (surface_slot T) notRendered s.
Proof. intros [HT HC]. unfold bezier_notRendered, target. rewrite HT, HC. by destruct T. Qed.

Lemma surface_adds q kind mi p lo hi st s st' s' :
  mode_is q DRAWMODE_OUTLINE = false ->
  q_remesh q = true \/ bezier_like (is_transparent q mi) (sS st) ->
  surface_QueueMesh q kind mi p lo hi st s = Ret (st', s') ->
  let T := is_transparent q mi in
  adds (surface_slot T) (data (tess (sS st'))) (q_remesh q = false /\ st' = st) s s' /\
  bezier_like T (sS st').
Proof.
  unfold surface_QueueMesh. intros Hm Hc E. rewrite Hm in E.
  apply obind_Ret in E as (T & ET%is_transparent_Ret & E). rewrite ET in *. cbv zeta.
  destruct (off q lo hi).
  { unfold surface_offscreen in E. set (b := mkBezier _ T false) in E.
    assert (bezier_like T b) as Hb by done. rewrite (notRendered_update T) in E by done.
    injection E as <- <-. split; [by apply adds_none|done]. }
  destruct (negb (q_remesh q) && Onscreen (tess (sS st))) eqn:Hf.
  { apply andb_prop in Hf as [Hf _]. apply negb_true_iff in Hf.
    destruct Hc as [Hc|Hc]; [by rewrite Hc in Hf|].
    rewrite (append_update T) in E by done. injection E as <- <-. split; [by apply adds_again|done]. }
  apply obind_Ret in E as ([b s1] & E & Er).
  apply bezier_queue_run in E as (HT & HC & _ & _ & _ & ->). injection Er as <- <-.
  assert (bezier_like T b) as Hb by done. cbn [sS].
  rewrite (append_update T), (notRendered_update T) by done. split; [by apply adds_new|done].
Qed.

Lemma mark_surface (T : bool) s :
  (if T then s <| transparentData ::= notRendered |> else s <| materialData ::= notRendered |>) =
  update (surface_slot T) notRendered s.
Proof. by destruct T. Qed.

(** The flags of a flat shape agree with its material. *)
Definition flat_like (T : bool) (st : Flat) : Prop := fOnscreen st = true -> S_color st = T.

Lemma flat_adds q mi ci v st s st' s' :
  mode_is q DRAWMODE_OUTLINE = false ->
  q_remesh q = true \/ flat_like (is_transparent q mi) st ->
  flat_QueueMesh q mi ci v st s = Ret (st', s') ->
  let T := is_transparent q mi in
  adds (surface_slot T) (fS st') (ci = Some 0 /\ st' = st) s s' /\ flat_like T st'.
Proof.
  unfold flat_QueueMesh. destruct (flat_box v) as [lo hi]. intros Hm Hc E. rewrite Hm in E.
  apply obind_Ret in E as (T & ET%is_transparent_Ret & E). rewrite ET in *. cbv zeta in *.
  destruct (off q lo hi).
  { apply Ret_inj_pair in E as [<- <-]. split; [|by destruct st].
    rewrite mark_surface. destruct st. by apply adds_none. }
  apply obind_Ret in E as (fast & Hf & E). destruct fast.
  { assert (ci = Some 0 /\ flat_like T st /\ fOnscreen st = true) as (Hci & Hl & On).
    { destruct (q_remesh q), (fOnscreen st); cbn in Hf; try discriminate.
      destruct ci as [c|]; [|done]. injection Hf as Hf%Z.eqb_eq. subst c.
      split_and!; [done| |done]. by destruct Hc. }
    rewrite (Hl On) in E. apply Ret_inj_pair in E as [<- <-]. split; [|done].
    replace (if T then _ else _) with (update (surface_slot T) (extend (surface_slot T) (fS st)) s)
      by by destruct T.
    by apply adds_again. }
  destruct T; apply Ret_inj_pair in E as [<- <-]; (split; [|done]).
  - by apply (adds_new KTransparent).
  - by apply (adds_new KMaterial).
Qed.

(** ** Groups, curves, lines and pixels *)

Definition group_slot (T : bool) : kind := if T then KTransparent else KColor.
Lemma group_slot_line T : group_slot T <> KLine.
Proof. by destruct T. Qed.
#[local] Hint Resolve group_slot_line : core.

Lemma mark_group (T : bool) s :
  (if T then s <| transparentData ::= notRendered |> else s <| colorData ::= notRendered |>) =
  update (group_slot T) notRendered s.
Proof. by destruct T. Qed.
Lemma extend_group (T : bool) m s :
  (if T then s <| transparentData ::= extendColor m |> else s <| colorData ::= extendColor m |>) =
  update (group_slot T) (extend (group_slot T) m) s.
Proof. by destruct T. Qed.

(** The colours of a group are opaque where they are looked at. *)
Lemma some_opaque g n some :
  opaque_colors g -> determined (nC g) = Ret n ->
  (if 0 <? n then any_transparent n (vertexColorArray g) (colorIndices g) else Ret false) = Ret some ->
  some = false.
Proof.
  intros Hg Hn Hs. destruct (nC g) as [n'|] eqn:HC; [|done]. injection Hn as <-.
  destruct (0 <? n') eqn:Hp; [|by injection Hs as <-]. apply Z.ltb_lt in Hp.
  destruct some; [|done]. by destruct (Hg n' HC Hp).
Qed.

Lemma plain_fast_zero q ci st : plain_fast q ci st = Ret true -> q_remesh q = false /\ ci = Some 0.
Proof.
  unfold plain_fast. destruct (q_remesh q), (fullyOnscreen st); try done. cbn [negb andb].
  destruct ci as [c|]; [|done]. cbn [determined obind]. intros H. injection H as H%Z.eqb_eq. by subst c.
Qed.

Lemma group_adds q mi ci g st s st' s' :
  mode_is q DRAWMODE_OUTLINE = false -> opaque_colors g -> (nI g =? 0) || (nP g =? 0) = false ->
  group_QueueMesh q mi ci g st s = Ret (st', s') ->
  adds (group_slot (is_transparent q mi)) (vertexData st') (ci = Some 0 /\ st' = st) s s'.
Proof.
  unfold group_QueueMesh. intros Hm Hg Hn E. rewrite Hn, Hm in E. destruct (off q _ _).
  { apply Ret_inj_pair in E as [<- <-]. destruct st as [m o]. unfold plain_hidden. cbn [vertexData].
    destruct (is_transparent q mi).
    - apply (adds_mark KTransparent _ _ KColor); [by apply (adds_none KTransparent)|done].
    - apply (mark_adds KColor _ _ KTransparent); [done..|by apply (adds_none KColor)]. }
  apply obind_Ret in E as (T & ET%is_transparent_Ret & E). rewrite ET. cbv zeta in E.
  apply obind_Ret in E as (fast & Hf & E). destruct fast.
  { apply plain_fast_zero in Hf as [_ Hci]. apply Ret_inj_pair in E as [<- <-].
    rewrite extend_group. by apply adds_again. }
  apply obind_Ret in E as (n & Hn' & E). apply obind_Ret in E as (? & _ & E).
  apply obind_Ret in E as (? & _ & E). apply obind_Ret in E as (vs & _ & E).
  apply obind_Ret in E as (some & Hs & E). rewrite (some_opaque _ _ _ Hg Hn' Hs), orb_false_r in E.
  apply obind_Ret in E as (ix & _ & E). apply Ret_inj_pair in E as [<- <-]. cbn [vertexData].
  rewrite mark_group, extend_group. by apply adds_new.
Qed.

(** A curve that is not reused, because it is a billboard or [remesh] is set. *)
Lemma curve_remakes q mi ci p lo hi st s st' s' :
  q_remesh q = true \/ ci <> Some 0 ->
  curve_QueueMesh q mi ci p lo hi st s = Ret (st', s') -> remakes KLine s s'.
Proof.
  unfold curve_QueueMesh. intros Hc E. destruct (off q lo hi).
  { apply Ret_snd in E as <-.
    by apply (remakes_mark KLine KMaterial), (remakes_mark KLine KTransparent), remakes_lines. }
  apply obind_Ret in E as ([] & Hf & E).
  { apply plain_fast_zero in Hf as [Hr ->]. by destruct Hc as [Hc|Hc]; [rewrite Hc in Hr|]. }
  apply obind_Ret in E as ([] & E1%curve_queue_remakes & E). by apply Ret_snd in E as <-.
Qed.

Lemma line_remakes q mi p lo hi st s st' s' :
  line_QueueMesh q mi p lo hi st s = Ret (st', s') -> remakes KLine s s'.
Proof.
  unfold line_QueueMesh. intros E. destruct (off q lo hi).
  { apply Ret_snd in E as <-.
    by apply (remakes_mark KLine KMaterial), (remakes_mark KLine KTransparent), remakes_lines. }
  apply obind_Ret in E as ([] & E1%curve_queue_remakes & E). by apply Ret_snd in E as <-.
Qed.

Lemma pixel_remakes q mi p w st s st' s' :
  pixel_QueueMesh q mi p w st s = (st', s') -> remakes KPoint s s'.
Proof.
  unfold pixel_QueueMesh, pixel_queue. intros E. apply (f_equal snd) in E. cbn [snd] in E. subst s'.
  destruct (off q _ _); cbn [snd].
  - by apply (adds_remakes KPoint (clear emptyBuffer)), (adds_none KPoint).
  - cbn [addPointVertex emptyBuffer fst snd]. by eapply (adds_remakes KPoint), (adds_new KPoint).
Qed.

(** ** Solids *)

Lemma temporary_remakes q kind mi p s s' :
  mode_is q DRAWMODE_OUTLINE = false -> queue_temporary q kind mi p s = Ret s' ->
  remakes (surface_slot (is_transparent q mi)) s s'.
Proof.
  unfold queue_temporary. destruct (surface_bounds kind p) as [lo hi]. intros Hm E.
  apply obind_Ret in E as ([st s1] & E & [= <-]).
  apply (surface_adds (with_remesh true q)) in E as [A _]; [|done|by left].
  unfold is_transparent in *. rewrite remesh_material in A.
  eapply adds_remakes, adds_weaken; [|exact A]. by intros [? _].
Qed.

(** Two frames whose requests agree in what decides the target. *)
Section Pairs.
Context (q0 q : Request).
Context (Hm0 : mode_is q0 DRAWMODE_OUTLINE = false) (Hm : mode_is q DRAWMODE_OUTLINE = false).
Context (HT : forall mi, is_transparent q0 mi = is_transparent q mi).

Lemma pieces_pair kind mi l s0 s0' s s' :
  ofold (queue_temporary q0 kind mi) l s0 = Ret s0' -> ofold (queue_temporary q kind mi) l s = Ret s' ->
  pair_step False s0 s0' s s'.
Proof.
  apply ofold_pair. intros p a a' b b' E0%temporary_remakes E%temporary_remakes; [|done..].
  rewrite HT in E0. by eapply remakes_pair.
Qed.

Lemma cylinder_pair c r h dir core mi s0 s0' s s' :
  cylinder q0 c r h dir core mi s0 = Ret s0' -> cylinder q c r h dir core mi s = Ret s' ->
  pair_step False s0 s0' s s'.
Proof.
  unfold cylinder. intros E0 E. apply obind_Ret in E0 as (s1 & A0 & E0).
  apply obind_Ret in E as (s2 & A & E). pose proof (pieces_pair _ _ _ _ _ _ _ A0 A) as P.
  destruct core; [|by injection E0 as <-; injection E as <-].
  destruct (lineBounds _ _) as [lo hi].
  apply obind_Ret in E0 as ([? ?] & B0%line_remakes & [= <-]).
  apply obind_Ret in E as ([? ?] & B%line_remakes & [= <-]).
  eapply pair_trans; [exact P|by eapply remakes_pair].
Qed.

Lemma tube_pair v w core mi s0 s0' s s' :
  tube q0 v w core mi s0 = Ret s0' -> tube q v w core mi s = Ret s' -> pair_step False s0 s0' s s'.
Proof.
  unfold tube. intros E0 E. apply obind_Ret in E0 as (s1 & A0 & E0).
  apply obind_Ret in E as (s2 & A & E). pose proof (pieces_pair _ _ _ _ _ _ _ A0 A) as P.
  destruct core; [|by injection E0 as <-; injection E as <-].
  destruct (computeBezierCurveBounds _ _ _ _) as [lo hi].
  apply obind_Ret in E0 as ([? ?] & B0%curve_remakes & [= <-]); [|by left].
  apply obind_Ret in E as ([? ?] & B%curve_remakes & [= <-]); [|by left].
  eapply pair_trans; [exact P|by eapply remakes_pair].
Qed.
End Pairs.
End Classes.

(** ** Objects *)

(** Every change of the mesh marks the buffer, and a reuse adds the same mesh to
    the same buffer.  Excluded: corner colours, curves, Bezier surfaces that are
    billboards, and groups that are transparent through their vertex colours. *)
Definition faithful (o : V3dObject) : Prop :=
  match members o with
  | BezierPatch _ | BezierTriangle _ => centerIndex o = Some 0
  | BezierPatchWithCornerColors _ _ | BezierTriangleWithCornerColors _ _
  | StraightPlanarQuadWithCornerColors _ _ | StraightTriangleWithCornerColors _ _ => False
  | Triangles g => opaque_colors g
  | BezierCurve _ => centerIndex o <> Some 0
  | _ => True
  end.

Section Objects.
Context {math : MeshMath}.

(** What the object kept was built for the material as [q] shows it. *)
Definition agrees (q : Request) (o : V3dObject) (st : ObjectState) : Prop :=
  forall mi, materialIndex o = Some mi ->
  match members o, st with
  | (BezierPatch _ | BezierTriangle _), SurfaceState st => bezier_like (is_transparent q mi) (sS st)
  | (StraightPlanarQuad _ | StraightTriangle _), FlatState st => flat_like (is_transparent q mi) st
  | _, _ => True
  end.

Lemma on_plain_inv st f st1 s1 :
  on_plain st f = Ret (st1, s1) ->
  exists a a1, st = PlainState a /\ st1 = PlainState a1 /\ f a = Ret (a1, s1).
Proof.
  destruct st as [a|a|a]; cbn; try done. intros E. apply obind_Ret in E as ([a1 s] & E & [= <- <-]).
  by exists a, a1.
Qed.

(** Inverts the run of a class down to the class's own function. *)
Ltac run_of E :=
  first [apply on_surface_inv in E as (? & ? & ? & ? & E) | apply on_flat_inv in E as (? & ? & ? & ? & E)
        | apply on_plain_inv in E as (? & ? & ? & ? & E) | idtac];
  repeat match type of E with obind _ _ = _ => apply obind_Ret in E as (? & ? & E) end.

(** A solid: its members are the same in both frames, then its pieces are queued. *)
Lemma solid_pair (run0 run : Scene -> outcome Scene) (st0 st st1 st' : ObjectState) s0 s0' s s' :
  (forall s0 s0' s s', run0 s0 = Ret s0' -> run s = Ret s' -> pair_step False s0 s0' s s') ->
  obind (run0 s0) (fun x => Ret (st0, x)) = Ret (st, s0') ->
  obind (run s) (fun x => Ret (st1, x)) = Ret (st', s') -> pair_step False s0 s0' s s'.
Proof.
  intros H E0 E. apply obind_Ret in E0 as (? & E0 & Er0). apply obind_Ret in E as (? & E & Er).
  apply Ret_snd in Er0 as <-. apply Ret_snd in Er as <-. by eapply H.
Qed.
Ltac solid E0 E :=
  repeat (let H := fresh in apply obind_Ret in E0 as (? & H & E0); rewrite H in E; clear H; cbn [obind] in E);
  eapply pair_weaken, solid_pair; [done| |exact E0|exact E].

Lemma object_agrees q o st s st' s' :
  mode_is q DRAWMODE_OUTLINE = false -> faithful o -> q_remesh q = true \/ agrees q o st ->
  object_QueueMesh q o st s = Ret (st', s') -> agrees q o st'.
Proof.
  unfold object_QueueMesh, faithful, agrees. intros Hm Ho Hc E mi Hmi. rewrite Hmi in E, Hc.
  assert (q_remesh q = true \/ _) as Hc' by (destruct Hc as [?|Hc]; [by left|right; exact (Hc mi eq_refl)]).
  clear Hc. cbn [determined obind] in E. destruct (members o); try done.
  1, 2: run_of E; subst; by apply surface_adds in E as [_ ?].
  1, 2: run_of E; subst; by apply flat_adds in E as [_ ?].
Qed.

Section Pairs.
Context (q0 q : Request).
Context (Hm0 : mode_is q0 DRAWMODE_OUTLINE = false) (Hm : mode_is q DRAWMODE_OUTLINE = false).
Context (HT : forall mi, is_transparent q0 mi = is_transparent q mi).

Lemma agrees_other o st : agrees q0 o st -> agrees q o st.
Proof. unfold agrees. intros H mi Hmi. specialize (H mi Hmi). by rewrite <- HT. Qed.

Lemma object_pair o st0 s0 st s0' s st' s' :
  faithful o -> q_remesh q0 = true \/ agrees q0 o st0 ->
  object_QueueMesh q0 o st0 s0 = Ret (st, s0') -> object_QueueMesh q o st s = Ret (st', s') ->
  pair_step (centerIndex o = Some 0) s0 s0' s s'.
Proof.
  intros Ho Hc E0 E. pose proof (object_agrees _ _ _ _ _ _ Hm0 Ho Hc E0) as Ha%agrees_other.
  revert E0 E. unfold object_QueueMesh, faithful, agrees in *.
  destruct (materialIndex o) as [mi|]; [|done]. cbn [determined obind].
  assert (q_remesh q0 = true \/ _) as Hc' by (destruct Hc as [?|Hc]; [by left|right; exact (Hc mi eq_refl)]).
  specialize (Ha mi eq_refl). clear Hc. specialize (HT mi) as HT'. intros E0 E.
  destruct (members o); try done.
  1, 2: run_of E0; run_of E; simplify_eq; apply surface_adds in E0 as [A0 _]; [|done..];
    apply surface_adds in E as [A _]; [|by (done || right)..]; cbv zeta in *; rewrite HT' in A0;
    eapply pair_weaken, adds_pair; [|exact A0|exact A|]; [done|by intros [_ ->]].
  1, 2: run_of E0; run_of E; simplify_eq; apply flat_adds in E0 as [A0 _]; [|done..];
    apply flat_adds in E as [A _]; [|by (done || right)..]; cbv zeta in *; rewrite HT' in A0;
    eapply pair_weaken, adds_pair; [|exact A0|exact A|]; [by intros [? _]|by intros [_ ->]].
  - run_of E0; run_of E; simplify_eq. match goal with g : TriangleGroup |- _ => destruct ((nI g =? 0) || (nP g =? 0)) eqn:Hn end.
    { unfold group_QueueMesh in E0, E. rewrite Hn in E0, E. simplify_eq.
      by eapply pair_weaken, pair_refl. }
    apply group_adds in E0 as A0; [|done..]. apply group_adds in E as A; [|done..].
    rewrite HT' in A0. eapply pair_weaken, adds_pair; [|exact A0|exact A|];
      [by intros [? _]|by intros [_ ->]].
  - solid E0 E. intros ????. apply (pieces_pair q0 q Hm0 Hm HT).
  - solid E0 E. intros ????. apply (pieces_pair q0 q Hm0 Hm HT).
  - solid E0 E. intros ????. intros A0%temporary_remakes A%temporary_remakes; [|done..].
    rewrite HT' in A0. by eapply remakes_pair.
  - solid E0 E. intros ????. apply (cylinder_pair q0 q Hm0 Hm HT).
  - solid E0 E. intros ????. apply (tube_pair q0 q Hm0 Hm HT).
  - run_of E0; run_of E; simplify_eq. apply curve_remakes in E0, E; [|by right..].
    by eapply pair_weaken, remakes_pair.
  - run_of E0; run_of E; simplify_eq. apply line_remakes in E0, E. by eapply pair_weaken, remakes_pair.
  - run_of E0; run_of E; simplify_eq. eapply pair_weaken, remakes_pair; [done|..];
      by eapply pixel_remakes.
Qed.
End Pairs.
End Objects.

(** ** Billboards *)

Lemma map_from_all {A} n (f : A -> A) l : n = length l -> map_from n f l = l.
Proof. intros ->. unfold map_from. by rewrite take_ge, drop_ge, app_nil_r by lia. Qed.

Lemma billboard_mark t k s s' : isMarked k s' -> isMarked k (billboard t s s').
Proof. unfold isMarked, billboard. by destruct k, s' as [[] [] [] [] []]. Qed.

Lemma content_lengths k s s' :
  content k s' = content k s ->
  length (materialVertices (slot k s)) = length (materialVertices (slot k s')) /\
  length (colorVertices (slot k s)) = length (colorVertices (slot k s')).
Proof.
  unfold content. destruct (slot k s), (slot k s'). intros E. injection E as -> -> -> ->. done.
Qed.

(** A billboard that has added nothing turns nothing. *)
Lemma billboard_stays t k s s' : stays k s s' -> stays k s (billboard t s s').
Proof.
  intros [E M]. split; [|intros H; by apply billboard_mark, M].
  destruct (content_lengths _ _ _ E) as [Hm Hc]. rewrite <- E. unfold content, billboard.
  destruct k; cbn [slot materialData colorData transparentData lineData pointData] in *; try done;
    f_equal; revert Hm Hc;
    [destruct (materialData s')|destruct (colorData s')|destruct (lineData s')];
    cbn; intros Hm Hc; by rewrite map_from_all by done.
Qed.

Lemma billboard_pair t0 t s0 s0' s s' :
  pair_step False s0 s0' s s' ->
  pair_step False s0 (billboard t0 s0 s0') s (billboard t s s').
Proof.
  intros [L P]. split.
  - destruct L as [?|L]; [left; by apply billboard_mark|right; by apply billboard_stays].
  - intros k Hk. destruct (P k Hk) as [?|[[A B]|[[] _]]]; [left; by apply billboard_mark|].
    right; left. split; by apply billboard_stays.
Qed.

Lemma center_of_zero centers o c : center_of centers o = Ret (Some c) -> centerIndex o <> Some 0.
Proof. unfold center_of. intros E H. rewrite H in E. done. Qed.

(** ** Files *)

Section Files.
Context {math : MeshMath}.

Lemma queue_object_agrees q cs o st s st' s' :
  mode_is q DRAWMODE_OUTLINE = false -> faithful o -> q_remesh q = true \/ agrees q o st ->
  queue_object q cs o st s = Ret (st', s') -> agrees q o st'.
Proof.
  unfold queue_object. intros Hm Ho Hc E. apply obind_Ret in E as ([st1 s1] & E1 & E).
  apply obind_Ret in E as (c & _ & E). apply object_agrees in E1; [|done..].
  by destruct c; apply Ret_inj_pair in E as [<- _].
Qed.

Section Pairs.
Context (q0 q : Request).
Context (Hm0 : mode_is q0 DRAWMODE_OUTLINE = false) (Hm : mode_is q DRAWMODE_OUTLINE = false).
Context (HT : forall mi, is_transparent q0 mi = is_transparent q mi).

Lemma queue_object_synced cs o st0 s0 st s0' s st' s' :
  faithful o -> q_remesh q0 = true \/ agrees q0 o st0 ->
  queue_object q0 cs o st0 s0 = Ret (st, s0') -> queue_object q cs o st s = Ret (st', s') ->
  synced s0 s -> synced s0' s'.
Proof.
  unfold queue_object. intros Ho Hc E0 E.
  apply obind_Ret in E0 as ([a0 b0] & A0 & E0). apply obind_Ret in E as ([a b] & A & E).
  destruct (center_of cs o) as [c| |] eqn:Hcen; [|done..]. cbn [obind] in E0, E.
  assert (a0 = st) as -> by (destruct c; by apply Ret_inj_pair in E0 as [-> _]).
  pose proof (object_pair q0 q Hm0 Hm HT _ _ _ _ _ _ _ _ Ho Hc A0 A) as P.
  destruct c as [c|]; apply Ret_snd in E0 as <-; apply Ret_snd in E as <-; [|by eapply pair_synced].
  apply center_of_zero in Hcen. eapply pair_synced, billboard_pair, pair_weaken; [|exact P]. done.
Qed.

Lemma queue_objects_synced cs os : forall os1 os0' os' s0 s0' s s',
  Forall (fun x => faithful x.1 /\ (q_remesh q0 = true \/ agrees q0 x.1 x.2)) os ->
  queue_objects q0 cs os s0 = Ret (os0', s0') -> os1 = os0' ->
  queue_objects q cs os1 s = Ret (os', s') -> synced s0 s -> synced s0' s'.
Proof.
  induction os as [|[o st0] os IH]; intros os1 os0' os' s0 s0' s s' Hf; cbn [queue_objects].
  { intros E0 ->. apply Ret_inj_pair in E0 as [<- <-]. cbn [queue_objects]. by intros [= _ <-]. }
  inversion Hf as [|? ? [Ho Hc] Hos]; subst. cbn [fst snd] in *.
  intros E0 ->. apply obind_Ret in E0 as ([st s1] & A0 & E0). apply obind_Ret in E0 as ([osr s2] & B0 & E0).
  apply Ret_inj_pair in E0 as [<- <-]. cbn [queue_objects].
  intros E. apply obind_Ret in E as ([st' s3] & A & E). apply obind_Ret in E as ([? s4] & B & E).
  apply Ret_snd in E as <-. intros S. eapply (IH osr); [done|exact B0|done|exact B|].
  by eapply queue_object_synced.
Qed.
End Pairs.
End Files.
