(* ===== verification/Shown.v ===== *)
(** * Every frame draws what is queued

    [frame] is the drawing part of [V3dModelManager::RenderModel]: the buffers are
    cleared, the file is queued and, if there is anything, the renderer uploads and
    draws.  [shows] is any history of frames of one model: other models and failed
    frames may come between.  For a file of [faithful] objects, every frame of
    every history draws exactly what is queued; the last two theorems show that
    objects left out do go wrong. *)

From S2P Require Import Prelude Ieee Xstream Bound V3dData V3dLoad LoadSafety Model Mesh Tess TessProps.
From S2P Require Import LoadShape Objects Solids QueueMesh QueueSafety Frames QueueProps Appends Upload.
From S2P Require Import Marks Sync.
Import Stdio.

(** ** Frames *)

Section Frame.
Context {math : MeshMath}.

(** [remesh] is consumed before the renderer is called, except in outline mode. *)
Definition frame (interlock : bool) (q : Request) (f : V3dFile) (sts : list ObjectState) (s : Scene)
    (g : DeviceBuffers) : outcome (list ObjectState * option Drawn * Scene * DeviceBuffers) :=
  '(sts, s) <~ file_QueueMesh q f sts (clearData s);;
  if renderable s then
    '(d, s, g) <~ draw_buffers interlock (q_remesh q && mode_is q DRAWMODE_OUTLINE) s g;;
    Ret (sts, Some d, s, g)
  else Ret (sts, None, s, g).

(** A history of frames of the file [f]: whether the next frame must have
    [remesh], the draw mode of the last one, what the objects keep, the shared
    buffers and those of the device, which the renderer may have destroyed. *)
Inductive shows (f : V3dFile) : bool -> DrawMode -> list ObjectState -> Scene -> DeviceBuffers -> Prop :=
  | shown_new m s g : shows f true m (new_states f) s g
  | shown_away b m sts s g s' g' : shows f b m sts s g -> shows f true m sts s' g'
  | shown_dropped b m sts s g : shows f b m sts s g -> shows f b m sts s noBuffers
  | shown_frame b m sts0 s0 g0 interlock q sts d s g :
      shows f b m sts0 s0 g0 -> q_remesh q = true \/ (b = false /\ q_mode q = m) ->
      frame interlock q f sts0 s0 g0 = Ret (sts, d, s, g) -> small s ->
      shows f (mode_is q DRAWMODE_OUTLINE) (q_mode q) sts s g
  | shown_failed b m sts0 s0 g0 q sts s s' :
      shows f b m sts0 s0 g0 -> q_remesh q = true \/ (b = false /\ q_mode q = m) ->
      file_QueueMesh q f sts0 (clearData s0) = Ret (sts, s) -> small s ->
      (forall k, content k s' = content k s) ->
      shows f (mode_is q DRAWMODE_OUTLINE) (q_mode q) sts s' noBuffers.

(** ** Queueing a file in two frames *)

(** The request as [file_QueueMesh] completes it. *)
Definition filed (q : Request) (f : V3dFile) : Request :=
  mkRequest (imageWidth q) (imageHeight q) (sceneMinBound q) (sceneMaxBound q) (q_remesh q)
    (q_orthographic q) (q_mode q) (q_view q) (materials f)
    (pixels_per_bp (imageWidth q) (headerInfo f)) (q_fuel q).

Definition file_agrees (m : DrawMode) (f : V3dFile) (sts : list ObjectState) : Prop :=
  forall q, q_mode q = m -> Forall (fun x => agrees (filed q f) x.1 x.2) (zip (objects f) sts).

Lemma filed_transparent q0 q f mi :
  q_mode q0 = q_mode q -> is_transparent (filed q0 f) mi = is_transparent (filed q f) mi.
Proof.
  intros H. unfold is_transparent, material_transparent, mode_is. cbn [filed q_mode q_materials].
  by rewrite H.
Qed.

Lemma filed_mode q f m : mode_is (filed q f) m = mode_is q m.
Proof. done. Qed.

Lemma queue_objects_fst q cs os s os' s' :
  queue_objects q cs os s = Ret (os', s') -> map fst os' = map fst os.
Proof.
  revert s os' s'. induction os as [|[o st] os IH]; intros s os' s'; cbn [queue_objects].
  { by intros [= <- _]. }
  intros E. apply obind_Ret in E as ([? ?] & _ & E). apply obind_Ret in E as ([os1 ?] & E%IH & Er).
  apply Ret_inj_pair in Er as [<- _]. cbn. by rewrite E.
Qed.

Lemma queue_objects_agree q cs os s os' s' :
  mode_is q DRAWMODE_OUTLINE = false ->
  Forall (fun x => faithful x.1 /\ (q_remesh q = true \/ agrees q x.1 x.2)) os ->
  queue_objects q cs os s = Ret (os', s') -> Forall (fun x => agrees q x.1 x.2) os'.
Proof.
  intros Hm Hf. revert s os' s'. induction Hf as [|[o st] os [Ho Hc] Hf IH]; intros s os' s'; cbn [queue_objects].
  { intros [= <- _]. constructor. }
  intros E. apply obind_Ret in E as ([? ?] & E1%queue_object_agrees & E); [|done..].
  apply obind_Ret in E as ([os1 ?] & E%IH & Er).
  apply Ret_inj_pair in Er as [<- _]. by constructor.
Qed.

Lemma zip_split {A B} (l : list (A * B)) : zip (map fst l) (map snd l) = l.
Proof. induction l as [|[a b] l IH]; cbn; [done|]. by f_equal. Qed.

(** The run over the objects behind a run over a file. *)
Lemma file_objects q f sts s sts' s' :
  length sts = length (objects f) -> file_QueueMesh q f sts s = Ret (sts', s') ->
  queue_objects (filed q f) (centers f) (zip (objects f) sts) s = Ret (zip (objects f) sts', s').
Proof.
  unfold file_QueueMesh. intros Hl E. apply obind_Ret in E as ([os s1] & E & Er).
  apply Ret_inj_pair in Er as [<- <-]. apply queue_objects_fst in E as Hf.
  assert (map fst (zip (objects f) sts) = objects f) as Hz by (apply fst_zip; lia).
  rewrite Hz in Hf. rewrite <- Hf at 2. by rewrite zip_split.
Qed.

Section Two.
Context (f : V3dFile) (Hf : Forall faithful (objects f)).

Lemma faithful_states (P : V3dObject * ObjectState -> Prop) sts :
  (forall x, x ∈ zip (objects f) sts -> P x) ->
  Forall (fun x => faithful x.1 /\ P x) (zip (objects f) sts).
Proof.
  intros HP. apply list.Forall_forall. intros [o st] Hx. split; [|by apply HP].
  apply elem_of_zip_l in Hx. by eapply list.Forall_forall in Hf.
Qed.

Lemma remesh_or_agrees q sts :
  q_remesh q = true \/ file_agrees (q_mode q) f sts ->
  Forall (fun x => faithful x.1 /\ (q_remesh (filed q f) = true \/ agrees (filed q f) x.1 x.2))
    (zip (objects f) sts).
Proof.
  intros H. apply (faithful_states (fun x => _ \/ agrees (filed q f) x.1 x.2)). intros x Hx.
  destruct H as [H|H]; [by left|right]. specialize (H q eq_refl).
  by eapply list.Forall_forall in H.
Qed.

Lemma file_QueueMesh_agrees q sts s sts' s' :
  q_mode q <> DRAWMODE_OUTLINE -> length sts = length (objects f) ->
  q_remesh q = true \/ file_agrees (q_mode q) f sts ->
  file_QueueMesh q f sts s = Ret (sts', s') -> file_agrees (q_mode q) f sts'.
Proof.
  intros Hm Hl Hc E%file_objects; [|done]. intros q' Hq.
  apply queue_objects_agree in E; [|by apply bool_decide_eq_false|by apply remesh_or_agrees].
  eapply Forall_impl; [exact E|]. intros x Ha. eapply agrees_other; [|exact Ha].
  intros mi. by apply filed_transparent.
Qed.

Lemma file_QueueMesh_synced q0 q sts0 s0 sts s0' s sts' s' :
  q_mode q0 = q_mode q -> q_mode q <> DRAWMODE_OUTLINE ->
  length sts0 = length (objects f) -> length sts = length (objects f) ->
  q_remesh q0 = true \/ file_agrees (q_mode q0) f sts0 ->
  file_QueueMesh q0 f sts0 (clearData s0) = Ret (sts, s0') ->
  file_QueueMesh q f sts (clearData s) = Ret (sts', s') -> synced s0' s'.
Proof.
  intros Hq Hm Hl0 Hl Hc E0%file_objects E%file_objects; [|done..].
  eapply (queue_objects_synced (filed q0 f) (filed q f)); [| | |by apply remesh_or_agrees|exact E0|reflexivity|exact E|].
  - apply bool_decide_eq_false. cbn [filed q_mode]. congruence.
  - by apply bool_decide_eq_false.
  - intros mi. by apply filed_transparent.
  - apply cleared_synced.
Qed.
End Two.
End Frame.

(** ** What the device holds between frames *)

(** The data of a buffer, or nothing at all. *)
Definition on_device {V} (vs : list V) (b : VertexBuffer) (p : DevicePair V) : Prop :=
  indices b <> [] -> holds vs (indices b) p \/ vertexBuffer p = None.

Definition device_has (s : Scene) (g : DeviceBuffers) : Prop :=
  on_device (pointVertices (pointData s)) (pointData s) (onPoint g) /\
  on_device (materialVertices (materialData s)) (materialData s) (onMaterial g) /\
  on_device (colorVertices (colorData s)) (colorData s) (onColor g) /\
  on_device (materialVertices (lineData s)) (lineData s) (onLine g) /\
  on_device (colorVertices (transparentData s)) (transparentData s) (onTransparent g).

Lemma in_sync_has s g : in_sync s g -> device_has s g.
Proof. intros (?&?&?&?&?). split_and!; intros Hi; left; auto. Qed.
Lemma empty_has s g : renderable s = false -> device_has s g.
Proof.
  unfold renderable. cbn [existsb]. rewrite !orb_false_iff, !negb_false_iff, !Nat.eqb_eq, !length_zero_iff_nil.
  intros (?&?&?&?&?&_). by split_and!; intros Hi; destruct Hi.
Qed.
Lemma noBuffers_has s : device_has s noBuffers.
Proof. by split_and!; intros Hi; right. Qed.

Lemma content_eq k s s' :
  content k s' = content k s ->
  materialVertices (slot k s') = materialVertices (slot k s) /\
  colorVertices (slot k s') = colorVertices (slot k s) /\
  pointVertices (slot k s') = pointVertices (slot k s) /\
  indices (slot k s') = indices (slot k s).
Proof.
  unfold content. destruct (slot k s), (slot k s'). intros E. injection E as -> -> -> ->. done.
Qed.

(** A buffer of the next scene is marked, or the one that is on the device. *)
Lemma ready_again {V} (vs vs' : list V) b b' r (p : DevicePair V) :
  renderCount b' = 0 \/ (vs' = vs /\ indices b' = indices b) ->
  on_device vs b p -> indices b' <> [] -> ready vs' b' r p.
Proof.
  unfold on_device. intros [H|[-> Hi]] Hd Hne; [by right; left|]. unfold ready. rewrite Hi in *.
  right; right. exact (Hd Hne).
Qed.

Lemma synced_ready r s0 s g : synced s0 s -> device_has s0 g -> frame_ready r s g.
Proof.
  intros [Hl H] (Dp & Dm & Dc & _ & Dt). split_and!.
  - eapply ready_again; [|exact Dp]. destruct (H KPoint) as [?|E]; [done|by left|right].
    by apply content_eq in E as (_ & _ & ? & ?).
  - eapply ready_again; [|exact Dm]. destruct (H KMaterial) as [?|E]; [done|by left|right].
    by apply content_eq in E as (? & _ & _ & ?).
  - eapply ready_again; [|exact Dc]. destruct (H KColor) as [?|E]; [done|by left|right].
    by apply content_eq in E as (_ & ? & _ & ?).
  - intros Hi. destruct Hl as [Hl|Hl]; [by right; left|done].
  - eapply ready_again; [|exact Dt]. destruct (H KTransparent) as [?|E]; [done|by left|right].
    by apply content_eq in E as (_ & ? & _ & ?).
Qed.

Lemma content_has s s' g : (forall k, content k s' = content k s) -> device_has s g -> device_has s' g.
Proof.
  intros H (Dp & Dm & Dc & Dl & Dt). unfold device_has, on_device in *.
  pose proof (content_eq _ _ _ (H KPoint)) as Ep. pose proof (content_eq _ _ _ (H KMaterial)) as Em.
  pose proof (content_eq _ _ _ (H KColor)) as Ec. pose proof (content_eq _ _ _ (H KLine)) as El.
  pose proof (content_eq _ _ _ (H KTransparent)) as Et. cbn [slot] in *.
  destruct Ep as (_ & _ & -> & ->), Em as (-> & _ & _ & ->), Ec as (_ & -> & _ & ->),
    El as (-> & _ & _ & ->), Et as (_ & -> & _ & ->). by split_and!.
Qed.

Lemma content_count_up b : notRendered (count_up b) = notRendered b.
Proof. by destruct b. Qed.
Lemma counted_content k s : content k (counted s) = content k s.
Proof.
  unfold content, counted. destruct k, (setOpaque s); cbn [slot materialData colorData transparentData
    lineData pointData]; done || apply content_count_up.
Qed.

Lemma frame_ready_weaken r s g : frame_ready false s g -> frame_ready r s g.
Proof.
  intros (H1 & H2 & H3 & H4 & H5).
  split_and!; intros Hi; right; [destruct (H1 Hi)|destruct (H2 Hi)|destruct (H3 Hi)|destruct (H4 Hi)|
    destruct (H5 Hi)]; done.
Qed.

Lemma sizes_counted s : sizes (counted s) = sizes s.
Proof.
  unfold counted. destruct (setOpaque s); destruct s as [[] [] [] [] []]; reflexivity.
Qed.

Lemma draw_buffers_counted interlock r s g d s' g' :
  draw_buffers interlock r s g = Ret (d, s', g') -> s' = counted s.
Proof.
  unfold draw_buffers. intros E. do 5 apply obind_Ret in E as ([? ?] & _ & E). by injection E as _ <- _.
Qed.

(** ** The invariant of a history *)

Section History.
Context {math : MeshMath} (f : V3dFile).
Context (Hsized : file_sized f) (Hf : Forall faithful (objects f)).

(** The frame before, if the next one need not have [remesh]. *)
Definition last_frame (m : DrawMode) (sts : list ObjectState) (s : Scene) : Prop :=
  exists q0 sts0 s0 sq,
    q_mode q0 = m /\ length sts0 = length (objects f) /\
    (q_remesh q0 = true \/ file_agrees (q_mode q0) f sts0) /\
    file_QueueMesh q0 f sts0 (clearData s0) = Ret (sts, sq) /\
    (forall k, content k s = content k sq).

Definition history (b : bool) (m : DrawMode) (sts : list ObjectState) (s : Scene) (g : DeviceBuffers) : Prop :=
  file_ok f sts /\
  (b = false -> m <> DRAWMODE_OUTLINE /\ file_agrees m f sts /\ device_has s g /\ last_frame m sts s).

Lemma faithful_uploads : Forall uploads_itself (objects f).
Proof.
  eapply Forall_impl; [exact Hf|]. intros o. unfold faithful, uploads_itself.
  by destruct (members o).
Qed.

(** A frame that may follow: its scene is sound, and what it draws is uploaded. *)
Lemma next_ready b m sts0 s0 g0 q sts s :
  history b m sts0 s0 g0 -> q_remesh q = true \/ (b = false /\ q_mode q = m) ->
  file_QueueMesh q f sts0 (clearData s0) = Ret (sts, s) -> small s ->
  file_ok f sts /\ scene_ok s /\ forall r, frame_ready r s g0.
Proof.
  intros [Hok H] Hq E Hs. destruct (file_QueueMesh_safe _ _ _ _ _ Hsized (proj1 Hok) E) as [[_ K] Hk].
  split; [by apply Hk|]. split; [apply K; [done|done|apply clearData_ok]|]. intros r.
  destruct (q_remesh q) eqn:Hr.
  - apply frame_ready_weaken, (marked_ready s0). eapply file_marks; [done|apply faithful_uploads|exact E].
  - destruct Hq as [?|[Hb Hm]]; [done|]. subst m.
    destruct (H Hb) as (Ho & _ & Hd & q0 & st & s1 & sq & Hq & Hl & Hc & E0 & Hsq).
    eapply (synced_ready r sq); [|eapply content_has; [|exact Hd]; intros k; by rewrite Hsq].
    eapply (file_QueueMesh_synced f Hf q0 q); [exact Hq|exact Ho|exact Hl|exact (proj1 Hok)|exact Hc|exact E0|exact E].
Qed.

(** What a frame leaves for the next. *)
Lemma next_history b m sts0 s0 g0 q sts s s' g :
  history b m sts0 s0 g0 -> q_remesh q = true \/ (b = false /\ q_mode q = m) ->
  file_QueueMesh q f sts0 (clearData s0) = Ret (sts, s) -> small s ->
  (forall k, content k s' = content k s) -> device_has s' g ->
  history (mode_is q DRAWMODE_OUTLINE) (q_mode q) sts s' g.
Proof.
  intros H Hq E Hs Hc Hd. split; [by eapply next_ready|].
  intros Ho. apply bool_decide_eq_false in Ho. split; [done|]. destruct H as [Hok H].
  assert (q_remesh q = true \/ file_agrees (q_mode q) f sts0) as Ha.
  { destruct Hq as [?|[Hb <-]]; [by left|right]. by apply H. }
  split; [by eapply (file_QueueMesh_agrees f Hf); [| |exact Ha|exact E]; [|apply Hok]|].
  split; [done|]. exists q, sts0, s0, s. split_and!; [done|apply Hok|done..].
Qed.

Lemma frame_spec interlock q sts0 s0 g0 sts s :
  file_QueueMesh q f sts0 (clearData s0) = Ret (sts, s) -> scene_ok s ->
  (forall r, frame_ready r s g0) ->
  exists s' g, frame interlock q f sts0 s0 g0 =
      Ret (sts, if renderable s then Some (expand_scene s) else None, s', g) /\
    (forall k, content k s' = content k s) /\ sizes s' = sizes s /\ device_has s' g.
Proof.
  intros E Hok Hr. unfold frame. rewrite E. cbn [obind]. destruct (renderable s) eqn:Hren.
  - set (r := q_remesh q && _). destruct (draw_buffers_ready interlock r s g0 Hok (Hr r)) as (g & -> & Hg). cbn [obind].
    eexists _, g. split; [reflexivity|]. split; [intros k; apply counted_content|].
    split; [apply sizes_counted|]. eapply content_has; [intros k; apply counted_content|].
    by apply in_sync_has.
  - exists s, g0. split_and!; [done..|by apply empty_has].
Qed.

Lemma shows_history b m sts s g : shows f b m sts s g -> history b m sts s g.
Proof.
  induction 1 as [m s g|b m sts s g s' g' _ [Hok _]|b m sts s g _ [Hok H]|b m sts0 s0 g0 il q sts d s g _ IH Hq E Hs
                 |b m sts0 s0 g0 q sts s s' _ IH Hq E Hs Hc].
  - split; [apply new_file_ok|done].
  - by split.
  - split; [done|]. intros Hb. destruct (H Hb) as (Ho & Ha & _ & Hl). split_and!; [done|done|apply noBuffers_has|done].
  - pose proof E as E'. unfold frame in E. apply obind_Ret in E as ([sts1 s1] & E1 & E).
    assert (small s1) as Hs1.
    { unfold small in *. replace (sizes s1) with (sizes s); [done|]. destruct (renderable s1).
      - apply obind_Ret in E as ([[d1 s2] g1] & ->%draw_buffers_counted & [= _ _ <- _]).
        apply sizes_counted.
      - by injection E as _ _ <- _. }
    pose proof (next_ready _ _ _ _ _ _ _ _ IH Hq E1 Hs1) as (_ & Hok & Hr).
    destruct (frame_spec il q sts0 s0 g0 sts1 s1 E1 Hok Hr) as (s2 & g2 & E2 & Hc & _ & Hd).
    rewrite E2 in E'. injection E' as <- _ <- <-. by eapply next_history.
  - eapply next_history; [exact IH|exact Hq|exact E|done|exact Hc|apply noBuffers_has].
Qed.
End History.

(** C5: Every frame draws what is queued: for a file loaded from any bytes whose
    objects are [faithful], after any history of frames (of this model and of
    others, failed ones included), a frame that is queued is drawn: the draw calls
    are defined and read, index by index, the queued vertices, or there is nothing
    to draw.  [remesh] is needed only where the manager sets it: in the first frame,
    after another model, after outline mode and when the draw mode changes. *)
Theorem every_frame_draws_queue {math : MeshMath} data f x b m sts0 s0 g0 q sts s interlock :
  load_file (Some (mkFILE data 0 None)) = Ret (f, x) -> Forall faithful (objects f) ->
  shows f b m sts0 s0 g0 -> q_remesh q = true \/ (b = false /\ q_mode q = m) ->
  file_QueueMesh q f sts0 (clearData s0) = Ret (sts, s) -> small s ->
  exists s' g, frame interlock q f sts0 s0 g0 =
    Ret (sts, if renderable s then Some (expand_scene s) else None, s', g).
Proof.
  intros Hz%load_file_sized Hf H%(shows_history f Hz Hf) Hq E Hs.
  pose proof (next_ready f Hz Hf _ _ _ _ _ _ _ _ H Hq E Hs) as (_ & Hok & Hr).
  destruct (frame_spec f interlock q sts0 s0 g0 sts s E Hok Hr) as (s' & g & Ef & _). eauto.
Qed.

(** ** Two frames of a triangle, seen from the front and from behind *)

Definition first_material : list Byte.byte :=
  word 2 ++ word 0 ++ word ObjectTypes.MATERIAL ++ concat (replicate 16 (word 0x3F800000)).
Definition point3 (x y : Z) : list Byte.byte := word x ++ word y ++ word 0.
Definition half32 : Z := 0x3F000000.

Definition file_of (bytes : list Byte.byte) : V3dFile :=
  match load_file (Some (mkFILE bytes 0 None)) with Ret (f, _) => f | _ => emptyFile end.

Definition with_view (remesh : bool) (v : View) : Request :=
  let r := sample_request remesh in
  mkRequest (imageWidth r) (imageHeight r) (sceneMinBound r) (sceneMaxBound r) remesh true DRAWMODE_NORMAL
    v [] d1 10.
Definition request_1 : Request := with_view true unit_view.

(** The triangle, and a line. *)
Definition triangle_scene : list Byte.byte :=
  first_material ++
  word ObjectTypes.TRIANGLE ++ point3 0 0 ++ point3 half32 0 ++ point3 0 half32 ++ word 0 ++ word 0 ++
  word ObjectTypes.LINE ++ point3 0 0 ++ point3 half32 half32 ++ word 0 ++ word 0.

(** Two frames, the second without [remesh]; then what the second has drawn, and
    its scene. *)
Definition two_frames (f : V3dFile) (v : View) :
    outcome (list ObjectState * Scene * DeviceBuffers * option Drawn * Scene) :=
  '(sts, _, s, g) <~ frame (math := plain_math) false request_1 f (new_states f) emptyScene noBuffers;;
  '(_, d, s', _) <~ frame (math := plain_math) false (with_view false v) f sts s g;;
  Ret (sts, s, g, d, s').

Lemma no_groups_faithful os :
  forallb (fun o => match members o with
    | StraightTriangle _ | StraightPlanarQuad _ | LineSegment _ => true | _ => false end) os = true ->
  Forall faithful os.
Proof.
  induction os as [|o os IH]; cbn [forallb]; [by constructor|]. intros [Ho H]%andb_prop.
  constructor; [|by apply IH]. unfold faithful. by destruct (members o).
Qed.

Definition second_frame_check : bool :=
  match frame (math := plain_math) false request_1 (file_of triangle_scene)
          (new_states (file_of triangle_scene)) emptyScene noBuffers with
  | Ret (sts, _, s, g) => small_dec s &&
      match file_QueueMesh (math := plain_math) (with_view false turned_view) (file_of triangle_scene) sts
              (clearData s) with
      | Ret (_, s') => small_dec s' && renderable s' && Nat.eqb (length (indices (materialData s'))) 3
                       && Nat.eqb (length (indices (lineData s'))) 2
      | _ => false
      end
  | _ => false
  end.

Lemma every_frame_draws_queue_witness :
  exists x sts s g sts' s' s'' g',
    load_file (Some (mkFILE triangle_scene 0 None)) = Ret (file_of triangle_scene, x) /\
    shows (math := plain_math) (file_of triangle_scene) false DRAWMODE_NORMAL sts s g /\
    length (indices (materialData s')) = 3%nat /\
    frame (math := plain_math) false (with_view false turned_view) (file_of triangle_scene) sts s g =
      Ret (sts', Some (expand_scene s'), s'', g').
Proof.
  assert (exists x, load_file (Some (mkFILE triangle_scene 0 None)) = Ret (file_of triangle_scene, x))
    as [x E] by (vm_compute; eexists; reflexivity).
  assert (Forall faithful (objects (file_of triangle_scene))) as Hf
    by (apply no_groups_faithful; vm_compute; reflexivity).
  assert (second_frame_check = true) as H by (vm_compute; reflexivity).
  unfold second_frame_check in H.
  destruct (frame _ _ _ _ emptyScene _) as [[[[sts d] s] g]| |] eqn:E1; [|discriminate..].
  apply andb_prop in H as [H1 H].
  destruct (file_QueueMesh _ _ _ _) as [[sts' s']| |] eqn:E2; [|discriminate..].
  apply andb_prop in H as [[[H2 H3]%andb_prop H4]%andb_prop _].
  assert (shows (math := plain_math) (file_of triangle_scene) false DRAWMODE_NORMAL sts s g) as Hs.
  { eapply (shown_frame (math := plain_math) (file_of triangle_scene) true DRAWMODE_NORMAL _ _ _ false request_1);
      [apply shown_new|by left|exact E1|by apply small_dec_ok]. }
  destruct (every_frame_draws_queue (math := plain_math) triangle_scene (file_of triangle_scene) x false
    DRAWMODE_NORMAL sts s g (with_view false turned_view) sts' s' false E Hf Hs
    (or_intror (conj eq_refl eq_refl)) E2 (small_dec_ok _ H2)) as (s'' & g' & Ef).
  rewrite H3 in Ef. exists x, sts, s, g, sts', s', s'', g'.
  split; [exact E|]. split; [exact Hs|]. split; [by apply Nat.eqb_eq|exact Ef].
Defined.

(** ** The classes left out *)

(** A draw of more indices than the device holds, from a buffer that is not marked. *)
Section TooManyIndices.
Context {V : Type}.

Lemma fetch_ends {A} (l : list (option A)) i : fetch l i <> NoFuel.
Proof. unfold fetch. by destruct (l !! _) as [[]|]. Qed.

Lemma omapM_undef {A B} (f : A -> outcome B) l x :
  (forall y, f y <> NoFuel) -> x ∈ l -> f x = Undef -> omapM f l = Undef.
Proof.
  intros Hn Hx Hf. induction l as [|y l IH]; [by apply not_elem_of_nil in Hx|].
  cbn [omapM]. destruct (f y) eqn:E; cbn; [|done|by destruct (Hn y)].
  apply elem_of_cons in Hx as [->|Hx]; [congruence|]. by rewrite IH.
Qed.

Lemma unmarked_overrun (vs : list V) b early copied p ix :
  vertexBuffer p <> None -> indexBuffer p = Some ix -> maxFramesInFlight <= wrapw 32 (renderCount b) ->
  (length ix < length (indices b))%nat -> draw_data vs b false early copied p = Undef.
Proof.
  intros Hv Hi Hm Hl.
  assert (forall c, uploadBuffer vs b false c p = p) as Hu.
  { intros c. unfold uploadBuffer. apply Z.ltb_ge in Hm. rewrite Hm.
    destruct (vertexBuffer p); [|done]. by rewrite andb_false_r. }
  assert (draw_indexed (length (indices b)) p = Undef) as Hd.
  { unfold draw_indexed. destruct (vertexBuffer p) as [v|]; [|done]. cbn. rewrite Hi. cbn.
    apply (omapM_undef _ _ (length ix)).
    - intros k H. destruct (fetch ix (Z.of_nat k)) eqn:E; cbn in H; [|done|by apply fetch_ends in E].
      by apply fetch_ends in H.
    - apply elem_of_seq. lia.
    - unfold fetch at 1. by rewrite Nat2Z.id, lookup_ge_None_2 by lia. }
  unfold draw_data. destruct (indices b); [by apply Nat.nlt_0_r in Hl|].
  destruct early; by rewrite !Hu, Hd.
Qed.
End TooManyIndices.

(** A flat Bezier triangle that is a billboard. *)
Definition billboard_scene : list Byte.byte :=
  let c := [0; 0x3E2AAAAB; 0x3EAAAAAB; half32] in
  let p i j := point3 (nth (Z.to_nat i) c 0) (nth (Z.to_nat j) c 0) in
  first_material ++
  word ObjectTypes.CENTERS ++ word 1 ++ point3 0 0 ++
  word ObjectTypes.BEZIER_TRIANGLE ++
  p 0 0 ++ p 1 0 ++ p 0 1 ++ p 2 0 ++ p 1 1 ++ p 0 2 ++ p 3 0 ++ p 2 1 ++ p 1 2 ++ p 0 3 ++
  word 1 ++ word 0.

(** Two triangles with opaque corner colours, at the right and at the left. *)
Definition right_triangle : list (Z * Z) := [(0x3F400000, 0); (0x3F600000, 0); (0x3F400000, half32)].
Definition left_triangle : list (Z * Z) := [(0xBF600000, 0); (0xBF000000, 0); (0xBF600000, half32)].
Definition corner_scene : list Byte.byte :=
  let one := 0x3F800000 in
  let color := word one ++ word one ++ word one ++ word one in
  let triangle t := word ObjectTypes.TRIANGLE_COLOR ++ concat (map (fun p => point3 p.1 p.2) t) ++
                      word 0 ++ word 0 ++ color ++ color ++ color in
  first_material ++ triangle right_triangle ++ triangle left_triangle.
Definition points_of (t : list (Z * Z)) : list vec3 :=
  map (fun p => mkVec3 (f32_of_bits p.1) (f32_of_bits p.2) f0) t.

(** The camera after a shift to the right, and after half a turn about the vertical
    axis. *)
Definition shifted_view : View :=
  mkView [d1; d0; d0; d0; d0; d1; d0; d0; d0; d0; d1; d0; dhalf; d0; d0; d1] (normalMat unit_view).
Definition rotated_view : View :=
  mkView [dm1; d0; d0; d0; d0; d1; d0; d0; d0; d0; dm1; d0; d0; d0; d0; d1]
    [dm1; d0; d0; d0; d1; d0; d0; d0; dm1].

Definition material_positions (l : list MaterialVertex) : list vec3 := map mv_position l.
Definition color_positions (l : list ColorVertex) : list vec3 := map cv_position l.

(** The first frame of a file: what the objects keep, what is drawn, and what is left in
    the shared buffers and on the device; and the second frame of another view, without
    [remesh]: what is queued, and the frame as a whole. *)
Definition first_frame (f : V3dFile) : outcome (list ObjectState * option Drawn * Scene * DeviceBuffers) :=
  frame (math := plain_math) false request_1 f (new_states f) emptyScene noBuffers.
Definition second_queue (f : V3dFile) (v : View) (sts : list ObjectState) (s : Scene) :
    outcome (list ObjectState * Scene) :=
  file_QueueMesh (math := plain_math) (with_view false v) f sts (clearData s).
Definition second_frame (f : V3dFile) (v : View) (sts : list ObjectState) (s : Scene) (g : DeviceBuffers) :=
  frame (math := plain_math) false (with_view false v) f sts s g.

Lemma rotation_frames :
  match first_frame sample_scene_file with
  | Ret (sts, Some d, s, g) =>
      length (drawnMaterials d) = 3%nat /\
      match indexBuffer (onMaterial g) with Some ix => length ix = 4%nat | None => False end /\
      match second_queue sample_scene_file rotated_view sts s with
      | Ret (_, s') => length (indices (materialData s')) = 35%nat
      | _ => False
      end /\
      second_frame sample_scene_file rotated_view sts s g = Undef
  | _ => False
  end.
Proof. vm_compute. split_and!; reflexivity. Qed.

Definition two_pictures (f : V3dFile) (v : View) (P : Drawn -> Scene -> Drawn -> Prop) : Prop :=
  exists sts d s g sts' s' sts'' d' s'' g',
    first_frame f = Ret (sts, Some d, s, g) /\ second_queue f v sts s = Ret (sts', s') /\
    second_frame f v sts s g = Ret (sts'', Some d', s'', g') /\ P d s' d'.

Lemma two_pictures_found f v P :
  match first_frame f with
  | Ret (sts, Some d, s, g) =>
      match second_queue f v sts s, second_frame f v sts s g with
      | Ret (_, s'), Ret (_, Some d', _, _) => P d s' d'
      | _, _ => False
      end
  | _ => False
  end -> two_pictures f v P.
Proof.
  intros H. unfold two_pictures.
  destruct (first_frame f) as [[[[sts [d|]] s] g]| |]; [|destruct H..].
  destruct (second_queue f v sts s) as [[sts' s']| |] eqn:Eq; [|destruct H..].
  destruct (second_frame f v sts s g) as [[[[sts'' [d'|]] s''] g']| |] eqn:Ef; [|destruct H..].
  by exists sts, d, s, g, sts', s', sts'', d', s'', g'.
Qed.


