(* ===== verification/Determined.v ===== *)
(** * Complete files are queued without undefined behaviour

    [V3dFile::QueueMesh] reads members that the loader may have left without a
    value: a truncated object, a material index that was never read, a center
    that is not there.  [complete] is the type of the files in which every
    member has a value and every array the length its count announces; for them
    no frame ever reads an indeterminate value or past the end of an array,
    whatever the camera, the mode and the frames before. *)

From S2P Require Import Prelude Ieee Xstream Bound V3dData V3dLoad LoadSafety Model Mesh Tess.
From S2P Require Import LoadShape Objects Solids QueueMesh QueueSafety Frames Sync Shown.
Import Stdio.

(** ** Defined results *)

Definition defined {A} (o : outcome A) : Prop := o <> Undef.

Create HintDb defined.

Lemma defined_ret {A} (a : A) : defined (Ret a).
Proof. done. Qed.
Lemma defined_determined {A} (o : option A) : is_Some o -> defined (determined o).
Proof. by intros [a ->]. Qed.
Lemma defined_bind {A B} (o : outcome A) (f : A -> outcome B) :
  defined o -> (forall a, o = Ret a -> defined (f a)) -> defined (obind o f).
Proof. destruct o as [a| |]; intros Ho Hf; [by apply Hf|done|done]. Qed.
Lemma defined_omapM {A B} (f : A -> outcome B) l :
  Forall (fun a => defined (f a)) l -> defined (omapM f l).
Proof.
  induction 1 as [|a l Ha _ IH]; cbn [omapM]; [done|].
  apply defined_bind; [done|]. intros b _. by apply defined_bind.
Qed.
Lemma defined_ofold {A S} (f : A -> S -> outcome S) l s :
  (forall a s, defined (f a s)) -> defined (ofold f l s).
Proof.
  intros Hf. revert s. induction l as [|a l IH]; intros s; cbn [ofold]; [done|].
  by apply defined_bind.
Qed.
#[export] Hint Resolve defined_ret defined_determined : defined.

(** Through binds, branches and folds. *)
Ltac defined :=
  repeat first
    [ progress auto with defined
    | apply defined_bind; [|intros ? ?]
    | apply defined_ofold; intros
    | case_match ].

(** ** The tessellation *)

Section Tessellation.
Context (k : Params).

Lemma render_piece_defined {G} (step : G -> Action G) fuel piece t : defined (render_piece k step fuel piece t).
Proof.
  revert piece t. induction fuel as [|fuel IH]; intros [g corners] t; cbn [render_piece]; [done|].
  destruct (step g); [done|]. destruct (offscreen _ _ _) as [[] t']; [done|].
  destruct (add_vertices _ _ _). by apply defined_ofold.
Qed.
End Tessellation.
#[export] Hint Resolve render_piece_defined : defined.

Lemma curve_queue_defined view fuel g straight r mi t s :
  defined (curve_queue view fuel g straight r mi t s).
Proof. unfold curve_queue, curve_render. defined. Qed.
Lemma bezier_queue_defined view fuel kind g straight r T cols mi b s :
  defined (bezier_queue view fuel kind g straight r T cols mi b s).
Proof.
  unfold bezier_queue. apply defined_bind; [|done].
  destruct kind; unfold surface_render, patch_render, triangle_render, render_outer; defined.
Qed.
#[export] Hint Resolve curve_queue_defined bezier_queue_defined : defined.

(** ** Members *)

Lemma point_of_defined t : det_triple t -> defined (point_of t).
Proof.
  destruct t as [[x y] z]. intros ([a Ha] & [b Hb] & [c Hc]). cbn in *. by subst.
Qed.
Lemma points_defined l : Forall det_triple l -> defined (omapM point_of l).
Proof. intros H. apply defined_omapM. eapply Forall_impl; [exact H|apply point_of_defined]. Qed.
Lemma vec4_of_defined c : det_rgba c -> defined (vec4_of c).
Proof. intros (?&?&?&?). unfold vec4_of. defined. Qed.
Lemma colors_defined l : Forall det_rgba l -> defined (omapM vec4_of l).
Proof. intros H. apply defined_omapM. eapply Forall_impl; [exact H|apply vec4_of_defined]. Qed.
#[export] Hint Resolve point_of_defined points_defined vec4_of_defined colors_defined : defined.

Section Classes.
Context {math : MeshMath} (q : Request) (Hm : Forall det_material (q_materials q)).

Lemma material_transparent_defined mi : defined (material_transparent q mi).
Proof.
  unfold material_transparent. case_match; [|done]. case_match eqn:E; [|done].
  apply defined_bind; [|done]. apply defined_determined.
  apply list_elem_of_lookup_2 in E. eapply list.Forall_forall in Hm; [|exact E].
  apply Hm.
Qed.
Lemma opacity_below_defined cols full : Forall det_rgba cols -> defined (opacity_below q cols full).
Proof.
  intros H. unfold opacity_below. case_match; [|done]. apply defined_bind; [|intros a _; by case_match].
  apply defined_omapM. eapply Forall_impl; [exact H|]. intros c (?&?&?&?). auto with defined.
Qed.
Hint Resolve material_transparent_defined opacity_below_defined : defined.

Lemma queue_edges_defined edges straight r mi C s : defined (queue_edges q edges straight r mi C s).
Proof. unfold queue_edges. apply defined_ofold. intros e [C' s']. auto with defined. Qed.
Hint Resolve queue_edges_defined : defined.

Lemma surface_defined kind mi p lo hi st s : defined (surface_QueueMesh q kind mi p lo hi st s).
Proof. unfold surface_QueueMesh. defined. Qed.

Lemma center_test_defined (b : bool) ci :
  is_Some ci -> defined (if b then c <~ determined ci;; Ret (c =? 0) else Ret false).
Proof. intros H. destruct b; [|done]. by apply defined_bind; [apply defined_determined|]. Qed.
Hint Resolve center_test_defined : defined.

Lemma flat_defined mi ci v st s : is_Some ci -> defined (flat_QueueMesh q mi ci v st s).
Proof. intros Hc. unfold flat_QueueMesh. destruct (flat_box v). defined. Qed.
Lemma flat_corners_defined mi ci v cols st s :
  is_Some ci -> Forall det_rgba cols -> defined (flat_corners_QueueMesh q mi ci v cols st s).
Proof. intros Hc Hd. unfold flat_corners_QueueMesh. destruct (flat_box v). defined. Qed.

Lemma plain_fast_defined ci st : is_Some ci \/ q_remesh q = true -> defined (plain_fast q ci st).
Proof.
  unfold plain_fast. intros [H| -> ]; [|done]. case_match; [|done]. by apply defined_bind; [apply defined_determined|].
Qed.
Lemma curve_defined mi ci p lo hi st s :
  is_Some ci \/ q_remesh q = true -> defined (curve_QueueMesh q mi ci p lo hi st s).
Proof.
  intros Hc. unfold curve_QueueMesh. case_match; [done|].
  apply defined_bind; [by apply plain_fast_defined|]. intros fast _. defined.
Qed.
Lemma line_defined mi p lo hi st s : defined (line_QueueMesh q mi p lo hi st s).
Proof. unfold line_QueueMesh. defined. Qed.
End Classes.
#[export] Hint Resolve material_transparent_defined opacity_below_defined queue_edges_defined
  surface_defined center_test_defined flat_defined flat_corners_defined curve_defined line_defined : defined.

(** ** Triangle groups *)

Section Group.
Context {math : MeshMath} (q : Request) (Hm : Forall det_material (q_materials q)).
Context (g : TriangleGroup) (Hd : det_group g) (Hf : full_group g).

Lemma lookup_defined {A} (l : list A) (P : A -> Prop) i {B} (f : A -> outcome B) :
  Forall P l -> (i < length l)%nat -> (forall a, P a -> defined (f a)) ->
  defined (a <~ determined (l !! i);; f a).
Proof.
  intros Hl Hi HP. destruct (lookup_lt_is_Some_2 l i Hi) as [a Ha]. rewrite Ha. cbn [determined obind].
  apply HP. apply list_elem_of_lookup_2 in Ha. by eapply list.Forall_forall in Hl.
Qed.

Lemma uint3_defined i : det_indices i -> defined (uint3 i).
Proof. intros (?&?&?). unfold uint3. defined. Qed.

Lemma any_transparent_defined nC cols CI :
  Forall det_rgba cols -> (0 < nC -> length cols = Z.to_nat nC) -> 0 < nC -> Forall det_indices CI ->
  defined (any_transparent nC cols CI).
Proof.
  intros Hcols Hlen Hpos Hi. induction Hi as [|i CI Hi _ IH]; cbn [any_transparent]; [done|].
  apply defined_bind; [by apply uint3_defined|]. intros ci _. destruct (forallb _ ci) eqn:E; [|done].
  apply defined_bind; [|intros l _; repeat (case_match; try done)].
  apply defined_omapM, list.Forall_forall. intros c Hc. rewrite forallb_forall in E.
  specialize (E c (proj1 (list_elem_of_In _ _) Hc)). apply Z.ltb_lt in E.
  apply (lookup_defined _ det_rgba); [done|rewrite Hlen by done; lia|].
  intros a (?&?&?&?). by apply defined_determined.
Qed.

Lemma group_vertex_defined nN' nC' m i :
  nN g = Some nN' -> nC g = Some nC' -> (i < Z.to_nat (nP g))%nat -> defined (group_vertex g nN' nC' m i).
Proof.
  destruct Hd as (Hp & _ & Hn & _ & _ & Hc & _), Hf as (Lp & Ln & Lc). intros EN EC Hi. unfold group_vertex.
  apply (lookup_defined _ det_triple); [done|lia|]. intros p Dp.
  apply defined_bind; [by apply point_of_defined|]. intros pos _.
  apply defined_bind.
  { destruct (Z.ltb_spec (Z.of_nat i) nN'); [|done].
    apply (lookup_defined _ det_triple); [done|rewrite (Ln _ EN); lia|apply point_of_defined]. }
  intros n _. apply defined_bind; [|done].
  destruct (Z.ltb_spec (Z.of_nat i) nC'); [|done].
  apply (lookup_defined _ det_rgba); [done|rewrite (Lc _ EC) by lia; lia|apply vec4_of_defined].
Qed.

Lemma group_defined mi ci st s :
  is_Some ci -> to_int mi <> 2 ^ 31 - 1 -> defined (group_QueueMesh q mi ci g st s).
Proof.
  intros Hci Hmi. unfold group_QueueMesh. do 3 (case_match; [done|]).
  apply defined_bind; [by apply material_transparent_defined|]. intros T _.
  apply defined_bind; [by apply plain_fast_defined; left|]. intros [] _; [done|].
  destruct Hd as (_ & [nN' EN] & _ & _ & (nC' & EC & _) & Hcols & Hpi & _ & Hi).
  rewrite EC, EN. cbn [determined obind].
  apply defined_bind; [destruct (0 <? nC'); [done|]; by rewrite (proj2 (Z.eqb_neq _ _) Hmi)|]. intros m _.
  apply defined_bind.
  { apply defined_omapM, list.Forall_forall. intros i Hin%elem_of_seq.
    apply group_vertex_defined; [done|done|lia]. }
  intros vs _. apply defined_bind.
  { destruct (Z.ltb_spec 0 nC'); [|done]. apply any_transparent_defined; [done| |done|done].
    intros _. by apply Hf. }
  intros some _. apply defined_bind; [|done].
  unfold group_indices. apply defined_bind; [|done]. apply defined_omapM.
  eapply Forall_impl; [exact Hpi|apply uint3_defined].
Qed.
End Group.

(** ** Solids *)

Section Solid.
Context {math : MeshMath} (q : Request) (Hm : Forall det_material (q_materials q)).

Lemma temporary_defined kind mi p s : defined (queue_temporary q kind mi p s).
Proof.
  unfold queue_temporary. destruct (surface_bounds kind p).
  apply defined_bind; [by apply surface_defined|by intros [] _].
Qed.
Hint Resolve temporary_defined : defined.

Lemma corners_defined kind mi p cols lo hi st s :
  Forall det_rgba cols -> is_Some lo -> is_Some hi -> defined (corners_QueueMesh q kind mi p cols lo hi st s).
Proof.
  intros Hc [lo' ->] [hi' ->]. unfold corners_QueueMesh. case_match.
  - destruct (surface_bounds kind p). apply defined_bind; [|by intros [] _].
    apply surface_defined. by destruct kind.
  - cbn [determined obind]. defined.
Qed.

Lemma sphere_defined c r dir mi s : defined (sphere q c r dir mi s).
Proof. unfold sphere. defined. Qed.
Lemma disk_defined c r dir mi s : defined (disk q c r dir mi s).
Proof. unfold disk. defined. Qed.
Lemma cylinder_defined c r h dir core mi s : defined (cylinder q c r h dir core mi s).
Proof.
  unfold cylinder. apply defined_bind; [apply defined_ofold; auto with defined|]. intros s' _. destruct core; [|done].
  destruct (lineBounds _ _). apply defined_bind; [by apply line_defined|by intros [] _].
Qed.
Lemma tube_defined v w core mi s : defined (tube q v w core mi s).
Proof.
  unfold tube. apply defined_bind; [apply defined_ofold; auto with defined|]. intros s' _. destruct core; [|done].
  destruct (computeBezierCurveBounds _ _ _ _).
  apply defined_bind; [apply curve_defined; by right|by intros [] _].
Qed.
End Solid.
#[export] Hint Resolve corners_defined sphere_defined disk_defined cylinder_defined tube_defined : defined.

(** ** Objects *)

(** A state of the class of the object: what the constructor made it. *)
Definition of_kind (sh : shape) (st : ObjectState) : Prop :=
  match new_state sh, st with
  | SurfaceState _, SurfaceState _ | FlatState _, FlatState _ | PlainState _, PlainState _ => True
  | _, _ => False
  end.

(** A completely read object.  The greatest [int] as material index of a group
    without colours overflows. *)
Definition complete_object (o : V3dObject) : Prop :=
  det_object o /\
  match members o with
  | Triangles _ => forall mi, materialIndex o = Some mi -> to_int mi <> 2 ^ 31 - 1
  | _ => True
  end.

Definition complete (f : V3dFile) : Prop :=
  Forall complete_object (objects f) /\ Forall det_material (materials f) /\ Forall det_triple (centers f).

Section Object.
Context {math : MeshMath} (q : Request).

Lemma object_kind o st s st' s' :
  of_kind (members o) st -> object_QueueMesh q o st s = Ret (st', s') -> of_kind (members o) st'.
Proof.
  intros Hk. unfold object_QueueMesh. intros E. apply obind_Ret in E as (mi & _ & E).
  destruct (members o), st; try done; cbn [on_surface on_flat on_plain] in E;
    repeat first [apply obind_Ret in E as ([? ?] & _ & E) | apply obind_Ret in E as (? & _ & E)];
    by apply Ret_inj_pair in E as [<- _].
Qed.

Lemma object_defined o st s :
  Forall det_material (q_materials q) -> complete_object o -> full_object o -> of_kind (members o) st ->
  defined (object_QueueMesh q o st s).
Proof.
  intros Hm ((Hci & [mi Emi] & Hlo & Hhi & Hd) & Hg) Hfull Hk. unfold object_QueueMesh, full_object in *.
  rewrite Emi. cbn [determined obind].
  destruct (members o), st; try done; cbn [on_surface on_flat on_plain det_shape] in *;
    unfold V3dBezierPatch_QueueMesh, V3dBezierTriangle_QueueMesh, V3dBezierPatchWithCornerColors_QueueMesh,
      V3dBezierTriangleWithCornerColors_QueueMesh, V3dStraightPlanarQuad_QueueMesh,
      V3dStraightTriangle_QueueMesh, V3dStraightPlanarQuadWithCornerColors_QueueMesh,
      V3dStraightTriangleWithCornerColors_QueueMesh, V3dSphere_QueueMesh, V3dHemiSphere_QueueMesh,
      V3dDisk_QueueMesh, V3dCylinder_QueueMesh, V3dTube_QueueMesh; destruct_and?; defined.
  by apply group_defined; [done|done|done|done|apply Hg].
Qed.
End Object.

(** ** Files *)

Section File.
Context {math : MeshMath}.

Definition kinds (os : list (V3dObject * ObjectState)) : Prop := Forall (fun x => of_kind (members x.1) x.2) os.

Lemma center_of_defined cs o :
  Forall det_triple cs -> is_Some (centerIndex o) -> defined (center_of cs o).
Proof.
  intros Hc [ci E]. unfold center_of. rewrite E. cbn [determined obind]. case_match eqn:Hb; [|done].
  apply andb_prop in Hb as [H1%Z.ltb_lt H2%Z.leb_le].
  apply (lookup_defined _ det_triple); [done|lia|]. intros c Hd. by apply defined_bind; [apply point_of_defined|].
Qed.

Lemma queue_object_kind q cs o st s st' s' :
  of_kind (members o) st -> queue_object q cs o st s = Ret (st', s') -> of_kind (members o) st'.
Proof.
  intros Hk E. unfold queue_object in E. apply obind_Ret in E as ([st1 s1] & E1%object_kind & E); [|done].
  apply obind_Ret in E as (c & _ & E). by destruct c; apply Ret_inj_pair in E as [<- _].
Qed.

Lemma queue_objects_kinds q cs os s os' s' :
  kinds os -> queue_objects q cs os s = Ret (os', s') -> kinds os'.
Proof.
  intros Hk. revert s os' s'. induction Hk as [|[o st] os Ho Hk IH]; intros s os' s'; cbn [queue_objects].
  { intros [= <- _]. constructor. }
  intros E. apply obind_Ret in E as ([st1 s1] & E1%queue_object_kind & E); [|done].
  apply obind_Ret in E as ([os1 s2] & E2%IH & E). apply Ret_inj_pair in E as [<- _]. by constructor.
Qed.

Lemma queue_objects_defined q cs os s :
  Forall det_material (q_materials q) -> Forall det_triple cs ->
  Forall (fun x => (complete_object x.1 /\ full_object x.1) /\ of_kind (members x.1) x.2) os ->
  defined (queue_objects q cs os s).
Proof.
  intros Hm Hc Ho. revert s. induction Ho as [|[o st] os [[H1 H2] H3] _ IH]; intros s; cbn [queue_objects]; [done|].
  apply defined_bind; [|intros [st' s'] _; apply defined_bind; [done|by intros [] _]].
  unfold queue_object. apply defined_bind; [by apply object_defined|]. intros [st' s'] _.
  apply defined_bind; [|intros [] _; done]. apply center_of_defined; [done|apply H1].
Qed.

(** The states that the objects of a file have after some frames; the frames may
    have been of any sort, and the last one need not have been drawn. *)
Inductive kept (f : V3dFile) : list ObjectState -> Prop :=
  | kept_new : kept f (new_states f)
  | kept_frame q sts s sts' s' : kept f sts -> file_QueueMesh q f sts s = Ret (sts', s') -> kept f sts'.

Lemma kept_kinds f sts : kept f sts -> length sts = length (objects f) /\ kinds (zip (objects f) sts).
Proof.
  induction 1 as [|q sts s sts' s' _ [Hl Hk] E].
  - unfold new_states, kinds. rewrite length_map. split; [done|].
    induction (objects f) as [|o os IH]; cbn; [constructor|]. constructor; [|done]. cbn.
    unfold of_kind. by destruct (new_state (members o)).
  - pose proof E as Hq%file_objects; [|done]. apply queue_objects_kinds in Hq; [|done]. split; [|done].
    unfold file_QueueMesh in E. apply obind_Ret in E as ([os s1] & E%queue_objects_fst & Er).
    apply Ret_inj_pair in Er as [<- _]. apply (f_equal length) in E. rewrite !length_map in E.
    rewrite length_map, E, length_zip. lia.
Qed.
End File.

(** C20: A completely read file is queued without undefined behaviour: if
    [V3dFile::load] has read every member of the objects, the materials and the centers
    from the file, and no group of triangles has the material index 2^31 - 1 (one more
    than it overflows an int), then in every frame, with whatever camera, size, mode and
    [remesh] and after whatever frames, [V3dFile::QueueMesh] reads only members that have
    a value and only array elements that exist, and every object keeps a state of its
    class. *)
Theorem complete_file_determined {math : MeshMath} data f x sts :
  load_file (Some (mkFILE data 0 None)) = Ret (f, x) -> complete f -> kept f sts ->
  Forall2 (fun o st => of_kind (members o) st) (objects f) sts /\
  (forall q s, defined (file_QueueMesh q f sts s)).
Proof.
  intros Hf%load_file_full (Ho & Hm & Hc) [Hl Hk]%kept_kinds. split.
  - unfold kinds in Hk. apply Forall2_same_length_lookup. split; [done|].
    intros i o st Eo Es. eapply (proj1 (list.Forall_forall _ _) Hk (o, st)).
    apply list_elem_of_lookup_2 with i. by rewrite lookup_zip_with, Eo, Es.
  - intros q s. unfold file_QueueMesh. apply defined_bind; [|by intros [] _].
    apply queue_objects_defined; [done|done|]. apply list.Forall_forall. intros [o st] Hx.
    split; [|by eapply list.Forall_forall in Hk]. apply elem_of_zip_l in Hx.
    by split; eapply list.Forall_forall.
Qed.

(** A triangle and a curve, reused in the second frame. *)
Definition sample_objects : list V3dObject := Eval vm_compute in objects sample_scene_file.
Definition sample_materials : list V3dMaterial := Eval vm_compute in materials sample_scene_file.

Lemma sample_complete : complete sample_scene_file.
Proof.
  assert (objects sample_scene_file = sample_objects) as Eo by (vm_compute; reflexivity).
  assert (materials sample_scene_file = sample_materials) as Em by (vm_compute; reflexivity).
  assert (centers sample_scene_file = []) as Ec by (vm_compute; reflexivity).
  unfold complete. rewrite Eo, Em, Ec. unfold sample_objects, sample_materials.
  unfold complete_object, det_object, det_material, det_rgba.
  repeat match goal with
    | |- Forall _ [] => apply Forall_nil_2
    | |- Forall _ (_ :: _) => apply Forall_cons_2
    | |- _ /\ _ => split
    | |- is_Some _ => eexists; reflexivity
    | |- det_shape _ => cbn [members det_shape]; unfold det_triple
    | |- match members _ with _ => _ end => exact I
    end.
Qed.

Definition sample_states : list ObjectState :=
  match file_QueueMesh (math := plain_math) (sample_request true) sample_scene_file
          (new_states sample_scene_file) (clearData emptyScene) with
  | Ret (sts, _) => sts
  | _ => []
  end.

Lemma complete_file_determined_witness :
  length (objects sample_scene_file) = 2%nat /\
  Forall2 (fun o st => of_kind (members o) st) (objects sample_scene_file) sample_states /\
  defined (file_QueueMesh (math := plain_math) (sample_request false) sample_scene_file sample_states emptyScene).
Proof.
  assert (exists x, load_file (Some (mkFILE sample_scene 0 None)) = Ret (sample_scene_file, x))
    as [x E] by (vm_compute; eexists; reflexivity).
  assert (exists s, file_QueueMesh (math := plain_math) (sample_request true) sample_scene_file
            (new_states sample_scene_file) (clearData emptyScene) = Ret (sample_states, s)) as [s Eq]
    by (vm_compute; eexists; reflexivity).
  destruct (complete_file_determined (math := plain_math) sample_scene sample_scene_file x sample_states E
    sample_complete (kept_frame _ _ _ _ _ _ (kept_new _) Eq)) as [H1 H2].
  split; [vm_compute; reflexivity|]. split; [exact H1|]. exact (H2 _ _).
Defined.
