(* ===== verification/Render.v ===== *)
(** * The model manager: rendering a model

    [v3d-Common/V3dModelManager.cpp]: [RenderModel], which answers a request for
    the image of one model.  It is called with the models' mutex held; from the
    first write of the process-wide state on, no other [RenderModel] runs.

    The tessellation, [V3dFile::QueueMesh], is the parameter [queueMesh]: which
    of the vertex buffers have indices once the objects are queued; [Pictures] joins
    the parts of [RenderModel] with the real one.  The frame is drawn by
    [Renderer.render]. *)

From Stdlib Require Import Floats.SpecFloat.
From S2P Require Import Prelude Ieee Xstream Bound V3dData IblName IblPath Renderer Model Manager.
From S2P Require Import PageView HitTest Input.

(** [!xData.indices.empty()] for the five vertex buffers. *)
Record Buffers := mkBuffers {
  materialData : bool; colorData : bool; lineData : bool; transparentData : bool; pointData : bool
}.
Definition hasRenderableData (b : Buffers) : bool :=
  materialData b || colorData b || lineData b || transparentData b || pointData b.

(** The statics of the process: the last model rendered, and the prompts already
    posted by [scheduleIBLPrompt]. *)
Record Globals := mkGlobals { lastPage : nat; lastModel : nat; pendingPrompts : list string }.
Definition initialGlobals : Globals := mkGlobals 0 0 [].

Definition black : Z * Z * Z := (0, 0, 0).
Definition qBound (lo x hi : Z) : Z := Z.max lo (Z.min hi x).
Definition f255 : float32 := float_of_Z 255.

(** [qBound(0, int(c * 255.0f + 0.5f), 255)] *)
Definition colour_byte (c : FLOAT) : outcome Z :=
  c <~ determined c;;
  z <~ int_of_double (fadd (fmul c f255) fhalf);;
  Ret (qBound 0 z 255).

(** [n] rows of [rowBytes] bytes, [pitch] bytes apart. *)
Fixpoint copy_rows (n pitch rowBytes : nat) (bytes : list Byte.byte) : outcome (list Byte.byte) :=
  match n with
  | O => Ret []
  | S n =>
      if Nat.ltb (length bytes) rowBytes then Undef
      else rest <~ copy_rows n pitch rowBytes (drop pitch bytes);; Ret (take rowBytes bytes ++ rest)
  end.

(** The pixels handed to [QImage]: the [width * height * 4] bytes from
    [vectorData.data()] on, of which those past its size are indeterminate. *)
Definition frame_pixels (f : Frame) (width height : Z) : outcome (list Byte.byte) :=
  if (rowPitch f =? 0) || (2 ^ 31 <=? width * height * 4) then Undef
  else
    let actualHeight := frame_size f / rowPitch f in
    let actualRowPixels := rowPitch f / 4 in
    let rows := Z.min actualHeight height in
    vectorData <~ copy_rows (Z.to_nat rows) (Z.to_nat (rowPitch f))
                    (Z.to_nat (Z.min actualRowPixels width * 4)) (data f);;
    if Z.of_nat (length vectorData) <? width * height * 4 then Undef
    else Ret (take (Z.to_nat (width * height * 4)) vectorData).

Section Render.
Context {glm : Glm} {libm : Libm} {img : Images} {growth : Growth}.

(** What [QueueMesh] is given. *)
Record Queue := mkQueue {
  q_file : V3dFile; q_width : Z; q_height : Z; q_min : triple; q_max : triple;
  q_remesh : bool; q_orthographic : bool; q_mode : DrawMode; q_projView : dmat4; q_norm : dmat3
}.

Section Request.
Variable d : Device.
Variable queueMesh : Queue -> Buffers.
Variable fileExists : string -> bool.
Variable vulkan : bool.
Variable readable : string -> bool.
Variable env : Env.

(** The early look at the environment map: whether it is used, its path, and
    the prompt for a missing one. *)
Definition check_IBL (page index : nat) (imageName : string) (g : Globals) (m : Manager) :
    bool * string * Globals * Manager :=
  if is_empty imageName then (false, [], g, m)
  else if negb (iblNameOK (normalizeIBLName imageName)) then (false, [], g, m)
  else
    let iblPath := resolveIBLPath readable env imageName in
    if negb (is_empty iblPath) then (true, iblPath, g, m)
    else if bool_decide (normalizeIBLName imageName ∈ m_IBLDeclinedNames m)
    then (false, iblPath, g, m)
    else
      let m := m <| m_ModelsWithMissingIBL ::= union {[ (page, index) ]} |> in
      let '(pending, posted) :=
        scheduleIBLPrompt (pendingPrompts g) imageName (getIBLBase env) in
      let g := mkGlobals (lastPage g) (lastModel g) pending in
      match posted with
      | Some (name, base) => (false, iblPath, g, emit (PostPrompt name base) m)
      | None => (false, iblPath, g, m)
      end.

(** The bounds the objects are culled against. *)
Definition scene_bounds (h : V3dHeaderInfo) (model : V3dModel) : outcome (triple * triple) :=
  zmin <~ determined (snd (minBound h));;
  zmax <~ determined (snd (maxBound h));;
  let lo := mkTriple (double_of_float (xmin model)) (double_of_float (ymin model))
                     (double_of_float (float_of_double zmin)) in
  let hi := mkTriple (double_of_float (xmax model)) (double_of_float (ymax model))
                     (double_of_float (float_of_double zmax)) in
  if SFleb (tx hi) (tx lo) || SFleb (ty hi) (ty lo) || SFleb (tz hi) (tz lo) then
    lo <~ determined (determinate (minBound h));;
    hi <~ determined (determinate (maxBound h));;
    Ret (lo, hi)
  else Ret (lo, hi).

Definition switchedModel (page index : nat) (g : Globals) : bool :=
  negb (Nat.eqb page (lastPage g)) || negb (Nat.eqb index (lastModel g)).

(** Turning to another model: it is meshed again, and the renderer's draw mode
    is set to its own. *)
Definition enter_model (page index : nat) (mode : DrawMode) (g : Globals) (m : Manager) :
    Globals * Manager :=
  if switchedModel page index g then
    (mkGlobals page index (pendingPrompts g),
     m <| m_HeadlessRenderer ::= option_map (fun r => r <| currentDrawMode := mode |>) |>)
  else (g, m).

(** Up to the projection: an image that needs no drawing, or what to draw with: whether
    the environment map is used, its path, the image kept so far and the model. *)
Definition RenderModel_request (page index : nat) (width height : Z) (g : Globals) (m : Manager) :
    outcome ((QImage + bool * string * QImage * V3dModel) * Globals * Manager) :=
  let m := ensureHeadlessRenderer fileExists vulkan m in
  match m_HeadlessRenderer m with
  | None => Ret (inl (filled width height Format_ARGB32 black), g, m)
  | Some _ =>
      if (width <=? 0) || (height <=? 0) then
        Ret (inl (filled (Z.max width 1) (Z.max height 1) Format_ARGB32 black), g, m)
      else
        model <~ determined (model_at m page index);;
        h <~ header_of model;;
        let '(useIBL, iblPath, g, m) := check_IBL page index (imageName h) g m in
        cached <~ determined (m_ModelImages m !! page ≫= fun l => l !! index);;
        if negb (m_HasChanged model) && (img_width cached =? width) && (img_height cached =? height)
        then Ret (inl cached, g, m)
        else
          let m := EnsureCachedRequestSize (Z.of_nat page) m in
          r <~ at_index (m_CachedRequestSizes m) (Z.of_nat page);;
          let canvas := canvas_size model (vec2_of (size r)) in
          if SFleb (vx canvas) f0 || SFleb (vy canvas) f0 then
            Ret (inl (filled width height Format_ARGB32 black), g, m)
          else
            model <~ setProjection canvas model;;
            Ret (inr (useIBL, iblPath, cached, model), g, set_model page index model m)
  end.

(** From the projection to [QueueMesh]: its arguments, the renderer, and the model as
    it is then. *)
Definition RenderModel_queue (page index : nat) (width height : Z) (cached : QImage)
    (model : V3dModel) (g : Globals) (m : Manager) :
    outcome (Queue * Gpu * V3dModel * Globals * Manager) :=
  h <~ header_of model;;
  f <~ determined (file model);;
  bounds <~ scene_bounds h model;;
  let model := if switchedModel page index g then set_remesh true model else model in
  let '(g, m) := enter_model page index (drawMode model) g m in
  gpu <~ determined (m_HeadlessRenderer m);;
  let model := if negb (img_width cached =? width) || negb (img_height cached =? height)
               then set_remesh true model else model in
  let m := set_model page index model m in
  Ret (mkQueue f width height (fst bounds) (snd bounds) (remesh model)
         (negb (orthographic h =? 0)) (drawMode model)
         (glm_mul (projMat model) (viewMat model)) (glm_normal (viewMat model)), gpu, model, g, m).

(** From the buffers that [QueueMesh] leaves to the image. *)
Definition RenderModel_draw (page index : nat) (width height : Z) (useIBL : bool) (iblPath : string)
    (f : V3dFile) (buffers : Buffers) (gpu : Gpu) (model : V3dModel) (g : Globals) (m : Manager) :
    outcome (QImage * Globals * Manager) :=
  let h := headerInfo f in
  if negb (hasRenderableData buffers) then
    r <~ colour_byte (c4r (background h));;
    gr <~ colour_byte (c4g (background h));;
    b <~ colour_byte (c4b (background h));;
    Ret (filled width height Format_RGB32 (r, gr, b), g, m)
  else
    let model := if mode_eqb (drawMode model) DRAWMODE_OUTLINE then model
                 else set_remesh false model in
    let model := set_initialized true model in
    let m := set_model page index model m in
    'fr <~ render d (width, height) (materials f) (lights h) useIBL iblPath (drawMode model)
             (negb (transparentData buffers)) gpu;;
    let m := m <| m_HeadlessRenderer := Some (snd fr) |> in
    match fst fr with
    | None => Ret (filled width height Format_ARGB32 black, g, m)
    | Some frame =>
        bytes <~ frame_pixels frame width height;;
        let image := of_pixels width height bytes in
        let m := set_model page index (set_m_HasChanged false model) m in
        Ret (image, g, m <| m_ModelImages ::= alter (fun l => <[index := image]> l) page |>)
    end.

(** [V3dModelManager::RenderModel] *)
Definition RenderModel (page index : nat) (width height : Z) (g : Globals) (m : Manager) :
    outcome (QImage * Globals * Manager) :=
  '(r, g, m) <~ RenderModel_request page index width height g m;;
  match r with
  | inl image => Ret (image, g, m)
  | inr (useIBL, iblPath, cached, model) =>
      '(qu, gpu, model, g, m) <~ RenderModel_queue page index width height cached model g m;;
      RenderModel_draw page index width height useIBL iblPath (q_file qu) (queueMesh qu) gpu model g m
  end.

(** The same under the generators' [try]: an allocation may fail in [QueueMesh],
    and the exception leaves what was assigned before. *)
Definition attempt_RenderModel (throws : bool) (page index : nat) (width height : Z) (g : Globals)
    (m : Manager) : outcome (option QImage * Globals * Manager) :=
  if throws then
    '(r, g, m) <~ RenderModel_request page index width height g m;;
    match r with
    | inl image => Ret (Some image, g, m)
    | inr (_, _, cached, model) =>
        '(_, _, _, g, m) <~ RenderModel_queue page index width height cached model g m;;
        Ret (None, g, m)
    end
  else '(image, g, m) <~ RenderModel page index width height g m;; Ret (Some image, g, m).
End Request.
End Render.

(** ** Pixels of a frame *)

Lemma length_copy_rows n pitch rb bytes r :
  copy_rows n pitch rb bytes = Ret r -> length r = (n * rb)%nat.
Proof.
  revert bytes r. induction n as [|n IH]; intros bytes r; cbn [copy_rows]; [by intros [= <-]|].
  destruct (Nat.ltb_spec (length bytes) rb); [done|]. intros E.
  apply obind_Ret in E as (rest & E & [= <-]). apply IH in E.
  rewrite length_app, length_take, E. lia.
Qed.

Lemma copy_rows_fuel n pitch rb bytes : copy_rows n pitch rb bytes <> NoFuel.
Proof.
  revert bytes. induction n as [|n IH]; intros bytes; cbn [copy_rows]; [done|].
  destruct (Nat.ltb _ _); [done|]. destruct (copy_rows n _ _ _) eqn:E; [done..|]. by apply IH in E.
Qed.

(** Enough bytes for every row: the copy is defined, and is row by row that of
    the source. *)
Lemma copy_rows_Ret n pitch rb bytes :
  (rb <= pitch)%nat -> (n * pitch <= length bytes)%nat ->
  exists r, copy_rows n pitch rb bytes = Ret r /\
    forall y x, (y < n)%nat -> (x < rb)%nat -> r !! (y * rb + x)%nat = bytes !! (y * pitch + x)%nat.
Proof.
  intros Hrb. revert bytes. induction n as [|n IH]; intros bytes Hlen; cbn [copy_rows].
  { eexists. split; [done|]. lia. }
  destruct (Nat.ltb_spec (length bytes) rb); [lia|].
  destruct (IH (drop pitch bytes)) as (rest & -> & Hrest); [rewrite length_drop; lia|].
  cbn [obind]. eexists. split; [done|]. intros y x Hy Hx. destruct y as [|y].
  - cbn. rewrite lookup_app_l by (rewrite length_take; lia). by apply lookup_take_lt.
  - rewrite lookup_app_r by (rewrite length_take; lia).
    rewrite length_take, Nat.min_l by lia.
    replace (S y * rb + x - rb)%nat with (y * rb + x)%nat by lia.
    rewrite Hrest by lia. rewrite lookup_drop. f_equal. lia.
Qed.

(** A frame that covers the image: as many rows, and rows as long. *)
Definition covers (f : Frame) (width height : Z) : Prop :=
  width * 4 <= rowPitch f /\ height * rowPitch f <= frame_size f /\
  frame_size f = Z.of_nat (length (data f)).

(** From a frame that covers the requested image, the image gets exactly the
    first [width] pixels of each of the first [height] rows, whatever the row
    pitch. *)
Theorem frame_pixels_spec f width height :
  0 < width -> 0 < height -> width * height * 4 < 2 ^ 31 -> covers f width height ->
  exists px, frame_pixels f width height = Ret px /\
    Z.of_nat (length px) = width * height * 4 /\
    forall y x, (y < Z.to_nat height)%nat -> (x < Z.to_nat (width * 4))%nat ->
      px !! (y * Z.to_nat (width * 4) + x)%nat = data f !! (y * Z.to_nat (rowPitch f) + x)%nat.
Proof.
  intros Hw Hh Hint (Hp & Hs & Hd). unfold frame_pixels.
  rewrite (proj2 (Z.eqb_neq _ 0)) by lia. rewrite (proj2 (Z.leb_gt _ _)) by lia. cbn [orb].
  rewrite (Z.min_r _ height) by (apply Z.div_le_lower_bound; lia).
  rewrite (Z.min_r _ width) by (apply Z.div_le_lower_bound; lia).
  destruct (copy_rows_Ret (Z.to_nat height) (Z.to_nat (rowPitch f)) (Z.to_nat (width * 4)) (data f))
    as (r & E & Hr); [lia|nia|].
  rewrite E. cbn [obind]. apply length_copy_rows in E as Hlen.
  assert (Z.of_nat (length r) = width * height * 4) as Hz by nia.
  rewrite (proj2 (Z.ltb_ge _ _)) by lia. rewrite take_ge by lia. eauto.
Qed.

(** When the renderer has clamped the frame to the device's limits, so that it
    has fewer rows or shorter rows than requested, the image is made from bytes
    behind the copied ones: the result is undefined. *)
Theorem clamped_frame_undefined f width height :
  0 < width -> 0 < height -> 0 <= rowPitch f -> 0 <= frame_size f ->
  frame_size f / rowPitch f < height \/ rowPitch f / 4 < width ->
  frame_pixels f width height = Undef.
Proof.
  intros Hw Hh Hp Hs Hc. unfold frame_pixels. destruct (rowPitch f =? 0) eqn:E0; [done|]. zbool.
  destruct (2 ^ 31 <=? _); [done|]. cbn [orb].
  destruct (copy_rows _ _ _ _) as [r| |] eqn:E; [cbn [obind]|done|].
  - apply length_copy_rows in E.
    pose proof (Z.div_pos (frame_size f) (rowPitch f)). pose proof (Z.div_pos (rowPitch f) 4).
    assert (Z.of_nat (length r) < width * height * 4) as Hlt.
    { rewrite E, Nat2Z.inj_mul, !Z2Nat.id by lia.
      destruct Hc; [rewrite (Z.min_l _ height) by lia | rewrite (Z.min_l _ width) by lia]; nia. }
    by rewrite (proj2 (Z.ltb_lt _ _) Hlt).
  - by apply copy_rows_fuel in E.
Qed.

(** ** What [RenderModel] returns *)

(** The sizes of Qt's images. *)
Class ImagesOk {img : Images} : Prop := {
  filled_size w h fmt c : 0 < w -> 0 < h ->
    img_width (filled w h fmt c) = w /\ img_height (filled w h fmt c) = h;
  of_pixels_size w h px : 0 < w -> 0 < h -> Z.of_nat (length px) = w * h * 4 ->
    img_width (of_pixels w h px) = w /\ img_height (of_pixels w h px) = h
}.

Section RenderProps.
Context {glm : Glm} {libm : Libm} {img : Images} {growth : Growth}.

Definition image_at (m : Manager) (page index : nat) : option QImage :=
  m_ModelImages m !! page ≫= fun l => l !! index.

(** A blank or one-coloured image of the requested size. *)
Definition fallback (width height : Z) (i : QImage) : Prop :=
  exists fmt c, i = filled width height fmt c.

(** The model's image is the one the manager keeps, and is up to date. *)
Definition served (page index : nat) (i : QImage) (m : Manager) : Prop :=
  (exists model f, model_at m page index = Some model /\ file model = Some f /\
     m_HasChanged model = false) /\
  image_at m page index = Some i /\ is_Some (m_HeadlessRenderer m).

Lemma check_IBL_frame rd env page index name g m :
  m_Models (check_IBL rd env page index name g m).2 = m_Models m /\
  m_ModelImages (check_IBL rd env page index name g m).2 = m_ModelImages m /\
  m_HeadlessRenderer (check_IBL rd env page index name g m).2 = m_HeadlessRenderer m.
Proof.
  unfold check_IBL. destruct (is_empty _); [done|]. destruct (negb (iblNameOK _)); [done|].
  destruct (negb (is_empty _)); [done|]. case_bool_decide; [done|].
  destruct (scheduleIBLPrompt _ _ _) as [pending [[n b]|]]; done.
Qed.

Lemma enter_model_frame page index mode g m :
  m_Models (enter_model page index mode g m).2 = m_Models m /\
  m_ModelImages (enter_model page index mode g m).2 = m_ModelImages m.
Proof. unfold enter_model. by destruct (switchedModel _ _ _). Qed.

Lemma frame_pixels_length f width height px :
  frame_pixels f width height = Ret px -> 0 < width -> 0 < height ->
  Z.of_nat (length px) = width * height * 4.
Proof.
  unfold frame_pixels. destruct (_ || _); [done|]. intros E Hw Hh.
  apply obind_Ret in E as (r & _ & E). revert E. destruct (_ <? _) eqn:El; [done|].
  intros [= <-]. zbool. rewrite length_take. lia.
Qed.

Context {imgok : ImagesOk}.

Lemma RenderModel_queue_spec page index width height cached old model f g m qu gpu x g' m' :
  file model = Some f -> model_at m page index = Some old -> image_at m page index = Some cached ->
  RenderModel_queue page index width height cached model g m = Ret (qu, gpu, x, g', m') ->
  q_file qu = f /\ file x = Some f /\ model_at m' page index = Some x /\
  image_at m' page index = Some cached.
Proof.
  intros Hf Hold Hcached. unfold RenderModel_queue. intros E.
  apply obind_Ret in E as (h & _ & E). rewrite Hf in E. cbn [determined obind] in E.
  apply obind_Ret in E as (bs & _ & E). revert E. cbv zeta.
  set (model1 := if switchedModel _ _ _ then _ else _).
  assert (file model1 = Some f) as Hf1 by (unfold model1; by destruct (switchedModel _ _ _)).
  clearbody model1.
  destruct (enter_model_frame page index (drawMode model1) g m) as [HM HI].
  destruct (enter_model _ _ _ _ _) as [g1 m1]. cbn [snd] in HM, HI. intros E.
  apply obind_Ret in E as (gpu0 & _ & E). revert E.
  set (model2 := if _ : bool then _ else model1).
  assert (file model2 = Some f) as Hf2 by (unfold model2; by destruct (_ || _)).
  clearbody model2. intros [= <- _ <- _ <-]. split; [done|]. split; [done|]. split.
  - eapply model_at_set_model. unfold model_at. rewrite HM. exact Hold.
  - unfold image_at. change (m_ModelImages (set_model ?a ?b ?c m1)) with (m_ModelImages m1).
    rewrite HI. exact Hcached.
Qed.

Lemma RenderModel_draw_spec d page index width height u p f buffers gpu model c g m i g' m' :
  0 < width -> 0 < height -> file model = Some f ->
  model_at m page index = Some model -> image_at m page index = Some c ->
  RenderModel_draw d page index width height u p f buffers gpu model g m = Ret (i, g', m') ->
  (img_width i = width /\ img_height i = height) /\
  (fallback width height i \/ served page index i m').
Proof.
  intros Hw Hh Hf Hm Hi. unfold RenderModel_draw. cbv zeta.
  destruct (negb (hasRenderableData buffers)); intros E.
  { apply obind_Ret in E as (cr & _ & E). apply obind_Ret in E as (cg & _ & E).
    apply obind_Ret in E as (cb & _ & [= <- <- <-]). split; [by apply filled_size|].
    left. by do 2 eexists. }
  revert E. set (model3 := set_initialized _ _).
  assert (file model3 = Some f) as Hf3 by (unfold model3; by destruct (mode_eqb _ _)).
  clearbody model3. intros E. apply obind_Ret in E as ([fr gpu'] & _ & E). revert E.
  cbn [fst snd]. destruct fr as [frame|]; intros E.
  2:{ injection E as <- <- <-. split; [by apply filled_size|]. left. by do 2 eexists. }
  apply obind_Ret in E as (px & Epx & [= <- <- <-]).
  split; [apply of_pixels_size; [done..|]; by eapply frame_pixels_length|]. right.
  split; [|split].
  - exists (set_m_HasChanged false model3), f. split; [|by split].
    unfold model_at. eapply alter_insert_lookup. eapply model_at_set_model. exact Hm.
  - unfold image_at. eapply alter_insert_lookup. exact Hi.
  - by eexists.
Qed.

(** What [RenderModel_request] answers by itself, and what it leaves to draw. *)
Lemma RenderModel_request_spec fe vk rd env page index width height g m r g' m' :
  0 < width -> 0 < height ->
  RenderModel_request fe vk rd env page index width height g m = Ret (r, g', m') ->
  match r with
  | inl i => (img_width i = width /\ img_height i = height) /\
      (fallback width height i \/ served page index i m')
  | inr (_, _, cached, model) =>
      is_Some (file model) /\ model_at m' page index = Some model /\ image_at m' page index = Some cached
  end.
Proof.
  intros Hw Hh. unfold RenderModel_request. set (m0 := ensureHeadlessRenderer fe vk m). clearbody m0.
  destruct (m_HeadlessRenderer m0) as [gpu|] eqn:Hgpu; [|intros [= <- <- <-]].
  2:{ split; [by apply filled_size|]. left. by do 2 eexists. }
  rewrite (proj2 (Z.leb_gt _ _) Hw), (proj2 (Z.leb_gt _ _) Hh). cbn [orb]. intros E.
  apply obind_Ret in E as (model & Emodel & E). apply obind_Ret in E as (h & Eh & E).
  destruct (check_IBL_frame rd env page index (imageName h) g m0) as (HM & HI & HG).
  destruct (check_IBL _ _ _ _ _ _ _) as [[[u p] g1] m1]. cbn [snd] in HM, HI, HG.
  apply obind_Ret in E as (cached & Ecached & E).
  unfold header_of in Eh. destruct (file model) as [f|] eqn:Ef; [|done].
  destruct (model_at m0 page index) as [model0|] eqn:Em; [|done].
  injection Emodel as ->. unfold determined in Ecached.
  destruct (m_ModelImages m1 !! page ≫= _) as [c0|] eqn:Ec; [|done]. injection Ecached as ->.
  assert (model_at m1 page index = Some model) as Em1 by (unfold model_at; by rewrite HM).
  destruct (negb (m_HasChanged model) && _ && _) eqn:Hhit.
  { injection E as <- <- <-. apply andb_prop in Hhit as [Hhit Hch].
    apply andb_prop in Hhit as [Hcl Hcw]. zbool. split; [done|]. right.
    split; [|split; [exact Ec|by rewrite HG, Hgpu]].
    exists model, f. split_and!; [done..|]. by destruct (m_HasChanged model). }
  apply obind_Ret in E as (r0 & _ & E). revert E. cbv zeta.
  destruct (SFleb _ _ || SFleb _ _); intros E.
  { injection E as <- <- <-. split; [by apply filled_size|]. left. by do 2 eexists. }
  apply obind_Ret in E as (model' & Eset & E). apply setProjection_identity in Eset as (_ & _ & Eset & _). rewrite Ef in Eset.
  assert (m_Models (EnsureCachedRequestSize (Z.of_nat page) m1) = m_Models m1 /\
          m_ModelImages (EnsureCachedRequestSize (Z.of_nat page) m1) = m_ModelImages m1) as [HM2 HI2].
  { unfold EnsureCachedRequestSize. by destruct (_ <=? _). }
  injection E as <- <- <-. rewrite Eset. split; [done|]. split.
  - eapply model_at_set_model. unfold model_at. rewrite HM2. exact Em1.
  - unfold image_at. change (m_ModelImages (set_model ?a ?b ?c ?m)) with (m_ModelImages m).
    rewrite HI2. exact Ec.
Qed.

(** The kept image answers the next request of its size. *)
Lemma served_again d qm fe vk rd env page index g m i :
  0 < img_width i -> 0 < img_height i -> served page index i m ->
  exists g' m', RenderModel d qm fe vk rd env page index (img_width i) (img_height i) g m =
    Ret (i, g', m') /\ m_Models m' = m_Models m /\ m_ModelImages m' = m_ModelImages m.
Proof.
  intros Hw Hh ((model & f & Hm & Hf & Hc) & Hi & [gpu Hg]). unfold RenderModel, RenderModel_request.
  assert (ensureHeadlessRenderer fe vk m = m) as ->.
  { unfold ensureHeadlessRenderer. by rewrite Hg. }
  rewrite Hg, (proj2 (Z.leb_gt _ _) Hw), (proj2 (Z.leb_gt _ _) Hh). cbn [orb].
  rewrite Hm. cbn [determined obind]. unfold header_of. rewrite Hf. cbn [obind].
  destruct (check_IBL_frame rd env page index (imageName (headerInfo f)) g m) as (HM & HI & _).
  destruct (check_IBL _ _ _ _ _ _ _) as [[[u p] g1] m1]. cbn [snd] in HM, HI.
  unfold image_at in Hi. rewrite <- HI in Hi. rewrite Hi. cbn [determined obind].
  rewrite Hc, !Z.eqb_refl. cbn [negb andb]. eauto.
Qed.

(** The size and the kind of the image. *)
Lemma RenderModel_image d qm fe vk rd env page index width height g m i g' m' :
  0 < width -> 0 < height ->
  RenderModel d qm fe vk rd env page index width height g m = Ret (i, g', m') ->
  (img_width i = width /\ img_height i = height) /\
  (fallback width height i \/ served page index i m').
Proof.
  intros Hw Hh. unfold RenderModel. intros E. apply obind_Ret in E as ([[r g1] m1] & Er & E).
  apply RenderModel_request_spec in Er; [|done..]. destruct r as [i0|[[[u p] cached] model]].
  { by injection E as <- <- <-. }
  destruct Er as ([f Hf] & Hm & Hi). apply obind_Ret in E as ([[[[qu gpu] x] g2] m2] & Eq & E).
  eapply RenderModel_queue_spec in Eq as (<- & Hx & Hm2 & Hi2); [|done..].
  by eapply RenderModel_draw_spec.
Qed.

Lemma attempt_image throws d qm fe vk rd env page index width height g m i g' m' :
  0 < width -> 0 < height ->
  attempt_RenderModel d qm fe vk rd env throws page index width height g m = Ret (Some i, g', m') ->
  img_width i = width /\ img_height i = height.
Proof.
  intros Hw Hh. unfold attempt_RenderModel. destruct throws; intros E.
  - apply obind_Ret in E as ([[[i0|[[[u p] cached] model]] g1] m1] & Er & E).
    + injection E as <- _ _. by apply RenderModel_request_spec in Er as [Hi _].
    + by apply obind_Ret in E as ([[[[qu gpu] x] g2] m2] & _ & E).
  - apply obind_Ret in E as ([[i0 g1] m1] & Er & E). injection E as <- _ _.
    by apply RenderModel_image in Er as [Hi _].
Qed.
End RenderProps.

(** C22: The contract of [RenderModel] for a request of positive size, on every
    path: the image has the requested size, and either it is a one-coloured
    fallback or it is the image the manager now keeps for a model that is up to
    date; in that case the same request is answered again with the same image,
    nothing is drawn and neither models nor images change, whatever the device
    and the image library have become. *)
Theorem RenderModel_spec {glm : Glm} {libm : Libm} {img : Images} {growth : Growth}
    {imgok : ImagesOk} d qm fe vk rd env page index width height g m i g' m' :
  0 < width -> 0 < height ->
  RenderModel d qm fe vk rd env page index width height g m = Ret (i, g', m') ->
  (img_width i = width /\ img_height i = height) /\
  (fallback width height i \/
   (served page index i m' /\
    forall d2 qm2 fe2 vk2 rd2 env2 g2, exists g3 m3,
      RenderModel d2 qm2 fe2 vk2 rd2 env2 page index width height g2 m' = Ret (i, g3, m3) /\
      m_Models m3 = m_Models m' /\ m_ModelImages m3 = m_ModelImages m')).
Proof.
  intros Hw Hh E. destruct (RenderModel_image _ _ _ _ _ _ _ _ _ _ _ _ _ _ _ Hw Hh E) as [[Hiw Hih] Hs].
  split; [done|]. destruct Hs as [|Hs]; [by left|right]. split; [done|]. intros.
  rewrite <- Hiw in Hw |- *. rewrite <- Hih in Hh |- *.
  by apply served_again.
Qed.

(** ** A concrete request *)

#[local] Existing Instances glm_token libm_token images_token growth_token.

#[local] Instance images_token_ok : ImagesOk (img := images_token).
Proof. split; done. Qed.

Definition sample_frame : Frame := mkFrame (replicate 8 Byte.x2a) 8 8.
Definition sample_render_device : Device :=
  mkDevice 16384 16384 true (fun b => b <=? 16000000) (fun _ => false) 0 0 false sample_frame.
Definition sample_queue : Queue -> Buffers := fun _ => mkBuffers true false false false false.
Definition sample_manager : Manager :=
  match AddModel (fun _ => true) true sample_model 0 (initialManager (Some 3) 0) with
  | Ret m => m <| m_CachedRequestSizes := [mkRequest (1, 1) 1 d1] |>
  | _ => initialManager None 0
  end.
#[local] Abbreviation sample_RenderModel :=
  (RenderModel sample_render_device sample_queue (fun _ => true) true (fun _ => false)
    (mkEnv None []) 0 0 1 1 initialGlobals sample_manager).
Definition rendered_manager : Manager :=
  match sample_RenderModel with Ret (_, _, m) => m | _ => initialManager None 0 end.
Definition rendered_globals : Globals :=
  match sample_RenderModel with Ret (_, g, _) => g | _ => initialGlobals end.
Definition rendered_image : QImage := (1, 1, replicate 4 Byte.x2a).

Lemma sample_RenderModel_ret :
  sample_RenderModel = Ret (rendered_image, rendered_globals, rendered_manager).
Proof.
  assert (match sample_RenderModel with Ret (i, _, _) => i = rendered_image | _ => False end) as Hs
    by (vm_compute; reflexivity).
  unfold rendered_globals, rendered_manager.
  destruct sample_RenderModel as [[[i g] m]| |]; [by rewrite Hs | contradiction..].
Qed.

Lemma RenderModel_spec_witness :
  img_width rendered_image = 1 /\
  (fallback 1 1 rendered_image \/ served 0 0 rendered_image rendered_manager).
Proof.
  destruct (RenderModel_spec sample_render_device sample_queue (fun _ => true) true (fun _ => false)
    (mkEnv None []) 0 0 1 1 initialGlobals sample_manager rendered_image rendered_globals
    rendered_manager eq_refl eq_refl sample_RenderModel_ret) as [[Hw _] Hs].
  split; [exact Hw|]. destruct Hs as [Hf|[Hs _]]; [left; exact Hf | right; exact Hs].
Defined.

Lemma frame_pixels_spec_witness :
  exists px, frame_pixels sample_frame 1 1 = Ret px /\ Z.of_nat (length px) = 4.
Proof.
  destruct (frame_pixels_spec sample_frame 1 1 eq_refl eq_refl eq_refl) as (px & E & Hl & _).
  - repeat split; vm_compute; discriminate.
  - exists px. split; [exact E|exact Hl].
Defined.

Lemma clamped_frame_undefined_witness : frame_pixels sample_frame 1 2 = Undef.
Proof.
  apply clamped_frame_undefined; [reflexivity|reflexivity|discriminate|discriminate|].
  left. reflexivity.
Defined.
