(* ===== verification/IblDownload.v ===== *)
(** * The model manager: downloading an environment map

    [v3d-Common/V3dModelManager.cpp]: [performIBLDownload], the replies of the
    network ([onIBLDownloadReplyFinished]) and [onIBLDownloadComplete].

    All of it runs on the main thread; the replies arrive in any order, between
    other events.  [in_flight] lists the replies that can still finish, each with
    the QNetworkAccessManager that owns it: deleting a network manager deletes
    its replies. *)

From stdpp Require Import sorting.
From S2P Require Import Prelude Ieee Xstream Bound V3dData IblName IblPath Renderer Model Manager.
From S2P Require Import PageView.

(** ** The world of a download *)

(** The answer to the message box, the file system, the environment and the
    network manager that is created. *)
Record DownloadWorld := mkDownloadWorld {
  answer_yes : bool;
  mkpath : string -> bool;
  dir_exists : string -> bool;
  file_exists : string -> bool;
  OKULAR_V3D_IMAGE_URL : option string;
  new_net_manager : object
}.

Definition baseUrl (dw : DownloadWorld) : string :=
  match OKULAR_V3D_IMAGE_URL dw with
  | Some (b :: u) => b :: u
  | _ => bytes_of "https://vectorgraphics.gitlab.io/asymptote/ibl"
  end.

(** A finished reply. *)
Record Reply := mkReply {
  reply_manager : object;
  reply_task : DownloadTask;
  reply_error : bool;
  reply_contentType : string;
  reply_data : list Byte.byte;
  reply_opens : bool              (* the local file can be opened for writing *)
}.

(** [QString::toLower] on ASCII, and [QString::contains]. *)
Definition lower (b : Byte.byte) : Byte.byte :=
  let z := Byte.to_N b in
  if (N.leb 65 z && N.leb z 90)%N then default b (Byte.of_N (z + 32)) else b.
Fixpoint is_prefix (p s : string) : bool :=
  match p, s with
  | [], _ => true
  | a :: p, b :: s => bool_decide (a = b) && is_prefix p s
  | _ :: _, [] => false
  end.
Fixpoint contains (p s : string) : bool :=
  is_prefix p s || match s with [] => false | _ :: s => contains p s end.

Definition is_html (r : Reply) : bool :=
  contains (bytes_of "text/html") (lower <$> reply_contentType r).

Section Download.
Context {glm : Glm} {img : Images} {growth : Growth}.

(** The elements of a [std::set] of page numbers, ascending. *)
Definition ascending (pages : gset nat) : list nat := merge_sort (≤)%nat (elements pages).

Definition schedule_pages (pages : gset nat) (m : Manager) : Manager :=
  foldl (fun m p => scheduleRefreshPixmap (Z.of_nat p) 25 m) m (ascending pages).

(** ** [onIBLDownloadComplete] *)

Definition delete_net_manager (m : Manager) : Manager :=
  match m_IBLNetManager m with
  | None => m
  | Some o => emit (DeleteNetManager o) m <| m_IBLNetManager := None |>
                <| in_flight ::= filter (fun x => fst x <> o) |>
  end.

(** [m_HasChanged = true] for a tracked model, if it is there. *)
Definition mark_changed (key : nat * nat) (m : Manager) : Manager :=
  match model_at m (fst key) (snd key) with
  | Some model => set_model (fst key) (snd key) (set_m_HasChanged true model) m
  | None => m
  end.

Definition onIBLDownloadComplete (m : Manager) : Manager :=
  let m := delete_net_manager m in
  let missing := m_ModelsWithMissingIBL m in
  let m := foldr mark_changed m (elements missing) in
  schedule_pages (set_map fst missing) (m <| m_ModelsWithMissingIBL := ∅ |>).

(** ** [onIBLDownloadReplyFinished] *)

Definition count_down (m : Manager) : Manager :=
  let m := m <| m_PendingDownloadCount ::= fun c => c - 1 |> in
  if m_PendingDownloadCount m =? 0 then onIBLDownloadComplete m else m.

Definition onIBLDownloadReplyFinished (r : Reply) (m : Manager) : Manager :=
  if m_Destroying m then m
  else if reply_error r then count_down m
  else if is_html r then count_down m
  else
    let content := reply_data r in
    let m := if negb (bool_decide (content = [])) && reply_opens r
             then emit (WriteFile (localPath (reply_task r)) content) m else m in
    count_down m.

(** The network finishes a reply that is in flight. *)
Definition reply_key (r : Reply) : object * DownloadTask := (reply_manager r, reply_task r).
Definition remove_reply (k : object * DownloadTask) (l : list (object * DownloadTask)) :
    list (object * DownloadTask) :=
  match list_find (fun x => x = k) l with
  | Some (i, _) => delete i l
  | None => l
  end.
Definition finish (r : Reply) (m : Manager) : option Manager :=
  if bool_decide (reply_key r ∈ in_flight m)
  then Some (onIBLDownloadReplyFinished r (m <| in_flight ::= remove_reply (reply_key r) |>))
  else None.

(** ** [performIBLDownload] *)

(** The pages of the tracked models that show the map, and the set without
    those models.  A model of the manager has a file: [AddModel] has read it. *)
Definition shows (name : string) (m : Manager) (key : nat * nat) : bool :=
  match model_at m (fst key) (snd key) with
  | Some model => match file model with
                  | Some f => bool_decide (normalizeIBLName (imageName (headerInfo f)) = name)
                  | None => false
                  end
  | None => false
  end.

Definition decline (name : string) (m : Manager) : Manager :=
  let m := m <| m_IBLDeclinedNames ::= union {[ name ]} |> in
  let missing := m_ModelsWithMissingIBL m in
  let erased := filter (fun k => shows name m k = true) missing in
  schedule_pages (set_map fst erased) (m <| m_ModelsWithMissingIBL := missing ∖ erased |>).

Definition start_task (dw : DownloadWorld) (reflLocal : string) (m : Manager) (t : DownloadTask) :
    Manager :=
  if bool_decide (localPath t = reflLocal) && file_exists dw (localPath t) then m
  else emit (HttpGet (baseUrl dw ++ [slash] ++ remoteFile t) (localPath t)) m
         <| in_flight ::= fun l => l ++ [(new_net_manager dw, t)] |>
         <| m_PendingDownloadCount ::= fun c => c + 1 |>.

Definition performIBLDownload (dw : DownloadWorld) (env : Env) (imageName iblBase : string)
    (m : Manager) : Manager :=
  let name := normalizeIBLName imageName in
  if negb (iblNameOK name) then m
  else
    let base := download_base env iblBase in
    let envDir := base ++ [slash] ++ name in
    let tasks := download_tasks base name in
    if negb (answer_yes dw) then decline name m
    else if negb (mkpath dw envDir) then m
    else if negb (dir_exists dw base) && negb (mkpath dw base) then m
    else
      let m := m <| m_IBLNetManager := Some (new_net_manager dw) |>
                 <| m_PendingDownloadCount := 0 |> in
      let m := foldl (start_task dw (base ++ [slash] ++ refl_exr)) m tasks in
      if m_PendingDownloadCount m =? 0 then onIBLDownloadComplete (delete_net_manager m) else m.
End Download.

(** ** Lemmas *)

Section DownloadLemmas.
Context {glm : Glm} {img : Images} {growth : Growth}.

(** What a reply writes. *)
Definition write_of (r : Reply) : list action :=
  if negb (reply_error r) && negb (is_html r) && negb (bool_decide (reply_data r = [])) && reply_opens r
  then [WriteFile (localPath (reply_task r)) (reply_data r)] else [].

Fixpoint finish_all (rs : list Reply) (m : Manager) : option Manager :=
  match rs with
  | [] => Some m
  | r :: rs => finish r m ≫= finish_all rs
  end.

Lemma finish_all_app rs1 rs2 m :
  finish_all (rs1 ++ rs2) m = finish_all rs1 m ≫= finish_all rs2.
Proof. revert m. induction rs1 as [|r rs1 IH]; intros m; [done|].
  cbn. destruct (finish r m); [apply IH|done].
Qed.

Lemma remove_reply_perm k l : k ∈ l -> l ≡ₚ k :: remove_reply k l.
Proof.
  intros Hk. unfold remove_reply. destruct (list_find (fun x => x = k) l) as [[i x]|] eqn:E.
  - apply list_find_Some in E as (Hi & -> & _). by apply delete_Permutation.
  - apply list_find_None in E. rewrite Forall_forall in E. by apply E in Hk.
Qed.

(** The state between replies: what finishing the replies [rs] has done. *)
Record waited (rs : list Reply) (m m' : Manager) : Prop := {
  w_models : m_Models m' = m_Models m;
  w_missing : m_ModelsWithMissingIBL m' = m_ModelsWithMissingIBL m;
  w_net : m_IBLNetManager m' = m_IBLNetManager m;
  w_destroying : m_Destroying m' = m_Destroying m;
  w_count : m_PendingDownloadCount m' = m_PendingDownloadCount m - Z.of_nat (length rs);
  w_effects : effects m' = effects m ++ flat_map write_of rs;
  w_flight : in_flight m ≡ₚ (reply_key <$> rs) ++ in_flight m'
}.

Lemma waited_nil m : waited [] m m.
Proof. split; cbn [flat_map length Z.of_nat]; rewrite ?app_nil_r; try done. lia. Qed.

Lemma waited_trans rs1 rs2 m1 m2 m3 :
  waited rs1 m1 m2 -> waited rs2 m2 m3 -> waited (rs1 ++ rs2) m1 m3.
Proof.
  intros [] []. split; try congruence.
  - rewrite length_app. lia.
  - rewrite flat_map_app. rewrite app_assoc. congruence.
  - etrans; [done|]. rewrite fmap_app, <- app_assoc. by f_equiv.
Qed.

(** One reply: the count goes down, and at 0 the download is complete. *)
Lemma finish_cases r m :
  reply_key r ∈ in_flight m -> m_Destroying m = false ->
  exists m1, waited [r] m m1 /\
    finish r m = Some (if m_PendingDownloadCount m =? 1 then onIBLDownloadComplete m1 else m1).
Proof.
  intros Hin Hd. unfold finish. rewrite bool_decide_true by done.
  set (m0 := m <| in_flight ::= remove_reply (reply_key r) |>).
  exists (m0 <| effects ::= fun l => l ++ write_of r |> <| m_PendingDownloadCount ::= fun c => c - 1 |>).
  split.
  - split; try done. 1: by rewrite <- (app_nil_r (flat_map write_of [r])); cbn; rewrite !app_nil_r.
    by apply remove_reply_perm.
  - f_equal. unfold onIBLDownloadReplyFinished.
    change (m_Destroying m0) with (m_Destroying m). rewrite Hd.
    assert (forall l, count_down (m0 <| effects ::= fun e => e ++ l |>) =
              (let m1 := m0 <| effects ::= fun e => e ++ l |>
                            <| m_PendingDownloadCount ::= fun c => c - 1 |> in
               if m_PendingDownloadCount m =? 1 then onIBLDownloadComplete m1 else m1)) as Hc.
    { intros l. unfold count_down. cbv zeta.
      change (m_PendingDownloadCount (_ <| m_PendingDownloadCount ::= _ |>))
        with (m_PendingDownloadCount m - 1).
      replace (m_PendingDownloadCount m - 1 =? 0) with (m_PendingDownloadCount m =? 1)
        by (destruct (Z.eqb_spec (m_PendingDownloadCount m) 1), (Z.eqb_spec (m_PendingDownloadCount m - 1) 0); lia).
      done. }
    assert (m0 <| effects ::= fun e => e ++ [] |> = m0) as Hnil.
    { unfold m0. destruct m. cbn. by rewrite app_nil_r. }
    cbv zeta in Hc. unfold write_of. destruct (reply_error r); cbn [negb andb];
      [rewrite <- Hc, Hnil; done|].
    destruct (is_html r); cbn [negb andb]; [rewrite <- Hc, Hnil; done|].
    destruct (negb (bool_decide _) && reply_opens r); [exact (Hc _)|rewrite <- Hc, Hnil; done].
Qed.
End DownloadLemmas.

Section CompleteLemmas.
Context {glm : Glm} {img : Images} {growth : Growth}.

(** The models after the tracked ones were marked. *)
Definition marked (keys : list (nat * nat)) (m m' : Manager) : Prop :=
  forall p i, model_at m' p i =
    if bool_decide ((p, i) ∈ keys) then set_m_HasChanged true <$> model_at m p i
    else model_at m p i.

(** Everything but the models. *)
Definition same_rest (m m' : Manager) : Prop := m' = m <| m_Models := m_Models m' |>.

Lemma mark_changed_rest k m : same_rest m (mark_changed k m).
Proof.
  unfold same_rest, mark_changed. destruct (model_at m k.1 k.2); by destruct m.
Qed.

Lemma same_rest_trans m1 m2 m3 : same_rest m1 m2 -> same_rest m2 m3 -> same_rest m1 m3.
Proof. unfold same_rest. intros -> ->. by destruct m1. Qed.

Lemma mark_all_rest keys m : same_rest m (foldr mark_changed m keys).
Proof.
  induction keys as [|k keys IH]; [by destruct m|]. cbn [foldr].
  eapply same_rest_trans; [exact IH|apply mark_changed_rest].
Qed.

Lemma mark_all_marked keys m : NoDup keys -> marked keys m (foldr mark_changed m keys).
Proof.
  induction 1 as [|[p0 i0] keys Hk Hnd IH]; intros p i; [done|]. cbn [foldr].
  set (m1 := foldr mark_changed m keys) in *. unfold mark_changed. cbn [fst snd].
  destruct (decide ((p0, i0) = (p, i))) as [[= -> ->]|Hne].
  - rewrite (bool_decide_true ((p, i) ∈ (p, i) :: keys)) by by left.
    specialize (IH p i). rewrite bool_decide_false in IH by done. rewrite <- IH.
    destruct (model_at m1 p i) as [x|] eqn:E; [|done]. cbn. by eapply model_at_set_model.
  - transitivity (model_at m1 p i).
    { destruct (model_at m1 p0 i0); [|done]. by apply model_at_set_model_ne. }
    rewrite (bool_decide_ext ((p, i) ∈ (p0, i0) :: keys) ((p, i) ∈ keys)); [apply IH|].
    rewrite elem_of_cons. naive_solver.
Qed.

Lemma schedule_pages_effects pages m :
  schedule_pages pages m =
  m <| effects ::= fun l => l ++ ((fun p => StartRefreshTimer (Z.of_nat p) 25) <$> ascending pages) |>.
Proof.
  unfold schedule_pages. generalize (ascending pages). intros l. revert m.
  induction l as [|p l IH]; intros m; cbn [foldl fmap list_fmap].
  - destruct m. cbn. by rewrite app_nil_r.
  - rewrite IH. destruct m. cbn. by rewrite <- app_assoc.
Qed.

(** What completing a download of the network manager [o] has done. *)
Record completed (o : object) (m m' : Manager) : Prop := {
  c_models : marked (elements (m_ModelsWithMissingIBL m)) m m';
  c_missing : m_ModelsWithMissingIBL m' = ∅;
  c_net : m_IBLNetManager m' = None;
  c_count : m_PendingDownloadCount m' = m_PendingDownloadCount m;
  c_destroying : m_Destroying m' = m_Destroying m;
  c_flight : in_flight m' = filter (fun x => fst x <> o) (in_flight m);
  c_effects : effects m' = effects m ++ DeleteNetManager o ::
    ((fun p => StartRefreshTimer (Z.of_nat p) 25) <$>
       ascending (set_map fst (m_ModelsWithMissingIBL m)))
}.

Lemma complete_completed o m :
  m_IBLNetManager m = Some o -> completed o m (onIBLDownloadComplete m).
Proof.
  intros Ho. unfold onIBLDownloadComplete, delete_net_manager. rewrite Ho.
  set (m0 := emit (DeleteNetManager o) m <| m_IBLNetManager := None |>
               <| in_flight ::= filter (fun x => fst x <> o) |>).
  change (m_ModelsWithMissingIBL m0) with (m_ModelsWithMissingIBL m).
  set (keys := elements (m_ModelsWithMissingIBL m)).
  pose proof (mark_all_rest keys m0) as Hr.
  pose proof (mark_all_marked keys m0 (NoDup_elements _)) as Hm.
  rewrite schedule_pages_effects. revert Hr Hm.
  generalize (foldr mark_changed m0 keys). intros m1 Hr Hm. rewrite Hr.
  split; try reflexivity.
  - exact Hm.
  - cbn. by rewrite <- app_assoc.
Qed.

Lemma finish_one r m :
  reply_key r ∈ in_flight m -> m_Destroying m = false -> m_PendingDownloadCount m <> 1 ->
  exists m1, finish r m = Some m1 /\ waited [r] m m1.
Proof.
  intros Hin Hd Hc. destruct (finish_cases r m Hin Hd) as (m1 & Hw & E).
  rewrite (proj2 (Z.eqb_neq _ _) Hc) in E. eauto.
Qed.

(** Replies finish, in any order, without the count passing 0. *)
Lemma finish_quiet rs rest m :
  in_flight m ≡ₚ (reply_key <$> rs) ++ rest -> m_Destroying m = false ->
  Z.of_nat (length rs) < m_PendingDownloadCount m \/ m_PendingDownloadCount m <= 0 ->
  exists m1, finish_all rs m = Some m1 /\ waited rs m m1.
Proof.
  revert m. induction rs as [|r rs IH]; intros m Hp Hd Hc; [eauto using waited_nil|].
  destruct (finish_one r m) as (m1 & E1 & W1); [|done|cbn in Hc; lia|].
  { rewrite Hp. by left. }
  destruct (IH m1) as (m2 & E2 & W2).
  - apply (Permutation_cons_inv (a := reply_key r)). rewrite <- Hp. symmetry. apply W1.
  - by rewrite (w_destroying _ _ _ W1).
  - rewrite (w_count _ _ _ W1). cbn [length] in *. lia.
  - exists m2. cbn [finish_all]. rewrite E1. split; [done|]. exact (waited_trans [r] rs _ _ _ W1 W2).
Qed.

(** The reply that brings the count to 0 completes the download. *)
Lemma finish_counted rs o m :
  rs <> [] -> (exists rest, in_flight m ≡ₚ (reply_key <$> rs) ++ rest) -> m_Destroying m = false ->
  m_IBLNetManager m = Some o -> m_PendingDownloadCount m = Z.of_nat (length rs) ->
  exists m1 m2, finish_all rs m = Some m2 /\ waited rs m m1 /\ completed o m1 m2.
Proof.
  intros Hne [rest Hp] Hd Ho Hc. destruct (exists_last Hne) as (rs1 & r & ->).
  rewrite length_app in Hc. cbn in Hc. rewrite fmap_app, <- app_assoc in Hp. cbn in Hp.
  destruct (finish_quiet rs1 (reply_key r :: rest) m Hp Hd) as (m1 & E1 & W1); [lia|].
  destruct (finish_cases r m1) as (m2 & W2 & E2).
  - assert (in_flight m1 ≡ₚ reply_key r :: rest) as ->; [|by left].
    apply (Permutation_app_inv_l (reply_key <$> rs1)). rewrite <- Hp. symmetry. apply W1.
  - by rewrite (w_destroying _ _ _ W1).
  - rewrite (w_count _ _ _ W1) in E2. rewrite (proj2 (Z.eqb_eq _ _)) in E2 by lia.
    exists m2, (onIBLDownloadComplete m2). split_and!.
    + rewrite finish_all_app, E1. cbn. by rewrite E2.
    + by eapply waited_trans.
    + apply complete_completed. by rewrite (w_net _ _ _ W2), (w_net _ _ _ W1).
Qed.
End CompleteLemmas.

(** ** Properties *)

Section DownloadProps.
Context {glm : Glm} {img : Images} {growth : Growth}.

(** The files that are asked for: all but a common one that is there. *)
Definition needed (dw : DownloadWorld) (base name : string) : list DownloadTask :=
  filter (fun t => negb (bool_decide (localPath t = base ++ [slash] ++ refl_exr) &&
                         file_exists dw (localPath t)) = true) (download_tasks base name).

(** The user accepts and the directories can be made. *)
Definition accepted (dw : DownloadWorld) (base name : string) : Prop :=
  iblNameOK name = true /\ answer_yes dw = true /\ mkpath dw (base ++ [slash] ++ name) = true /\
  (dir_exists dw base || mkpath dw base) = true.

Lemma start_tasks dw refl ts m :
  foldl (start_task dw refl) m ts =
  (let n := filter (fun t => negb (bool_decide (localPath t = refl) && file_exists dw (localPath t))
                             = true) ts in
   m <| effects ::= fun l => l ++ ((fun t => HttpGet (baseUrl dw ++ [slash] ++ remoteFile t)
                                               (localPath t)) <$> n) |>
     <| in_flight ::= fun l => l ++ ((fun t => (new_net_manager dw, t)) <$> n) |>
     <| m_PendingDownloadCount ::= fun c => c + Z.of_nat (length n) |>).
Proof.
  revert m. induction ts as [|t ts IH]; intros m; cbn [foldl].
  - destruct m. cbn. by rewrite !app_nil_r, Z.add_0_r.
  - rewrite IH. unfold start_task. cbv zeta.
    destruct (bool_decide (localPath t = refl) && file_exists dw (localPath t)) eqn:E.
    + rewrite filter_cons_False by (by rewrite E). done.
    + rewrite filter_cons_True by (by rewrite E). destruct m. cbn [fmap list_fmap length]. cbn.
      rewrite <- !app_assoc. cbn. f_equal. lia.
Qed.

Lemma needed_not_empty dw base name : needed dw base name <> [].
Proof.
  unfold needed. intros H.
  assert (mkTask (name ++ [slash] ++ diffuse_exr) ((base ++ [slash] ++ name) ++ [slash] ++ diffuse_exr)
            ∈ filter (fun t => negb (bool_decide (localPath t = base ++ [slash] ++ refl_exr) &&
                         file_exists dw (localPath t)) = true) (download_tasks base name)) as Hin.
  { apply list_elem_of_filter. split; [|by right; left]. cbn [localPath].
    rewrite bool_decide_false; [done|]. rewrite <- !app_assoc. intros Heq.
    apply app_inv_head, app_inv_head in Heq.
    assert (slash ∈ refl_exr) as Hs by (rewrite <- Heq; set_solver). clear -Hs.
    revert Hs. apply (bool_decide_unpack _). by vm_compute. }
  rewrite H in Hin. by apply elem_of_nil in Hin.
Qed.

(** Accepting a download starts one request for each file that is needed. *)
Lemma perform_accepted dw env imageName iblBase m :
  let base := download_base env iblBase in
  let name := normalizeIBLName imageName in
  accepted dw base name ->
  let m0 := performIBLDownload dw env imageName iblBase m in
  m_Models m0 = m_Models m /\ m_ModelsWithMissingIBL m0 = m_ModelsWithMissingIBL m /\
  m_Destroying m0 = m_Destroying m /\ m_IBLNetManager m0 = Some (new_net_manager dw) /\
  m_PendingDownloadCount m0 = Z.of_nat (length (needed dw base name)) /\
  in_flight m0 = in_flight m ++ ((fun t => (new_net_manager dw, t)) <$> needed dw base name).
Proof.
  intros base name (Hok & Hyes & Hmk & Hdir). unfold performIBLDownload. cbv zeta.
  fold name base. rewrite Hok, Hyes, Hmk. cbn [negb].
  assert (negb (dir_exists dw base) && negb (mkpath dw base) = false) as ->
    by (by destruct (dir_exists dw base), (mkpath dw base)).
  rewrite start_tasks. cbv zeta. fold (needed dw base name).
  match goal with |- context [if ?c =? 0 then _ else _] =>
    change c with (0 + Z.of_nat (length (needed dw base name))) end.
  pose proof (needed_not_empty dw base name). rewrite (proj2 (Z.eqb_neq _ 0)).
  2:{ destruct (needed dw base name); [done|cbn [length]; lia]. }
  split_and!; reflexivity.
Qed.
End DownloadProps.

(** C28: A download that the user accepts while no other is under way runs to its
    end, in whatever order the replies finish and whatever each of them is: one
    request per needed file; no model is touched before the last reply; with the
    last reply, and only then, every model that missed the map is marked as
    changed, none is tracked any more, each of their pages gets one refresh, and
    every file that arrived was written. *)
Theorem download_completes {glm : Glm} {img : Images} {growth : Growth}
    dw env imageName iblBase (m : Manager) :
  let base := download_base env iblBase in
  let name := normalizeIBLName imageName in
  m_Destroying m = false -> in_flight m = [] -> accepted dw base name ->
  let m0 := performIBLDownload dw env imageName iblBase m in
  in_flight m0 = (fun t => (new_net_manager dw, t)) <$> needed dw base name /\
  forall rs, reply_key <$> rs ≡ₚ in_flight m0 ->
    (forall rs1 rs2, rs = rs1 ++ rs2 -> rs2 <> [] ->
       exists m1, finish_all rs1 m0 = Some m1 /\ m_Models m1 = m_Models m /\
         m_ModelsWithMissingIBL m1 = m_ModelsWithMissingIBL m) /\
    exists m2, finish_all rs m0 = Some m2 /\
      marked (elements (m_ModelsWithMissingIBL m)) m m2 /\ m_ModelsWithMissingIBL m2 = ∅ /\
      m_IBLNetManager m2 = None /\ m_PendingDownloadCount m2 = 0 /\ in_flight m2 = [] /\
      effects m2 = effects m0 ++ flat_map write_of rs ++ DeleteNetManager (new_net_manager dw) ::
        ((fun p => StartRefreshTimer (Z.of_nat p) 25) <$>
           ascending (set_map fst (m_ModelsWithMissingIBL m))).
Proof.
  intros base name Hd Hf Hacc m0.
  destruct (perform_accepted dw env imageName iblBase m Hacc) as (HM & Hmiss & Hdes & Hnet & Hcnt & Hfl).
  fold m0 base name in HM, Hmiss, Hdes, Hnet, Hcnt, Hfl. rewrite Hf in Hfl.
  cbn [app] in Hfl. split; [exact Hfl|].
  clearbody m0. rewrite Hd in Hdes. intros rs Hp.
  assert (Z.of_nat (length rs) = m_PendingDownloadCount m0) as Hlen.
  { rewrite Hcnt. apply Permutation_length in Hp. rewrite Hfl, !length_fmap in Hp. f_equal. exact Hp. }
  split.
  - intros rs1 rs2 -> Hne. rewrite fmap_app in Hp.
    destruct (finish_quiet rs1 (reply_key <$> rs2) m0) as (m1 & E & W); [symmetry; exact Hp|done| |].
    { left. rewrite <- Hlen, length_app. destruct rs2; [done|cbn; lia]. }
    exists m1. split; [done|]. by rewrite (w_models _ _ _ W), (w_missing _ _ _ W).
  - destruct (finish_counted rs (new_net_manager dw) m0) as (m1 & m2 & E & W & C); try done.
    { intros ->. cbn in Hlen. pose proof (needed_not_empty dw base name).
      destruct (needed dw base name); [done|cbn in Hcnt; lia]. }
    { exists []. rewrite app_nil_r. symmetry. exact Hp. }
    assert (in_flight m1 = []) as Hf1.
    { apply nil_length_inv. pose proof (Permutation_length (w_flight _ _ _ W)) as H.
      apply Permutation_length in Hp. rewrite length_app in H. lia. }
    exists m2. split; [done|]. destruct C, W. rewrite w_missing0, Hmiss in *. split_and!; try done.
    + intros p i. rewrite (c_models0 p i). unfold model_at. by rewrite w_models0, HM.
    + rewrite c_count0, w_count0. lia.
    + by rewrite c_flight0, Hf1.
    + by rewrite c_effects0, w_effects0, <- app_assoc.
Qed.

(** Two downloads at once interfere: [performIBLDownload] resets the counter
    while replies of an earlier download are in flight, so after as many replies
    as the second one has files, of either download, the download is declared
    complete: the tracked models are refreshed and forgotten, the replies of the
    second that have not arrived are destroyed, and whatever still arrives from
    the first never refreshes a model. *)
Theorem overlapping_downloads_incomplete {glm : Glm} {img : Images} {growth : Growth}
    dw env imageName iblBase (m : Manager) :
  let base := download_base env iblBase in
  let name := normalizeIBLName imageName in
  m_Destroying m = false -> in_flight m <> [] -> accepted dw base name ->
  let m0 := performIBLDownload dw env imageName iblBase m in
  forall rs rest, in_flight m0 ≡ₚ (reply_key <$> rs) ++ rest ->
    length rs = length (needed dw base name) ->
    length rest = length (in_flight m) /\
    exists m2, finish_all rs m0 = Some m2 /\
      m_ModelsWithMissingIBL m2 = ∅ /\ m_IBLNetManager m2 = None /\
      in_flight m2 ≡ₚ filter (fun x => fst x <> new_net_manager dw) rest /\
      forall rs' rest', in_flight m2 ≡ₚ (reply_key <$> rs') ++ rest' ->
        exists m3, finish_all rs' m2 = Some m3 /\ m_Models m3 = m_Models m2 /\
          effects m3 = effects m2 ++ flat_map write_of rs'.
Proof.
  intros base name Hd Hf Hacc m0 rs rest Hp Hlen.
  destruct (perform_accepted dw env imageName iblBase m Hacc) as (HM & Hmiss & Hdes & Hnet & Hcnt & Hfl).
  fold m0 base name in HM, Hmiss, Hdes, Hnet, Hcnt, Hfl. clearbody m0. rewrite Hd in Hdes.
  assert (length rest = length (in_flight m)) as Hr.
  { apply Permutation_length in Hp. rewrite Hfl, !length_app, !length_fmap in Hp. lia. }
  split; [done|].
  destruct (finish_counted rs (new_net_manager dw) m0) as (m1 & m2 & E & W & C); try done.
  { intros ->. pose proof (needed_not_empty dw base name). by destruct (needed dw base name). }
  { eauto. }
  { by rewrite Hcnt, Hlen. }
  exists m2. split; [done|]. destruct C, W. split_and!; try done.
  - rewrite c_flight0. apply filter_Permutation. apply (Permutation_app_inv_l (reply_key <$> rs)).
    by rewrite <- Hp, w_flight0.
  - intros rs' rest' Hp'. destruct (finish_quiet rs' rest' m2 Hp') as (m3 & E3 & []).
    + congruence.
    + right. rewrite c_count0, w_count0, Hcnt. lia.
    + eauto.
Qed.

(** ** Concrete downloads *)

#[local] Existing Instances glm_token libm_token images_token growth_token.

Definition sample_download : DownloadWorld :=
  mkDownloadWorld true (fun _ => true) (fun _ => true) (fun _ => true) None 21.
Definition sample_reply (t : object * DownloadTask) : Reply :=
  mkReply (fst t) (snd t) false (bytes_of "image/x-exr") [Byte.x2a] true.
Definition tracking_manager : Manager :=
  (initialManager (Some 3) 0) <| m_ModelsWithMissingIBL := {[ (0%nat, 0%nat) ]} |>.
Definition downloading : Manager :=
  performIBLDownload sample_download sample_env (bytes_of "field") (bytes_of "/ibl") tracking_manager.

Lemma sample_accepted : accepted sample_download (download_base sample_env (bytes_of "/ibl"))
                          (normalizeIBLName (bytes_of "field")).
Proof. split_and!; vm_compute; reflexivity. Qed.

Lemma download_completes_witness :
  length (in_flight downloading) = 12%nat /\
  exists m2, finish_all (sample_reply <$> in_flight downloading) downloading = Some m2 /\
    m_ModelsWithMissingIBL m2 = ∅ /\ m_PendingDownloadCount m2 = 0.
Proof.
  split; [vm_compute; reflexivity|].
  destruct (download_completes sample_download sample_env (bytes_of "field") (bytes_of "/ibl")
    tracking_manager eq_refl eq_refl sample_accepted) as [_ H].
  destruct (H (sample_reply <$> in_flight downloading)) as (_ & m2 & E & _ & Hm & _ & Hc & _).
  - replace (reply_key <$> (sample_reply <$> in_flight downloading)) with (in_flight downloading)
      by (vm_compute; reflexivity). reflexivity.
  - exists m2. exact (conj E (conj Hm Hc)).
Defined.

Definition second_download : DownloadWorld :=
  mkDownloadWorld true (fun _ => true) (fun _ => true) (fun _ => true) None 22.
Definition downloading_twice : Manager :=
  performIBLDownload second_download sample_env (bytes_of "snow") (bytes_of "/ibl") downloading.

Lemma second_accepted : accepted second_download (download_base sample_env (bytes_of "/ibl"))
                          (normalizeIBLName (bytes_of "snow")).
Proof. split_and!; vm_compute; reflexivity. Qed.

(** The twelve replies of the first download finish first: nothing of the second
    is left in flight. *)
Lemma overlapping_downloads_incomplete_witness :
  exists m2, finish_all (sample_reply <$> in_flight downloading) downloading_twice = Some m2 /\
    m_ModelsWithMissingIBL m2 = ∅ /\ in_flight m2 = [].
Proof.
  destruct (overlapping_downloads_incomplete second_download sample_env (bytes_of "snow")
    (bytes_of "/ibl") downloading eq_refl ltac:(vm_compute; discriminate) second_accepted
    (sample_reply <$> in_flight downloading) (drop 12 (in_flight downloading_twice)))
    as (_ & m2 & E & Hm & _ & Hf & _).
  - change (in_flight downloading_twice ≡ₚ
      (reply_key <$> (sample_reply <$> in_flight downloading)) ++ drop 12 (in_flight downloading_twice)).
    replace (reply_key <$> (sample_reply <$> in_flight downloading))
      with (take 12 (in_flight downloading_twice)) by (vm_compute; reflexivity).
    rewrite take_drop. reflexivity.
  - vm_compute. reflexivity.
  - exists m2. split; [exact E|]. split; [exact Hm|]. apply Permutation_nil. rewrite Hf.
    vm_compute. constructor.
Defined.
