(* ===== verification/Session.v ===== *)
(** * The model manager over a session

    The operations of the manager as the steps of a transition system, the
    invariant of every reachable state, and the properties that depend on the
    order of the operations: refreshes and the suppression of page renders,
    pointers into the vectors of models, the rebinding of the PageView.

    A step is one event, one pixmap request, one timer or one reply; each runs to
    its end before the next, which is what the main event loop and the models'
    mutex give. *)

From Stdlib Require Import Floats.SpecFloat.
From S2P Require Import Prelude Ieee Xstream Bound V3dData IblName IblPath Renderer Model Manager.
From S2P Require Import PageView HitTest Input Render IblDownload.

(** Take the first call of a bind in [H] apart. *)
Ltac ostep H :=
  let a := fresh "r" in let E := fresh "E" in apply obind_Ret in H as (a & E & H).

Section Session.
Context {glm : Glm} {libm : Libm} {img : Images} {growth : Growth}.

(** ** Hit tests only grow the cache of request sizes *)

Definition resized (m m' : Manager) : Prop :=
  m' = m <| m_CachedRequestSizes := m_CachedRequestSizes m' |>.

#[local] Instance resized_refl : Reflexive resized.
Proof. intros m. by destruct m. Qed.
#[local] Instance resized_trans : Transitive resized.
Proof. unfold resized. intros m1 m2 m3 -> ->. by destruct m1. Qed.

Lemma resized_Ensure p m : resized m (EnsureCachedRequestSize p m).
Proof. unfold EnsureCachedRequestSize. destruct (_ <=? _); by destruct m. Qed.

Lemma resized_page_size dpr p m r m' : page_size dpr p m = Ret (r, m') -> resized m m'.
Proof. unfold page_size. intros E. ostep E. injection E as <- <-. apply resized_Ensure. Qed.

Lemma resized_horizontal dpr v l m r m' :
  horizontal_borders dpr v l m = Ret (r, m') -> resized m m'.
Proof.
  revert m r m'. induction l as [|[p rc] l IH]; intros m r m'; cbn [horizontal_borders];
    [by intros [= <- <-]|].
  intros E. ostep E. destruct r0 as [sz m1]. ostep E. destruct r0 as [bs m2]. injection E as <- <-.
  etrans; [by eapply resized_page_size|by eapply IH].
Qed.

Lemma resized_total dpr n i a m r m' : total_height dpr n i a m = Ret (r, m') -> resized m m'.
Proof.
  revert i a m. induction n as [|n IH]; intros i a m; cbn [total_height]; [by intros [= <- <-]|].
  intros E. ostep E. destruct r0 as [sz m1]. etrans; [by eapply resized_page_size|by eapply IH].
Qed.

Lemma resized_first dpr v f l n m r m' : first_vertical dpr v f l n m = Ret (r, m') -> resized m m'.
Proof.
  unfold first_vertical. intros E. ostep E. destruct r0 as [sz m1]. apply resized_page_size in E0.
  cbv zeta in E. cbn [fst snd] in E. destruct (is0 _).
  - ostep E. destruct r0 as [h m2]. injection E as <- <-. etrans; [done|by eapply resized_total].
  - by injection E as <- <-.
Qed.

Lemma resized_vertical dpr v lo bs m r m' :
  vertical_borders dpr v lo bs m = Ret (r, m') -> resized m m'.
Proof.
  revert lo m r m'. induction bs as [|b bs IH]; intros lo m r m'; cbn [vertical_borders];
    [by intros [= <- <-]|].
  intros E. ostep E. destruct r0 as [sz m1]. ostep E. destruct r0 as [bs' m2]. injection E as <- <-.
  etrans; [by eapply resized_page_size|by eapply IH].
Qed.

Lemma resized_visible w m r m' : GetPageBordersForVisiblePages w m = Ret (r, m') -> resized m m'.
Proof.
  unfold GetPageBordersForVisiblePages. destruct (pageView w m); [|by intros [= <- <-]].
  destruct (m_Document m); [|done]. cbv zeta.
  destruct (visible_pages w _) as [|[p rc] [|q rest]]; [by intros [= <- <-]| |].
  - intros E. ostep E. destruct r0 as [sz m1]. injection E as <- <-. by eapply resized_page_size.
  - intros E. ostep E. destruct r0 as [bs m1]. apply resized_horizontal in E0.
    ostep E. destruct r0 as [[h l] m2]. apply resized_first in E1. cbn [fst snd] in *.
    destruct bs; [injection E as <- <-; by etrans|].
    ostep E. destruct r0 as [bs' m3]. apply resized_vertical in E2. injection E as <- <-.
    etrans; [done|by etrans].
Qed.

Lemma resized_presentation w m r m' : GetPresentationPageBorders w m = Ret (r, m') -> resized m m'.
Proof.
  unfold GetPresentationPageBorders. repeat case_match; try done; try by intros [= <- <-].
  - intros [= <- <-]. apply resized_Ensure.
  - intros E. ostep E. revert E. case_match; intros [= <- <-]; apply resized_Ensure.
Qed.

Lemma resized_active w m r m' : GetActivePageBorders w m = Ret (r, m') -> resized m m'.
Proof.
  unfold GetActivePageBorders. intros E. ostep E. destruct r0;
    [by eapply resized_presentation|by eapply resized_visible].
Qed.

Lemma resized_over w m r m' : GetPageMouseIsOver w m = Ret (r, m') -> resized m m'.
Proof.
  unfold GetPageMouseIsOver. intros E. ostep E. destruct r0 as [bs m1]. ostep E.
  injection E as _ <-. by eapply resized_active.
Qed.

Lemma resized_normalized w pos p m r m' :
  GetNormalizedPositionRelativeToPage w pos p m = Ret (r, m') -> resized m m'.
Proof.
  unfold GetNormalizedPositionRelativeToPage. intros E. ostep E. destruct r0 as [bs m1].
  apply resized_active in E0. ostep E. destruct r0 as [sz m2]. cbn [fst snd] in *.
  assert (resized m1 m2) as H.
  { revert E1. unfold normalizing_size. intros E1. ostep E1. cbv zeta in E1.
    assert (forall r0 m0, (x <~ at_index (m_CachedRequestSizes (EnsureCachedRequestSize (size_t p) m1)) p;;
              Ret (scaled_size (size x) (GetDevicePixelRatio w), EnsureCachedRequestSize (size_t p) m1))
              = Ret (r0, m0) -> resized m1 m0) as Hc.
    { intros r1 m0 E3. ostep E3. injection E3 as _ <-. apply resized_Ensure. }
    destruct (r0 && _); [|by eapply Hc]. ostep E1.
    destruct (_ && _ && _); [by injection E1 as _ <-|by eapply Hc]. }
  cbv zeta in E. destruct (List.find _ _); [destruct (_ || _)|]; injection E as _ <-; by etrans.
Qed.

(** ** What an interaction leaves alone *)

(** The file of a model and its place on the page. *)
Definition ident (model : V3dModel) : option V3dFile * vec2 * vec2 :=
  (file model, m_minBound model, m_maxBound model).
Definition idents (m : Manager) : list (list (option V3dFile * vec2 * vec2)) :=
  fmap (M:=list) (fmap (M:=list) ident) (m_Models m).

Lemma model_at_idents m p i :
  ident <$> model_at m p i = idents m !! p ≫= fun l => l !! i.
Proof.
  unfold model_at, idents. rewrite list_lookup_fmap. destruct (m_Models m !! p) as [l|]; [|done].
  cbn. by rewrite list_lookup_fmap.
Qed.

Lemma place_idents m m' p i :
  idents m' = idents m -> is_Some (model_at m' p i) <-> is_Some (model_at m p i).
Proof.
  intros Hid. rewrite <- (fmap_is_Some ident (model_at m' p i)), <- (fmap_is_Some ident (model_at m p i)).
  by rewrite !model_at_idents, Hid.
Qed.

(** A model that is not marked for [remesh] has the draw mode its meshes were made
    for, except for the models [X], which have just been rendered. *)
Definition meshes_kept (X : nat -> nat -> Prop) (m m' : Manager) : Prop :=
  forall p i x x', model_at m p i = Some x -> model_at m' p i = Some x' -> X p i \/ mesh_kept x x'.

Section Keeps.
Context (X : nat -> nat -> Prop).

(** The models stay where they are with their file and place; the drag and the
    pending rebinding are as before; only models that exist become tracked. *)
Record keeps (m m' : Manager) : Prop := {
  k_meshes : meshes_kept X m m';
  k_idents : idents m' = idents m;
  k_images : shape (m_ModelImages m') = shape (m_ModelImages m);
  k_reallocs : m_Reallocs m' = m_Reallocs m;
  k_dragging : m_Dragging m' = m_Dragging m;
  k_active : m_ActiveModel m' = m_ActiveModel m;
  k_page : m_ActiveModelPage m' = m_ActiveModelPage m;
  k_pending : m_PendingRebindPosted m' = m_PendingRebindPosted m;
  k_queue : rebind_queue m' = rebind_queue m;
  k_missing p i : (p, i) ∈ m_ModelsWithMissingIBL m' ->
    (p, i) ∈ m_ModelsWithMissingIBL m \/ is_Some (model_at m p i)
}.

#[local] Instance keeps_refl : Reflexive keeps.
Proof.
  intros m. split; auto. intros p i x x' Hx Hx'. right. by simplify_eq.
Qed.
#[local] Instance keeps_trans : Transitive keeps.
Proof.
  intros a b c K1 K2. destruct K1 as [M1 H1], K2 as [M2 H2]. split; try congruence.
  - intros p i x z Hx Hz.
    assert (is_Some (model_at b p i)) as [y Hy] by (apply (place_idents _ _ _ _ H1); by rewrite Hx).
    destruct (M1 p i x y Hx Hy) as [?|K1]; [by left|]. destruct (M2 p i y z Hy Hz) as [?|K2]; [by left|].
    right. by etrans.
  - intros p i Hm. apply k_missing1 in Hm as [Hm|Hm]; [by apply k_missing0|].
    right. by apply (place_idents _ _ _ _ H1).
Qed.

(** An operation that touches none of this. *)
Lemma keeps_other m m' :
  m_Models m' = m_Models m -> m_ModelImages m' = m_ModelImages m -> m_Reallocs m' = m_Reallocs m ->
  m_Dragging m' = m_Dragging m -> m_ActiveModel m' = m_ActiveModel m ->
  m_ActiveModelPage m' = m_ActiveModelPage m -> m_PendingRebindPosted m' = m_PendingRebindPosted m ->
  rebind_queue m' = rebind_queue m -> m_ModelsWithMissingIBL m' ⊆ m_ModelsWithMissingIBL m ->
  keeps m m'.
Proof.
  intros HM HI ? ? ? ? ? ? Hs. split; try done; [|unfold idents; by rewrite HM|by rewrite HI|].
  - intros p i x x' Hx Hx'. unfold model_at in *. rewrite HM in Hx'. right. by simplify_eq.
  - intros p i Hm. left. by apply Hs.
Qed.

Lemma keeps_resized m m' : resized m m' -> keeps m m'.
Proof. intros ->. by apply keeps_other. Qed.

Lemma fmap_alter_insert {A B} (f : A -> B) (L : list (list A)) p i (x x' : A) :
  L !! p ≫= (fun l => l !! i) = Some x -> f x' = f x ->
  fmap (M:=list) (fmap (M:=list) f) (alter (fun l => <[i := x']> l) p L) =
  fmap (M:=list) (fmap (M:=list) f) L.
Proof.
  intros Hx Hf. apply list_eq. intros k. rewrite !list_lookup_fmap, list_lookup_alter.
  case_decide as Hk; [|done]. subst k. destruct (L !! p) as [l|]; [|done]. cbn in Hx |- *. f_equal.
  rewrite list_fmap_insert, Hf. apply list_insert_id. by rewrite list_lookup_fmap, Hx.
Qed.

Lemma keeps_set_model m p i x x' :
  model_at m p i = Some x -> ident x' = ident x -> X p i \/ mesh_kept x x' -> keeps m (set_model p i x' m).
Proof.
  intros Hx Hid HX. split; auto; [|exact (fmap_alter_insert ident (m_Models m) p i x x' Hx Hid)].
  intros q j y y' Hy Hy'. destruct (decide (q = p /\ j = i)) as [[-> ->]|Hne].
  - rewrite (model_at_set_model _ _ _ _ _ Hx) in Hy'. by simplify_eq.
  - rewrite model_at_set_model_ne in Hy' by (intros ?; destruct Hne; by simplify_eq). right. by simplify_eq.
Qed.

Lemma refreshPixmap_only w p m m' :
  refreshPixmap w p m = Ret m' ->
  m' = m <| effects := effects m' |> <| m_SuppressPageViewRender := m_SuppressPageViewRender m' |>.
Proof.
  unfold refreshPixmap. destruct (m_Pages m !! _) as [[page|]|]; [|by intros [= <-]; destruct m..].
  intros E. ostep E. revert E. cbv zeta. unfold refreshPresentation.
  repeat case_match; intros [= <-]; by destruct m.
Qed.

Lemma keeps_refresh w p m m' : refreshPixmap w p m = Ret m' -> keeps m m'.
Proof. intros ->%refreshPixmap_only. by apply keeps_other. Qed.

Lemma keeps_request w w' p m m' : requestPixmapRefresh w w' p m = Ret m' -> keeps m m'.
Proof.
  unfold requestPixmapRefresh. destruct (SFltb _ _); [|by intros [= <-]].
  intros E. ostep E. apply keeps_refresh in E0. injection E as <-. etrans; [exact E0|].
  by apply keeps_other.
Qed.

Lemma keeps_presentation w o t m m' :
  handlePresentationWidgetEvent w o t m = Ret m' -> keeps m m'.
Proof.
  unfold handlePresentationWidgetEvent. destruct (negb (is_presentation w o)); [by intros [= <-]|].
  destruct t; [| |by intros [= <-]].
  - destruct (negb _); [by intros [= <-]|]. case_bool_decide; [by intros [= <-]|]. cbv zeta.
    case_bool_decide; intros [= <-]; by apply keeps_other.
  - cbv zeta. set (m1 := m <| m_PresentationWidget := None |> <| m_SuppressPageViewRender := false |>).
    assert (keeps m m1) as H1 by by apply keeps_other. clearbody m1.
    destruct (m_Document m1); [|by intros [= <-]]. destruct (pageView w m1); [|by intros [= <-]].
    destruct (_ && _); [|by intros [= <-]]. intros E%keeps_refresh. by etrans.
Qed.

(** ** Interactions *)

Lemma ident_same m m' : same_identity m m' -> ident m' = ident m.
Proof. intros (H1 & H2 & H3 & _). unfold ident. congruence. Qed.

Lemma ident_home m : ident (home m) = ident m /\ mesh_kept m (home m).
Proof. split; [by destruct m|by left]. Qed.
Lemma ident_cycleMode m : ident (cycleMode m) = ident m /\ mesh_kept m (cycleMode m).
Proof. split; [by destruct m|by left]. Qed.

Lemma deref_Ret m p q i x :
  deref m p = Ret (q, i, x) ->
  model_at m q i = Some x /\ exists e, p = Some (mkPointer q i e) /\ m_Reallocs m !! q = Some e.
Proof.
  unfold deref. destruct p as [[q0 i0 e]|]; [|done]. cbn [ptr_page ptr_index ptr_epoch].
  case_bool_decide; [|done]. destruct (model_at m q0 i0) eqn:E; [|done]. intros [= <- <- <-]. eauto.
Qed.

Lemma keeps_take_position e m m' : take_position e m = Ret m' -> keeps m m'.
Proof.
  unfold take_position. intros E. ostep E. ostep E.
  injection E as <-. by apply keeps_other.
Qed.

Lemma keeps_drag_active w e m m' : drag_active w e m = Ret m' -> keeps m m'.
Proof.
  unfold drag_active. intros E. ostep E. destruct r as [n m1]. apply resized_normalized in E0.
  ostep E. destruct r as [l m2]. apply resized_normalized in E1. cbn [fst snd] in *.
  assert (keeps m m2) as K by (apply keeps_resized; by etrans). cbv zeta in E. clear E0 E1.
  ostep E. destruct r as [[q i] x]. apply deref_Ret in E0 as (Hx & _). cbn [fst snd] in *.
  ostep E. clear E0.
  assert (forall d a b c x' m3, keeps m2 m3 -> model_at m3 q i = Some x ->
            drag d a b c x = Ret x' -> keeps m2 (set_model q i x' m3)) as Hd.
  { intros d a b c x' m3 K3 Hx3 Ed. pose proof (drag_mesh _ _ _ _ _ _ Ed) as Hmesh.
    apply drag_identity in Ed as [Hid%ident_same _].
    etrans; [exact K3|]. eapply keeps_set_model; [exact Hx3|done|by right]. }
  etrans; [exact K|]. destruct (drag_of e).
  - ostep E. ostep E. injection E as <-.
    eapply Hd; [apply keeps_resized, resized_Ensure| |exact E1].
    pose proof (resized_Ensure (size_t (m_ActiveModelPage m)) m2) as Hr. rewrite Hr. exact Hx.
  - ostep E. injection E as <-. by eapply Hd.
  - ostep E. injection E as <-. by eapply Hd.
  - ostep E. injection E as <-. by eapply Hd.
Qed.

Lemma keeps_mouseMove w w' e m b m' : mouseMoveEvent w w' e m = Ret (b, m') -> keeps m m'.
Proof.
  unfold mouseMoveEvent. destruct (inactive w m); [by intros [= _ <-]|]. intros E. ostep E.
  apply keeps_take_position in E0. destruct (negb (m_Dragging r)); [injection E as _ <-; etrans; [exact E0|by apply keeps_other]|].
  ostep E. apply keeps_drag_active in E1. ostep E. apply keeps_request in E2.
  injection E as _ <-. etrans; [exact E0|]. etrans; [exact E1|]. etrans; [exact E2|].
  by apply keeps_other.
Qed.

Lemma keeps_wheel w w' dx dy m b m' : wheelEvent w w' dx dy m = Ret (b, m') -> keeps m m'.
Proof.
  unfold wheelEvent. destruct (inactive w m); [by intros [= _ <-]|].
  destruct (wheel_target m) as [[t page]|]; [|by intros [= _ <-]].
  intros E. ostep E. destruct r as [n m1]. apply resized_normalized in E0. cbn [fst snd] in *.
  ostep E. destruct r as [[q i] x]. apply deref_Ret in E1 as (Hx & _). cbn [fst snd] in *.
  destruct (negb (on_model n x)); [injection E as _ <-; by apply keeps_resized|].
  ostep E. ostep E. ostep E. ostep E. injection E as _ <-. apply keeps_request in E4.
  etrans; [|exact E4]. pose proof (resized_Ensure (size_t page) m1) as Hr.
  etrans; [apply keeps_resized; etrans; [exact E0|exact Hr]|].
  unfold wheel_zoom in E1. ostep E1. ostep E1. injection E1 as <-.
  apply (keeps_set_model _ _ _ x); [rewrite Hr; exact Hx| |].
  - apply setProjection_identity, ident_same in E3. by rewrite E3.
  - apply setProjection_mesh in E3. right. etrans; [|exact E3]. by right.
Qed.

Lemma keeps_key_action w act m b m' :
  (forall x, ident (act x) = ident x /\ mesh_kept x (act x)) ->
  key_action w act m = Ret (b, m') -> keeps m m'.
Proof.
  intros Hact. unfold key_action. intros E. ostep E. destruct r as [page m1].
  apply resized_over in E0. cbn [fst snd] in *. cbv zeta in E.
  destruct (_ || _); [injection E as _ <-; by apply keeps_resized|].
  ostep E. destruct r as [n m2]. apply resized_normalized in E1. cbn [fst snd] in *.
  assert (keeps m m2) as K by (apply keeps_resized; by etrans).
  ostep E. destruct (list_find _ r) as [[i x]|] eqn:Ef; [|by injection E as _ <-].
  ostep E. injection E as _ <-. apply keeps_refresh in E3. etrans; [exact K|]. etrans; [|exact E3].
  apply (keeps_set_model _ _ _ x); [|apply Hact|right; apply Hact].
  unfold at_index in E2. destruct (page <? 0); [done|]. apply list_find_Some in Ef as (Hi & _).
  unfold model_at. destruct (m_Models m2 !! Z.to_nat page); [|done]. by injection E2 as ->.
Qed.

(** ** Rendering and downloading *)

Lemma keeps_ensureHeadless fe vk m : keeps m (ensureHeadlessRenderer fe vk m).
Proof.
  unfold ensureHeadlessRenderer. destruct (_ || _); [done|]. case_bool_decide; by apply keeps_other.
Qed.

Lemma keeps_check_IBL rd env page index name g m :
  is_Some (model_at m page index) -> keeps m (check_IBL rd env page index name g m).2.
Proof.
  intros Hm. unfold check_IBL. destruct (is_empty _); [done|].
  destruct (negb (iblNameOK _)); [done|]. destruct (negb (is_empty _)); [done|].
  case_bool_decide; [done|].
  set (m1 := m <| m_ModelsWithMissingIBL ::= union {[ (page, index) ]} |>).
  assert (keeps m m1) as K.
  { split; try done; [intros q j y y' Hy Hy'; change (model_at m q j = Some y') in Hy'; right; by simplify_eq|].
    intros p i Hin. change ((p, i) ∈ {[ (page, index) ]} ∪ m_ModelsWithMissingIBL m) in Hin.
    apply elem_of_union in Hin as [Hin|?]; [|by left]. apply elem_of_singleton in Hin as [= -> ->].
    by right. }
  destruct (scheduleIBLPrompt _ _ _) as [pending [[n b]|]]; cbn [snd]; [|exact K].
  etrans; [exact K|]. by apply keeps_other.
Qed.

Lemma keeps_enter_model page index mode g m : keeps m (enter_model page index mode g m).2.
Proof. unfold enter_model. destruct (switchedModel _ _ _); by apply keeps_other. Qed.

Lemma keeps_images m p i (x : QImage) :
  keeps m (m <| m_ModelImages ::= alter (fun l => <[i := x]> l) p |>).
Proof.
  split; auto; [|exact (shape_alter_insert (m_ModelImages m) p i x)].
  intros q j y y' Hy Hy'. change (model_at m q j = Some y') in Hy'. right. by simplify_eq.
Qed.

Lemma keeps_request_part fe vk rd env page index width height g m r g' m' :
  RenderModel_request fe vk rd env page index width height g m = Ret (r, g', m') ->
  keeps m m' /\ match r with
    | inr (_, _, _, model) => model_at m' page index = Some model
    | inl _ => True
    end.
Proof.
  unfold RenderModel_request. pose proof (keeps_ensureHeadless fe vk m) as K0.
  set (m0 := ensureHeadlessRenderer fe vk m) in *. clearbody m0.
  destruct (m_HeadlessRenderer m0); [|by intros [= <- _ <-]].
  destruct (_ || _); [by intros [= <- _ <-]|]. intros E. ostep E. ostep E.
  unfold determined in E0. destruct (model_at m0 page index) as [x|] eqn:Hx; [|done].
  injection E0 as ->.
  pose proof (keeps_check_IBL rd env page index (imageName r1) g m0 (ltac:(by rewrite Hx))) as K1.
  destruct (check_IBL_frame rd env page index (imageName r1) g m0) as (HM & _).
  destruct (check_IBL _ _ _ _ _ _ _) as [[[u p] g1] m1]. cbn [snd] in *.
  assert (keeps m m1) as K by by etrans. clear K0 K1.
  assert (model_at m1 page index = Some r0) as Hx1 by (unfold model_at; by rewrite HM).
  ostep E. destruct (_ && _ && _); [by injection E as <- _ <-|]. ostep E. revert E. cbv zeta.
  pose proof (resized_Ensure (Z.of_nat page) m1) as Hr.
  assert (keeps m (EnsureCachedRequestSize (Z.of_nat page) m1)) as K2
    by (etrans; [exact K|by apply keeps_resized]).
  destruct (_ || _); [by intros [= <- _ <-]|]. intros E. ostep E.
  pose proof (setProjection_mesh _ _ _ E3) as Hmesh. apply setProjection_identity, ident_same in E3.
  assert (model_at (EnsureCachedRequestSize (Z.of_nat page) m1) page index = Some r0) as Hx2
    by (rewrite Hr; exact Hx1).
  injection E as <- _ <-. split; [|by eapply model_at_set_model].
  etrans; [exact K2|]. eapply (keeps_set_model _ _ _ r0); [done|done|by right].
Qed.

Lemma keeps_queue_part page index width height cached model g m qu gpu x g' m' :
  X page index -> model_at m page index = Some model ->
  RenderModel_queue page index width height cached model g m = Ret (qu, gpu, x, g', m') ->
  keeps m m' /\ model_at m' page index = Some x.
Proof.
  intros HX Hold. unfold RenderModel_queue. intros E. do 3 ostep E. revert E. cbv zeta. clear E0 E1 E2.
  set (model1 := if switchedModel _ _ _ then _ else _).
  assert (ident model1 = ident model) as Hid1 by (unfold model1; by destruct (switchedModel _ _ _)).
  clearbody model1. pose proof (keeps_enter_model page index (drawMode model1) g m) as K1.
  destruct (enter_model_frame page index (drawMode model1) g m) as [HM _].
  destruct (enter_model _ _ _ _ _) as [g1 m1]. cbn [snd] in *.
  assert (model_at m1 page index = Some model) as Hold1 by (unfold model_at; by rewrite HM).
  intros E. ostep E. clear E0. revert E.
  set (model2 := if _ : bool then _ else model1).
  assert (ident model2 = ident model) as Hid2 by (rewrite <- Hid1; unfold model2; by destruct (_ || _)).
  clearbody model2. intros [= _ _ <- _ <-]. split; [|by eapply model_at_set_model].
  etrans; [exact K1|]. eapply (keeps_set_model _ _ _ model); [done|done|by left].
Qed.

Lemma keeps_draw_part d page index width height u p f buffers gpu model g m i g' m' :
  X page index -> model_at m page index = Some model ->
  RenderModel_draw d page index width height u p f buffers gpu model g m = Ret (i, g', m') -> keeps m m'.
Proof.
  intros HX Hm. unfold RenderModel_draw. cbv zeta. destruct (negb _); intros E.
  { ostep E. ostep E. ostep E. by injection E as _ _ <-. }
  revert E. set (model3 := set_initialized _ _).
  assert (ident model3 = ident model) as Hid3 by (unfold model3; by destruct (mode_eqb _ _)).
  clearbody model3. set (m3 := set_model page index model3 m).
  assert (keeps m m3) as K3 by (eapply (keeps_set_model _ _ _ model); [done|done|by left]).
  assert (model_at m3 page index = Some model3) as Hm3 by by eapply model_at_set_model.
  clearbody m3. intros E. ostep E. destruct r as [fr gpu']. cbn [fst snd] in E. clear E0.
  set (m4 := m3 <| m_HeadlessRenderer := Some gpu' |>) in E.
  assert (keeps m m4) as K4 by (etrans; [exact K3|by apply keeps_other]).
  assert (model_at m4 page index = Some model3) as Hm4 by exact Hm3. clearbody m4.
  destruct fr as [frame|]; [|by injection E as _ _ <-]. ostep E. injection E as _ _ <-.
  etrans; [exact K4|].
  transitivity (set_model page index (set_m_HasChanged false model3) m4);
    [eapply (keeps_set_model _ _ _ model3); [done|done|by left]|exact (keeps_images _ page index _)].
Qed.

Lemma keeps_RenderModel d qm fe vk rd env page index width height g m i g' m' :
  X page index ->
  RenderModel d qm fe vk rd env page index width height g m = Ret (i, g', m') -> keeps m m'.
Proof.
  intros HX. unfold RenderModel. intros E. ostep E. destruct r as [[r g1] m1].
  apply keeps_request_part in E0 as [K1 Hr].
  destruct r as [i0|[[[u p] cached] model]]; [by injection E as _ _ <-|].
  ostep E. destruct r as [[[[qu gpu] x] g2] m2]. apply keeps_queue_part in E0 as [K2 Hx]; [|done..].
  apply keeps_draw_part in E; [|done..]. etrans; [exact K1|]. by etrans.
Qed.

Lemma keeps_attempt throws d qm fe vk rd env page index width height g m i g' m' :
  X page index ->
  attempt_RenderModel d qm fe vk rd env throws page index width height g m = Ret (i, g', m') -> keeps m m'.
Proof.
  intros HX. unfold attempt_RenderModel. destruct throws; intros E; ostep E.
  - destruct r as [[r g1] m1]. apply keeps_request_part in E0 as [K1 Hr].
    destruct r as [i0|[[[u p] cached] model]]; [by injection E as _ _ <-|].
    ostep E. destruct r as [[[[qu gpu] x] g2] m2]. apply keeps_queue_part in E0 as [K2 Hx]; [|done..].
    injection E as _ _ <-. by etrans.
  - destruct r as [[r g1] m1]. injection E as _ _ <-. by eapply keeps_RenderModel.
Qed.

Lemma keeps_mark_changed k m : keeps m (mark_changed k m).
Proof.
  unfold mark_changed. destruct (model_at m k.1 k.2) eqn:E; [|done].
  eapply keeps_set_model; [exact E|done|right; by right].
Qed.

Lemma keeps_schedule pages m : keeps m (schedule_pages pages m).
Proof. rewrite schedule_pages_effects. by apply keeps_other. Qed.

Lemma keeps_delete_net m : keeps m (delete_net_manager m).
Proof. unfold delete_net_manager. destruct (m_IBLNetManager m); by apply keeps_other. Qed.

Lemma keeps_complete m : keeps m (onIBLDownloadComplete m).
Proof.
  unfold onIBLDownloadComplete. etrans; [apply keeps_delete_net|].
  set (m0 := delete_net_manager m). clearbody m0. set (keys := elements _). clearbody keys.
  assert (keeps m0 (foldr mark_changed m0 keys)) as K.
  { induction keys as [|k keys IH]; [done|]. cbn. etrans; [exact IH|apply keeps_mark_changed]. }
  cbv zeta. etrans; [exact K|]. etrans; [|apply keeps_schedule]. by apply keeps_other.
Qed.

Lemma keeps_count_down m : keeps m (count_down m).
Proof.
  unfold count_down. cbv zeta. set (m1 := m <| m_PendingDownloadCount ::= fun c => c - 1 |>).
  assert (keeps m m1) as K by by apply keeps_other. destruct (_ =? 0); [|exact K].
  etrans; [exact K|apply keeps_complete].
Qed.

Lemma keeps_reply r m : keeps m (onIBLDownloadReplyFinished r m).
Proof.
  unfold onIBLDownloadReplyFinished.
  destruct (m_Destroying m); [reflexivity|]. destruct (reply_error r); [apply keeps_count_down|].
  destruct (is_html r); [apply keeps_count_down|]. cbv zeta. destruct (_ && _);
    (etrans; [|apply keeps_count_down]); by apply keeps_other.
Qed.

Lemma keeps_finish r m m' : finish r m = Some m' -> keeps m m'.
Proof.
  unfold finish. case_bool_decide; [|done]. intros [= <-].
  etrans; [|apply keeps_reply]. by apply keeps_other.
Qed.

Lemma keeps_perform dw env n b m : keeps m (performIBLDownload dw env n b m).
Proof.
  unfold performIBLDownload. cbv zeta. destruct (negb (iblNameOK _)); [done|].
  destruct (negb (answer_yes dw)).
  { unfold decline. etrans; [|apply keeps_schedule]. apply keeps_other; try done.
    set_solver. }
  destruct (negb (mkpath dw _)); [done|]. destruct (_ && _); [done|].
  rewrite start_tasks. cbv zeta. destruct (_ =? 0); [|by apply keeps_other].
  etrans; [|apply keeps_complete]. etrans; [|apply keeps_delete_net]. by apply keeps_other.
Qed.

End Keeps.
#[local] Existing Instances keeps_refl keeps_trans.

(** No model is rendered. *)
Definition nowhere : nat -> nat -> Prop := fun _ _ => False.

(** ** The invariant *)

Record inv (m : Manager) : Prop := {
  i_images : shape (m_ModelImages m) = shape (m_Models m);
  i_reallocs : length (m_Reallocs m) = length (m_Models m);
  i_files p i x : model_at m p i = Some x -> is_Some (file x);
  i_drag : match m_ActiveModel m with
           | None => m_Dragging m = false /\ m_ActiveModelPage m = -1
           | Some q => m_Dragging m = true /\ m_ActiveModelPage m = Z.of_nat (ptr_page q) /\
               is_Some (model_at m (ptr_page q) (ptr_index q)) /\
               exists e, m_Reallocs m !! ptr_page q = Some e /\ (ptr_epoch q <= e)%nat
           end;
  i_rebind : m_PendingRebindPosted m = true -> (1 <= rebind_queue m)%nat;
  i_missing p i : (p, i) ∈ m_ModelsWithMissingIBL m -> is_Some (model_at m p i)
}.

Lemma shape_idents m : shape (m_Models m) = shape (idents m).
Proof.
  unfold shape, idents. rewrite <- list_fmap_compose. apply list_fmap_ext.
  intros k l _. cbn. by rewrite length_fmap.
Qed.

Lemma inv_keeps X m m' : inv m -> keeps X m m' -> inv m'.
Proof.
  intros [] [].
  assert (forall p i, is_Some (model_at m' p i) <-> is_Some (model_at m p i)) as Hpl
    by (intros; by apply place_idents).
  split.
  - by rewrite k_images0, i_images0, !shape_idents, k_idents0.
  - assert (length (m_Models m') = length (m_Models m)) as ->; [|congruence].
    apply (f_equal length) in k_idents0. unfold idents in k_idents0. by rewrite !length_fmap in k_idents0.
  - intros p i x Hx. assert (ident <$> model_at m' p i = ident <$> model_at m p i) as He
      by (rewrite !model_at_idents; by rewrite k_idents0).
    rewrite Hx in He. destruct (model_at m p i) as [y|] eqn:Hy; [|done].
    assert (file x = file y) as -> by (unfold ident in He; cbn in He; congruence).
    by eapply i_files0.
  - rewrite k_active0, k_dragging0, k_page0, k_reallocs0. destruct (m_ActiveModel m); [|done].
    by rewrite Hpl.
  - by rewrite k_pending0, k_queue0.
  - intros p i Hm. apply Hpl. apply k_missing0 in Hm as [Hm|Hm]; auto.
Qed.

(** ** Operations that change the drag or the documents *)

Lemma inv_press w e m b m' :
  inv m -> mouseButtonPressEvent w e m = Ret (b, m') -> inv m'.
Proof.
  intros I. unfold mouseButtonPressEvent. destruct (inactive w m); [by intros [= _ <-]|].
  intros E. ostep E. apply (keeps_take_position nowhere) in E0. apply (inv_keeps nowhere _ _ I) in E0.
  destruct (negb (ev_left e)); [by injection E as _ <-|].
  ostep E. destruct r0 as [page m1]. apply resized_over, (keeps_resized nowhere), (inv_keeps nowhere _ _ E0) in E1.
  cbn [fst snd] in *. cbv zeta in E. destruct (_ || _); [by injection E as _ <-|].
  ostep E. destruct r0 as [n m2].
  apply resized_normalized, (keeps_resized nowhere), (inv_keeps nowhere _ _ E1) in E2. cbn [fst snd] in *.
  ostep E. destruct (list_find _ r0) as [[i x]|] eqn:Ef; [|by injection E as _ <-].
  injection E as _ <-. unfold at_index in E3. destruct (page <? 0) eqn:Hp; [done|]. zbool.
  apply list_find_Some in Ef as (Hi & _).
  destruct (m_Models m2 !! Z.to_nat page) as [l|] eqn:El; [|done]. injection E3 as ->.
  destruct E2. split; try done. split; [done|]. split; [change (page = Z.of_nat (Z.to_nat page)); lia|]. split.
  - change (is_Some (m_Models m2 !! Z.to_nat page ≫= fun l => l !! i)).
    rewrite El. cbn. by rewrite Hi.
  - assert (is_Some (m_Reallocs m2 !! Z.to_nat page)) as [e0 He0].
    { apply lookup_lt_is_Some. rewrite i_reallocs0. by eapply lookup_lt_Some. }
    exists e0. split; [exact He0|]. unfold address_of. cbn [ptr_epoch]. by rewrite He0.
Qed.

Lemma inv_release w e m : inv m -> inv (mouseButtonReleaseEvent w e m).2.
Proof.
  intros I. unfold mouseButtonReleaseEvent. destruct (inactive w m); [done|].
  destruct (negb _); [done|]. by destruct I.
Qed.

Lemma inv_Clear m : inv (Clear m).
Proof. by split. Qed.

Lemma inv_SetDocument d m : inv (SetDocument d m).
Proof.
  destruct (inv_Clear m). by split.
Qed.

Lemma grow_spec {A} (d : A) n (l : list A) :
  l `prefix_of` grow d n l /\ length (grow d n l) =
    (if Z.of_nat (length l) <? wrapw 64 (n + 1) then Z.to_nat (wrapw 64 (n + 1)) else length l).
Proof.
  unfold grow. destruct (Z.ltb_spec (Z.of_nat (length l)) (wrapw 64 (n + 1))); [|by split].
  rewrite length_vresize. split; [|done]. rewrite vresize_grow by lia. by eexists.
Qed.

Lemma shape_grow {A} n (L : list (list A)) : shape (grow [] n L) = grow 0%nat n (shape L).
Proof.
  unfold grow, shape. rewrite length_fmap. destruct (_ <? _); [|done].
  unfold vresize. by rewrite fmap_app, fmap_take, fmap_replicate, length_fmap.
Qed.

(** Every model that is there stays there. *)
Definition extends (m m' : Manager) : Prop :=
  forall p i x, model_at m p i = Some x -> model_at m' p i = Some x.

(** [AddModel]: one more model, initialised, at the end of its page. *)
Lemma AddModel_Ret fe vk model p m m' :
  AddModel fe vk model p m = Ret m' ->
  exists m0 page row epoch model',
    m0 = ensureHeadlessRenderer fe vk m /\ initProjection model = Ret model' /\ 0 <= p /\
    grow [] p (m_Models m) !! Z.to_nat p = Some page /\
    grow [] p (m_ModelImages m) !! Z.to_nat p = Some row /\
    grow 0%nat p (m_Reallocs m) !! Z.to_nat p = Some epoch /\
    m' = m0 <| m_Models := <[Z.to_nat p := page ++ [model']]> (grow [] p (m_Models m)) |>
            <| m_Reallocs := <[Z.to_nat p := if grows (length page) then S epoch else epoch]>
                               (grow 0%nat p (m_Reallocs m)) |>
            <| m_ModelImages := <[Z.to_nat p := row ++ [null_image]]> (grow [] p (m_ModelImages m)) |>.
Proof.
  unfold AddModel. set (m0 := ensureHeadlessRenderer fe vk m).
  assert (m_Models m0 = m_Models m /\ m_ModelImages m0 = m_ModelImages m /\
          m_Reallocs m0 = m_Reallocs m) as (H1 & H2 & H3).
  { unfold m0, ensureHeadlessRenderer. destruct (_ || _); [done|]. by case_bool_decide. }
  cbv zeta. rewrite H1, H3. intros E. ostep E. ostep E. ostep E. revert E.
  set (m1 := m0 <| m_Models := _ |> <| m_Reallocs := _ |>).
  change (m_ModelImages m1) with (m_ModelImages m0). rewrite H2. intros E. ostep E.
  injection E as <-. unfold at_index in *. destruct (p <? 0) eqn:Hp; [done|]. zbool.
  destruct (grow [] p (m_Models m) !! Z.to_nat p) eqn:F0; [|done].
  destruct (grow 0%nat p (m_Reallocs m) !! Z.to_nat p) eqn:F1; [|done].
  destruct (grow [] p (m_ModelImages m) !! Z.to_nat p) eqn:F2; [|done].
  injection E0 as <-. injection E1 as <-. injection E3 as <-.
  exists m0, l, l0, n, r1. by split_and!.
Qed.

Lemma AddModel_extends fe vk model p m m' : AddModel fe vk model p m = Ret m' -> extends m m'.
Proof.
  intros (m0 & page & row & ep & model' & -> & _ & _ & Hpage & _ & _ & ->)%AddModel_Ret q i x Hx.
  unfold model_at in *. change (<[Z.to_nat p := page ++ [model']]> (grow [] p (m_Models m)) !! q
    ≫= (fun l => l !! i) = Some x).
  destruct (m_Models m !! q) as [l|] eqn:El; [|done]. cbn in Hx.
  destruct (grow_spec [] p (m_Models m)) as [Hpre _].
  apply (prefix_lookup_Some _ _ _ _ El) in Hpre.
  destruct (decide (Z.to_nat p = q)) as [<-|Hne].
  - rewrite list_lookup_insert_eq by exact (lookup_lt_Some _ _ _ Hpage). cbn.
    assert (page = l) as -> by congruence. by apply lookup_app_l_Some.
  - rewrite list_lookup_insert_ne by done. by rewrite Hpre.
Qed.

Lemma grow_lookup {A} (d : A) n l i x : grow d n l !! i = Some x -> l !! i = Some x \/ x = d.
Proof.
  unfold grow. destruct (_ <? _); [|by left]. unfold vresize. intros H.
  apply lookup_app_Some in H as [H|[_ H]].
  - apply lookup_take_Some in H as [? _]. by left.
  - apply lookup_replicate in H as [-> _]. by right.
Qed.

Lemma initProjection_file model model' : initProjection model = Ret model' -> is_Some (file model').
Proof.
  unfold initProjection. intros E. ostep E. do 6 ostep E. injection E as <-.
  change (is_Some (file model)). unfold header_of in E0. by destruct (file model).
Qed.

(** The models after [AddModel] are those before it, and the new one. *)
Lemma AddModel_models fe vk model p m m' q i x :
  AddModel fe vk model p m = Ret m' -> model_at m' q i = Some x ->
  model_at m q i = Some x \/ is_Some (file x).
Proof.
  intros (m0 & page & row & ep & model' & -> & Hinit & _ & Hpage & _ & _ & ->)%AddModel_Ret Hx.
  change (<[Z.to_nat p := page ++ [model']]> (grow [] p (m_Models m)) !! q
    ≫= (fun l => l !! i) = Some x) in Hx.
  apply bind_Some in Hx as (l & Hl & Hi). unfold model_at.
  destruct (decide (Z.to_nat p = q)) as [<-|Hne].
  - rewrite list_lookup_insert_eq in Hl by exact (lookup_lt_Some _ _ _ Hpage). injection Hl as <-.
    apply lookup_app_Some in Hi as [Hi|[_ Hi]].
    + apply grow_lookup in Hpage as [-> | ->]; [by left|done].
    + apply list_lookup_singleton_Some in Hi as [_ <-]. right. by eapply initProjection_file.
  - rewrite list_lookup_insert_ne in Hl by done.
    apply grow_lookup in Hl as [-> | ->]; [by left|done].
Qed.

(** A page's number of reallocations never goes down. *)
Lemma AddModel_reallocs fe vk model p m m' q e :
  AddModel fe vk model p m = Ret m' -> m_Reallocs m !! q = Some e ->
  exists e', m_Reallocs m' !! q = Some e' /\ (e <= e')%nat.
Proof.
  intros (m0 & page & row & ep & model' & -> & _ & _ & _ & _ & Hep & ->)%AddModel_Ret He.
  destruct (grow_spec 0%nat p (m_Reallocs m)) as [Hpre _].
  apply (prefix_lookup_Some _ _ _ _ He) in Hpre.
  change (exists e', <[Z.to_nat p := if grows (length page) then S ep else ep]>
    (grow 0%nat p (m_Reallocs m)) !! q = Some e' /\ (e <= e')%nat).
  destruct (decide (Z.to_nat p = q)) as [<-|Hne].
  - rewrite list_lookup_insert_eq by exact (lookup_lt_Some _ _ _ Hep).
    assert (ep = e) as -> by congruence. eexists. split; [done|]. destruct (grows _); lia.
  - rewrite list_lookup_insert_ne by done. eauto.
Qed.

(** The input state is not [AddModel]'s. *)
Lemma AddModel_input fe vk model p m m' :
  AddModel fe vk model p m = Ret m' ->
  m_Dragging m' = m_Dragging m /\ m_ActiveModel m' = m_ActiveModel m /\
  m_ActiveModelPage m' = m_ActiveModelPage m /\
  m_PendingRebindPosted m' = m_PendingRebindPosted m /\ rebind_queue m' = rebind_queue m /\
  m_ModelsWithMissingIBL m' = m_ModelsWithMissingIBL m /\ m_PageView m' = m_PageView m.
Proof.
  intros (m0 & page & row & ep & model' & -> & _ & _ & _ & _ & _ & ->)%AddModel_Ret.
  unfold ensureHeadlessRenderer. destruct (_ || _); [done|]. by case_bool_decide.
Qed.

Lemma AddModel_shapes fe vk model p m m' :
  shape (m_ModelImages m) = shape (m_Models m) -> length (m_Reallocs m) = length (m_Models m) ->
  AddModel fe vk model p m = Ret m' ->
  shape (m_ModelImages m') = shape (m_Models m') /\ length (m_Reallocs m') = length (m_Models m').
Proof.
  intros Him Hre (m0 & page & row & ep & model' & -> & _ & _ & Hpage & Hrow & Hep & ->)%AddModel_Ret.
  split.
  - change (shape (<[Z.to_nat p := row ++ [null_image]]> (grow [] p (m_ModelImages m))) =
            shape (<[Z.to_nat p := page ++ [model']]> (grow [] p (m_Models m)))).
    assert (shape (grow [] p (m_ModelImages m)) = shape (grow [] p (m_Models m))) as Hs
      by (by rewrite !shape_grow, Him).
    unfold shape in *. rewrite !list_fmap_insert, Hs. f_equal. rewrite !length_app. f_equal.
    apply (f_equal (fun l => l !! Z.to_nat p)) in Hs. rewrite !list_lookup_fmap, Hpage, Hrow in Hs.
    by injection Hs.
  - change (length (<[Z.to_nat p := if grows (length page) then S ep else ep]>
                      (grow 0%nat p (m_Reallocs m))) =
            length (<[Z.to_nat p := page ++ [model']]> (grow [] p (m_Models m)))).
    destruct (grow_spec [] p (m_Models m)) as [_ LM].
    destruct (grow_spec 0%nat p (m_Reallocs m)) as [_ LR].
    by rewrite !length_insert, LM, LR, Hre.
Qed.

Lemma inv_AddModel fe vk model p m m' : inv m -> AddModel fe vk model p m = Ret m' -> inv m'.
Proof.
  intros [] HA. pose proof (AddModel_extends _ _ _ _ _ _ HA) as Hext.
  destruct (AddModel_input _ _ _ _ _ _ HA) as (K1 & K2 & K3 & K4 & K5 & K6 & _).
  destruct (AddModel_shapes _ _ _ _ _ _ i_images0 i_reallocs0 HA) as [S1 S2].
  assert (forall q i, is_Some (model_at m q i) -> is_Some (model_at m' q i)) as Hpl
    by (intros q i [x Hx]; eexists; exact (Hext q i x Hx)).
  split; [done|done| | | |].
  - intros q i x Hx. by destruct (AddModel_models _ _ _ _ _ _ _ _ _ HA Hx) as [H%i_files0|H].
  - rewrite K1, K2, K3. destruct (m_ActiveModel m) as [a|]; [|done].
    destruct i_drag0 as (? & ? & Ha & e & He & Hle). split_and!; [done..|by apply Hpl|].
    destruct (AddModel_reallocs _ _ _ _ _ _ _ _ HA He) as (e' & ? & ?). exists e'. split; [done|lia].
  - by rewrite K4, K5.
  - intros q i. rewrite K6. auto.
Qed.

(** The requests, the rebinding and the destructor touch no model. *)
Record rebinds (m m' : Manager) : Prop := {
  b_models : m_Models m' = m_Models m;
  b_images : m_ModelImages m' = m_ModelImages m;
  b_reallocs : m_Reallocs m' = m_Reallocs m;
  b_renderer : m_HeadlessRenderer m' = m_HeadlessRenderer m;
  b_dragging : m_Dragging m' = m_Dragging m;
  b_active : m_ActiveModel m' = m_ActiveModel m;
  b_page : m_ActiveModelPage m' = m_ActiveModelPage m;
  b_missing : m_ModelsWithMissingIBL m' = m_ModelsWithMissingIBL m;
  b_rebind : (m_PendingRebindPosted m = true -> (1 <= rebind_queue m)%nat) ->
             m_PendingRebindPosted m' = true -> (1 <= rebind_queue m')%nat
}.

#[local] Instance rebinds_refl : Reflexive rebinds.
Proof. intros m. by split. Qed.
#[local] Instance rebinds_trans : Transitive rebinds.
Proof. intros a b c [] []. split; try congruence. auto. Qed.

Lemma inv_rebinds m m' : inv m -> rebinds m m' -> inv m'.
Proof.
  intros [] []. unfold model_at in *.
  split; rewrite ?b_models0, ?b_images0, ?b_reallocs0, ?b_dragging0, ?b_active0, ?b_page0; auto.
  - intros p i x. unfold model_at. rewrite b_models0. apply i_files0.
  - destruct (m_ActiveModel m); [|done]. unfold model_at. by rewrite b_models0.
  - intros p i. unfold model_at. rewrite b_models0, b_missing0. apply i_missing0.
Qed.

Lemma rebinds_notePageView o m : rebinds m (notePageView o m).
Proof.
  unfold notePageView. cbv zeta. case_bool_decide; [by split|].
  destruct (m_PendingRebindPosted _) eqn:E; [by split|]. split; try done. intros _ _. cbn. lia.
Qed.

Lemma rebinds_cacheRequestSize w p a b c m m' :
  cacheRequestSizeUnlocked w p a b c m = Ret m' -> rebinds m m'.
Proof.
  unfold cacheRequestSizeUnlocked. cbv zeta. intros E. ostep E.
  destruct (SFltb _ _); injection E as <-; by split.
Qed.

Lemma rebinds_cachePage p o m m' : cachePageUnlocked p o m = Ret m' -> rebinds m m'.
Proof.
  unfold cachePageUnlocked. destruct o; [|by intros [= <-]]. cbv zeta. intros E. ostep E.
  injection E as <-. by split.
Qed.

Lemma rebinds_cacheRequest w r m m' : cacheRequestUnlocked w r m = Ret m' -> rebinds m m'.
Proof.
  unfold cacheRequestUnlocked. cbv zeta.
  set (m1 := if _ =? PAGEVIEW_PRIO then _ else m).
  assert (rebinds m m1) as R1 by (unfold m1; destruct (_ =? _); [apply rebinds_notePageView|done]).
  clearbody m1. destruct (negb _).
  - destruct (_ <? _); intros E.
    + etrans; [exact R1|by eapply rebinds_cacheRequestSize].
    + ostep E. destruct (_ && _); [|by injection E as <-].
      etrans; [exact R1|by eapply rebinds_cacheRequestSize].
  - intros E. ostep E. ostep E. apply rebinds_cacheRequestSize in E1. apply rebinds_cachePage in E.
    etrans; [exact R1|]. etrans; [|exact (transitivity E1 E)].
    destruct (_ || _); [ostep E0|]; injection E0 as <-; by split.
Qed.

(** Delivering a rebinding empties the promise it was posted for. *)
Lemma rebind_frame w m :
  m_PendingRebindPosted (rebindPageView w m) = false /\
  rebind_queue (rebindPageView w m) = rebind_queue m.
Proof.
  unfold rebindPageView. cbv zeta. destruct (negb _); [done|].
  destruct (resolvePageView _ _); [|done]. case_bool_decide; [done|].
  destruct (negb (m_EventFilter _)); [done|]. by destruct (pageView w _).
Qed.

Lemma rebinds_rebindPageView w m : rebinds m (rebindPageView w (m <| rebind_queue ::= Nat.pred |>)).
Proof.
  pose proof (rebind_frame w (m <| rebind_queue ::= Nat.pred |>)) as [Hp _].
  assert (m_PendingRebindPosted (rebindPageView w (m <| rebind_queue ::= Nat.pred |>)) = true ->
          (1 <= rebind_queue (rebindPageView w (m <| rebind_queue ::= Nat.pred |>)))%nat) as Hq
    by (by rewrite Hp).
  revert Hq. clear Hp. unfold rebindPageView. cbv zeta. destruct (negb _); [by split|].
  destruct (resolvePageView _ _); [|by split]. case_bool_decide; [by split|].
  destruct (negb (m_EventFilter _)); [by split|]. destruct (pageView w _); by split.
Qed.

Lemma rebinds_destroy w m : rebinds m (destroyManager w m).
Proof.
  unfold destroyManager. cbv zeta. repeat case_match; by split.
Qed.

Lemma inv_filter w w' o e m b m' :
  inv m -> EventFilter_eventFilter w w' o e m = Ret (b, m') -> inv m'.
Proof.
  intros I. unfold EventFilter_eventFilter. destruct (m_Destroying m); [by intros [= _ <-]|].
  assert (inv (noteEventSource o m)) as I'.
  { apply (inv_rebinds _ _ I). by split. }
  destruct e; try (by intros [= _ <-]); intros E.
  - by apply (inv_keeps nowhere _ _ I'), keeps_mouseMove with (1 := E).
  - by eapply inv_press.
  - injection E as E. pose proof (inv_release w e _ I') as H. by rewrite E in H.
  - by apply (inv_keeps nowhere _ _ I'), keeps_wheel with (1 := E).
Qed.

Lemma inv_app w o e m b m' :
  inv m -> ApplicationEventFilter_eventFilter w o e m = Ret (b, m') -> inv m'.
Proof.
  intros I. unfold ApplicationEventFilter_eventFilter. destruct (m_Destroying m); [by intros [= _ <-]|].
  destruct e; try (by intros [= _ <-]); intros E.
  - destruct (keyEventInOwnWindow w o m); [|by injection E as _ <-].
    apply (inv_keeps nowhere _ _ I). unfold keyPressEvent in E. destruct (inactive w m); [by injection E as _ <-|].
    destruct k; [eapply keeps_key_action; [apply ident_home|exact E]
                |eapply keeps_key_action; [apply ident_cycleMode|exact E]|by injection E as _ <-].
  - injection E as _ <-. apply (inv_rebinds _ _ I), rebinds_rebindPageView.
  - ostep E. injection E as _ <-. apply (keeps_presentation nowhere) in E0. by apply (inv_keeps nowhere _ _ I).
  - ostep E. injection E as _ <-. apply (keeps_presentation nowhere) in E0. by apply (inv_keeps nowhere _ _ I).
Qed.

(** ** No event touches a mesh *)

(** The models stay, and none loses its mark without being rendered. *)
Record same_models (m m' : Manager) : Prop := {
  sm_idents : idents m' = idents m;
  sm_meshes : meshes_kept nowhere m m'
}.

Lemma same_keeps m m' : keeps nowhere m m' -> same_models m m'.
Proof. by intros []. Qed.
Lemma same_eq m m' : m_Models m' = m_Models m -> same_models m m'.
Proof.
  intros E. split; [unfold idents; by rewrite E|]. intros p i x x' Hx Hx'. unfold model_at in *.
  rewrite E in Hx'. right. by simplify_eq.
Qed.

Lemma same_press w e m b m' : mouseButtonPressEvent w e m = Ret (b, m') -> same_models m m'.
Proof.
  unfold mouseButtonPressEvent. destruct (inactive w m); [intros [= _ <-]; by apply same_eq|].
  intros E. ostep E. apply (keeps_take_position nowhere) in E0.
  destruct (negb (ev_left e)); [injection E as _ <-; by apply same_keeps|].
  ostep E. destruct r0 as [page m1]. apply resized_over, (keeps_resized nowhere) in E1.
  assert (keeps nowhere m m1) as K1 by by etrans.
  cbn [fst snd] in *. cbv zeta in E. destruct (_ || _); [injection E as _ <-; by apply same_keeps|].
  ostep E. destruct r0 as [n m2]. apply resized_normalized, (keeps_resized nowhere) in E2.
  assert (keeps nowhere m m2) as K2 by by etrans. cbn [fst snd] in *.
  ostep E. destruct (list_find _ r0) as [[i x]|]; injection E as _ <-; [|by apply same_keeps].
  destruct K2 as [K2 K2']. by split.
Qed.

Lemma same_filter w w' o e m b m' : EventFilter_eventFilter w w' o e m = Ret (b, m') -> same_models m m'.
Proof.
  unfold EventFilter_eventFilter. destruct (m_Destroying m); [intros [= _ <-]; by apply same_eq|].
  intros E. assert (same_models (noteEventSource o m) m' -> same_models m m') as Hs by (intros [H1 H2]; by split).
  apply Hs. destruct e; try (injection E as _ <-; by apply same_eq).
  - by eapply same_keeps, keeps_mouseMove.
  - by eapply same_press.
  - injection E as E. unfold mouseButtonReleaseEvent in E.
    destruct (inactive w _); [injection E as _ <-; by apply same_eq|].
    destruct (negb _); injection E as _ <-; by apply same_eq.
  - by eapply same_keeps, keeps_wheel.
Qed.

Lemma same_app w o e m b m' : ApplicationEventFilter_eventFilter w o e m = Ret (b, m') -> same_models m m'.
Proof.
  unfold ApplicationEventFilter_eventFilter. destruct (m_Destroying m); [intros [= _ <-]; by apply same_eq|].
  destruct e; try (intros [= _ <-]; by apply same_eq); intros E.
  - destruct (keyEventInOwnWindow w o m); [|injection E as _ <-; by apply same_eq].
    unfold keyPressEvent in E. destruct (inactive w m); [injection E as _ <-; by apply same_eq|].
    destruct k; [| |injection E as _ <-; by apply same_eq];
      (eapply same_keeps, keeps_key_action; [|exact E]); [apply ident_home|apply ident_cycleMode].
  - injection E as _ <-. apply same_eq, rebinds_rebindPageView.
  - ostep E. injection E as _ <-. by eapply same_keeps, keeps_presentation.
  - ostep E. injection E as _ <-. by eapply same_keeps, keeps_presentation.
Qed.

(** ** The transition system *)

(** Events, requests for the caches, timers and replies. *)
Inductive event (m : Manager) : Manager -> Prop :=
| event_filter w w' o e b m' :
    EventFilter_eventFilter w w' o e m = Ret (b, m') -> event m m'
| event_app w o e b m' :
    ApplicationEventFilter_eventFilter w o e m = Ret (b, m') -> event m m'
| event_CacheRequest w r m' : CacheRequest w r m = Ret m' -> event m m'
| event_CachePage p o m' : CachePage p o m = Ret m' -> event m m'
| event_timeout w p m' : refreshTimeout w p m = Ret m' -> event m m'
| event_download dw env name base : event m (performIBLDownload dw env name base m)
| event_reply r m' : finish r m = Some m' -> event m m'
| event_destroy w : event m (destroyManager w m).

Inductive step (m : Manager) : Manager -> Prop :=
| step_event m' : event m m' -> step m m'
| step_AddModel fe vk model p m' : AddModel fe vk model p m = Ret m' -> step m m'
| step_SetDocument d : step m (SetDocument d m)
| step_RenderModel throws d qm fe vk rd env page index width height g i g' m' :
    attempt_RenderModel d qm fe vk rd env throws page index width height g m = Ret (i, g', m') -> step m m'.

Inductive reachable : Manager -> Prop :=
| reachable_new w d : reachable (newManager w d)
| reachable_step m m' : reachable m -> step m m' -> reachable m'.

Lemma inv_new w d : inv (newManager w d).
Proof.
  unfold newManager. cbv zeta. repeat case_match; by split.
Qed.

Lemma inv_event m m' : inv m -> event m m' -> inv m'.
Proof.
  intros I. destruct 1 as [w w' o e b m' E|w o e b m' E|w r m' E|p o m' E|w p m' E|dw env name base|r m' E|w].
  - by eapply inv_filter.
  - by eapply inv_app.
  - by eapply inv_rebinds, rebinds_cacheRequest.
  - by eapply inv_rebinds, rebinds_cachePage.
  - apply (inv_keeps nowhere _ _ I). unfold refreshTimeout in E.
    destruct (m_Destroying m); [by injection E as <-|by eapply keeps_refresh].
  - apply (inv_keeps nowhere _ _ I), keeps_perform.
  - by eapply (inv_keeps nowhere), keeps_finish.
  - apply (inv_rebinds _ _ I), rebinds_destroy.
Qed.

Lemma inv_step m m' : inv m -> step m m' -> inv m'.
Proof.
  intros I. destruct 1 as [m' E|fe vk model p m' E|d|throws d qm fe vk rd env page index width height g i g' m' E].
  - by eapply inv_event.
  - by eapply inv_AddModel.
  - apply inv_SetDocument.
  - eapply (inv_keeps (fun p i => p = page /\ i = index)); [done|]. by eapply keeps_attempt.
Qed.

Lemma same_event m m' : event m m' -> same_models m m'.
Proof.
  destruct 1 as [w w' o e b m' E|w o e b m' E|w r m' E|p o m' E|w p m' E|dw env name base|r m' E|w].
  - by eapply same_filter.
  - by eapply same_app.
  - by eapply same_eq, rebinds_cacheRequest.
  - by eapply same_eq, rebinds_cachePage.
  - apply same_keeps. unfold refreshTimeout in E.
    destruct (m_Destroying m); [by injection E as <-|by eapply keeps_refresh].
  - apply same_keeps, keeps_perform.
  - by eapply same_keeps, keeps_finish.
  - apply same_eq, rebinds_destroy.
Qed.

Lemma inv_reachable m : reachable m -> inv m.
Proof. induction 1; [apply inv_new|by eapply inv_step]. Qed.
End Session.
