(* ===== verification/Requests.v ===== *)
(** * The model manager: the request caches

    What [CacheRequest] does to the caches of [V3dModelManager]: the size of the
    last request for each page, Okular's page objects, the sizes of the
    presentation. *)

From Stdlib Require Import Floats.SpecFloat.
From S2P Require Import Prelude Ieee Xstream Bound V3dData IblName IblPath Renderer Model Manager.
From S2P Require Import PageView Session.

(** Entry [p] of a vector that grows on demand with [d]. *)
Definition slot {A} (d : A) (l : list A) (p : nat) : A := default d (l !! p).

Lemma slot_insert {A} (d x : A) l p : (p < length l)%nat -> slot d (<[p := x]> l) p = x.
Proof. intros. unfold slot. by rewrite list_lookup_insert_eq. Qed.

Lemma slot_insert_ne {A} (d x : A) l p q : q <> p -> slot d (<[p := x]> l) q = slot d l q.
Proof. intros. unfold slot. by rewrite list_lookup_insert_ne. Qed.

Lemma slot_grow {A} (d : A) n l p : slot d (grow d n l) p = slot d l p.
Proof.
  unfold slot. destruct (grow_spec d n l) as [Hp _]. destruct (l !! p) as [x|] eqn:E.
  - by rewrite (prefix_lookup_Some _ _ _ _ E Hp).
  - destruct (grow d n l !! p) as [y|] eqn:E'; [|done].
    by destruct (grow_lookup d n l p y E') as [?| ->]; [congruence|].
Qed.

(** A page number of Okular's [int]. *)
Definition page_number (p : Z) : Prop := 0 <= p < INT_MAX.

Lemma wrap_page p : page_number p -> wrapw 64 (p + 1) = p + 1.
Proof. intros [? Hp]. unfold wrapw. apply Z.mod_small. unfold INT_MAX in Hp. lia. Qed.

Lemma grow_length {A} (d : A) p l : page_number p -> (Z.to_nat p < length (grow d p l))%nat.
Proof.
  intros Hp. destruct (grow_spec d p l) as [_ ->]. rewrite (wrap_page p Hp). destruct Hp as [? _].
  destruct (Z.ltb_spec (Z.of_nat (length l)) (p + 1)); lia.
Qed.

Lemma at_index_slot {A} (d : A) l p :
  0 <= p -> (Z.to_nat p < length l)%nat -> at_index l p = Ret (slot d l (Z.to_nat p)).
Proof.
  intros Hp Hl. unfold at_index, slot. rewrite (proj2 (Z.ltb_ge _ _) Hp).
  by apply lookup_lt_is_Some in Hl as [x ->].
Qed.

Section Requests.
Context {glm : Glm} {libm : Libm} {img : Images} {growth : Growth}.

Definition size_slot (m : Manager) (p : nat) : RequestCache :=
  slot emptyRequest (m_CachedRequestSizes m) p.
Definition page_slot (m : Manager) (p : nat) : option object := slot None (m_Pages m) p.
Definition presentation_slot (m : Manager) (p : nat) : Z * Z :=
  slot (0, 0) (m_PresentationRequestSizes m) p.

(** What a request would put in the cache. *)
Definition as_cache (w : World) (r : PixmapRequest) (m : Manager) : RequestCache :=
  mkRequest (req_width r, req_height r) (req_priority r) (seconds (now w - m_StartTime m)).

(** The latest of the cached size and a new one, by the clock. *)
Definition latest (old new : RequestCache) : RequestCache :=
  if SFltb (requestTime old) (requestTime new) then new else old.

Definition presenting (r : PixmapRequest) : bool :=
  (req_priority r =? PRESENTATION_PRIO) || (req_priority r =? PRESENTATION_PRELOAD_PRIO).
Definition viewing (r : PixmapRequest) : bool :=
  (req_priority r =? PAGEVIEW_PRIO) || (req_priority r =? PAGEVIEW_PRELOAD_PRIO) || presenting r.
Definition unsized (c : RequestCache) : bool := (fst (size c) =? 0) && (snd (size c) =? 0).

Lemma cacheRequestSize_slot w p a b prio m :
  page_number p -> exists m',
    cacheRequestSizeUnlocked w p a b prio m = Ret m' /\
    m' = m <| m_CachedRequestSizes := m_CachedRequestSizes m' |> /\
    size_slot m' (Z.to_nat p) =
      latest (size_slot m (Z.to_nat p)) (mkRequest (a, b) prio (seconds (now w - m_StartTime m))) /\
    (forall q, q <> Z.to_nat p -> size_slot m' q = size_slot m q).
Proof.
  intros Hp. pose proof (grow_length emptyRequest p (m_CachedRequestSizes m) Hp) as Hl.
  unfold cacheRequestSizeUnlocked. cbv zeta.
  change (m_CachedRequestSizes (m <| m_CachedRequestSizes ::= grow emptyRequest p |>))
    with (grow emptyRequest p (m_CachedRequestSizes m)).
  rewrite (at_index_slot emptyRequest) by (done || apply Hp). cbn [obind].
  change (slot emptyRequest (grow emptyRequest p (m_CachedRequestSizes m)) (Z.to_nat p))
    with (size_slot (m <| m_CachedRequestSizes ::= grow emptyRequest p |>) (Z.to_nat p)).
  assert (forall q, size_slot (m <| m_CachedRequestSizes ::= grow emptyRequest p |>) q = size_slot m q)
    as Hg by (intros q; apply slot_grow).
  rewrite Hg. unfold latest. cbn [requestTime]. destruct (SFltb _ _).
  - eexists. split; [done|]. split; [by destruct m|]. split; [by apply slot_insert|].
    intros q Hq. rewrite <- Hg. by apply slot_insert_ne.
  - eexists. split; [done|]. split; [by destruct m|]. split; [apply Hg|]. intros q _. apply Hg.
Qed.

Lemma cachePage_slot p page m :
  page_number p -> exists m',
    cachePageUnlocked p (Some page) m = Ret m' /\ m' = m <| m_Pages := m_Pages m' |> /\
    page_slot m' (Z.to_nat p) = Some page /\
    (forall q, q <> Z.to_nat p -> page_slot m' q = page_slot m q).
Proof.
  intros Hp. pose proof (grow_length None p (m_Pages m) Hp) as Hl.
  unfold cachePageUnlocked. cbv zeta.
  change (m_Pages (m <| m_Pages ::= grow None p |>)) with (grow None p (m_Pages m)).
  rewrite (at_index_slot None) by (done || apply Hp). cbn [obind]. eexists. split; [done|].
  split; [by destruct m|]. split; [by apply slot_insert|].
  intros q Hq. etrans; [by apply slot_insert_ne|apply slot_grow].
Qed.

Lemma presentationSize_slot p a b m :
  page_number p -> exists m',
    (_ <~ at_index (m_PresentationRequestSizes (m <| m_PresentationRequestSizes ::= grow (0, 0) p |>)) p;;
     Ret (m <| m_PresentationRequestSizes ::= grow (0, 0) p |>
            <| m_PresentationRequestSizes ::= <[Z.to_nat p := (a, b)]> |>)) = Ret m' /\
    m' = m <| m_PresentationRequestSizes := m_PresentationRequestSizes m' |> /\
    presentation_slot m' (Z.to_nat p) = (a, b) /\
    (forall q, q <> Z.to_nat p -> presentation_slot m' q = presentation_slot m q).
Proof.
  intros Hp. pose proof (grow_length (0, 0) p (m_PresentationRequestSizes m) Hp) as Hl.
  change (m_PresentationRequestSizes (m <| m_PresentationRequestSizes ::= grow (0, 0) p |>))
    with (grow (0, 0) p (m_PresentationRequestSizes m)).
  rewrite (at_index_slot (0, 0)) by (done || apply Hp). cbn [obind]. eexists. split; [done|].
  split; [by destruct m|]. split; [by apply slot_insert|].
  intros q Hq. etrans; [by apply slot_insert_ne|apply slot_grow].
Qed.

(** [notePageView] keeps every cache and the clock. *)
Lemma notePageView_caches o m :
  let m' := notePageView o m in
  m_CachedRequestSizes m' = m_CachedRequestSizes m /\ m_Pages m' = m_Pages m /\
  m_PresentationRequestSizes m' = m_PresentationRequestSizes m /\ m_StartTime m' = m_StartTime m.
Proof.
  unfold notePageView. cbv zeta. case_bool_decide; [done|]. by destruct (m_PendingRebindPosted _).
Qed.

(** What a request leaves: the size, the page and the presentation's size of its page. *)
Definition caches (m : Manager) (p : nat) (sz : RequestCache) (page : option object) (pres : Z * Z)
    (m' : Manager) : Prop :=
  size_slot m' p = sz /\ page_slot m' p = page /\ presentation_slot m' p = pres /\
  forall q, q <> p -> size_slot m' q = size_slot m q /\ page_slot m' q = page_slot m q /\
                      presentation_slot m' q = presentation_slot m q.

(** A request of the presentation, or none. *)
Lemma presenting_part r m (p := Z.to_nat (req_pageNumber r)) : page_number (req_pageNumber r) -> exists m',
  (if presenting r then
    (_ <~ at_index (m_PresentationRequestSizes
            (m <| m_PresentationRequestSizes ::= grow (0, 0) (req_pageNumber r) |>)) (req_pageNumber r);;
     Ret (m <| m_PresentationRequestSizes ::= grow (0, 0) (req_pageNumber r) |>
            <| m_PresentationRequestSizes ::= <[p := (req_width r, req_height r)]> |>))
   else Ret m) = Ret m' /\
  m' = m <| m_PresentationRequestSizes := m_PresentationRequestSizes m' |> /\
  presentation_slot m' p = (if presenting r then (req_width r, req_height r) else presentation_slot m p) /\
  (forall q, q <> p -> presentation_slot m' q = presentation_slot m q).
Proof.
  intros Hp. destruct (presenting r); [by apply presentationSize_slot|]. exists m. by destruct m.
Qed.

(** The whole of a viewing request. *)
Lemma viewing_part w r m (p := Z.to_nat (req_pageNumber r)) : page_number (req_pageNumber r) -> exists m',
  (m <~ (if presenting r then
      (_ <~ at_index (m_PresentationRequestSizes
            (m <| m_PresentationRequestSizes ::= grow (0, 0) (req_pageNumber r) |>)) (req_pageNumber r);;
       Ret (m <| m_PresentationRequestSizes ::= grow (0, 0) (req_pageNumber r) |>
              <| m_PresentationRequestSizes ::= <[p := (req_width r, req_height r)]> |>))
     else Ret m);;
   m <~ cacheRequestSizeUnlocked w (req_pageNumber r) (req_width r) (req_height r) (req_priority r) m;;
   cachePageUnlocked (req_pageNumber r) (Some (req_page r)) m) = Ret m' /\
  caches m p (latest (size_slot m p) (as_cache w r m)) (Some (req_page r))
    (if presenting r then (req_width r, req_height r) else presentation_slot m p) m'.
Proof.
  intros Hp. destruct (presenting_part r m Hp) as (m2 & E2 & F2 & P2 & Q2). fold p in E2, P2, Q2.
  rewrite E2. cbn [obind].
  destruct (cacheRequestSize_slot w (req_pageNumber r) (req_width r) (req_height r)
    (req_priority r) m2 Hp) as (m3 & E3 & F3 & P3 & Q3). rewrite E3. cbn [obind].
  destruct (cachePage_slot (req_pageNumber r) (req_page r) m3 Hp) as (m4 & E4 & F4 & P4 & Q4).
  exists m4. split; [exact E4|]. fold p in P3, Q3, P4, Q4.
  assert (forall q, size_slot m4 q = size_slot m3 q) as R4 by (intros; by rewrite F4).
  assert (forall q, presentation_slot m4 q = presentation_slot m2 q) as R3
    by (intros; rewrite F4, F3; done).
  assert (forall q, size_slot m2 q = size_slot m q /\ page_slot m3 q = page_slot m q) as R2
    by (intros; rewrite F3, F2; done).
  assert (m_StartTime m2 = m_StartTime m) as Ht by (by rewrite F2). rewrite Ht in P3.
  split; [by rewrite R4, P3, (proj1 (R2 _))|]. split; [done|]. split; [by rewrite R3, P2|].
  intros q Hq. by rewrite R4, Q3, (proj1 (R2 _)), Q4, (proj2 (R2 _)), R3, Q2.
Qed.

(** Any other request gives its size to a page that has none. *)
Lemma other_part w r m (p := Z.to_nat (req_pageNumber r)) : page_number (req_pageNumber r) ->
  let cacheSize := cacheRequestSizeUnlocked w (req_pageNumber r) (req_width r) (req_height r) (req_priority r) in
  exists m',
  (if Z.of_nat (length (m_CachedRequestSizes m)) <? wrapw 64 (req_pageNumber r + 1) then cacheSize m
   else old <~ at_index (m_CachedRequestSizes m) (req_pageNumber r);;
        if (fst (size old) =? 0) && (snd (size old) =? 0) then cacheSize m else Ret m) = Ret m' /\
  caches m p (if unsized (size_slot m p) then latest (size_slot m p) (as_cache w r m) else size_slot m p)
    (page_slot m p) (presentation_slot m p) m'.
Proof.
  intros Hp. cbv zeta.
  destruct (cacheRequestSize_slot w (req_pageNumber r) (req_width r) (req_height r)
    (req_priority r) m Hp) as (m3 & E3 & F3 & P3 & Q3). fold p in P3, Q3.
  assert (caches m p (latest (size_slot m p) (as_cache w r m)) (page_slot m p) (presentation_slot m p) m3) as Hc.
  { assert (forall q, page_slot m3 q = page_slot m q /\ presentation_slot m3 q = presentation_slot m q)
      as R3 by (intros; rewrite F3; done).
    split_and!; [exact P3|apply R3..|]. intros q Hq. rewrite Q3 by done. by destruct (R3 q). }
  rewrite wrap_page by done.
  destruct (Z.ltb_spec (Z.of_nat (length (m_CachedRequestSizes m))) (req_pageNumber r + 1)) as [Hl|Hl].
  - assert (size_slot m p = emptyRequest) as He.
    { unfold size_slot, slot. rewrite lookup_ge_None_2; [done|]. destruct Hp. unfold p. lia. }
    exists m3. split; [exact E3|]. by rewrite He in *.
  - rewrite (at_index_slot emptyRequest) by (destruct Hp; lia). cbn [obind].
    fold (size_slot m (Z.to_nat (req_pageNumber r))). fold p. fold (unsized (size_slot m p)).
    destruct (unsized (size_slot m p)); [by exists m3|]. exists m. split; [done|]. by split_and!.
Qed.

(** C33: A pixmap request for any page of the document is taken, never rejected,
    and fills the caches of its page only.  A request of the page view or the
    presentation (or one for a page that has no size yet) leaves the later of
    the cached size and its own, so a request that is not later by the clock
    changes no size; a thumbnail's request changes nothing once there is a
    size.  Only viewing requests give the page itself, only presentation
    requests the presentation's size. *)
Theorem CacheRequest_spec w r m :
  page_number (req_pageNumber r) ->
  let p := Z.to_nat (req_pageNumber r) in
  exists m', CacheRequest w r m = Ret m' /\
    size_slot m' p = (if viewing r || unsized (size_slot m p)
                      then latest (size_slot m p) (as_cache w r m) else size_slot m p) /\
    page_slot m' p = (if viewing r then Some (req_page r) else page_slot m p) /\
    presentation_slot m' p =
      (if presenting r then (req_width r, req_height r) else presentation_slot m p) /\
    forall q, q <> p -> size_slot m' q = size_slot m q /\ page_slot m' q = page_slot m q /\
                        presentation_slot m' q = presentation_slot m q.
Proof.
  intros Hp p. unfold CacheRequest, cacheRequestUnlocked. cbv zeta.
  set (m1 := if _ =? PAGEVIEW_PRIO then _ else m).
  assert (m_CachedRequestSizes m1 = m_CachedRequestSizes m /\ m_Pages m1 = m_Pages m /\
          m_PresentationRequestSizes m1 = m_PresentationRequestSizes m /\
          m_StartTime m1 = m_StartTime m) as (H1 & H2 & H3 & H4)
    by (unfold m1; destruct (_ =? _); [apply notePageView_caches|done]).
  assert (forall p sz page pres m', caches m1 p sz page pres m' -> caches m p sz page pres m') as Hcaches
    by (unfold caches, size_slot, page_slot, presentation_slot; by rewrite H1, H2, H3).
  assert (as_cache w r m1 = as_cache w r m) as Ht by (unfold as_cache; by rewrite H4).
  assert (size_slot m1 p = size_slot m p /\ page_slot m1 p = page_slot m p /\
    presentation_slot m1 p = presentation_slot m p) as (S1 & S2 & S3)
    by (unfold size_slot, page_slot, presentation_slot; by rewrite H1, H2, H3).
  fold (presenting r). fold (viewing r). rewrite <- Ht, <- S1, <- S2, <- S3.
  destruct (viewing r) eqn:Hv; cbn [negb orb].
  - destruct (viewing_part w r m1 Hp) as (m' & E & Hc%Hcaches). exists m'. by split.
  - assert (presenting r = false) as -> by (by apply orb_false_iff in Hv as [_ ?]).
    destruct (other_part w r m1 Hp) as (m' & E & Hc%Hcaches). exists m'. by split.
Qed.
End Requests.

#[local] Existing Instances glm_token libm_token images_token growth_token.

(** A request of the page view, then a thumbnail's for the same page. *)
Definition view_request : PixmapRequest := mkPixmapRequest 40 2 50 640 480 PAGEVIEW_PRIO.
Definition fresh_manager : Manager := initialManager (Some 3) 0.

Lemma CacheRequest_spec_witness :
  exists m', CacheRequest sample_world view_request fresh_manager = Ret m' /\
    size_slot m' 2 = as_cache sample_world view_request fresh_manager /\ page_slot m' 2 = Some 40.
Proof.
  destruct (CacheRequest_spec sample_world view_request fresh_manager) as (m' & E & Hs & Hp & _).
  - split; vm_compute; [discriminate | reflexivity].
  - exists m'. split; [exact E|]. split; [exact (eq_trans Hs ltac:(vm_compute; reflexivity))|exact Hp].
Defined.
