(* ===== verification/SessionProps.v ===== *)
(** * The model manager: properties of a session

    The invariant of every reachable state of [Session], and the properties that
    depend on the order of the operations: pointers into the vectors of models,
    refreshes and the suppression of page renders, the rebinding of the PageView
    after a document change, the wheel. *)

From Stdlib Require Import Floats.SpecFloat.
From S2P Require Import Prelude Ieee Xstream Bound V3dData IblName IblPath Renderer Model Manager.
From S2P Require Import PageView HitTest Input Render IblDownload Session.

Section SessionProps.
#[local] Set Warnings "-clear-no-such-hyp".
Context {glm : Glm} {libm : Libm} {img : Images} {growth : Growth}.

(** C3: Whatever the events, requests, timers, replies, documents and renders in
    whatever order, the manager's tables stay consistent: every page has as many
    images as models; every model has its file; a drag in progress has an active
    model which exists on the page it says, and no drag means none; a promised
    rebinding is in the event queue; and only models that exist wait for an
    image-based-lighting map. *)
Theorem reachable_invariant m :
  reachable m ->
  (forall p i, is_Some (m_ModelImages m !! p ≫= fun l => l !! i) <-> is_Some (model_at m p i)) /\
  (forall p i x, model_at m p i = Some x -> is_Some (file x)) /\
  (if m_Dragging m
   then exists a, m_ActiveModel m = Some a /\ m_ActiveModelPage m = Z.of_nat (ptr_page a) /\
                  is_Some (model_at m (ptr_page a) (ptr_index a))
   else m_ActiveModel m = None /\ m_ActiveModelPage m = -1) /\
  (m_PendingRebindPosted m = true -> (1 <= rebind_queue m)%nat) /\
  (forall p i, (p, i) ∈ m_ModelsWithMissingIBL m -> is_Some (model_at m p i)).
Proof.
  intros Hr. destruct (inv_reachable m Hr) as [Hi _ Hf Hd Hb Hm].
  split_and!; [|done| |done|done].
  - intros p i. rewrite model_at_shape, <- Hi. unfold Manager.shape. rewrite list_lookup_fmap.
    destruct (m_ModelImages m !! p) as [l|]; cbn; [|split; [by intros []|naive_solver]].
    rewrite lookup_lt_is_Some. naive_solver.
  - destruct (m_ActiveModel m) as [a|].
    + destruct Hd as (-> & Hp & Ha & _). eauto.
    + by destruct Hd as [-> ->].
Qed.

(** When a vector of models is moved. *)
Lemma AddModel_epoch fe vk model p m m' q i ep x :
  model_at m q i = Some x -> m_Reallocs m !! q = Some ep -> AddModel fe vk model p m = Ret m' ->
  m_Reallocs m' !! q =
    Some (if (p =? Z.of_nat q) && grows (length (default [] (m_Models m !! q))) then S ep else ep).
Proof.
  intros Hm Hep (m0 & page & row & e & y & -> & _ & Hp & Hpage & _ & He & ->)%AddModel_Ret.
  change (<[Z.to_nat p := if grows (length page) then S e else e]>
    (grow 0%nat p (m_Reallocs m)) !! q = Some (if (p =? Z.of_nat q) &&
          grows (length (default [] (m_Models m !! q))) then S ep else ep)).
  destruct (grow_spec 0%nat p (m_Reallocs m)) as [Hpre _].
  apply (prefix_lookup_Some _ _ _ _ Hep) in Hpre.
  destruct (Z.eqb_spec p (Z.of_nat q)) as [->|Hne].
  - rewrite Nat2Z.id in *. rewrite list_lookup_insert_eq by exact (lookup_lt_Some _ _ _ He).
    assert (e = ep) as -> by congruence. cbn [andb].
    unfold model_at in Hm. destruct (m_Models m !! q) as [l|] eqn:El; [|done].
    destruct (grow_spec [] (Z.of_nat q) (m_Models m)) as [Hpm _].
    apply (prefix_lookup_Some _ _ _ _ El) in Hpm. by assert (l = page) as -> by congruence.
  - rewrite list_lookup_insert_ne by lia. exact Hpre.
Qed.

(** A mouse move during a drag goes through the pointer. *)
Lemma moving_derefs w w' e m r :
  inactive w m = false -> m_Dragging m = true -> mouseMoveEvent w w' e m = Ret r ->
  exists x, deref m (m_ActiveModel m) = Ret x.
Proof.
  intros Hin Hdrag E. unfold mouseMoveEvent in E. rewrite Hin in E. ostep E.
  assert (m_Dragging r0 = true /\ m_ActiveModel r0 = m_ActiveModel m /\
          m_Models r0 = m_Models m /\ m_Reallocs r0 = m_Reallocs m) as (D & A & M & R).
  { revert E0. unfold take_position. intros E0. ostep E0. ostep E0. by injection E0 as <-. }
  rewrite D in E. cbn [negb] in E. ostep E. clear E. unfold drag_active in E1.
  ostep E1. destruct r2 as [n m1]. apply resized_normalized in E. cbn [fst snd] in *.
  ostep E1. destruct r2 as [l m2]. apply resized_normalized in E2. cbn [fst snd] in *.
  cbv zeta in E1. ostep E1. clear E1. exists r2. rewrite <- E3.
  assert (m_ActiveModel m2 = m_ActiveModel m) as -> by (by rewrite E2, E).
  assert (m_Models m2 = m_Models m /\ m_Reallocs m2 = m_Reallocs m) as [M2 R2] by (by rewrite E2, E).
  unfold deref, model_at. by rewrite M2, R2.
Qed.

(** C35: A model added while another one is dragged: the pointer of the drag
    survives on every other page and on a page whose vector has room; when the
    vector of its own page moves, the pointer dangles, and the next mouse move
    has no defined result. *)
Theorem AddModel_active_pointer fe vk model p m m' a x :
  inv m -> m_ActiveModel m = Some a -> deref m (Some a) = Ret x ->
  AddModel fe vk model p m = Ret m' ->
  if (p =? Z.of_nat (ptr_page a)) && grows (length (default [] (m_Models m !! ptr_page a)))
  then deref m' (m_ActiveModel m') = Undef /\
       forall w w' e r, inactive w m' = false -> mouseMoveEvent w w' e m' <> Ret r
  else deref m' (m_ActiveModel m') = Ret x.
Proof.
  intros I Ha Hx HA. destruct (AddModel_input _ _ _ _ _ _ HA) as (Kd & Ka & _).
  pose proof (AddModel_extends _ _ _ _ _ _ HA) as Hext.
  destruct x as [[q i] x]. destruct (deref_Ret _ _ _ _ _ Hx) as (Hm & ep & [= ->] & Hep).
  cbn [ptr_page] in *. rewrite Ka, Ha.
  assert (m_Dragging m' = true) as Hdrag.
  { rewrite Kd. destruct I as [_ _ _ Hd _ _]. rewrite Ha in Hd. apply Hd. }
  assert (deref m' (Some (mkPointer q i ep)) =
          if bool_decide (m_Reallocs m' !! q = Some ep) then Ret (q, i, x) else Undef) as Hde.
  { unfold deref. cbn [ptr_page ptr_index ptr_epoch]. case_bool_decide; [|done].
    by rewrite (Hext _ _ _ Hm). }
  pose proof (AddModel_epoch _ _ _ _ _ _ _ _ _ _ Hm Hep HA) as Hre.
  rewrite Hde, Hre. destruct ((p =? Z.of_nat q) && _).
  - rewrite bool_decide_false by (intros [= ?]; lia). split; [done|].
    intros w w' e r Hin E. rewrite Kd in *. apply moving_derefs in E as [x0 Hx0]; [|done|by rewrite Kd].
    by rewrite Ka, Ha, Hde, Hre, bool_decide_false in Hx0 by (intros [= ?]; lia).
  - by rewrite bool_decide_true.
Qed.

(** The PageView and the presentation a refresh reaches, and all it sends. *)
Definition refreshed_view (w : World) (m : Manager) (interacting : bool) : option object :=
  match pageView w m with
  | Some v => if widget_visible w v && (negb interacting || dualScreen w m) then Some v else None
  | None => None
  end.
Definition refreshed_presentation (w : World) (p : Z) (m : Manager) (interacting : bool) :
    option object :=
  match presentationWidget w m, m_Document m with
  | Some o, Some d => if (viewport_page w d =? int_of_size_t p) && (interacting || dualScreen w m)
                      then Some o else None
  | _, _ => None
  end.
Definition refresh_effects (w : World) (p : Z) (m : Manager) (page : object) (interacting : bool) :
    list action :=
  (if isSome (refreshed_view w m interacting) || negb (isSome (presentationWidget w m))
   then DeletePixmap page <$> option_list (m_PageViewObserver m) else []) ++
  (SendKeyRelease <$> option_list (refreshed_view w m interacting)) ++
  (SendResize <$> option_list (refreshed_presentation w p m interacting)).

(** [m'] is [m] but for what it sent and suppresses. *)
Definition only_sent (m m' : Manager) : Prop :=
  m' = m <| effects := effects m' |> <| m_SuppressPageViewRender := m_SuppressPageViewRender m' |>.

Lemma refreshPresentation_eq w p interacting m :
  refreshPresentation w p interacting m =
  match refreshed_presentation w p m interacting with
  | Some o => emit (SendResize o) (if interacting && negb (dualScreen w m)
                                   then m <| m_SuppressPageViewRender := true |> else m)
  | None => m
  end.
Proof.
  unfold refreshPresentation, refreshed_presentation.
  destruct (presentationWidget w m), (m_Document m) as [d|]; try done.
  by destruct ((viewport_page w d =? _) && _).
Qed.

Lemma refreshPixmap_eq w p m page interacting :
  m_Pages m !! Z.to_nat p = Some (Some page) ->
  interactingWithPresentation w m = Ret interacting ->
  exists m', refreshPixmap w p m = Ret m' /\ only_sent m m' /\
    effects m' = effects m ++ refresh_effects w p m page interacting /\
    m_SuppressPageViewRender m' = m_SuppressPageViewRender m ||
      (interacting && negb (dualScreen w m) && isSome (refreshed_presentation w p m interacting)).
Proof.
  intros Hp Hi. unfold refreshPixmap. rewrite Hp, Hi. cbn [obind]. cbv zeta.
  eexists. split; [reflexivity|]. rewrite refreshPresentation_eq. unfold refresh_effects.
  fold (refreshed_view w m interacting). set (view := refreshed_view w m interacting).
  set (m1 := if isSome view || _ then _ else m).
  set (m2 := match view with Some v => emit _ m1 | None => m1 end).
  assert (m2 = m <| effects := effects m ++
            (if isSome view || negb (isSome (presentationWidget w m))
             then DeletePixmap page <$> option_list (m_PageViewObserver m) else []) ++
            (SendKeyRelease <$> option_list view) |>) as ->.
  { unfold m2, m1. destruct view, (m_PageViewObserver m), (isSome (presentationWidget w m));
      destruct m; unfold emit; cbn; by rewrite ?app_nil_r, <- ?app_assoc. }
  clear m1. set (sent := effects m ++ _).
  change (refreshed_presentation w p (m <| effects := sent |>) interacting)
    with (refreshed_presentation w p m interacting).
  change (dualScreen w (m <| effects := sent |>)) with (dualScreen w m).
  rewrite (app_assoc _ (SendKeyRelease <$> _)), app_assoc. fold sent. clearbody sent.
  destruct (refreshed_presentation w p m interacting) as [o|], (interacting && negb (dualScreen w m)).
  all: destruct m; unfold only_sent, emit; cbn; rewrite ?app_nil_r, ?orb_true_r, ?orb_false_r; try done.
Qed.

Lemma elem_of_sent {A} (f : A -> action) (o : option A) a :
  a ∈ f <$> option_list o <-> exists x, o = Some x /\ a = f x.
Proof.
  destruct o as [x|]; cbn; split; set_solver.
Qed.

Lemma sent_iff w p m page interacting a :
  a ∈ refresh_effects w p m page interacting <->
  match a with
  | DeletePixmap page' o => page' = page /\ m_PageViewObserver m = Some o /\
      (isSome (refreshed_view w m interacting) || negb (isSome (presentationWidget w m))) = true
  | SendKeyRelease v => refreshed_view w m interacting = Some v
  | SendResize o => refreshed_presentation w p m interacting = Some o
  | _ => False
  end.
Proof.
  unfold refresh_effects. rewrite !elem_of_app, !elem_of_sent.
  destruct (_ || _); rewrite ?elem_of_sent; destruct a; set_solver.
Qed.

Lemma seen_view w (view : option object) v :
  match view with Some v => if widget_visible w v && true then Some v else None | None => None end
    = Some v <-> view = Some v /\ widget_visible w v = true.
Proof.
  destruct view as [v'|]; [|by split; [|intros [? _]]]. rewrite andb_true_r.
  destruct (widget_visible w v') eqn:Hv; (split; [by intros [= <-]|by intros [[= <-] ?]; congruence]).
Qed.

(** A refresh of a cached page is total and changes nothing in the manager but
    what it sends to the windows and the suppression of page renders.  While the
    user interacts with a presentation on the page view's own screen the page
    view is left alone (neither is its pixmap dropped nor is it asked to redraw),
    and exactly when the presentation is then redrawn the renders for the page
    view become suppressed; otherwise suppression stays as it was, and without a
    presentation the page's pixmap is always dropped. *)
Theorem refreshPixmap_spec w p m page interacting :
  m_Pages m !! Z.to_nat p = Some (Some page) ->
  interactingWithPresentation w m = Ret interacting ->
  exists m' sent, refreshPixmap w p m = Ret m' /\ only_sent m m' /\ effects m' = effects m ++ sent /\
    (forall o, SendResize o ∈ sent <-> refreshed_presentation w p m interacting = Some o) /\
    (if interacting && negb (dualScreen w m)
     then (forall o, DeletePixmap page o ∉ sent) /\ (forall v, SendKeyRelease v ∉ sent) /\
          m_SuppressPageViewRender m' =
            m_SuppressPageViewRender m || isSome (refreshed_presentation w p m interacting)
     else (forall v, SendKeyRelease v ∈ sent <-> pageView w m = Some v /\ widget_visible w v = true) /\
          m_SuppressPageViewRender m' = m_SuppressPageViewRender m) /\
    (presentationWidget w m = None -> forall o, m_PageViewObserver m = Some o ->
       DeletePixmap page o ∈ sent).
Proof.
  intros Hp Hi. destruct (refreshPixmap_eq w p m page interacting Hp Hi) as (m' & E & F & Hs & Hsup).
  exists m', (refresh_effects w p m page interacting).
  assert (interacting = true -> isSome (presentationWidget w m) = true) as Hpres.
  { unfold interactingWithPresentation in Hi. intros ->. by destruct (isSome _). }
  split; [exact E|]. split; [exact F|]. split; [exact Hs|]. split; [|split].
  - intros o. apply sent_iff.
  - destruct (interacting && negb (dualScreen w m)) eqn:Hsame.
    + apply andb_prop in Hsame as [-> Hd]. assert (refreshed_view w m true = None) as Hv.
      { unfold refreshed_view. destruct (pageView w m); [|done].
        destruct (dualScreen w m); [done|]. by rewrite andb_false_r. }
      split; [|split; [|exact Hsup]].
      * intros o (_ & _ & H)%sent_iff. rewrite Hv, Hpres in H; done.
      * intros v H%sent_iff. congruence.
    + rewrite Hsup, orb_false_r. split; [|done]. intros v. rewrite sent_iff, <- seen_view.
      unfold refreshed_view. by destruct interacting, (dualScreen w m).
  - intros Hn o Ho. apply sent_iff. split; [done|]. split; [done|]. by rewrite Hn, orb_true_r.
Qed.

(** ** Steps of the wheel and of a request *)

Lemma wheel_clamp_ok z : zoom_ok (wheel_clamp z).
Proof.
  unfold zoom_ok. destruct (sf_nan z) eqn:Hz.
  - left. destruct z; done.
  - right. unfold wheel_clamp. destruct (SFltb z minZoom) eqn:E1.
    + split; [apply sf_le_refl, minZoom_number | apply minZoom_le_maxZoom].
    + destruct (SFltb maxZoom z) eqn:E2.
      * split; [apply minZoom_le_maxZoom | apply sf_le_refl, maxZoom_number].
      * unfold sf_le. rewrite SFltb_SFleb in E1, E2 by auto using minZoom_number, maxZoom_number.
        apply negb_false_iff in E1, E2. split; assumption.
Qed.

Lemma wheel_zoom_Ret dx dy x x' :
  wheel_zoom dx dy x = Ret x' ->
  exists h factor, header_of x = Ret h /\ zoomFactor h = Some factor /\
    x' = set_Zoom (wheel_clamp (float_of_double
      ((if (if dy =? 0 then dx else dy) <? 0 then ddiv else dmul) (double_of_float (Zoom x)) factor))) x.
Proof.
  unfold wheel_zoom. intros E. ostep E. ostep E. injection E as <-.
  exists r, r0. split; [done|]. split; [by destruct (zoomFactor r) as [f|]; [injection E1 as ->|]|].
  by destruct (_ <? 0).
Qed.

(** A projection marks the model and keeps its zoom and its tessellation. *)
Lemma setProjection_keeps v x x' :
  setProjection v x = Ret x' ->
  Zoom x' = Zoom x /\ remesh x' = remesh x /\ m_HasChanged x' = true.
Proof.
  unfold setProjection. intros E. ostep E. ostep E. ostep E. ostep E. injection E as <-.
  assert (Zoom r = Zoom x /\ remesh r = remesh x) as [Hz Hr]; [|by split].
  revert E0. unfold setDimensions. intros E0. do 5 ostep E0. revert E0. cbv zeta.
  destruct (negb _); [destruct (SFltb _ _)|]; intros <-%Ret_inj;
    split; reflexivity.
Qed.

(** A request of the observer seen last promises no rebinding. *)
Lemma CacheRequest_binding w r m m' :
  CacheRequest w r m = Ret m' -> m_LastSeenPageViewObserver m = Some (req_observer r) ->
  m_PageView m' = m_PageView m /\
  (m_PendingRebindPosted m' = m_PendingRebindPosted m /\ rebind_queue m' = rebind_queue m).
Proof.
  unfold CacheRequest, cacheRequestUnlocked. cbv zeta. intros E Hl.
  set (m1 := if _ =? PAGEVIEW_PRIO then _ else m) in E.
  set (bound m' := m_PageView m' = m_PageView m /\ m_PendingRebindPosted m' = m_PendingRebindPosted m /\
                   rebind_queue m' = rebind_queue m).
  assert (bound m1) as B.
  { unfold m1, notePageView. destruct (_ =? _); [|done]. cbv zeta.
    by rewrite bool_decide_true. }
  assert (forall p a b c m2 m3, bound m2 -> cacheRequestSizeUnlocked w p a b c m2 = Ret m3 -> bound m3) as HS.
  { intros p a b c m2 m3 B2. unfold cacheRequestSizeUnlocked. cbv zeta. intros E2. ostep E2.
    destruct (SFltb _ _); by injection E2 as <-. }
  change (bound m'). clearbody m1. destruct (negb _).
  - destruct (_ <? _); [by eapply HS|]. ostep E. destruct (_ && _); [by eapply HS|by injection E as <-].
  - ostep E. ostep E. apply HS in E1.
    + unfold cachePageUnlocked in E. cbv zeta in E. ostep E. by injection E as <-.
    + destruct (_ || _); [|by injection E0 as <-]. ostep E0. by injection E0 as <-.
Qed.

(** A document is set while the rebinding that the last page-view request
    promised is still in the event queue: the event, when it is delivered, is
    ignored, wherever the document is shown by then; and no later request of the
    same page view promises another one, so the manager stays bound to the old
    view.  Without the change of document the same event rebinds. *)
Theorem clear_loses_rebind w d m o view x :
  m_Destroying m = false -> m_PendingRebindPosted m = true ->
  m_LastSeenPageViewObserver m = Some o ->
  resolvePageView w (m_Document m) = Some view -> pageView w m <> Some view ->
  (exists m', ApplicationEventFilter_eventFilter w x PageViewRebindEvent m = Ret (true, m') /\
              m_PageView m' = Some view) /\
  exists m', ApplicationEventFilter_eventFilter w x PageViewRebindEvent (SetDocument d m) = Ret (true, m') /\
    m_PageView m' = m_PageView m /\ effects m' = effects m /\
    forall w' r m'', req_observer r = o -> CacheRequest w' r m' = Ret m'' ->
      m_PendingRebindPosted m'' = false /\ m_PageView m'' = m_PageView m /\
      rebind_queue m'' = rebind_queue m'.
Proof.
  intros Hd Hp Hl Hr Hv. unfold ApplicationEventFilter_eventFilter.
  change (m_Destroying (SetDocument d m)) with (m_Destroying m). rewrite Hd. split.
  - eexists. split; [reflexivity|]. unfold rebindPageView. cbv zeta.
    change (m_PendingRebindPosted (m <| rebind_queue ::= Nat.pred |>)) with (m_PendingRebindPosted m).
    rewrite Hp. cbn [negb].
    change (m_Document (m <| rebind_queue ::= Nat.pred |> <| m_PendingRebindPosted := false |>))
      with (m_Document m). rewrite Hr.
    change (pageView w (m <| rebind_queue ::= Nat.pred |> <| m_PendingRebindPosted := false |>))
      with (pageView w m). by rewrite bool_decide_false.
  - eexists. split; [reflexivity|].
    set (m' := rebindPageView w (SetDocument d m <| rebind_queue ::= Nat.pred |>)).
    change (m_PageView m' = m_PageView m /\ effects m' = effects m /\
      forall w' r m'', req_observer r = o -> CacheRequest w' r m' = Ret m'' ->
        m_PendingRebindPosted m'' = false /\ m_PageView m'' = m_PageView m /\
        rebind_queue m'' = rebind_queue m').
    split; [done|]. split; [done|]. intros w' r m'' Ho E.
    destruct (CacheRequest_binding w' r m' m'' E) as (Hvw & Hsame).
    { change (m_LastSeenPageViewObserver m' = Some (req_observer r)).
      change (m_LastSeenPageViewObserver m') with (m_LastSeenPageViewObserver m). by rewrite Ho. }
    by rewrite Hvw, (proj1 Hsame), (proj2 Hsame).
Qed.

(** A wheel step over the model it is for zooms that model and no other: it
    multiplies or divides the zoom by the file's factor and keeps it within the
    usable range, marks the model for rendering, and leaves its place, file, draw
    mode and tessellation as they were (a wheel zoom does not ask for a new one,
    while a zoom drag does).  A step that is not for a model changes no model and
    is left to Okular. *)
Theorem wheelEvent_spec w w' dx dy m b m' :
  wheelEvent w w' dx dy m = Ret (b, m') ->
  if b then exists t page q i x x' h factor,
    wheel_target m = Some (t, page) /\ model_at m q i = Some x /\ model_at m' q i = Some x' /\
    (forall p j, (p, j) <> (q, i) -> model_at m' p j = model_at m p j) /\
    header_of x = Ret h /\ zoomFactor h = Some factor /\
    Zoom x' = wheel_clamp (float_of_double
      ((if (if dy =? 0 then dx else dy) <? 0 then ddiv else dmul) (double_of_float (Zoom x)) factor)) /\
    zoom_ok (Zoom x') /\ same_identity x x' /\ m_HasChanged x' = true /\ remesh x' = remesh x
  else m_Models m' = m_Models m.
Proof.
  unfold wheelEvent. destruct (inactive w m); [by intros [= <- <-]|].
  destruct (wheel_target m) as [[t page]|]; [|by intros [= <- <-]].
  intros E. ostep E. destruct r as [n m1]. apply resized_normalized in E0. cbn [fst snd] in *.
  ostep E. destruct r as [[q i] x]. apply deref_Ret in E1 as (Hx & _). cbn [fst snd] in *.
  destruct (negb (on_model n x)); [injection E as <- <-; by rewrite E0|].
  ostep E. ostep E. ostep E. ostep E. injection E as <- <-.
  destruct (wheel_zoom_Ret _ _ _ _ E1) as (h & factor & Hh & Hfa & ->).
  destruct (setProjection_keeps _ _ _ E3) as (Hz & Hrm & Hch).
  apply setProjection_identity in E3.
  assert (m_Models (EnsureCachedRequestSize (size_t page) m1) = m_Models m) as HM
    by (rewrite (resized_Ensure (size_t page) m1), E0; done).
  set (m2 := EnsureCachedRequestSize (size_t page) m1) in *. clearbody m2.
  assert (model_at m2 q i = Some x) as Hx2 by (unfold model_at in *; rewrite HM, <- Hx, E0; done).
  assert (m_Models r2 = m_Models (set_model q i r1 m2)) as HMr.
  { revert E4. unfold requestPixmapRefresh. destruct (SFltb _ _); [|by intros [= <-]].
    intros E4. apply obind_Ret in E4 as (m3 & Er & E4). apply refreshPixmap_only in Er.
    injection E4 as <-. change (m_Models m3 = m_Models (set_model q i r1 m2)). by rewrite Er. }
  exists t, page, q, i, x, r1, h, factor.
  assert (forall p j, model_at r2 p j = model_at (set_model q i r1 m2) p j) as Hr2
    by (intros; unfold model_at; by rewrite HMr).
  split; [done|]. split; [rewrite <- Hx2; unfold model_at; by rewrite HM|].
  split; [rewrite Hr2; by eapply model_at_set_model|].
  split; [intros p j Hne; rewrite Hr2, model_at_set_model_ne by congruence;
          unfold model_at; by rewrite HM|].
  split; [done|]. split; [done|]. split; [exact Hz|]. split; [rewrite Hz; apply wheel_clamp_ok|].
  split; [exact E3|]. split; [exact Hch|exact Hrm].
Qed.
End SessionProps.

(** ** A concrete session *)

#[local] Existing Instances glm_token libm_token images_token growth_token.

(** An operation that returns, by evaluation. *)
Definition get {A} (d : A) (o : outcome A) : A := match o with Ret a => a | _ => d end.
Lemma get_Ret {A} (d : A) o : (match o with Ret _ => true | _ => false end) = true -> o = Ret (get d o).
Proof. by destruct o. Qed.
Lemma get_consumed {A} (d : A) (o : outcome (bool * A)) :
  (match o with Ret (b, _) => b | _ => false end) = true -> o = Ret (true, snd (get (false, d) o)).
Proof. destruct o as [[[] ?]| |]; done. Qed.

(** A figure that fills page 0, shown in a page view of 100 by 100 pixels. *)
Definition s0 : Manager := newManager sample_world (Some 3).
Definition s1 : Manager := get s0 (AddModel (fun _ => true) true sample_model 0 s0).
Definition later_world : World := sample_world <| now := 3000000000 |>.
Definition s2 : Manager :=
  get s1 (CacheRequest later_world (mkPixmapRequest 40 0 50 100 100 PAGEVIEW_PRIO) s1).
Definition press : MouseEvent :=
  mkMouse (double_of_Z 50) (double_of_Z 50) true false false false.
#[local] Abbreviation press_event :=
  (EventFilter_eventFilter later_world later_world 1 (MouseButtonPress press)).
Definition s3 : Manager := snd (get (false, s2) (press_event s2)).

Lemma s1_ret : AddModel (fun _ => true) true sample_model 0 s0 = Ret s1.
Proof. apply get_Ret. vm_compute. reflexivity. Qed.
Lemma s2_ret :
  CacheRequest later_world (mkPixmapRequest 40 0 50 100 100 PAGEVIEW_PRIO) s1 = Ret s2.
Proof. apply get_Ret. vm_compute. reflexivity. Qed.
Lemma s3_ret : press_event s2 = Ret (true, s3).
Proof. apply get_consumed. vm_compute. reflexivity. Qed.

Lemma s3_reachable : reachable s3.
Proof.
  refine (reachable_step s2 s3 _ (step_event s2 s3 (event_filter s2 _ _ _ _ _ s3 s3_ret))).
  refine (reachable_step s1 s2 _ (step_event s1 s2 (event_CacheRequest s1 _ _ s2 s2_ret))).
  exact (reachable_step s0 s1 (reachable_new _ _) (step_AddModel s0 _ _ _ _ s1 s1_ret)).
Qed.

Lemma reachable_invariant_witness :
  m_Dragging s3 = true /\ exists a, m_ActiveModel s3 = Some a /\
    is_Some (model_at s3 (ptr_page a) (ptr_index a)).
Proof.
  destruct (reachable_invariant s3 s3_reachable) as (_ & _ & Hd & _).
  assert (m_Dragging s3 = true) as Hg by (vm_compute; reflexivity). rewrite Hg in Hd.
  split; [exact Hg|]. destruct Hd as (a & Ha & _ & Hm). exact (ex_intro _ a (conj Ha Hm)).
Defined.

(** A second figure arrives on the page while the first is dragged. *)
Definition s4 : Manager := get s3 (AddModel (fun _ => true) true sample_model 0 s3).
Lemma s4_ret : AddModel (fun _ => true) true sample_model 0 s3 = Ret s4.
Proof. apply get_Ret. vm_compute. reflexivity. Qed.

Definition dragged_pointer : pointer := mkPointer 0 0 1.
Definition dragged_place : nat * nat * V3dModel :=
  get (0%nat, 0%nat, sample_model) (deref s3 (Some dragged_pointer)).

Lemma AddModel_active_pointer_witness :
  deref s3 (m_ActiveModel s3) = Ret dragged_place /\ deref s4 (m_ActiveModel s4) = Undef.
Proof.
  assert (deref s3 (Some dragged_pointer) = Ret dragged_place) as Hd
    by (apply get_Ret; vm_compute; reflexivity).
  assert (m_ActiveModel s3 = Some dragged_pointer) as Ha by (vm_compute; reflexivity).
  pose proof (AddModel_active_pointer (fun _ => true) true sample_model 0 s3 s4 dragged_pointer
    dragged_place (inv_reachable s3 s3_reachable) Ha Hd s4_ret) as H.
  assert ((0 =? Z.of_nat (ptr_page dragged_pointer)) &&
          grows (length (default [] (m_Models s3 !! ptr_page dragged_pointer))) = true) as Hg
    by (vm_compute; reflexivity).
  rewrite Hg in H. split; [rewrite Ha; exact Hd|exact (proj1 H)].
Defined.

Lemma refreshPixmap_spec_witness :
  exists m' sent, refreshPixmap later_world 0 s3 = Ret m' /\ effects m' = effects s3 ++ sent /\
    DeletePixmap 40 50 ∈ sent /\ SendKeyRelease 1 ∈ sent.
Proof.
  assert (m_Pages s3 !! Z.to_nat 0 = Some (Some 40) /\ interactingWithPresentation later_world s3 = Ret false /\
    presentationWidget later_world s3 = None /\ m_PageViewObserver s3 = Some 50 /\
    pageView later_world s3 = Some 1) as (H1 & H2 & H3 & H4 & H5) by (vm_compute; done).
  destruct (refreshPixmap_spec later_world 0 s3 40 false H1 H2)
    as (m' & sent & E & _ & Hs & _ & Hv & Hd).
  exists m', sent. refine (conj E (conj Hs (conj (Hd H3 50 H4) _))).
  apply (proj1 Hv). exact (conj H5 eq_refl).
Defined.

(** The page view moves to another window before the event is delivered. *)
Definition moved_world : World := later_world <| all_widgets := [2] |> <| is_pageview := fun o => o =? 2 |>.

Lemma clear_loses_rebind_witness :
  m_PendingRebindPosted s2 = true /\
  exists m', ApplicationEventFilter_eventFilter moved_world 0 PageViewRebindEvent
               (SetDocument (Some 4) s2) = Ret (true, m') /\ m_PageView m' = Some 1.
Proof.
  assert (m_Destroying s2 = false /\ m_PendingRebindPosted s2 = true /\
    m_LastSeenPageViewObserver s2 = Some 50 /\ resolvePageView moved_world (m_Document s2) = Some 2 /\
    m_PageView s2 = Some 1) as (H1 & H2 & H3 & H4 & H5) by (vm_compute; done).
  assert (pageView moved_world s2 <> Some 2) as H6 by (vm_compute; discriminate).
  split; [exact H2|].
  destruct (clear_loses_rebind moved_world (Some 4) s2 50 2 0 H1 H2 H3 H4 H6) as [_ (m' & E & Hv & _)].
  exists m'. exact (conj E (eq_trans Hv H5)).
Defined.

#[local] Abbreviation wheel_event := (wheelEvent later_world later_world 0 120).
Definition s5 : Manager := snd (get (false, s3) (wheel_event s3)).

Lemma wheelEvent_spec_witness :
  wheel_event s3 = Ret (true, s5) /\
  exists q i x', model_at s5 q i = Some x' /\ zoom_ok (Zoom x').
Proof.
  assert (wheel_event s3 = Ret (true, s5)) as E
    by (apply get_consumed; vm_compute; reflexivity).
  split; [exact E|].
  destruct (wheelEvent_spec later_world later_world 0 120 s3 true s5 E)
    as (t & page & q & i & x & x' & h & factor & _ & _ & Hx & _ & _ & _ & _ & Hz & _).
  exact (ex_intro _ q (ex_intro _ i (ex_intro _ x' (conj Hx Hz)))).
Defined.
