(* ===== verification/Pictures.v ===== *)
(** * The pictures of a session

    [RenderModel] of the manager ([Render]) joined with the frames of its models
    ([Shown]): what the objects of every model keep between frames, the vertex
    buffers of the process and those of the device go beside the manager through a
    whole session of events, documents and pixmap requests.  The flags that decide
    what is meshed again, [remesh], the last page and model and the draw mode, are
    the manager's own.  The session is that of the only open document: the last
    page and model are statics that every document of the process shares. *)

From S2P Require Import Prelude Ieee Xstream Bound V3dData V3dLoad LoadSafety IblName IblPath Renderer.
From S2P Require Import Model Manager PageView HitTest Input Render IblDownload Session.
From S2P Require Import Mesh Tess TessProps LoadShape Objects Solids QueueMesh QueueSafety Frames QueueProps.
From S2P Require Import Appends Upload Marks Sync Shown.
Import Stdio.

(** What is kept for the model with each page and index, and the buffers. *)
Record Pictures := mkPictures {
  states : nat -> nat -> list ObjectState; scene : Scene; device : DeviceBuffers
}.

Definition put_states (p i : nat) (sts : list ObjectState) (st : nat -> nat -> list ObjectState) :
    nat -> nat -> list ObjectState :=
  fun q j => if decide (q = p /\ j = i) then sts else st q j.

Lemma put_states_eq p i sts st : put_states p i sts st p i = sts.
Proof. unfold put_states. by rewrite decide_True. Qed.
Lemma put_states_ne p i sts st q j : ~ (q = p /\ j = i) -> put_states p i sts st q j = st q j.
Proof. intros H. unfold put_states. by rewrite decide_False. Qed.

(** Which buffers have indices. *)
Definition buffers_of (s : Scene) : Buffers :=
  let some b := negb (Nat.eqb (length (indices b)) 0) in
  mkBuffers (some (Mesh.materialData s)) (some (Mesh.colorData s)) (some (Mesh.lineData s))
    (some (Mesh.transparentData s)) (some (Mesh.pointData s)).

Lemma buffers_renderable s : hasRenderableData (buffers_of s) = renderable s.
Proof.
  unfold hasRenderableData, renderable, buffers_of. cbn [existsb Render.materialData Render.colorData
    Render.lineData Render.transparentData Render.pointData]. by rewrite orb_false_r, <- !orb_assoc.
Qed.

Section Pictures.
Context {glm : Glm} {libm : Libm} {img : Images} {growth : Growth} {math : MeshMath}.
(** The depth of the subdivision, what the device supports, and the numbers in the
    matrices of glm. *)
Context (fuel : nat) (interlock : bool) (view_of : dmat4 -> dmat3 -> View).

(** The arguments of [QueueMesh] in [RenderModel]; [materials] and [pixelsPerBp] are
    set by [QueueMesh] itself. *)
Definition request_of (qu : Render.Queue) : Objects.Request :=
  Objects.mkRequest (q_width qu) (q_height qu) (q_min qu) (q_max qu) (Render.q_remesh qu)
    (Render.q_orthographic qu) (Render.q_mode qu) (view_of (q_projView qu) (q_norm qu)) [] d1 fuel.

(** [RenderModel] with the real [QueueMesh]: it serves an image it has; it draws a
    frame; or it queues one that the renderer does not draw, because Vulkan or an
    allocation fails, and then the renderer has destroyed its buffers, as it may have
    before it draws. *)
Inductive paints (page index : nat) (width height : Z) :
    Globals * Manager * Pictures -> Globals * Manager * Pictures -> Prop :=
  | paints_nothing fe vk rd env g m P i g' m' :
      RenderModel_request fe vk rd env page index width height g m = Ret (inl i, g', m') ->
      paints page index width height (g, m, P) (g', m', P)
  | paints_frame fe vk rd env d g m P u path cached model g1 m1 qu gpu x g2 m2 sts s i g' m' dev drawn s' dev' :
      RenderModel_request fe vk rd env page index width height g m =
        Ret (inr (u, path, cached, model), g1, m1) ->
      RenderModel_queue page index width height cached model g1 m1 = Ret (qu, gpu, x, g2, m2) ->
      file_QueueMesh (request_of qu) (q_file qu) (states P page index) (clearData (scene P)) = Ret (sts, s) ->
      RenderModel_draw d page index width height u path (q_file qu) (buffers_of s) gpu x g2 m2 =
        Ret (i, g', m') ->
      dev = device P \/ dev = noBuffers ->
      frame interlock (request_of qu) (q_file qu) (states P page index) (scene P) dev =
        Ret (sts, drawn, s', dev') -> small s' ->
      paints page index width height (g, m, P)
        (g', m', mkPictures (put_states page index sts (states P)) s' dev')
  | paints_fails fe vk rd env d g m P u path cached model g1 m1 qu gpu x g2 m2 sts s i g' m' s' :
      RenderModel_request fe vk rd env page index width height g m =
        Ret (inr (u, path, cached, model), g1, m1) ->
      RenderModel_queue page index width height cached model g1 m1 = Ret (qu, gpu, x, g2, m2) ->
      file_QueueMesh (request_of qu) (q_file qu) (states P page index) (clearData (scene P)) = Ret (sts, s) ->
      small s ->
      RenderModel_draw d page index width height u path (q_file qu) (buffers_of s) gpu x g2 m2 =
        Ret (i, g', m') ->
      (forall k, content k s' = content k s) ->
      paints page index width height (g, m, P)
        (g', m', mkPictures (put_states page index sts (states P)) s' noBuffers).

(** A file that was loaded from bytes. *)
Definition loaded (f : V3dFile) : Prop :=
  exists data x, load_file (Some (mkFILE data 0 None)) = Ret (f, x).

(** A session: models are added as [V3dModel]'s constructor makes them. *)
Inductive pictured : Globals -> Manager -> Pictures -> Prop :=
  | pictured_new w d g P : pictured g (newManager w d) P
  | pictured_event g m P m' : pictured g m P -> event m m' -> pictured g m' P
  | pictured_AddModel g m P fe vk f minB maxB model p m' :
      pictured g m P -> loaded f -> V3dModel_of_file (Some f) minB maxB = Ret model ->
      AddModel fe vk model p m = Ret m' ->
      pictured g m' (mkPictures
        (put_states (Z.to_nat p) (length (default [] (m_Models m !! Z.to_nat p))) (new_states f) (states P))
        (scene P) (device P))
  | pictured_SetDocument g m P d : pictured g m P -> pictured g (SetDocument d m) P
  | pictured_paints page index width height g m P g' m' P' :
      pictured g m P -> paints page index width height (g, m, P) (g', m', P') -> pictured g' m' P'.

(** ** What the parts of [RenderModel] do to the flags *)

(** The last page and model. *)
Definition at_last (g : Globals) (p i : nat) : Prop := p = lastPage g /\ i = lastModel g.

Lemma switched_false p i g : switchedModel p i g = false -> at_last g p i.
Proof.
  unfold switchedModel. rewrite orb_false_iff, !negb_false_iff, !Nat.eqb_eq. done.
Qed.

Lemma check_IBL_last rd env page index name g m p i :
  at_last (check_IBL rd env page index name g m).1.2 p i <-> at_last g p i.
Proof. unfold check_IBL. repeat case_match; done. Qed.

Lemma request_last fe vk rd env page index width height g m r g' m' p i :
  RenderModel_request fe vk rd env page index width height g m = Ret (r, g', m') ->
  at_last g' p i <-> at_last g p i.
Proof.
  unfold RenderModel_request. destruct (m_HeadlessRenderer _); [|by intros [= _ <- _]].
  destruct (_ || _); [by intros [= _ <- _]|]. intros E. ostep E. ostep E.
  pose proof (check_IBL_last rd env page index (imageName r1) g (ensureHeadlessRenderer fe vk m) p i) as Hl.
  destruct (check_IBL _ _ _ _ _ _ _) as [[[u q] g1] m1]. cbn [fst snd] in Hl. ostep E.
  destruct (_ && _ && _); [by injection E as _ <- _|]. ostep E. revert E. cbv zeta.
  destruct (_ || _); [by intros [= _ <- _]|]. intros E. ostep E. by injection E as _ <- _.
Qed.

Lemma queue_part page index width height cached model g m qu gpu x g' m' f :
  file model = Some f -> model_at m page index = Some model ->
  RenderModel_queue page index width height cached model g m = Ret (qu, gpu, x, g', m') ->
  q_file qu = f /\ Render.q_remesh qu = remesh x /\ Render.q_mode qu = drawMode x /\
  file x = Some f /\ drawMode x = drawMode model /\
  (remesh x = false -> remesh model = false /\ at_last g page index) /\
  at_last g' page index /\ model_at m' page index = Some x /\
  (forall p i, ~ (p = page /\ i = index) -> model_at m' p i = model_at m p i).
Proof.
  intros Hf Hm. unfold RenderModel_queue. intros E. ostep E. rewrite Hf in E. cbn [determined obind] in E.
  ostep E. revert E. cbv zeta. set (model1 := if switchedModel page index g then _ else _).
  assert (file model1 = Some f /\ drawMode model1 = drawMode model /\
    (remesh model1 = false -> remesh model = false /\ switchedModel page index g = false)) as (Hf1 & Hd1 & Hr1)
    by (unfold model1; destruct (switchedModel page index g); done).
  clearbody model1. destruct (enter_model_frame page index (drawMode model1) g m) as [HM _].
  assert (at_last (enter_model page index (drawMode model1) g m).1 page index) as Hl.
  { unfold enter_model. destruct (switchedModel page index g) eqn:Hs; [done|by apply switched_false]. }
  destruct (enter_model _ _ _ _ _) as [g1 m1]. cbn [fst snd] in *. intros E. ostep E. revert E.
  set (model2 := if _ : bool then _ else model1).
  assert (file model2 = Some f /\ drawMode model2 = drawMode model /\
    (remesh model2 = false -> remesh model1 = false)) as (Hf2 & Hd2 & Hr2)
    by (unfold model2; by destruct (_ || _)).
  clearbody model2. intros [= <- _ <- <- <-]. split_and!; try done.
  - intros [Hr Hs]%Hr2%Hr1. split; [done|by apply switched_false].
  - eapply model_at_set_model. unfold model_at. rewrite HM. exact Hm.
  - intros p i Hne. rewrite model_at_set_model_ne; [by unfold model_at; rewrite HM|].
    intros [= <- <-]. by destruct Hne.
Qed.

Lemma draw_part d page index width height u path f buffers gpu model g m i g' m' :
  model_at m page index = Some model ->
  RenderModel_draw d page index width height u path f buffers gpu model g m = Ret (i, g', m') ->
  g' = g /\
  (exists y, model_at m' page index = Some y /\ file y = file model /\ drawMode y = drawMode model /\
     (remesh y = false -> remesh model = false \/ drawMode model <> DRAWMODE_OUTLINE)) /\
  (forall p j, ~ (p = page /\ j = index) -> model_at m' p j = model_at m p j).
Proof.
  intros Hm. unfold RenderModel_draw. cbv zeta. destruct (negb _); intros E.
  { ostep E. ostep E. ostep E. injection E as _ <- <-. split; [done|]. split; [|done].
    exists model. by split_and!; [..|left]. }
  revert E. set (model3 := set_initialized _ _).
  assert (file model3 = file model /\ drawMode model3 = drawMode model /\
     (remesh model3 = false -> remesh model = false \/ drawMode model <> DRAWMODE_OUTLINE)) as (Hf & Hd & Hr).
  { unfold model3. destruct (mode_eqb (drawMode model) DRAWMODE_OUTLINE) eqn:Hmode; split_and!; try done.
    - by left.
    - right. intros Ho. by rewrite Ho in Hmode. }
  clearbody model3. intros E. ostep E. destruct r as [fr gpu']. cbn [fst snd] in E.
  assert (forall q j, ~ (q = page /\ j = index) ->
    model_at (set_model page index model3 m <| m_HeadlessRenderer := Some gpu' |>) q j = model_at m q j) as Ho.
  { intros q j Hne. change (model_at (set_model page index model3 m) q j = model_at m q j).
    apply model_at_set_model_ne. intros [= <- <-]. by destruct Hne. }
  assert (model_at (set_model page index model3 m <| m_HeadlessRenderer := Some gpu' |>) page index =
    Some model3) as H3.
  { change (model_at (set_model page index model3 m) page index = Some model3). by eapply model_at_set_model. }
  destruct fr as [fr|].
  - ostep E. injection E as _ <- <-. split; [done|]. split.
    + exists (set_m_HasChanged false model3). split; [|by split_and!].
      change (model_at (set_model page index (set_m_HasChanged false model3)
        (set_model page index model3 m <| m_HeadlessRenderer := Some gpu' |>)) page index =
        Some (set_m_HasChanged false model3)). by eapply model_at_set_model.
    + intros q j Hne. rewrite <- (Ho q j Hne).
      change (model_at (set_model page index (set_m_HasChanged false model3)
        (set_model page index model3 m <| m_HeadlessRenderer := Some gpu' |>)) q j =
        model_at (set_model page index model3 m <| m_HeadlessRenderer := Some gpu' |>) q j).
      apply model_at_set_model_ne. intros [= <- <-]. by destruct Hne.
  - injection E as _ <- <-. split; [done|]. split; [|done]. by exists model3.
Qed.

(** ** The invariant of a session *)

(** The history of the model's frames says at least what its flags promise. *)
Definition promised (g : Globals) (P : Pictures) (p i : nat) (f : V3dFile) (rm : bool) (mode : DrawMode) : Prop :=
  exists b m, shows f b m (states P p i) (scene P) (device P) /\
    (rm = false -> at_last g p i -> b = false /\ m = mode).

Definition picture_ok (g : Globals) (P : Pictures) (p i : nat) (x : V3dModel) : Prop :=
  exists f, file x = Some f /\ loaded f /\ promised g P p i f (remesh x) (drawMode x).

Definition pictures_ok (g : Globals) (m : Manager) (P : Pictures) : Prop :=
  forall p i x, model_at m p i = Some x -> picture_ok g P p i x.

Lemma promised_weaken g g' P p i f rm rm' mode mode' :
  (rm' = false -> at_last g' p i -> rm = false /\ at_last g p i /\ mode' = mode) ->
  promised g P p i f rm mode -> promised g' P p i f rm' mode'.
Proof.
  intros H (b & m & Hs & Hb). exists b, m. split; [done|]. intros Hr Hl.
  destruct (H Hr Hl) as (Hr' & Hl' & ->). by apply Hb.
Qed.

Lemma picture_ok_same g g' P p i x x' :
  (at_last g' p i -> at_last g p i) -> file x' = file x -> mesh_kept x x' ->
  picture_ok g P p i x -> picture_ok g' P p i x'.
Proof.
  intros Hl Hf Hm (f & Hx & Hz & Hp). exists f. split; [congruence|]. split; [done|].
  eapply promised_weaken; [|exact Hp]. intros Hr Hl'. destruct Hm as [Hm|[H1 H2]]; [congruence|].
  split_and!; [congruence|by apply Hl|done].
Qed.

Lemma idents_file m m' p i x' :
  idents m' = idents m -> model_at m' p i = Some x' ->
  exists x, model_at m p i = Some x /\ file x' = file x.
Proof.
  intros Hid Hx'. pose proof (model_at_idents m' p i) as H'. pose proof (model_at_idents m p i) as H.
  rewrite Hid, <- H, Hx' in H'. cbn in H'. destruct (model_at m p i) as [x|]; [|done].
  exists x. split; [done|]. unfold ident in H'. cbn in H'. congruence.
Qed.

Lemma same_pictures g g' m m' P :
  (forall p i, at_last g' p i -> at_last g p i) -> same_models m m' ->
  pictures_ok g m P -> pictures_ok g' m' P.
Proof.
  intros Hl [Hid Hm] HP p i x' Hx'. destruct (idents_file _ _ _ _ _ Hid Hx') as (x & Hx & Hf).
  eapply picture_ok_same; [apply Hl|exact Hf| |by apply HP].
  by destruct (Hm p i x x' Hx Hx') as [[]|].
Qed.

(** Another model has been rendered. *)
Lemma picture_away g g' P P' p i x :
  states P' p i = states P p i -> ~ at_last g' p i -> picture_ok g P p i x -> picture_ok g' P' p i x.
Proof.
  intros Hs Hl (f & Hf & Hz & b & m & H & _). exists f. split; [done|]. split; [done|].
  exists true, m. rewrite Hs. split; [by eapply shown_away|]. intros _ Hl'. by destruct Hl.
Qed.

Lemma shows_outline f b m sts s g : shows f b m sts s g -> b = false -> m <> DRAWMODE_OUTLINE.
Proof.
  induction 1 as [| |b m sts s g _ IH|b m sts0 s0 g0 il q sts d s g _ _ _ _ _|b m sts0 s0 g0 q sts s s' _ _ _ _ _ _];
    try done; intros E; by apply bool_decide_eq_false in E.
Qed.

(** The model that is drawn: its history goes on. *)
Lemma drawn_promise g1 g2 (qu : Render.Queue) P P' p i f x model rm mode :
  Render.q_remesh qu = remesh x -> Render.q_mode qu = drawMode x -> drawMode x = drawMode model ->
  (remesh x = false -> remesh model = false /\ at_last g1 p i) ->
  promised g1 P p i f (remesh model) (drawMode model) ->
  (forall b m, shows f b m (states P p i) (scene P) (device P) ->
     q_remesh (request_of qu) = true \/ (b = false /\ q_mode (request_of qu) = m) ->
     shows f (mode_is (request_of qu) DRAWMODE_OUTLINE) (q_mode (request_of qu)) (states P' p i) (scene P') (device P')) ->
  mode = drawMode x -> (rm = false -> remesh x = false \/ drawMode x <> DRAWMODE_OUTLINE) ->
  promised g2 P' p i f rm mode.
Proof.
  intros Hqr Hqm Hd Hx (b & m & Hs & Hb) Hnext -> Hrm.
  assert (q_remesh (request_of qu) = true \/ (b = false /\ q_mode (request_of qu) = m)) as Hc.
  { change (Render.q_remesh qu = true \/ b = false /\ Render.q_mode qu = m). rewrite Hqr, Hqm.
    destruct (remesh x) eqn:Er; [by left|right]. destruct (Hx eq_refl) as [Hr Hl].
    destruct (Hb Hr Hl) as [-> ->]. by split. }
  exists (mode_is (request_of qu) DRAWMODE_OUTLINE), (q_mode (request_of qu)).
  split; [by eapply Hnext|]. intros Hr _. split; [|done].
  apply bool_decide_eq_false. change (Render.q_mode qu <> DRAWMODE_OUTLINE). rewrite Hqm.
  destruct (Hrm Hr) as [Hrx|]; [|done]. destruct (Hx Hrx) as [Hrm' Hl].
  destruct (Hb Hrm' Hl) as [-> Hm]. rewrite Hd, <- Hm. by eapply shows_outline.
Qed.

(** What [RenderModel] makes of the pictures when it queues a file. *)
Lemma queued_pictures fe vk rd env d page index width height g m P P' u path cached model g1 m1 qu gpu x g2 m2
    buffers i g' m' :
  pictures_ok g m P ->
  RenderModel_request fe vk rd env page index width height g m = Ret (inr (u, path, cached, model), g1, m1) ->
  RenderModel_queue page index width height cached model g1 m1 = Ret (qu, gpu, x, g2, m2) ->
  RenderModel_draw d page index width height u path (q_file qu) buffers gpu x g2 m2 = Ret (i, g', m') ->
  (forall b md, shows (q_file qu) b md (states P page index) (scene P) (device P) ->
     q_remesh (request_of qu) = true \/ (b = false /\ q_mode (request_of qu) = md) ->
     shows (q_file qu) (mode_is (request_of qu) DRAWMODE_OUTLINE) (q_mode (request_of qu))
       (states P' page index) (scene P') (device P')) ->
  (forall q j, ~ (q = page /\ j = index) -> states P' q j = states P q j) ->
  pictures_ok g' m' P'.
Proof.
  intros HP E1 E2 E3 Hnext Hother.
  pose proof (fun p i => proj1 (request_last _ _ _ _ _ _ _ _ _ _ _ _ _ p i E1)) as Hl1.
  apply (keeps_request_part nowhere) in E1 as [K1%same_keeps Hm1].
  assert (pictures_ok g1 m1 P) as HP1 by by eapply same_pictures.
  destruct (HP1 page index model Hm1) as (f & Hf & Hz & Hp).
  destruct (queue_part _ _ _ _ _ _ _ _ _ _ _ _ _ _ Hf Hm1 E2) as
    (Hqf & Hqr & Hqm & Hfx & Hdx & Hrx & Hl2 & Hm2 & Ho2). subst f.
  destruct (draw_part _ _ _ _ _ _ _ _ _ _ _ _ _ _ _ _ Hm2 E3) as (-> & (y & Hy & Hfy & Hdy & Hry) & Ho3).
  intros q j z Hzq. destruct (decide (q = page /\ j = index)) as [[-> ->]|Hne].
  - assert (z = y) as -> by congruence. exists (q_file qu). split; [congruence|]. split; [done|].
    eapply (drawn_promise g1 g2); [exact Hqr|exact Hqm|exact Hdx|exact Hrx|exact Hp|exact Hnext|done|done].
  - rewrite Ho3, Ho2 in Hzq by done. eapply picture_away; [by apply Hother| |by apply HP1].
    intros [-> ->]. destruct Hl2 as [-> ->]. by destruct Hne.
Qed.

Lemma paints_pictures page index width height g m P g' m' P' :
  pictures_ok g m P -> paints page index width height (g, m, P) (g', m', P') -> pictures_ok g' m' P'.
Proof.
  intros HP Hpaint. remember (g, m, P) as c eqn:Ec. remember (g', m', P') as c' eqn:Ec'.
  destruct Hpaint as [fe vk rd env g0 m0 P0 i g1' m1' E
    |fe vk rd env d g0 m0 P0 u path cached model g1 m1 qu gpu x g2 m2 sts s i g1' m1' dev drawn s' dev'
       E1 E2 Eq E3 Hdev Ef Hs
    |fe vk rd env d g0 m0 P0 u path cached model g1 m1 qu gpu x g2 m2 sts s i g1' m1' s' E1 E2 Eq Hs E3 Hc];
    injection Ec as -> -> ->; injection Ec' as -> -> <-.
  - pose proof (fun p i => proj1 (request_last _ _ _ _ _ _ _ _ _ _ _ _ _ p i E)) as Hl.
    apply (keeps_request_part nowhere) in E as [K%same_keeps _]. by eapply same_pictures.
  - eapply queued_pictures; [exact HP|exact E1|exact E2|exact E3| |].
    + intros b md Hsh Hcond. cbn [states scene device]. rewrite put_states_eq.
      eapply (shown_frame _ b md _ _ dev); [|exact Hcond|exact Ef|exact Hs].
      destruct Hdev as [-> | ->]; [done|by eapply shown_dropped].
    + intros q j Hne. by apply put_states_ne.
  - eapply queued_pictures; [exact HP|exact E1|exact E2|exact E3| |].
    + intros b md Hsh Hcond. cbn [states scene device]. rewrite put_states_eq.
      by eapply (shown_failed _ b md).
    + intros q j Hne. by apply put_states_ne.
Qed.

Lemma initProjection_new model model' :
  initProjection model = Ret model' -> file model' = file model /\ remesh model' = remesh model.
Proof. unfold initProjection. intros E. do 7 ostep E. by injection E as <-. Qed.

Lemma AddModel_at fe vk model p m m' q j x (P := Z.to_nat p) (n := length (default [] (m_Models m !! P))) :
  AddModel fe vk model p m = Ret m' -> model_at m' q j = Some x ->
  (model_at m q j = Some x /\ ~ (q = P /\ j = n)) \/ (q = P /\ j = n /\ initProjection model = Ret x).
Proof.
  intros (m0 & page & row & ep & model' & -> & Hinit & _ & Hpage & _ & _ & ->)%AddModel_Ret Hx.
  change (<[P := page ++ [model']]> (grow [] p (m_Models m)) !! q ≫= (fun l => l !! j) = Some x) in Hx.
  assert (page = default [] (m_Models m !! P)) as Hp.
  { destruct (grow_spec [] p (m_Models m)) as [Hpre _].
    destruct (m_Models m !! P) as [l|] eqn:El.
    - apply (prefix_lookup_Some _ _ _ _ El) in Hpre. unfold P in Hpre. cbn. congruence.
    - apply grow_lookup in Hpage as [H| ->]; [|done]. change (m_Models m !! P = Some page) in H. by rewrite El in H. }
  apply bind_Some in Hx as (l & Hl & Hj). unfold model_at. destruct (decide (q = P)) as [->|Hne].
  - rewrite list_lookup_insert_eq in Hl by exact (lookup_lt_Some _ _ _ Hpage). injection Hl as <-.
    apply lookup_app_Some in Hj as [Hj|[Hge Hj]].
    + left. split; [|intros [_ ->]; apply lookup_lt_Some in Hj; unfold n in Hj; rewrite <- Hp in Hj; lia].
      rewrite Hp in Hj. by destruct (m_Models m !! P).
    + right. apply list_lookup_singleton_Some in Hj as [H0 <-]. split; [done|]. split; [|done].
      unfold n. rewrite <- Hp. lia.
  - rewrite list_lookup_insert_ne in Hl by done. left. split; [|by intros [? _]].
    apply grow_lookup in Hl as [-> | ->]; [done|by rewrite lookup_nil in Hj].
Qed.

Lemma pictured_ok g m P : pictured g m P -> pictures_ok g m P.
Proof.
  induction 1 as [w d g P|g m P m' _ IH E|g m P fe vk f minB maxB model p m' _ IH Hz Hm E|g m P d _ IH
                 |page index width height g m P g' m' P' _ IH Hp].
  - intros p i x. unfold newManager. cbv zeta. by repeat case_match.
  - by eapply same_pictures, IH; [|apply same_event].
  - intros q j x Hx. destruct (AddModel_at _ _ _ _ _ _ _ _ _ E Hx) as [[Hx0 Hne]|(-> & -> & Hi)].
    + destruct (IH q j x Hx0) as (f0 & Hf0 & Hz0 & b & md & Hs & Hb). exists f0. split; [done|]. split; [done|].
      exists b, md. cbn [states scene device]. by rewrite put_states_ne.
    + unfold V3dModel_of_file in Hm. apply initProjection_new in Hm as [Hf1 Hr1].
      apply initProjection_new in Hi as [Hf2 Hr2]. exists f. split; [by rewrite Hf2, Hf1|]. split; [done|].
      exists true, DRAWMODE_NORMAL. cbn [states scene device]. rewrite put_states_eq.
      split; [apply shown_new|]. rewrite Hr2, Hr1. done.
  - done.
  - by eapply paints_pictures.
Qed.
End Pictures.

(** C4: Every picture of a session shows what is queued: the only open document, with
    models of files loaded from any bytes, after any events, pixmap requests in any sizes
    and of any pages, draw modes, downloads, failed frames and changes of the document,
    with the [remesh] flags, the last page and the last model as the manager keeps
    them.  When [RenderModel] queues a file of [faithful] objects, with at most 2^32
    vertices in each buffer, the draw calls of the frame are defined and read, index by
    index, the vertices that were queued, whether or not the renderer has recreated its
    buffers. *)
Theorem session_draws_queue {glm : Glm} {libm : Libm} {img : Images} {growth : Growth} {math : MeshMath}
    fuel interlock view_of g m P fe vk rd env page index width height u path cached model g1 m1 qu gpu x g2 m2
    sts s dev :
  pictured fuel interlock view_of g m P ->
  RenderModel_request fe vk rd env page index width height g m = Ret (inr (u, path, cached, model), g1, m1) ->
  RenderModel_queue page index width height cached model g1 m1 = Ret (qu, gpu, x, g2, m2) ->
  file_QueueMesh (request_of fuel view_of qu) (q_file qu) (states P page index) (clearData (scene P)) =
    Ret (sts, s) ->
  Forall faithful (objects (q_file qu)) -> small s -> dev = device P \/ dev = noBuffers ->
  exists s' dev', frame interlock (request_of fuel view_of qu) (q_file qu) (states P page index) (scene P) dev =
    Ret (sts, if renderable s then Some (expand_scene s) else None, s', dev').
Proof.
  intros HP%pictured_ok E1 E2 Eq Hf Hs Hdev.
  pose proof (fun p i => proj1 (request_last _ _ _ _ _ _ _ _ _ _ _ _ _ p i E1)) as Hl1.
  apply (keeps_request_part nowhere) in E1 as [K1%same_keeps Hm1].
  destruct (same_pictures _ _ _ _ _ Hl1 K1 HP page index model Hm1) as (f & Hfile & (data & x0 & Hz) & b & md & Hsh & Hb).
  destruct (queue_part _ _ _ _ _ _ _ _ _ _ _ _ _ _ Hfile Hm1 E2) as
    (<- & Hqr & Hqm & _ & Hdx & Hrx & _). apply load_file_sized in Hz.
  assert (shows (q_file qu) b md (states P page index) (scene P) dev) as Hsh'
    by (destruct Hdev as [-> | ->]; [done|by eapply shown_dropped]).
  assert (q_remesh (request_of fuel view_of qu) = true \/ b = false /\ q_mode (request_of fuel view_of qu) = md) as Hc.
  { change (Render.q_remesh qu = true \/ b = false /\ Render.q_mode qu = md). rewrite Hqr, Hqm.
    destruct (remesh x) eqn:Er; [by left|right]. destruct (Hrx eq_refl) as [Hr Hl].
    destruct (Hb Hr Hl) as [-> ->]. by split. }
  pose proof (shows_history (q_file qu) Hz Hf _ _ _ _ _ Hsh') as H.
  destruct (next_ready (q_file qu) Hz Hf _ _ _ _ _ _ _ _ H Hc Eq Hs) as (_ & Hok & Hr).
  destruct (frame_spec (q_file qu) interlock (request_of fuel view_of qu) _ _ _ sts s Eq Hok Hr) as (s' & g' & Ef & _).
  eauto.
Qed.

(** ** A session: the figure is added, requested, drawn, zoomed with the wheel and
    requested again *)

#[local] Existing Instances glm_token libm_token images_token growth_token.
#[local] Existing Instance plain_math.

Definition a_view : dmat4 -> dmat3 -> View := fun _ _ => turned_view.
#[local] Abbreviation pictured_ := (pictured 10 false a_view).
#[local] Abbreviation request_ := (request_of 10 a_view).
#[local] Abbreviation ask g m :=
  (RenderModel_request (fun _ => true) true (fun _ => false) (mkEnv None []) 0 0 100 100 g m).

Definition when : World := sample_world <| now := 3000000000 |>.
Definition empty_page : Manager := newManager sample_world (Some 3).
Definition figure : outcome V3dModel :=
  V3dModel_of_file (Some (file_of triangle_scene)) (mkVec2 f0 f0) (mkVec2 f1 f1).
Definition with_figure : outcome Manager :=
  model <~ figure;; m <~ AddModel (fun _ => true) true model 0 empty_page;;
  CacheRequest when (mkPixmapRequest 40 0 50 100 100 PAGEVIEW_PRIO) m.
Definition first_pictures : Pictures :=
  mkPictures (put_states 0 0 (new_states (file_of triangle_scene)) (fun _ _ => [])) emptyScene noBuffers.

Lemma triangle_loaded : loaded (file_of triangle_scene).
Proof.
  assert (exists x, load_file (Some (mkFILE triangle_scene 0 None)) = Ret (file_of triangle_scene, x)) as [x E]
    by (vm_compute; eexists; reflexivity).
  exists triangle_scene, x. exact E.
Qed.

Lemma with_figure_pictured m : with_figure = Ret m -> pictured_ initialGlobals m first_pictures.
Proof.
  unfold with_figure, first_pictures. pose proof triangle_loaded as Hz. revert Hz.
  unfold figure. generalize (file_of triangle_scene) as f. intros f Hz E.
  apply obind_Ret in E as (model & Em & E). apply obind_Ret in E as (m1 & E1 & E).
  eapply pictured_event; [|by eapply event_CacheRequest].
  exact (pictured_AddModel 10 false a_view initialGlobals empty_page
    (mkPictures (fun _ _ => []) emptyScene noBuffers) _ _ f _ _ model 0 m1 (pictured_new _ _ _ _ _ _ _) Hz Em E1).
Qed.

(** What a request does: it is answered, queued and drawn. *)
Definition a_device : Device :=
  mkDevice 16384 16384 true (fun b => b <=? 16000000) (fun _ => false) 0 0 false
    (mkFrame (replicate (100 * 400) Byte.x2a) 40000 400).

Definition drawing (g : Globals) (m : Manager) (P : Pictures) :
    outcome (Render.Queue * Scene * Globals * Manager * Pictures) :=
  '(r, g, m) <~ ask g m;;
  match r with
  | inl _ => Undef
  | inr (u, path, cached, model) =>
      '(qu, gpu, x, g, m) <~ RenderModel_queue 0 0 100 100 cached model g m;;
      '(_, s) <~ file_QueueMesh (request_ qu) (q_file qu) (states P 0 0) (clearData (scene P));;
      '(_, g, m) <~ RenderModel_draw a_device 0 0 100 100 u path (q_file qu) (buffers_of s) gpu x g m;;
      '(sts, _, s', g') <~ frame false (request_ qu) (q_file qu) (states P 0 0) (scene P) (device P);;
      Ret (qu, s, g, m, mkPictures (put_states 0 0 sts (states P)) s' g')
  end.

Lemma drawing_parts g m P qu s g' m' P' :
  drawing g m P = Ret (qu, s, g', m', P') ->
  exists u path cached model g1 m1 gpu x g2 m2 sts i drawn,
    ask g m = Ret (inr (u, path, cached, model), g1, m1) /\
    RenderModel_queue 0 0 100 100 cached model g1 m1 = Ret (qu, gpu, x, g2, m2) /\
    file_QueueMesh (request_ qu) (q_file qu) (states P 0 0) (clearData (scene P)) = Ret (sts, s) /\
    RenderModel_draw a_device 0 0 100 100 u path (q_file qu) (buffers_of s) gpu x g2 m2 = Ret (i, g', m') /\
    frame false (request_ qu) (q_file qu) (states P 0 0) (scene P) (device P) =
      Ret (sts, drawn, scene P', device P') /\
    P' = mkPictures (put_states 0 0 sts (states P)) (scene P') (device P').
Proof.
  unfold drawing. intros E.
  apply obind_Ret in E as ([[[i|[[[u path] cached] model]] g1] m1] & E1 & E); [discriminate|].
  apply obind_Ret in E as ([[[[qu' gpu] x] g2] m2] & E2 & E).
  apply obind_Ret in E as ([sts s1] & Eq & E). apply obind_Ret in E as ([[i g3] m3] & E3 & E).
  apply obind_Ret in E as ([[[sts' d] s'] g''] & Ef & E). injection E as -> -> -> -> <-.
  assert (sts' = sts) as ->.
  { unfold frame in Ef. rewrite Eq in Ef. cbn [obind] in Ef.
    destruct (renderable s); [apply obind_Ret in Ef as ([[d' s2] g2'] & _ & Ef)|]; by injection Ef. }
  cbn [scene device]. eauto 25.
Qed.

Lemma drawing_paints g m P qu s g' m' P' :
  drawing g m P = Ret (qu, s, g', m', P') -> small_dec (scene P') = true ->
  paints 10 false a_view 0 0 100 100 (g, m, P) (g', m', P').
Proof.
  intros (u & path & cached & model & g1 & m1 & gpu & x & g2 & m2 & sts & i & drawn & E1 & E2 & Eq & E3 & Ef & ->)
    %drawing_parts Hs. cbn [scene device].
  eapply paints_frame; [exact E1|exact E2|exact Eq|exact E3|by left|exact Ef|by apply small_dec_ok].
Qed.

(** The mouse is put on the figure, and the wheel turned. *)
Definition pointed : MouseEvent := mkMouse (double_of_Z 50) (double_of_Z 50) false false false false.
Definition moved (m : Manager) := EventFilter_eventFilter when when 1 (MouseMove pointed) m.
Definition zoomed (m : Manager) := EventFilter_eventFilter when when 1 (Wheel 0 120) m.

Definition session : outcome (Render.Queue * Scene * Scene * Globals * Manager * Pictures) :=
  m <~ with_figure;;
  '(_, s0, g, m, P) <~ drawing initialGlobals m first_pictures;;
  '(_, m) <~ moved m;; '(_, m) <~ zoomed m;;
  '(qu, s, _, _, _) <~ drawing g m P;;
  Ret (qu, s0, s, g, m, P).

(** The second frame may keep meshes, and draws something. *)
Definition plain_object (o : V3dObject) : bool :=
  match members o with StraightTriangle _ | StraightPlanarQuad _ | LineSegment _ => true | _ => false end.
Definition session_check (o : outcome (Render.Queue * Scene * Scene * Globals * Manager * Pictures)) : bool :=
  match o with
  | Ret (qu, s0, s, g, m, P) =>
      small_dec (scene P) && small_dec s && renderable s && negb (Render.q_remesh qu) &&
      forallb plain_object (objects (q_file qu))
  | _ => false
  end.
Lemma session_checked : session_check session = true.
Proof. vm_compute. reflexivity. Qed.

Lemma session_check_Ret o : session_check o = true ->
  exists qu s0 s g m P, o = Ret (qu, s0, s, g, m, P) /\ small_dec (scene P) = true /\ small s /\
    renderable s = true /\ Render.q_remesh qu = false /\ Forall faithful (objects (q_file qu)).
Proof.
  destruct o as [[[[[[qu s0] s] g] m] P]| |]; [|done..]. unfold session_check.
  intros [[[[H1 H2]%andb_prop H3]%andb_prop H4]%andb_prop H5]%andb_prop.
  exists qu, s0, s, g, m, P. split_and!; [done|done|by apply small_dec_ok|done|by apply negb_true_iff|].
  by apply no_groups_faithful.
Qed.

Lemma session_pictured m0 g m qu0 s0 P b2 m2 b3 m3 :
  with_figure = Ret m0 -> drawing initialGlobals m0 first_pictures = Ret (qu0, s0, g, m, P) ->
  small_dec (scene P) = true -> moved m = Ret (b2, m2) -> zoomed m2 = Ret (b3, m3) -> pictured_ g m3 P.
Proof.
  intros E0 E1 H1 E2 E3.
  eapply pictured_event; [|eapply event_filter; exact E3].
  eapply pictured_event; [|eapply event_filter; exact E2].
  eapply pictured_paints; [by apply with_figure_pictured|by eapply drawing_paints].
Qed.

Lemma session_parts qu s0 s g m P :
  session = Ret (qu, s0, s, g, m, P) -> small_dec (scene P) = true ->
  pictured_ g m P /\ exists g' m' P', drawing g m P = Ret (qu, s, g', m', P').
Proof.
  unfold session. intros E H1. apply obind_Ret in E as (m0 & E0 & E).
  apply obind_Ret in E as ([[[[qu0 s0'] g1] m1] P1] & E1 & E).
  apply obind_Ret in E as ([b2 m2] & E2 & E). apply obind_Ret in E as ([b3 m3] & E3 & E).
  apply obind_Ret in E as ([[[[qu' s'] g'] m'] P'] & E4 & E). injection E as -> -> -> -> -> ->.
  split; [by eapply session_pictured|eauto].
Qed.

Lemma session_draws_queue_witness : exists g m P qu sts s s' dev',
  pictured_ g m P /\ Render.q_remesh qu = false /\ renderable s = true /\
  frame false (request_ qu) (q_file qu) (states P 0 0) (scene P) (device P) =
    Ret (sts, Some (expand_scene s), s', dev').
Proof.
  destruct (session_check_Ret _ session_checked) as (qu & s0 & s & g & m & P & E & H1 & H2 & H3 & H4 & H5).
  destruct (session_parts _ _ _ _ _ _ E H1) as (Hp & g' & m' & P' & E4).
  destruct (drawing_parts _ _ _ _ _ _ _ _ E4) as
    (u & path & cached & model & g2 & m2' & gpu & x & g3 & m3 & sts & i & drawn & F1 & F2 & Fq & _).
  destruct (session_draws_queue 10 false a_view g m P _ _ _ _ 0 0 100 100 u path cached model g2 m2' qu gpu x g3 m3
    sts s (device P) Hp F1 F2 Fq H5 H2 (or_introl eq_refl)) as (s2 & dev2 & Ef).
  rewrite H3 in Ef. exists g, m, P, qu, sts, s, s2, dev2.
  exact (conj Hp (conj H4 (conj H3 Ef))).
Defined.
