(* ===== verification/TwoDocuments.v ===== *)
(** * Two open documents

    The vertex buffers and the last page and model are statics of the process, while
    every document has a manager, a renderer and the states of its own objects.  The
    parts of [RenderModel] are those of [Render] and [Shown], run for two managers in
    turn. *)

From S2P Require Import Prelude Ieee Xstream Bound V3dData V3dLoad LoadSafety IblName IblPath Renderer.
From S2P Require Import Model Manager PageView HitTest Input Render.
From S2P Require Import Mesh Objects QueueMesh Frames Upload Shown Pictures.
Import Stdio.

Section Documents.
Context {glm : Glm} {libm : Libm} {img : Images} {growth : Growth} {math : MeshMath}.
Context (fuel : nat) (interlock : bool) (view_of : dmat4 -> dmat3 -> View) (d : Device).

(** The statics of the process. *)
Record Process := mkProcess { globals : Globals; buffers : Scene }.
(** A document: its manager, its objects, the buffers of its renderer's device. *)
Record Document := mkDocument { manager : Manager; meshes : nat -> nat -> list ObjectState; on_device : DeviceBuffers }.

(** The models of a new document, loaded from files: one for each page. *)
Fixpoint add_figures (page : Z) (files : list V3dFile) (doc : Document) : outcome Document :=
  match files with
  | [] => Ret doc
  | f :: files =>
      model <~ V3dModel_of_file (Some f) (mkVec2 f0 f0) (mkVec2 f1 f1);;
      m <~ AddModel (fun _ => true) true model page (manager doc);;
      add_figures (page + 1) files
        (mkDocument m (put_states (Z.to_nat page) 0 (new_states f) (meshes doc)) (on_device doc))
  end.

(** A page is requested, and its first model queued and drawn: what is queued and what
    the device draws. *)
Definition show_page (w : World) (page : nat) (p : Process) (doc : Document) :
    outcome (Scene * option Drawn * Process * Document) :=
  m <~ CacheRequest w (mkPixmapRequest 40 (Z.of_nat page) 50 100 100 PAGEVIEW_PRIO) (manager doc);;
  '(r, g, m) <~ RenderModel_request (fun _ => true) true (fun _ => false) (mkEnv None []) page 0 100 100
                  (globals p) m;;
  match r with
  | inl _ => Undef
  | inr (u, path, cached, model) =>
      '(qu, gpu, x, g, m) <~ RenderModel_queue page 0 100 100 cached model g m;;
      let q := request_of fuel view_of qu in
      '(_, s) <~ file_QueueMesh q (q_file qu) (meshes doc page 0%nat) (clearData (buffers p));;
      '(_, g, m) <~ RenderModel_draw d page 0 100 100 u path (q_file qu) (buffers_of s) gpu x g m;;
      '(sts, drawn, s', dev) <~ frame interlock q (q_file qu) (meshes doc page 0%nat) (buffers p) (on_device doc);;
      Ret (s, drawn, mkProcess g s', mkDocument m (put_states page 0 sts (meshes doc)) dev)
  end.

(** An event at the page view of a document. *)
Definition handle (w : World) (e : event) (doc : Document) : outcome Document :=
  '(_, m) <~ EventFilter_eventFilter w w 1 e (manager doc);;
  Ret (mkDocument m (meshes doc) (on_device doc)).
End Documents.

(** ** A figure on each page of one document, and one on the first page of another *)

#[local] Existing Instances glm_token libm_token images_token growth_token.
#[local] Existing Instance plain_math.

(** A triangle in one of two sizes. *)
Definition figure_of (side : Z) : V3dFile :=
  file_of (first_material ++
    word ObjectTypes.TRIANGLE ++ point3 0 0 ++ point3 side 0 ++ point3 0 side ++ word 0 ++ word 0).
Definition quarter32 : Z := 0x3E800000.

Definition opened : Document := mkDocument empty_page (fun _ _ => []) noBuffers.
Definition show := (show_page 10 false a_view a_device when).
Definition press : event := MouseButtonPress (mkMouse (double_of_Z 50) (double_of_Z 50) true false false false).

(** The first document shows both its pages, the second document its only one; then
    the wheel is turned on the first page of the first document, which is shown again.
    What the four frames draw, and what is queued for the last. *)
Definition return_to_the_first :
    outcome (option Drawn * option Drawn * option Drawn * Scene * option Drawn) :=
  a <~ add_figures 0 [figure_of half32; figure_of quarter32] opened;;
  b <~ add_figures 0 [figure_of half32] opened;;
  '(_, d1, p, a) <~ show 0 (mkProcess initialGlobals emptyScene) a;;
  '(_, d2, p, a) <~ show 1 p a;;
  '(_, d3, p, b) <~ show 0 p b;;
  a <~ handle when press a;;
  a <~ handle when (Wheel 0 120) a;;
  '(s4, d4, _, _) <~ show 0 p a;;
  Ret (d1, d2, d3, s4, d4).

(** The corners of a figure. *)
Definition corners_of (side : Z) : list vec3 :=
  points_of [(0, 0); (side, 0); (0, side)].
Definition figure_in (d : Drawn) (side : Z) : Prop :=
  material_positions (drawnMaterials d) = corners_of side.

Lemma return_checked :
  match return_to_the_first with
  | Ret (Some d1, Some d2, Some d3, s4, Some d4) =>
      figure_in d1 half32 /\ figure_in d2 quarter32 /\ figure_in d3 half32 /\
      figure_in (expand_scene s4) half32 /\ figure_in d4 quarter32
  | _ => False
  end.
Proof. vm_compute. split_and!; reflexivity. Qed.

