(* ===== verification/Gunzip.v ===== *)
(** * Decompression of embedded files

    [gzip-hpp/include/gzip/decompress.hpp]: [Decompressor::decompress] around zlib's
    [inflate], which is the interface [Zlib]. *)

From S2P Require Import Prelude Ieee Xstream Bound V3dData Model.

(** What [inflate] answers. *)
Inductive ZResult := Z_OK | Z_STREAM_END | Z_BUF_ERROR | Z_ERROR.

(** A zlib stream over its whole input: [inflate] with [Z_FINISH] writes at most
    [avail_out] bytes. *)
Class Zlib := {
  z_stream : Type;
  inflateInit2 : list Byte.byte -> option z_stream;
  inflate : z_stream -> nat -> ZResult * list Byte.byte * z_stream
}.
Class ZlibOk `{Zlib} : Prop := {
  inflate_fits z n : (length (inflate z n).1.2 <= n)%nat
}.

Section Decompressor.
Context `{Zlib}.

(** The loop, with the bytes written so far; [size_uncompressed] is their number.
    The second component is [output] afterwards.  [2 * size] is at most [max_], so
    that it fits the [unsigned] of [avail_out] for the bound of the plugins. *)
Fixpoint decompress_loop (fuel : nat) (max_ size : Z) (z : z_stream) (out : list Byte.byte) :
    outcome (bool * list Byte.byte) :=
  match fuel with
  | O => NoFuel
  | S fuel =>
      let resize_to := Z.of_nat (length out) + 2 * size in
      if max_ <? resize_to then Ret (false, out)
      else
        let '(ret, bytes, z) := inflate z (Z.to_nat (2 * size)) in
        match ret with
        | Z_ERROR => Ret (false, [])
        | _ =>
            let out := out ++ bytes in
            if Nat.eqb (length bytes) (Z.to_nat (2 * size)) then decompress_loop fuel max_ size z out
            else Ret (true, out)
        end
  end.

Definition decompress (fuel : nat) (max_ : Z) (data : list Byte.byte) : outcome (bool * list Byte.byte) :=
  match inflateInit2 data with
  | None => Ret (false, [])
  | Some z =>
      let size := Z.of_nat (length data) in
      if (max_ <? size) || (max_ <? size * 2) then Ret (false, [])
      else decompress_loop fuel max_ size z []
  end.

(** What it gives does not depend on the fuel. *)
Lemma decompress_loop_agree f1 f2 max_ size z out a b :
  decompress_loop f1 max_ size z out = Ret a -> decompress_loop f2 max_ size z out = Ret b -> a = b.
Proof.
  revert f2 z out. induction f1 as [|f1 IH]; intros [|f2] z out; cbn [decompress_loop]; try done.
  destruct (_ <? _); [congruence|]. destruct (inflate z _) as [[ret bytes] z'].
  destruct ret; [| | |congruence]; (destruct (Nat.eqb _ _); [apply IH|congruence]).
Qed.
Lemma decompress_agree f1 f2 max_ data a b :
  decompress f1 max_ data = Ret a -> decompress f2 max_ data = Ret b -> a = b.
Proof.
  unfold decompress. destruct (inflateInit2 data); [|congruence]. destruct (_ || _); [congruence|].
  apply decompress_loop_agree.
Qed.

(** The bound of [Decompressor]'s constructor. *)
Definition default_max : Z := 1000000000.

(** ** What it gives *)

(** A stream that decodes to [full] without an error: every call writes the next
    bytes, as many as there is room for. *)
Fixpoint decodes (n : nat) (z : z_stream) (k : nat) (full : list Byte.byte) : Prop :=
  match n with
  | O => True
  | S n =>
      (inflate z k).1.1 <> Z_ERROR /\ (inflate z k).1.2 = take k full /\
      decodes n (inflate z k).2 k (drop k full)
  end.

Lemma decompress_loop_decodes n fuel max_ size z out full :
  0 < size -> decodes n z (Z.to_nat (2 * size)) full -> (n <= fuel)%nat ->
  Z.of_nat (length full) < Z.of_nat n * (2 * size) ->
  Z.of_nat (length out) mod (2 * size) = 0 -> Z.of_nat (length out) <= max_ ->
  let total := Z.of_nat (length (out ++ full)) in
  decompress_loop fuel max_ size z out =
    if (total / (2 * size) + 1) * (2 * size) <=? max_ then Ret (true, out ++ full)
    else Ret (false, take (Z.to_nat (max_ / (2 * size) * (2 * size))) (out ++ full)).
Proof.
  intros Hs. set (k := 2 * size) in *. assert (0 < k) as Hk by lia.
  revert fuel z out full. induction n as [|n IH]; intros fuel z out full Hd Hf Hn Hm Hmax total; [lia|].
  destruct fuel as [|fuel]; [lia|]. cbn [decompress_loop]. fold k.
  destruct Hd as (He & Hb & Hd). destruct (inflate z (Z.to_nat k)) as [[ret bytes] z'] eqn:E.
  cbn [fst snd] in *. subst bytes.
  pose proof (Z.div_mod (Z.of_nat (length out)) k ltac:(lia)) as Hdm.
  set (q := Z.of_nat (length out) / k) in *. rewrite Hm in Hdm.
  assert (total = Z.of_nat (length out) + Z.of_nat (length full)) as Ht
    by (unfold total; rewrite length_app; lia).
  destruct (Z.ltb_spec max_ (Z.of_nat (length out) + k)) as [Hover|Hroom].
  { rewrite (proj2 (Z.leb_gt _ _)).
    2: { assert (q <= total / k) by (apply Z.div_le_lower_bound; lia). nia. }
    assert (max_ / k = q) as -> by (symmetry; apply (Z.div_unique _ _ _ (max_ - k * q)); [left; lia|lia]).
    assert (Z.to_nat (q * k) = length out) as -> by lia.
    do 2 f_equal. by rewrite take_app_length. }
  assert (length (take (Z.to_nat k) full) = Nat.min (Z.to_nat k) (length full)) as Hlen by apply length_take.
  assert ((if Nat.eqb (length (take (Z.to_nat k) full)) (Z.to_nat k)
    then decompress_loop fuel max_ size z' (out ++ take (Z.to_nat k) full)
    else Ret (true, out ++ take (Z.to_nat k) full)) =
    if (total / k + 1) * k <=? max_ then Ret (true, out ++ full)
    else Ret (false, take (Z.to_nat (max_ / k * k)) (out ++ full))) as Hgoal; [|by destruct ret].
  destruct (Nat.eqb_spec (length (take (Z.to_nat k) full)) (Z.to_nat k)) as [Heq|Hne].
  - rewrite (IH fuel z' (out ++ take (Z.to_nat k) full) (drop (Z.to_nat k) full)).
    + by rewrite <- app_assoc, take_drop.
    + exact Hd.
    + lia.
    + rewrite length_drop. lia.
    + rewrite length_app, Heq. replace (Z.of_nat _) with ((q + 1) * k) by lia. apply Z.mod_mul. lia.
    + rewrite length_app, Heq. lia.
  - rewrite take_ge by lia. rewrite (proj2 (Z.leb_le _ _)); [done|].
    assert (total / k = q) as -> by (symmetry; apply (Z.div_unique _ _ _ (Z.of_nat (length full))); [left; lia|lia]). lia.
Qed.
End Decompressor.

Section Total.
Context `{ZlibOk}.

(** Every round but the last writes [2 * size] bytes. *)
Lemma decompress_loop_total fuel max_ size z out :
  0 < size -> Z.of_nat (length out) <= max_ -> max_ < Z.of_nat (length out) + Z.of_nat fuel * (2 * size) ->
  exists b r, decompress_loop fuel max_ size z out = Ret (b, r) /\ Z.of_nat (length r) <= max_.
Proof.
  intros Hs. revert z out. induction fuel as [|fuel IH]; intros z out Hout Hf; [lia|]. cbn [decompress_loop].
  destruct (Z.ltb_spec max_ (Z.of_nat (length out) + 2 * size)) as [|Hroom]; [eauto|].
  pose proof (inflate_fits z (Z.to_nat (2 * size))) as Hfit.
  destruct (inflate z (Z.to_nat (2 * size))) as [[ret bytes] z'] eqn:E. cbn [fst snd] in Hfit.
  assert (exists b r, (if Nat.eqb (length bytes) (Z.to_nat (2 * size))
    then decompress_loop fuel max_ size z' (out ++ bytes) else Ret (true, out ++ bytes)) = Ret (b, r) /\
    Z.of_nat (length r) <= max_) as Hgoal.
  { destruct (Nat.eqb_spec (length bytes) (Z.to_nat (2 * size))) as [Hb|_].
    - apply IH; rewrite length_app, Hb; lia.
    - eexists _, _. split; [done|]. rewrite length_app. lia. }
  destruct ret; try exact Hgoal. exists false, []. split; [done|cbn; lia].
Qed.

(** Without input there is no room, and no reason to stop. *)
Lemma empty_input_hangs n max_ z : 0 <= max_ -> (forall z, (inflate z 0).1.1 <> Z_ERROR) ->
  decompress_loop n max_ 0 z [] = NoFuel.
Proof.
  intros Hmax Hz. revert z. induction n as [|n IH]; intros z; [done|]. cbn [decompress_loop].
  rewrite (proj2 (Z.ltb_ge _ _)) by (cbn; lia). pose proof (inflate_fits z 0) as Hl. specialize (Hz z).
  change (Z.to_nat (2 * 0)) with 0%nat. destruct (inflate z 0) as [[ret bytes] z'] eqn:E. cbn [fst snd] in *.
  destruct bytes; [|cbn in Hl; lia]. destruct ret; try done; apply IH.
Qed.
End Total.

Lemma length_pos {A} (l : list A) : l <> [] -> 0 < Z.of_nat (length l).
Proof. destruct l; [done|cbn; lia]. Qed.

(** Decompression ends and is bounded whatever zlib does with the bytes: for any
    input that is not empty, any number of rounds above [max_ / (2 * size)] is
    enough, and never more than [max_] bytes are kept.  (An empty input, which the
    plugins never pass, is read forever if [inflate] goes on asking for room.) *)
Theorem decompress_total `{ZlibOk} fuel max_ data :
  data <> [] -> 0 <= max_ -> max_ / (2 * Z.of_nat (length data)) < Z.of_nat fuel ->
  (exists b out, decompress fuel max_ data = Ret (b, out) /\ Z.of_nat (length out) <= max_) /\
  forall n, (forall z, (inflate z 0).1.1 <> Z_ERROR) -> is_Some (inflateInit2 []) ->
    decompress n max_ [] = NoFuel.
Proof.
  intros Hd Hmax Hf. split.
  - unfold decompress. destruct (inflateInit2 data) as [z|]; [|exists false, []; split; [done|cbn; lia]].
    set (size := Z.of_nat (length data)) in *. assert (0 < size) by by apply length_pos.
    destruct (_ || _); [exists false, []; split; [done|cbn; lia]|].
    apply decompress_loop_total; [lia|cbn; lia|]. cbn.
    pose proof (Z.div_mod max_ (2 * size) ltac:(lia)). pose proof (Z.mod_pos_bound max_ (2 * size)). nia.
  - intros n Hz [z Ez]. unfold decompress. rewrite Ez. change (Z.of_nat (length [])) with 0.
    rewrite (proj2 (Z.ltb_ge max_ 0)) by lia. rewrite (proj2 (Z.ltb_ge max_ (0 * 2))) by lia.
    by apply empty_input_hangs.
Qed.

(** C19: On a stream that decodes to [full], decompression gives exactly [full], in
    rounds of twice the size of the input, as long as the rounds it takes fit into
    [max_]; otherwise it fails.  The documentation says that [output] is left empty
    then, but the bytes of the rounds that fitted are still in it. *)
Theorem decompress_spec `{Zlib} fuel max_ data z full :
  data <> [] -> Z.of_nat (length data) * 2 <= max_ -> inflateInit2 data = Some z ->
  let k := 2 * Z.of_nat (length data) in
  let rounds := Z.of_nat (length full) / k + 1 in
  decodes (Z.to_nat rounds) z (Z.to_nat k) full -> rounds <= Z.of_nat fuel ->
  decompress fuel max_ data =
    if rounds * k <=? max_ then Ret (true, full)
    else Ret (false, take (Z.to_nat (max_ / k * k)) full).
Proof.
  intros Hd Hmax Ez k rounds Hdec Hf. pose proof (length_pos data Hd) as Hs.
  unfold decompress. rewrite Ez. rewrite !(proj2 (Z.ltb_ge _ _)) by lia. cbn [orb].
  assert (0 <= Z.of_nat (length full) / k) by (apply Z.div_pos; lia).
  pose proof (Z.div_mod (Z.of_nat (length full)) k ltac:(lia)). pose proof (Z.mod_pos_bound (Z.of_nat (length full)) k).
  rewrite (decompress_loop_decodes (Z.to_nat rounds) fuel max_ _ z [] full); [done|done|exact Hdec|lia|..].
  - rewrite Z2Nat.id by lia. unfold rounds. fold k. lia.
  - done.
  - cbn. lia.
Qed.

(** ** A stored stream *)

(** The stream that decodes to what follows its magic number, [times] times over. *)
Definition stored_zlib (times : nat) : Zlib := {|
  z_stream := list Byte.byte;
  inflateInit2 := fun data => Some (concat (replicate times (drop 2 data)));
  inflate := fun z n => (if Nat.ltb (length z) n then Z_STREAM_END else Z_OK, take n z, drop n z)
|}.
Lemma stored_zlib_ok times : @ZlibOk (stored_zlib times).
Proof. split. intros z n. cbn. rewrite length_take. lia. Qed.

#[local] Instance four_times : Zlib := stored_zlib 4.
#[local] Instance four_times_ok : ZlibOk := stored_zlib_ok 4.

Definition gz_bytes : list Byte.byte := [Byte.x1f; Byte.x8b; Byte.x61; Byte.x62; Byte.x63; Byte.x64].

Lemma decompress_total_witness : exists b out,
  decompress 10 100 gz_bytes = Ret (b, out) /\ Z.of_nat (length out) <= 100 /\ b = true.
Proof.
  destruct (decompress_total 10 100 gz_bytes ltac:(discriminate) ltac:(lia) ltac:(vm_compute; reflexivity))
    as [(b & out & E & Hl) _].
  exists b, out. split; [exact E|]. split; [exact Hl|].
  assert (match decompress 10 100 gz_bytes with Ret (c, _) => c | _ => false end = true) as Hb
    by (vm_compute; reflexivity).
  rewrite E in Hb. exact Hb.
Defined.

(** Sixteen bytes fit into two rounds of twelve; with room for one, they do not, and
    twelve bytes stay in the output. *)
Lemma decompress_spec_witness :
  let text := drop 2 gz_bytes ++ drop 2 gz_bytes ++ drop 2 gz_bytes ++ drop 2 gz_bytes in
  decompress 5 24 gz_bytes = Ret (true, text) /\
  decompress 5 23 gz_bytes = Ret (false, take 12 text).
Proof.
  intros text. split.
  - refine (decompress_spec 5 24 gz_bytes text text _ _ _ _ _); [discriminate|vm_compute; discriminate|
      reflexivity|vm_compute; split_and!; try done|vm_compute; discriminate].
  - refine (decompress_spec 5 23 gz_bytes text text _ _ _ _ _); [discriminate|vm_compute; discriminate|
      reflexivity|vm_compute; split_and!; try done|vm_compute; discriminate].
Defined.
