(* ===== verification/V3dGenerator.v ===== *)
(** * The Okular generator for v3d files

    [build/26.04/okular/generators/v3d/src/v3d_generator.cpp]: [generatePixmap]
    and [loadDocument] of [V3dGenerator], whose only state is its manager.  The
    exceptions they contain are those of the parser and of [QueueMesh], when an
    allocation fails. *)

From Stdlib Require Import Floats.SpecFloat.
From S2P Require Import Prelude Ieee Xstream Bound V3dData V3dLoad LoadSafety LoadShape.
From S2P Require Import IblName IblPath Renderer Model Manager PageView Render.
Import Stdio.

(** The other priorities of [gui/priorities.h]. *)
Definition THUMBNAILS_PRIO : Z := 2.
Definition THUMBNAILS_PRELOAD_PRIO : Z := 5.

Definition f600 : float32 := float_of_Z 600.
Definition f720 : float32 := float_of_Z 720.

(** ** Opening a file *)

(** [while (!(pageSize.x > 600)) { pageSize.x *= 2; pageSize.y *= 2; }] *)
Fixpoint page_loop (fuel : nat) (pageSize : vec2) : outcome vec2 :=
  if SFltb f600 (vx pageSize) then Ret pageSize
  else match fuel with
       | O => NoFuel
       | S fuel => page_loop fuel (mkVec2 (fmul (vx pageSize) f2) (fmul (vy pageSize) f2))
       end.

(** The size of the page for a canvas. *)
Definition page_of_canvas (fuel : nat) (canvas : vec2) : outcome vec2 :=
  page_loop fuel
    (if negb (SFltb f0 (vx canvas)) || negb (SFltb f0 (vy canvas)) then mkVec2 f720 f720 else canvas).

Section V3dGenerator.
Context {glm : Glm} {libm : Libm} {img : Images} {growth : Growth}.

Definition isThumbnail (r : PixmapRequest) : bool :=
  (req_priority r =? THUMBNAILS_PRIO) || (req_priority r =? THUMBNAILS_PRELOAD_PRIO).
Definition isPageView (r : PixmapRequest) : bool :=
  (req_priority r =? PAGEVIEW_PRIO) || (req_priority r =? PAGEVIEW_PRELOAD_PRIO).

(** [image], unless its size is another: then it is scaled. *)
Definition fitted_image (width height : Z) (image : QImage) : QImage :=
  if negb (img_width image =? width) || negb (img_height image =? height)
  then scaled width height image else image.

Section Files.
Variable fileExists : string -> bool.
Variable vulkan : bool.
(** The bytes of a file that can be opened. *)
Variable contents : string -> option (list Byte.byte).

Definition fopen (fileName : string) : option FILE :=
  option_map (fun bytes => mkFILE bytes 0 None) (contents fileName).

(** [V3dModel{fileName}] *)
Definition V3dModel_of_path (fileName : string) : outcome V3dModel :=
  file <~ (if is_empty fileName then Ret None
           else '(f, _) <~ load_file (fopen fileName);; Ret (Some f));;
  V3dModel_of_file file (mkVec2 f0 f0) (mkVec2 f1 f1).

(** [V3dGenerator::loadDocument]: the size of the page that is appended, or none
    when the file is refused.  [page] is the new page. *)
Definition loadDocument (throws : bool) (document : option object) (fileName : string) (page : object)
    (m : Manager) : outcome (option vec2 * Manager) :=
  let m := match document with Some _ => SetDocument document m | None => m end in
  if throws then Ret (None, m)
  else
    model <~ V3dModel_of_path fileName;;
    m <~ AddModel fileExists vulkan model 0 m;;
    canvas <~ GetCanvasSize 0 m;;
    pageSize <~ page_of_canvas 10 canvas;;
    m <~ CachePage 0 (Some page) m;;
    Ret (Some pageSize, m).
End Files.

(** ** Requests *)

Section Requests.
Variable d : Device.
Variable queueMesh : Queue -> Buffers.
Variable fileExists : string -> bool.
Variable vulkan : bool.
Variable readable : string -> bool.
Variable env : Env.

(** The last image, for the page view while the presentation is driven. *)
Definition suppressed_image (r : PixmapRequest) (m : Manager) : QImage :=
  if isPageView r && ShouldSuppressPageViewRender m then
    let image := LastRenderedModelImage 0 0 m in
    if isNull image then image else fitted_image (req_width r) (req_height r) image
  else null_image.

(** The [try] of [generatePixmap]; [None] once it has thrown. *)
Definition pixmap_image (throws : bool) (w : World) (r : PixmapRequest) (g : Globals) (m : Manager) :
    outcome (option QImage * Globals * Manager) :=
  m <~ CacheRequest w r m;;
  if isThumbnail r then Ret (Some (filled (req_width r) (req_height r) Format_ARGB32 black), g, m)
  else
    let image := suppressed_image r m in
    if isNull image then
      attempt_RenderModel d queueMesh fileExists vulkan readable env throws 0 0
        (req_width r) (req_height r) g m
    else Ret (Some image, g, m).

(** [V3dGenerator::generatePixmap]: the image of the pixmap the page is given. *)
Definition generatePixmap (throws : bool) (w : World) (r : PixmapRequest) (g : Globals) (m : Manager) :
    outcome (QImage * Globals * Manager) :=
  '(image, g, m) <~ pixmap_image throws w r g m;;
  let image := default null_image image in
  Ret (if isNull image then filled (req_width r) (req_height r) Format_ARGB32 black else image, g, m).
End Requests.
End V3dGenerator.

(** ** The page *)

(** Twice, [k] times: for a normal number the exponent grows. *)
Definition times2 (k : nat) (x : float32) : float32 :=
  match x with S754_finite s m e => S754_finite s m (e + Z.of_nat k) | _ => x end.

Lemma times2_succ k s m e : 2 ^ 23 <= Zpos m < 2 ^ 24 -> -23 <= e <= 34 -> (k <= 10)%nat ->
  fmul (times2 k (S754_finite s m e)) f2 = times2 (S k) (S754_finite s m e).
Proof.
  intros Hm He Hk. cbn [times2]. change f2 with (f32_of_bits 0x40000000). rewrite fmul_two by lia.
  f_equal. lia.
Qed.

Lemma above_600 m e : -14 < e -> SFltb f600 (S754_finite false m e) = true.
Proof.
  intros He. change f600 with (S754_finite false 9830400 (-14)). unfold SFltb, SFcompare.
  by rewrite (proj2 (Z.compare_lt_iff _ _)) by lia.
Qed.

(** The page for a canvas of [w] by [h]: the canvas, doubled as often as needed for
    its width to exceed 600; an empty canvas gets a page of 720 by 720. *)
Definition page_for (w h : Z) (s : vec2) : Prop :=
  if (w =? 0) || (h =? 0) then s = mkVec2 f720 f720
  else exists k, (k <= 10)%nat /\ s = mkVec2 (times2 k (float_of_Z w)) (times2 k (float_of_Z h)) /\
    SFltb f600 (vx s) = true /\ forall j, (j < k)%nat -> SFltb f600 (times2 j (float_of_Z w)) = false.

Lemma page_loop_doubles mx ex my ey n k :
  let w := S754_finite false mx ex in let h := S754_finite false my ey in
  2 ^ 23 <= Zpos mx < 2 ^ 24 -> -23 <= ex <= 34 -> 2 ^ 23 <= Zpos my < 2 ^ 24 -> -23 <= ey <= 34 ->
  (n + k = 10)%nat -> (forall j, (j < k)%nat -> SFltb f600 (times2 j w) = false) ->
  exists s, page_loop n (mkVec2 (times2 k w) (times2 k h)) = Ret s /\
    exists k', (k' <= 10)%nat /\ s = mkVec2 (times2 k' w) (times2 k' h) /\
      SFltb f600 (vx s) = true /\ forall j, (j < k')%nat -> SFltb f600 (times2 j w) = false.
Proof.
  intros w h Hmx Hex Hmy Hey. revert k. induction n as [|n IH]; intros k Hk Hj; cbn [page_loop vx vy].
  - replace k with 10%nat in * by lia.
    assert (SFltb f600 (times2 10 w) = true) as Hx by (apply above_600; lia).
    rewrite Hx. eexists. split; [done|]. by exists 10%nat.
  - destruct (SFltb f600 (times2 k w)) eqn:Hx.
    + eexists. split; [done|]. exists k. by split_and!; [lia|..].
    + unfold w, h in *. rewrite !times2_succ by (done || lia). apply IH; [lia|].
      intros j Hjk. destruct (decide (j = k)) as [->|]; [done|]. apply Hj. lia.
Qed.

Lemma page_of_canvas_spec w h : 0 <= w < 2 ^ 32 -> 0 <= h < 2 ^ 32 ->
  exists s, page_of_canvas 10 (mkVec2 (float_of_Z w) (float_of_Z h)) = Ret s /\ page_for w h s.
Proof.
  intros Hw Hh. unfold page_of_canvas, page_for. cbn [vx vy].
  destruct (Z.eqb_spec w 0) as [->|Hw0]; [exists (mkVec2 f720 f720); split; [vm_compute|]; done|].
  destruct (float_of_Z_normal w) as (mx & ex & Ew & Hmx & Hex); [lia|]. rewrite Ew.
  change (SFltb f0 (S754_finite false mx ex)) with true. cbn [negb orb].
  destruct (Z.eqb_spec h 0) as [->|Hh0]; [exists (mkVec2 f720 f720); split; [vm_compute|]; done|].
  destruct (float_of_Z_normal h) as (my & ey & Eh & Hmy & Hey); [lia|]. rewrite Eh.
  change (SFltb f0 (S754_finite false my ey)) with true. cbn [negb].
  pose proof (page_loop_doubles mx ex my ey 10 0) as H. cbn [times2] in H. rewrite !Z.add_0_r in H.
  apply H; (done || lia).
Qed.

(** ** Opening *)

Section Opening.
Context {glm : Glm} {libm : Libm} {img : Images} {growth : Growth}.

Lemma obind_fuel {A B} (o : outcome A) (k : A -> outcome B) :
  o <> NoFuel -> (forall a, o = Ret a -> k a <> NoFuel) -> obind o k <> NoFuel.
Proof. destruct o; cbn; auto. Qed.
Lemma determined_fuel {A} (o : option A) : determined o <> NoFuel.
Proof. by destruct o. Qed.
Lemma at_index_fuel {A} (l : list A) i : at_index l i <> NoFuel.
Proof. unfold at_index. destruct (_ <? _); [done|]. by destruct (_ !! _). Qed.

Lemma initProjection_fuel x : initProjection x <> NoFuel.
Proof.
  unfold initProjection, header_of. destruct (file x); [|done]. cbn [obind].
  repeat (apply obind_fuel; [apply determined_fuel|intros ? _]). done.
Qed.

Lemma initProjection_keeps_file x y : initProjection x = Ret y -> file y = file x.
Proof.
  unfold initProjection. intros E. repeat (apply obind_Ret in E as (? & _ & E)). by injection E as <-.
Qed.

Lemma AddModel_fuel fe vk x p m : AddModel fe vk x p m <> NoFuel.
Proof.
  unfold AddModel. cbv zeta. repeat (apply obind_fuel; [apply at_index_fuel|intros ? _]).
  apply obind_fuel; [apply initProjection_fuel|intros ? _].
  apply obind_fuel; [apply at_index_fuel|intros ? _]. done.
Qed.

Lemma ensure_frame fe vk m :
  let m0 := ensureHeadlessRenderer fe vk m in
  m_Models m0 = m_Models m /\ m_Reallocs m0 = m_Reallocs m /\ m_ModelImages m0 = m_ModelImages m /\
  m_Pages m0 = m_Pages m /\ m_Document m0 = m_Document m.
Proof. unfold ensureHeadlessRenderer. cbv zeta. repeat case_match; done. Qed.

(** The first model of an empty manager. *)
Lemma AddModel_first fe vk x m m' : m_Models m = [] -> m_Reallocs m = [] -> m_ModelImages m = [] ->
  AddModel fe vk x 0 m = Ret m' ->
  exists y, initProjection x = Ret y /\ m_Models m' = [[y]] /\ m_ModelImages m' = [[null_image]] /\
    m_Pages m' = m_Pages m /\ m_Document m' = m_Document m.
Proof.
  intros H1 H2 H3. unfold AddModel. cbv zeta.
  destruct (ensure_frame fe vk m) as (HM & HR & HI & <- & <-). set (m0 := ensureHeadlessRenderer fe vk m) in *.
  clearbody m0. rewrite HM, HR, H1, H2. intros E. apply obind_Ret in E as (l & El & E). injection El as <-.
  apply obind_Ret in E as (e & _ & E). apply obind_Ret in E as (y & Ey & E).
  apply obind_Ret in E as (row & Er & E). injection E as <-. exists y. split; [done|]. split; [done|].
  destruct m0; cbn in HI; subst; rewrite H3 in *. by injection Er as <-.
Qed.

Lemma load_fuel data : load_file (Some (mkFILE data 0 None)) <> NoFuel.
Proof. apply load_file_fuel. Qed.

Lemma is_empty_false (s : string) : s <> [] -> is_empty s = false.
Proof. by destruct s. Qed.
End Opening.

(** C16: Opening a v3d file never hangs, whatever its bytes: [loadDocument] appends one
    page whose size is that of the canvas in the header of the file, doubled (at most
    ten times) until its width exceeds 600 and no further, or 720 by 720 when the
    canvas is empty; the manager is left with one model, that of the file, and with
    the page. *)
Theorem loadDocument_spec {glm : Glm} {libm : Libm} {img : Images} {growth : Growth}
    fe vk contents document fileName page m data :
  fileName <> [] -> contents fileName = Some data ->
  loadDocument fe vk contents false (Some document) fileName page m <> NoFuel /\
  forall r m', loadDocument fe vk contents false (Some document) fileName page m = Ret (r, m') ->
    exists f x model s, load_file (Some (mkFILE data 0 None)) = Ret (f, x) /\
      r = Some s /\ page_for (canvasWidth (headerInfo f)) (canvasHeight (headerInfo f)) s /\
      m_Models m' = [[model]] /\ file model = Some f /\ m_ModelImages m' = [[null_image]] /\
      m_Pages m' = [Some page] /\ m_Document m' = Some document.
Proof.
  intros Hn Hc. unfold loadDocument, V3dModel_of_path, fopen. rewrite is_empty_false, Hc by done.
  cbn [option_map]. pose proof (load_fuel data) as Hl. pose proof (load_file_canvas data) as Hcan.
  destruct (load_file _) as [[f x]| |]; [|by split|done]. specialize (Hcan f x eq_refl) as [Hw Hh].
  cbn [obind]. unfold V3dModel_of_file.
  destruct (initProjection (newModel _ _ (Some f))) as [y| |] eqn:Ey; [|by split|by apply initProjection_fuel in Ey].
  cbn [obind]. destruct (AddModel fe vk y 0 _) as [m1| |] eqn:E1; [|by split|by apply AddModel_fuel in E1].
  apply AddModel_first in E1 as (z & Ez & HM & HI & HP & HD); [|done..]. cbn [obind].
  apply initProjection_keeps_file in Ez as Hf. apply initProjection_keeps_file in Ey as Hf'. rewrite Hf' in Hf. cbn in Hf.
  unfold GetCanvasSize. rewrite HM. cbn [lookup list_lookup]. unfold header_of. rewrite Hf. cbn [obind].
  destruct (page_of_canvas_spec _ _ Hw Hh) as (s & -> & Hs). cbn [obind].
  destruct m1; cbn in HM, HI, HP, HD; subst. cbn. split; [done|]. intros r m' [= <- <-].
  exists f, x, z, s. by split_and!.
Qed.

(** ** Requests *)

(** The sizes of a scaled image; the null image is null. *)
Class ScaledOk {img : Images} : Prop := {
  scaled_size w h i : 0 < w -> 0 < h -> isNull i = false ->
    img_width (scaled w h i) = w /\ img_height (scaled w h i) = h /\ isNull (scaled w h i) = false;
  null_isNull : isNull null_image = true
}.

(** What the page is given without the renderer: a black image for a thumbnail; the
    last image, scaled, for the page view while the presentation is driven. *)
Inductive given {glm : Glm} {img : Images} (r : PixmapRequest) (m : Manager) : QImage -> Prop :=
  | given_thumbnail : isThumbnail r = true ->
      given r m (filled (req_width r) (req_height r) Format_ARGB32 black)
  | given_last l : isThumbnail r = false -> isPageView r = true -> ShouldSuppressPageViewRender m = true ->
      l = LastRenderedModelImage 0 0 m -> isNull l = false ->
      given r m (fitted_image (req_width r) (req_height r) l).

(** The requests that it does not answer. *)
Definition to_render {glm : Glm} {img : Images} (r : PixmapRequest) (m : Manager) : Prop :=
  isThumbnail r = false /\
  (isPageView r = true -> ShouldSuppressPageViewRender m = true ->
     isNull (LastRenderedModelImage 0 0 m) = true).

Section Pixmaps.
Context {glm : Glm} {libm : Libm} {img : Images} {growth : Growth} {imgok : ImagesOk} {scok : ScaledOk}.

Lemma fitted_size width height i : 0 < width -> 0 < height -> isNull i = false ->
  img_width (fitted_image width height i) = width /\ img_height (fitted_image width height i) = height /\
  isNull (fitted_image width height i) = false.
Proof.
  intros Hw Hh Hi. unfold fitted_image. destruct (negb _ || negb _) eqn:E; [by apply scaled_size|].
  apply orb_false_iff in E as [H1 H2]. by apply negb_false_iff, Z.eqb_eq in H1, H2.
Qed.

Lemma given_size r m i : 0 < req_width r -> 0 < req_height r -> given r m i ->
  img_width i = req_width r /\ img_height i = req_height r.
Proof.
  intros Hw Hh [_|l _ _ _ _ Hl]; [by apply filled_size|].
  destruct (fitted_size (req_width r) (req_height r) l Hw Hh Hl) as (? & ? & _). done.
Qed.

Lemma suppressed_cases r m : 0 < req_width r -> 0 < req_height r -> isThumbnail r = false ->
  isNull (suppressed_image r m) = true /\ to_render r m \/
  isNull (suppressed_image r m) = false /\ given r m (suppressed_image r m).
Proof.
  intros Hw Hh Ht. unfold suppressed_image, to_render. destruct (isPageView r) eqn:Hp; cbn [andb].
  2: { left. split; [apply null_isNull|]. by split. }
  destruct (ShouldSuppressPageViewRender m) eqn:Hs.
  2: { left. split; [apply null_isNull|]. by split. }
  destruct (isNull (LastRenderedModelImage 0 0 m)) eqn:Hl; [left; by split|right].
  split; [by apply fitted_size|by eapply given_last].
Qed.
End Pixmaps.

(** C17: Every request is completed with an image of the requested size, also when
    rendering throws.  The size of the request is cached first.  Thumbnails, and page
    view requests while the presentation is driven when a last image exists, are
    served without the renderer: nothing else of the manager or of the process
    changes.  Every other request is answered by [RenderModel], or by a black image
    if that throws or gives none. *)
Theorem generatePixmap_spec {glm : Glm} {libm : Libm} {img : Images} {growth : Growth}
    {imgok : ImagesOk} {scok : ScaledOk} d qm fe vk rd env throws w r g m i g' m' :
  0 < req_width r -> 0 < req_height r ->
  generatePixmap d qm fe vk rd env throws w r g m = Ret (i, g', m') ->
  (img_width i = req_width r /\ img_height i = req_height r) /\
  exists m1, CacheRequest w r m = Ret m1 /\
    ((given r m1 i /\ g' = g /\ m' = m1) \/
     (to_render r m1 /\ exists j,
       attempt_RenderModel d qm fe vk rd env throws 0 0 (req_width r) (req_height r) g m1 = Ret (j, g', m') /\
       (j = Some i \/ i = filled (req_width r) (req_height r) Format_ARGB32 black /\
                       isNull (default null_image j) = true))).
Proof.
  intros Hw Hh. unfold generatePixmap, pixmap_image. intros E.
  apply obind_Ret in E as ([[oi g1] m2] & E & [= <- <- <-]).
  apply obind_Ret in E as (m1 & Em & E). destruct (isThumbnail r) eqn:Ht.
  { injection E as <- <- <-. set (blank := filled (req_width r) (req_height r) Format_ARGB32 black).
    assert ((if isNull (default null_image (Some blank)) then blank else default null_image (Some blank)) = blank)
      as -> by (cbn; by destruct (isNull _)).
    split; [by apply filled_size|]. exists m1. split; [done|]. left. by split; [apply given_thumbnail|]. }
  destruct (suppressed_cases r m1 Hw Hh Ht) as [[Hn Hr]|[Hn Hg]]; rewrite Hn in E.
  2: { injection E as <- <- <-. change (default null_image (Some ?x)) with x. rewrite Hn.
    split; [by eapply given_size|]. exists m1. split; [done|]. by left. }
  destruct (isNull (default null_image oi)) eqn:Hi.
  { split; [by apply filled_size|]. exists m1. split; [done|]. right. split; [done|]. exists oi. auto. }
  destruct oi as [i|]; cbn in *; [|by rewrite null_isNull in Hi].
  split; [by eapply attempt_image|]. exists m1. split; [done|]. right. split; [done|]. exists (Some i). auto.
Qed.

(** ** Concrete files and requests *)

#[local] Existing Instances glm_token libm_token images_token growth_token.
#[local] Instance images_ok : ImagesOk (img := images_token).
Proof. split; done. Qed.
#[local] Instance scaled_ok : ScaledOk (img := images_token).
Proof. split; [|done]. intros w h i Hw Hh _. by split_and!; [..|apply Z.eqb_neq; cbn; lia]. Qed.

Definition a_path : string := bytes_of "figure.v3d".
Definition a_manager : Manager := newManager sample_world (Some 3).
#[local] Abbreviation opening :=
  (loadDocument (fun _ => true) true (fun _ => Some sample_data) false (Some 3) a_path 40 a_manager).

(** The default canvas of 500 by 500. *)
Definition opened_check {A} (o : outcome (option vec2 * A)) : bool :=
  match o with Ret (Some s, _) => f32_to_bits (vx s) =? f32_to_bits (float_of_Z 1000) | _ => false end.

Lemma opened_check_Ret {A} (o : outcome (option vec2 * A)) : opened_check o = true ->
  exists s m', o = Ret (Some s, m') /\ f32_to_bits (vx s) = f32_to_bits (float_of_Z 1000).
Proof. destruct o as [[[s|] m']| |]; try done. intros H%Z.eqb_eq. eauto. Qed.

Lemma loadDocument_spec_witness : exists s m' f model,
  opening = Ret (Some s, m') /\ f32_to_bits (vx s) = f32_to_bits (float_of_Z 1000) /\
  page_for (canvasWidth (headerInfo f)) (canvasHeight (headerInfo f)) s /\
  m_Models m' = [[model]] /\ file model = Some f.
Proof.
  assert (opened_check opening = true) as H by (vm_compute; reflexivity).
  destruct (opened_check_Ret _ H) as (s & m' & E & Hs).
  destruct (loadDocument_spec (fun _ => true) true (fun _ => Some sample_data) 3 a_path 40 a_manager sample_data
    ltac:(discriminate) eq_refl) as [_ Hl].
  destruct (Hl _ _ E) as (f & x & model & s' & _ & Es & Hp & HM & Hf & _).
  injection Es as <-. exists s, m', f, model. exact (conj E (conj Hs (conj Hp (conj HM Hf)))).
Defined.

(** A request of the page view at the size of the figure. *)
Definition a_request : PixmapRequest := mkPixmapRequest 40 0 50 1 1 PAGEVIEW_PRIO.
#[local] Abbreviation requesting :=
  (generatePixmap sample_render_device sample_queue (fun _ => true) true (fun _ => false) (mkEnv None []) false
    sample_world a_request initialGlobals sample_manager).

Definition rendered_check (o : outcome (QImage * Globals * Manager)) : bool :=
  match o with Ret (i, _, m) => (img_width i =? 1) && negb (isNull (LastRenderedModelImage 0 0 m)) | _ => false end.
Lemma rendered_check_Ret o : rendered_check o = true ->
  exists i g m, o = Ret (i, g, m) /\ isNull (LastRenderedModelImage 0 0 m) = false.
Proof. destruct o as [[[i g] m]| |]; try done. intros [_ H%negb_true_iff]%andb_prop. eauto. Qed.

Lemma generatePixmap_spec_witness : exists i g' m',
  requesting = Ret (i, g', m') /\ isNull (LastRenderedModelImage 0 0 m') = false /\
  img_width i = 1 /\ img_height i = 1.
Proof.
  assert (rendered_check requesting = true) as H by (vm_compute; reflexivity).
  destruct (rendered_check_Ret _ H) as (i & g' & m' & E & Hi).
  destruct (generatePixmap_spec sample_render_device sample_queue (fun _ => true) true (fun _ => false)
    (mkEnv None []) false sample_world a_request initialGlobals sample_manager i g' m' eq_refl eq_refl E)
    as [[Hw Hh] _].
  exists i, g', m'. exact (conj E (conj Hi (conj Hw Hh))).
Defined.
