(* ===== verification/PdfGenerator.v ===== *)
(** * The Okular generator for PDF files

    [build/26.04/okular/generators/pdf/generator_pdf.cpp] with its header, as far as
    it is about v3d figures: opening a document with the figures embedded in it
    ([loadDocumentWithPassword], [init], [addV3dModelsFromAnnotation]), and [image]
    with [renderV3dModels], the cache of page backgrounds and the last page image.
    Poppler, Okular's pages and the painter are the interface [Poppler]. *)

From Stdlib Require Import Floats.SpecFloat.
From S2P Require Import Prelude Ieee Xstream Bound V3dData V3dLoad.
From S2P Require Import IblName IblPath Renderer Model Manager PageView HitTest Input Render V3dGenerator Gunzip.
Import Stdio.

(** A value of type [int]; signed overflow is undefined. *)
Definition int_value (z : Z) : outcome Z := if (- 2 ^ 31 <=? z) && (z <? 2 ^ 31) then Ret z else Undef.

(** An embedded file, where there is one; the assets of a rich-media annotation,
    where it has content, and its boundary, normalized. *)
Definition Asset : Type := option (list Byte.byte).
Inductive Annotation :=
| RichMedia (content : option (list (option Asset))) (boundary : rect)
| OtherAnnotation.

Class Poppler {img : Images} := {
  PdfDoc : Type;
  numPages : PdfDoc -> Z;
  pdf_page : PdfDoc -> Z -> bool;                  (* whether [pdfdoc->page(i)] is not null *)
  annotations : PdfDoc -> Z -> list Annotation;
  okular_size : PdfDoc -> Z -> Z -> float64 * float64;   (* [Okular::Page] of a number and a rotation *)
  dpi : float64 * float64;
  (* a page at a resolution: all of it, or a rectangle *)
  renderToImage : PdfDoc -> Z -> float64 -> float64 -> option (Z * Z * Z * Z) -> QImage;
  mono : Z -> Z -> QImage;                         (* white, [QImage::Format_Mono] *)
  isMono : QImage -> bool;
  drawImage : QImage -> Z -> Z -> QImage -> QImage (* the second at a position of the first *)
}.

Record BackgroundKey := mkKey { bk_page : Z; bk_width : Z; bk_height : Z; bk_rotation : Z }.
#[export] Instance BackgroundKey_eq : EqDecision BackgroundKey.
Proof. solve_decision. Defined.
#[export] Instance BackgroundKey_countable : Countable BackgroundKey.
Proof.
  apply (inj_countable' (fun k => (bk_page k, bk_width k, bk_height k, bk_rotation k))
    (fun '(a, b, c, d) => mkKey a b c d)). by intros [].
Defined.

(** [Okular::PixmapRequest] with what [image] asks of it: the tile, if it is one, and
    the rotation of its page. *)
Record PdfRequest := mkPdfRequest { req : PixmapRequest; tile : option rect; rotation : Z }.

(** The answers of [shouldAbortRender]: before rendering; while rendering, with the
    incomplete image; afterwards. *)
Record Aborts {img : Images} := mkAborts { abort_before : bool; interrupted : option QImage; abort_after : bool }.
Arguments mkAborts {img}.

Section PdfGenerator.
Context {glm : Glm} {libm : Libm} {img : Images} {growth : Growth} {poppler : Poppler} {zlib : Zlib}.

Record LastPageImage := mkLast { last_page : Z; last_image : QImage }.
Definition noPageImage : LastPageImage := mkLast (-1) null_image.

(** The generator; [objectRects] lists the pages whose rectangles [image] has set. *)
Record PDFGenerator := mkPDFGenerator {
  modelManager : Manager;
  pdfdoc : option PdfDoc;
  m_BackgroundCache : gmap BackgroundKey QImage;
  m_LastPageImage : LastPageImage;
  rectsGenerated : list bool;
  objectRects : list Z
}.

(** ** Opening *)

Section Opening.
Variable fileExists : string -> bool.
Variable vulkan : bool.

Definition isGzip (data : list Byte.byte) : bool :=
  match data with a :: b :: _ => Byte.eqb a Byte.x1f && Byte.eqb b Byte.x8b | _ => false end.

(** The v3d file in an asset. *)
Definition asset_data (fuel : nat) (a : option Asset) : outcome (option (list Byte.byte)) :=
  match a with
  | Some (Some fileData) =>
      if negb (isGzip fileData) then Ret None
      else
        '(ok, decompressedData) <~ decompress fuel default_max fileData;;
        Ret (if negb ok then None else match decompressedData with [] => None | _ => Some decompressedData end)
  | _ => Ret None
  end.

(** [V3dModel{xdrFile, minBound, maxBound}] *)
Definition V3dModel_of_bytes (bytes : list Byte.byte) (minB maxB : vec2) : outcome V3dModel :=
  '(f, _) <~ load_file (Some (mkFILE bytes 0 None));; V3dModel_of_file (Some f) minB maxB.

(** The assets of an annotation; [throws i] when parsing the [i]-th throws, which ends
    the loop. *)
Fixpoint add_assets (fuel : nat) (throws : nat -> bool) (i : nat) (bound : rect) (page : Z)
    (assets : list (option Asset)) (m : Manager) : outcome Manager :=
  match assets with
  | [] => Ret m
  | a :: assets =>
      data <~ asset_data fuel a;;
      match data with
      | None => add_assets fuel throws (S i) bound page assets m
      | Some bytes =>
          if throws i then Ret m
          else
            model <~ V3dModel_of_bytes bytes
              (mkVec2 (float_of_double (rleft bound)) (float_of_double (rtop bound)))
              (mkVec2 (float_of_double (rright bound)) (float_of_double (rbottom bound)));;
            m <~ AddModel fileExists vulkan model (size_t page) m;;
            add_assets fuel throws (S i) bound page assets m
      end
  end.

Definition addV3dModelsFromAnnotation (fuel : nat) (throws : nat -> bool) (a : Annotation) (page : Z)
    (m : Manager) : outcome Manager :=
  match a with
  | RichMedia (Some assets) bound => add_assets fuel throws 0 bound page assets m
  | _ => Ret m
  end.

(** [addAnnotations], and [loadPages] from page [i] on; [throws i j k] when parsing
    the asset [k] of the annotation [j] of page [i] throws. *)
Fixpoint addAnnotations (fuel : nat) (throws : nat -> nat -> bool) (j : nat) (page : Z)
    (annots : list Annotation) (m : Manager) : outcome Manager :=
  match annots with
  | [] => Ret m
  | a :: annots =>
      m <~ addV3dModelsFromAnnotation fuel (throws j) a page m;;
      addAnnotations fuel throws (S j) page annots m
  end.

Fixpoint loadPages (fuel : nat) (throws : nat -> nat -> nat -> bool) (doc : PdfDoc) (i count : nat)
    (m : Manager) : outcome Manager :=
  match count with
  | O => Ret m
  | S count =>
      let page := Z.of_nat i in
      m <~ (if pdf_page doc page then addAnnotations fuel (throws i) 0 page (annotations doc page) m
            else Ret m);;
      loadPages fuel throws doc (S i) count m
  end.

Inductive OpenResult := OpenSuccess | OpenError | OpenNeedsPassword.

(** [loadDocumentWithPassword] and [loadDocumentFromDataWithPassword] with [init]: what
    [Poppler::Document::load] gives, and whether it stays locked. *)
Definition loadDocumentWithPassword (fuel : nat) (throws : nat -> nat -> nat -> bool)
    (document : option object) (doc : option PdfDoc) (locked : bool) (st : PDFGenerator) :
    outcome (OpenResult * PDFGenerator) :=
  let m := match document with Some _ => SetDocument document (modelManager st) | None => modelManager st end in
  match doc with
  | None => Ret (OpenError, mkPDFGenerator m None (m_BackgroundCache st) (m_LastPageImage st)
                              (rectsGenerated st) (objectRects st))
  | Some d =>
      if locked then Ret (OpenNeedsPassword, mkPDFGenerator m None ∅ noPageImage (rectsGenerated st) (objectRects st))
      else if numPages d <? 0 then
        Ret (OpenError, mkPDFGenerator m None ∅ noPageImage (rectsGenerated st) (objectRects st))
      else
        let count := Z.to_nat (numPages d) in
        m <~ loadPages fuel throws d 0 count m;;
        Ret (OpenSuccess, mkPDFGenerator m (Some d) ∅ noPageImage (replicate count false) [])
  end.

(** [doCloseDocument] *)
Definition doCloseDocument (st : PDFGenerator) : PDFGenerator :=
  mkPDFGenerator (modelManager st) None (m_BackgroundCache st) (m_LastPageImage st) [] (objectRects st).

(** [reparseConfig] and the other calls that change how poppler renders the same
    document: the paper colour, the render hints, the layers that are shown. *)
Definition change_document (change : PdfDoc -> PdfDoc) (st : PDFGenerator) : PDFGenerator :=
  mkPDFGenerator (modelManager st) (change <$> pdfdoc st) (m_BackgroundCache st) (m_LastPageImage st)
    (rectsGenerated st) (objectRects st).
End Opening.

(** ** Images *)

Section Image.
Variable d : Device.
Variable queueMesh : Queue -> Buffers.
Variable fileExists : string -> bool.
Variable vulkan : bool.
Variable readable : string -> bool.
Variable env : Env.

Definition isPreload (r : PixmapRequest) : bool :=
  (req_priority r =? PAGEVIEW_PRELOAD_PRIO) || (req_priority r =? PRESENTATION_PRELOAD_PRIO).

Definition page_index (r : PixmapRequest) : nat := Z.to_nat (size_t (req_pageNumber r)).

(** Where an image of a model goes: on a tile, relative to it. *)
Definition position (r : PdfRequest) (xMin yMin : Z) : outcome (Z * Z) :=
  match tile r with
  | Some t =>
      x <~ int_of_double (dsub (double_of_Z xMin) (dmul (rleft t) (double_of_Z (req_width (req r)))));;
      y <~ int_of_double (dsub (double_of_Z yMin) (dmul (rtop t) (double_of_Z (req_height (req r)))));;
      Ret (x, y)
  | None => Ret (xMin, yMin)
  end.

(** The loop over the models of the page: the page image, and whether an exception
    has ended it. *)
Fixpoint draw_models (throws : nat -> bool) (w : World) (r : PdfRequest) (i : nat)
    (modelBounds : list (vec2 * vec2)) (image : QImage) (g : Globals) (m : Manager) :
    outcome (bool * QImage * Globals * Manager) :=
  match modelBounds with
  | [] => Ret (false, image, g, m)
  | (lo, hi) :: modelBounds =>
      if isThumbnail (req r) then draw_models throws w r (S i) modelBounds image g m
      else
        let width := float_of_Z (req_width (req r)) in
        let height := float_of_Z (req_height (req r)) in
        xMin <~ int_of_double (fmul width (vx lo));;
        xMax <~ int_of_double (fmul width (vx hi));;
        yMin <~ int_of_double (fmul height (vy lo));;
        yMax <~ int_of_double (fmul height (vy hi));;
        imageWidth <~ int_value (xMax - xMin);;
        imageHeight <~ int_value (yMax - yMin);;
        m <~ CacheRequest w (req r) m;;
        let page := page_index (req r) in
        '(part, g, m) <~
          (if isPreload (req r) then Ret (Some (CachedModelImage page i imageWidth imageHeight m), g, m)
           else attempt_RenderModel d queueMesh fileExists vulkan readable env (throws i)
                  page i imageWidth imageHeight g m);;
        match part with
        | None => Ret (true, image, g, m)
        | Some part =>
            if isNull part then draw_models throws w r (S i) modelBounds image g m
            else
              '(x, y) <~ position r xMin yMin;;
              draw_models throws w r (S i) modelBounds (drawImage image x y part) g m
        end
  end.

(** [renderV3dModels] under the [try] of [image].  [DrawMouseBoundaries] is compiled to
    nothing. *)
Definition renderV3dModels (throws : nat -> bool) (w : World) (r : PdfRequest) (image : QImage)
    (g : Globals) (st : PDFGenerator) : outcome (QImage * Globals * PDFGenerator) :=
  let m := modelManager st in
  '(thrown, image, g, m) <~
    (if negb (isNull image) && negb (isMono image) && negb (Empty m) then
       draw_models throws w r 0 (ModelBoundsSnapshot (page_index (req r)) m) image g m
     else Ret (false, image, g, m));;
  let last := if negb thrown && negb (match tile r with Some _ => true | None => false end) && negb (isNull image)
              then mkLast (req_pageNumber (req r)) image else m_LastPageImage st in
  Ret (image, g, mkPDFGenerator m (pdfdoc st) (m_BackgroundCache st) last (rectsGenerated st) (objectRects st)).

Definition key_of (r : PdfRequest) : BackgroundKey :=
  mkKey (req_pageNumber (req r)) (req_width (req r)) (req_height (req r)) (rotation r).
Definition isTile (r : PdfRequest) : bool := match tile r with Some _ => true | None => false end.

(** An image of the cache that is not null. *)
Definition cached_background (r : PdfRequest) (st : PDFGenerator) : option QImage :=
  match m_BackgroundCache st !! key_of r with
  | Some image => if isNull image then None else Some image
  | None => None
  end.

(** The image served while the presentation is driven. *)
Definition served_image (r : PdfRequest) (st : PDFGenerator) : option QImage :=
  let last := m_LastPageImage st in
  if negb (isTile r) && ((req_priority (req r) =? PAGEVIEW_PRIO) || isPreload (req r)) &&
     ShouldSuppressPageViewRender (modelManager st) then
    if (last_page last =? req_pageNumber (req r)) && negb (isNull (last_image last))
    then Some (fitted_image (req_width (req r)) (req_height (req r)) (last_image last))
    else if isPreload (req r) then cached_background r st else None
  else None.

(** [NormalizedRect::geometry] *)
Definition geometry (t : rect) (xScale yScale : Z) : outcome (Z * Z * Z * Z) :=
  l <~ int_of_double (dmul (rleft t) (double_of_Z xScale));;
  top <~ int_of_double (dmul (rtop t) (double_of_Z yScale));;
  r <~ int_of_double (dmul (rright t) (double_of_Z xScale));;
  b <~ int_of_double (dmul (rbottom t) (double_of_Z yScale));;
  width <~ int_value (r - l + 1);;
  height <~ int_value (b - top + 1);;
  Ret (l, top, width, height).

(** What poppler renders for a request. *)
Definition background (r : PdfRequest) (doc : PdfDoc) : outcome QImage :=
  let n := req_pageNumber (req r) in
  let '(pageWidth, pageHeight) :=
    let '(pw, ph) := okular_size doc n (rotation r) in
    if Z.odd (rotation r) then (ph, pw) else (pw, ph) in
  let fakeDpiX := dmul (ddiv (double_of_Z (req_width (req r))) pageWidth) (fst dpi) in
  let fakeDpiY := dmul (ddiv (double_of_Z (req_height (req r))) pageHeight) (snd dpi) in
  part <~ match tile r with
          | Some t => p <~ geometry t (req_width (req r)) (req_height (req r));; Ret (Some p)
          | None => Ret None
          end;;
  Ret (renderToImage doc n fakeDpiX fakeDpiY part).

(** The page without the models, and the cache with it. *)
Definition page_background (a : Aborts) (r : PdfRequest) (doc : PdfDoc) (st : PDFGenerator) :
    outcome (QImage * gmap BackgroundKey QImage) :=
  let p := pdf_page doc (req_pageNumber (req r)) in
  let hit := if isTile r then None else cached_background r st in
  image <~
    (if negb p then Ret (mono (req_width (req r)) (req_height (req r)))
     else match hit with
          | Some image => Ret image
          | None => match interrupted a with Some image => Ret image | None => background r doc end
          end);;
  let cache := m_BackgroundCache st in
  Ret (image,
    if negb (isTile r) && p && negb (isNull image) && negb (isSome hit) && negb (abort_after a)
    then <[key_of r := image]> (if (8 <=? stdpp.base.size cache)%nat then ∅ else cache) else cache).

(** [PDFGenerator::image] *)
Definition image (throws : nat -> bool) (a : Aborts) (w : World) (r : PdfRequest) (g : Globals)
    (st : PDFGenerator) : outcome (QImage * Globals * PDFGenerator) :=
  if negb (isTile r) && (req_priority (req r) =? PRESENTATION_PRELOAD_PRIO) && negb (Empty (modelManager st))
  then Ret (null_image, g, st)
  else match served_image r st with
  | Some i => Ret (i, g, st)
  | None =>
      let n := req_pageNumber (req r) in
      generated <~ at_index (rectsGenerated st) n;;
      if abort_before a then Ret (null_image, g, st)
      else
        doc <~ determined (pdfdoc st);;
        '(page, cache) <~ page_background a r doc st;;
        let '(rects, set) :=
          if pdf_page doc n && negb generated
          then (<[Z.to_nat n := true]> (rectsGenerated st), objectRects st ++ [n])
          else (rectsGenerated st, objectRects st) in
        renderV3dModels throws w r page g
          (mkPDFGenerator (modelManager st) (pdfdoc st) cache (m_LastPageImage st) rects set)
  end.
End Image.
End PdfGenerator.
