(* ===== verification/Generators.v ===== *)
(** * The sessions of the generators

    Everything the two generators do to their manager is a step of the manager's
    transition system ([Session]), so that its invariant and the theorems about
    reachable states hold in the plugins; and what the PDF generator keeps beside
    its manager: a bounded cache of page backgrounds that are those of the open
    document. *)

From S2P Require Import Prelude Ieee Xstream Bound V3dData V3dLoad.
From S2P Require Import IblName IblPath Renderer Model Manager PageView HitTest Input Render IblDownload Session.
From S2P Require Import Gunzip V3dGenerator PdfGenerator.

Section Steps.
Context {glm : Glm} {libm : Libm} {img : Images} {growth : Growth}.

(** Some steps of the manager. *)
Definition steps : Manager -> Manager -> Prop := rtc step.

Lemma reachable_steps m m' : reachable m -> steps m m' -> reachable m'.
Proof. induction 2 as [|m m1 m' Hs _ IH]; [done|]. apply IH. by eapply reachable_step. Qed.

Lemma steps_once m m' : step m m' -> steps m m'.
Proof. apply rtc_once. Qed.
Lemma steps_CacheRequest w r m m' : CacheRequest w r m = Ret m' -> steps m m'.
Proof. intros E. by eapply steps_once, step_event, event_CacheRequest. Qed.
Lemma steps_CachePage p o m m' : CachePage p o m = Ret m' -> steps m m'.
Proof. intros E. by eapply steps_once, step_event, event_CachePage. Qed.
Lemma steps_AddModel fe vk x p m m' : AddModel fe vk x p m = Ret m' -> steps m m'.
Proof. intros E. by eapply steps_once, step_AddModel. Qed.
Lemma steps_attempt throws d qm fe vk rd env page index width height g m i g' m' :
  attempt_RenderModel d qm fe vk rd env throws page index width height g m = Ret (i, g', m') -> steps m m'.
Proof. intros E. by eapply steps_once, step_RenderModel. Qed.
Lemma steps_document (document : option object) m :
  steps m (match document with Some _ => SetDocument document m | None => m end).
Proof. destruct document; [apply steps_once, step_SetDocument|apply rtc_refl]. Qed.
#[local] Hint Resolve steps_CacheRequest steps_CachePage steps_AddModel steps_attempt : v3d.

(** ** The v3d generator *)

Lemma generatePixmap_steps d qm fe vk rd env throws w r g m i g' m' :
  generatePixmap d qm fe vk rd env throws w r g m = Ret (i, g', m') -> steps m m'.
Proof.
  unfold generatePixmap, pixmap_image. intros E. ostep E. destruct r0 as [[oi g1] m2].
  injection E as _ _ <-. ostep E0. transitivity r0; [eauto with v3d|].
  destruct (isThumbnail r); [by injection E0 as _ _ <-|].
  destruct (isNull _); [eauto with v3d|by injection E0 as _ _ <-].
Qed.

Lemma loadDocument_steps fe vk contents throws document fileName page m r m' :
  loadDocument fe vk contents throws document fileName page m = Ret (r, m') -> steps m m'.
Proof.
  unfold loadDocument. intros E. etrans; [apply (steps_document document)|]. revert E.
  generalize (match document with Some _ => SetDocument document m | None => m end). intros m0.
  destruct throws; [by intros [= _ <-]|]. intros E. repeat ostep E.
  injection E as _ <-. etrans; [|eauto with v3d]. eauto with v3d.
Qed.

(** ** The PDF generator *)

Context {poppler : Poppler} {zlib : Zlib}.

Lemma draw_models_steps d qm fe vk rd env throws w r i bounds im g m b im' g' m' :
  draw_models d qm fe vk rd env throws w r i bounds im g m = Ret (b, im', g', m') -> steps m m'.
Proof.
  revert i im g m. induction bounds as [|[lo hi] bounds IH]; intros i im g m; cbn [draw_models].
  { by intros [= _ _ _ <-]. }
  destruct (isThumbnail (req r)); [apply IH|]. intros E. do 7 ostep E. etrans; [eauto with v3d|].
  ostep E. destruct r7 as [[part g1] m1]. transitivity m1.
  { destruct (isPreload (req r)); [by injection E7 as _ _ <-|eauto with v3d]. }
  destruct part as [part|]; [|by injection E as _ _ _ <-]. destruct (isNull part); [by eapply IH|].
  ostep E. destruct r7 as [x y]. by eapply IH.
Qed.

Lemma renderV3dModels_steps d qm fe vk rd env throws w r im g st im' g' st' :
  renderV3dModels d qm fe vk rd env throws w r im g st = Ret (im', g', st') ->
  steps (modelManager st) (modelManager st').
Proof.
  unfold renderV3dModels. cbv zeta. intros E. ostep E. destruct r0 as [[[b im1] g1] m1].
  injection E as _ _ <-. cbn [modelManager]. destruct (negb _ && _ && _); [by eapply draw_models_steps|].
  by injection E0 as _ _ _ <-.
Qed.

Lemma image_steps d qm fe vk rd env throws a w r g st i g' st' :
  image d qm fe vk rd env throws a w r g st = Ret (i, g', st') ->
  steps (modelManager st) (modelManager st').
Proof.
  unfold image. destruct (_ && _ && _); [by intros [= _ _ <-]|].
  destruct (served_image r st); [by intros [= _ _ <-]|]. intros E. ostep E.
  destruct (abort_before a); [by injection E as _ _ <-|]. do 2 ostep E. destruct r2 as [page cache].
  destruct (pdf_page _ _ && _); by apply renderV3dModels_steps in E.
Qed.

Lemma add_assets_steps fe vk fuel throws i bound page assets m m' :
  add_assets fe vk fuel throws i bound page assets m = Ret m' -> steps m m'.
Proof.
  revert i m. induction assets as [|a assets IH]; intros i m; cbn [add_assets]; [by intros [= <-]|].
  intros E. ostep E. destruct r as [bytes|]; [|by eapply IH]. destruct (throws i); [by injection E as <-|].
  do 2 ostep E. etrans; [eauto with v3d|by eapply IH].
Qed.

Lemma addAnnotations_steps fe vk fuel throws j page annots m m' :
  addAnnotations fe vk fuel throws j page annots m = Ret m' -> steps m m'.
Proof.
  revert j m. induction annots as [|a annots IH]; intros j m; cbn [addAnnotations]; [by intros [= <-]|].
  intros E. ostep E. transitivity r; [|by eapply IH]. unfold addV3dModelsFromAnnotation in E0.
  destruct a as [[assets|] bound|]; [by eapply add_assets_steps|by injection E0 as <-..].
Qed.

Lemma loadPages_steps fe vk fuel throws doc i count m m' :
  loadPages fe vk fuel throws doc i count m = Ret m' -> steps m m'.
Proof.
  revert i m. induction count as [|count IH]; intros i m; cbn [loadPages]; [by intros [= <-]|].
  intros E. ostep E. transitivity r; [|by eapply IH].
  destruct (pdf_page _ _); [by eapply addAnnotations_steps|by injection E0 as <-].
Qed.

Lemma open_steps fe vk fuel throws document doc locked st r st' :
  loadDocumentWithPassword fe vk fuel throws document doc locked st = Ret (r, st') ->
  steps (modelManager st) (modelManager st').
Proof.
  unfold loadDocumentWithPassword. intros E. etrans; [apply (steps_document document)|]. revert E.
  generalize (match document with Some _ => SetDocument document (modelManager st) | None => modelManager st end).
  intros m. destruct doc as [d|]; [|by intros [= _ <-]]. destruct locked; [by intros [= _ <-]|].
  destruct (_ <? _); [by intros [= _ <-]|]. intros E. ostep E. injection E as _ <-. by eapply loadPages_steps.
Qed.
End Steps.

(** ** The backgrounds of the PDF generator *)

Section Backgrounds.
Context {glm : Glm} {libm : Libm} {img : Images} {growth : Growth} {poppler : Poppler} {zlib : Zlib}.

(** A request that is aborted stays aborted. *)
Definition aborts_ok (a : Aborts) : Prop := isSome (interrupted a) = true -> abort_after a = true.

(** What poppler renders for a key. *)
Definition renders (doc : PdfDoc) (k : BackgroundKey) (i : QImage) : Prop :=
  pdf_page doc (bk_page k) = true /\ isNull i = false /\
  forall r, tile r = None -> key_of r = k -> background r doc = Ret i.

(** The cache is bounded, and holds pages of the open document. *)
Definition small_cache (cache : gmap BackgroundKey QImage) : Prop := (stdpp.base.size cache <= 8)%nat.
Definition fresh_cache (doc : option PdfDoc) (cache : gmap BackgroundKey QImage) : Prop :=
  forall d, doc = Some d -> map_Forall (renders d) cache.

Lemma background_key r r' doc : tile r = None -> tile r' = None -> key_of r = key_of r' ->
  background r doc = background r' doc.
Proof.
  intros Ht Ht' Hk. unfold key_of in Hk. injection Hk as H1 H2 H3 H4. unfold background.
  by rewrite Ht, Ht', H1, H2, H3, H4.
Qed.

Lemma isTile_false r : isTile r = false -> tile r = None.
Proof. unfold isTile. by destruct (tile r). Qed.

(** Whole pages are always rendered. *)
Lemma background_Ret r doc : tile r = None -> exists i, background r doc = Ret i.
Proof.
  intros Ht. unfold background. rewrite Ht. destruct (okular_size _ _ _) as [pw ph].
  destruct (Z.odd _); cbn [obind]; eauto.
Qed.

Lemma renders_key r doc i : tile r = None -> pdf_page doc (req_pageNumber (req r)) = true ->
  isNull i = false -> background r doc = Ret i -> renders doc (key_of r) i.
Proof.
  intros Ht Hp Hi Hb. split; [done|]. split; [done|]. intros r' Ht' Hk.
  by rewrite (background_key r' r) by done.
Qed.

(** A cached page is the page. *)
Lemma cached_fresh r doc st i :
  fresh_cache (pdfdoc st) (m_BackgroundCache st) -> pdfdoc st = Some doc -> tile r = None ->
  cached_background r st = Some i ->
  pdf_page doc (req_pageNumber (req r)) = true /\ isNull i = false /\ background r doc = Ret i.
Proof.
  intros Hf Hd Ht. unfold cached_background. destruct (m_BackgroundCache st !! key_of r) as [j|] eqn:E; [|done].
  destruct (isNull j) eqn:Hn; [done|]. intros [= <-].
  destruct (Hf doc Hd (key_of r) j E) as (Hp & _ & Hb). split_and!; [done..|by apply Hb].
Qed.

Lemma small_empty : small_cache ∅.
Proof. unfold small_cache. rewrite map_size_empty. lia. Qed.

Lemma small_insert k i (c : gmap BackgroundKey QImage) :
  small_cache c -> small_cache (<[k := i]> (if (8 <=? stdpp.base.size c)%nat then ∅ else c)).
Proof.
  unfold small_cache. intros Hc. destruct (Nat.leb_spec 8 (stdpp.base.size c)) as [|Hlt].
  - rewrite map_size_insert_None by apply lookup_empty. rewrite map_size_empty. lia.
  - pose proof (map_size_insert (M := gmap BackgroundKey) k i c) as ->. destruct (c !! k); cbn; lia.
Qed.

Lemma evicting_insert (P : BackgroundKey -> QImage -> Prop) k i (c : gmap BackgroundKey QImage) (full : bool) :
  map_Forall P c -> P k i -> map_Forall P (<[k := i]> (if full then ∅ else c)).
Proof. intros Hc Hi. apply map_Forall_insert_2; [done|]. by destruct full; [apply map_Forall_empty|]. Qed.

Lemma page_background_ok a r doc st i cache :
  aborts_ok a -> pdfdoc st = Some doc ->
  page_background a r doc st = Ret (i, cache) ->
  (small_cache (m_BackgroundCache st) -> small_cache cache) /\
  (fresh_cache (pdfdoc st) (m_BackgroundCache st) -> fresh_cache (pdfdoc st) cache).
Proof.
  intros Ha Hd. unfold page_background. cbv zeta. intros E. ostep E. injection E as <- <-.
  destruct (_ && _ && _ && _ && _) eqn:Hb; [|done]. apply andb_prop in Hb as [Hb Hafter].
  apply andb_prop in Hb as [Hb Hhit]. apply andb_prop in Hb as [Hb Hnull]. apply andb_prop in Hb as [Htile Hp].
  apply negb_true_iff in Htile, Hnull, Hafter, Hhit. split; [apply small_insert|].
  intros Hf d Hd'. rewrite Hd in Hd'. injection Hd' as <-. apply evicting_insert; [by apply Hf|].
  rewrite Hp, Htile in E0. cbn [negb] in E0. rewrite Htile in Hhit. apply isTile_false in Htile as Ht.
  destruct (cached_background r st) as [j|]; [done|].
  apply renders_key; [done..|]. unfold aborts_ok in Ha. destruct (interrupted a); [|done].
  rewrite Hafter in Ha. by specialize (Ha eq_refl).
Qed.

Lemma renderV3dModels_frame d qm fe vk rd env throws w r im g st im' g' st' :
  renderV3dModels d qm fe vk rd env throws w r im g st = Ret (im', g', st') ->
  pdfdoc st' = pdfdoc st /\ m_BackgroundCache st' = m_BackgroundCache st.
Proof.
  unfold renderV3dModels. cbv zeta. intros E. ostep E. destruct r0 as [[[b im1] g1] m1]. by injection E as _ _ <-.
Qed.

Lemma image_cache d qm fe vk rd env throws a w r g st i g' st' :
  aborts_ok a -> image d qm fe vk rd env throws a w r g st = Ret (i, g', st') ->
  pdfdoc st' = pdfdoc st /\
  (small_cache (m_BackgroundCache st) -> small_cache (m_BackgroundCache st')) /\
  (fresh_cache (pdfdoc st) (m_BackgroundCache st) -> fresh_cache (pdfdoc st) (m_BackgroundCache st')).
Proof.
  intros Ha. unfold image. destruct (_ && _ && _); [by intros [= _ _ <-]|].
  destruct (served_image r st); [by intros [= _ _ <-]|]. intros E. ostep E.
  destruct (abort_before a); [by injection E as _ _ <-|]. ostep E. ostep E. destruct r2 as [page cache].
  destruct (pdfdoc st) as [doc|] eqn:Hd; [|done]. injection E1 as <-.
  apply page_background_ok in E2 as [H1 H2]; [|done|exact Hd]. rewrite Hd in H2.
  destruct (pdf_page _ _ && _); apply renderV3dModels_frame in E as [-> ->]; cbn [pdfdoc m_BackgroundCache];
    by rewrite ?Hd.
Qed.

(** ** Sessions *)

Definition set_manager (m : Manager) (st : PDFGenerator) : PDFGenerator :=
  mkPDFGenerator m (pdfdoc st) (m_BackgroundCache st) (m_LastPageImage st) (rectsGenerated st) (objectRects st).

(** A session of the PDF generator; [changes] says whether the settings and the layers
    of the open document may change.  Other documents may change the statics of the
    process. *)
Inductive pdf_session (changes : bool) : Globals -> PDFGenerator -> Prop :=
| pdf_new w document g :
    pdf_session changes g (mkPDFGenerator (newManager w document) None ∅ noPageImage [] [])
| pdf_process g g' st : pdf_session changes g st -> pdf_session changes g' st
| pdf_event g st m' :
    pdf_session changes g st -> event (modelManager st) m' -> pdf_session changes g (set_manager m' st)
| pdf_open fe vk fuel throws document doc locked g st r st' :
    pdf_session changes g st ->
    loadDocumentWithPassword fe vk fuel throws document doc locked st = Ret (r, st') ->
    pdf_session changes g st'
| pdf_close g st : pdf_session changes g st -> pdf_session changes g (doCloseDocument st)
| pdf_image d qm fe vk rd env throws a w r g st i g' st' :
    pdf_session changes g st -> aborts_ok a ->
    image d qm fe vk rd env throws a w r g st = Ret (i, g', st') -> pdf_session changes g' st'
| pdf_change change g st :
    pdf_session changes g st -> changes = true -> pdf_session changes g (change_document change st).

(** Sessions of the v3d generator. *)
Inductive v3d_session : Globals -> Manager -> Prop :=
| v3d_new w document g : v3d_session g (newManager w document)
| v3d_process g g' m : v3d_session g m -> v3d_session g' m
| v3d_event g m m' : v3d_session g m -> event m m' -> v3d_session g m'
| v3d_open fe vk contents throws document fileName page g m r m' :
    v3d_session g m -> loadDocument fe vk contents throws document fileName page m = Ret (r, m') ->
    v3d_session g m'
| v3d_pixmap d qm fe vk rd env throws w r g m i g' m' :
    v3d_session g m -> generatePixmap d qm fe vk rd env throws w r g m = Ret (i, g', m') ->
    v3d_session g' m'.

Lemma v3d_reachable g m : v3d_session g m -> reachable m.
Proof.
  induction 1 as [w document g|g g' m _ IH|g m m' _ IH Ev
    |fe vk contents throws document fileName page g m r m' _ IH E|d qm fe vk rd env throws w r g m i g' m' _ IH E].
  - apply reachable_new.
  - done.
  - by eapply reachable_step, step_event.
  - by eapply reachable_steps, loadDocument_steps.
  - by eapply reachable_steps, generatePixmap_steps.
Qed.

Lemma open_cache fe vk fuel throws document doc locked st r st' :
  loadDocumentWithPassword fe vk fuel throws document doc locked st = Ret (r, st') ->
  (small_cache (m_BackgroundCache st) -> small_cache (m_BackgroundCache st')) /\
  fresh_cache (pdfdoc st') (m_BackgroundCache st').
Proof.
  unfold loadDocumentWithPassword. set (m := match document with Some _ => _ | None => _ end). clearbody m.
  pose proof small_empty as H0.
  destruct doc as [d|]; [|by intros [= _ <-]]. destruct locked; [by intros [= _ <-]|].
  destruct (_ <? _); [by intros [= _ <-]|]. intros E. ostep E. injection E as _ <-. split; [done|].
  intros d' _. apply map_Forall_empty.
Qed.

Lemma pdf_session_cache changes g st : pdf_session changes g st ->
  reachable (modelManager st) /\ small_cache (m_BackgroundCache st) /\
  (changes = false -> fresh_cache (pdfdoc st) (m_BackgroundCache st)).
Proof.
  induction 1 as [w document g|g g' st _ IH|g st m' _ IH Ev
    |fe vk fuel throws document doc locked g st r st' _ IH E|g st _ IH
    |d qm fe vk rd env throws a w r g st i g' st' _ IH Ha E|change g st _ IH Hc].
  - split; [apply reachable_new|]. by split; [apply small_empty|].
  - done.
  - destruct IH as (H1 & H2 & H3). split; [by eapply reachable_step, step_event|done].
  - destruct IH as (H1 & H2 & H3). split; [by eapply reachable_steps, open_steps|].
    apply open_cache in E as [H4 H5]. split; [by apply H4|done].
  - destruct IH as (H1 & H2 & H3). split_and!; [done..|]. by intros _ d.
  - destruct IH as (H1 & H2 & H3). split; [by eapply reachable_steps, image_steps|].
    apply image_cache in E as (-> & H4 & H5); [|done]. split; [by apply H4|]. intros Hc. by apply H5, H3.
  - destruct IH as (H1 & H2 & H3). split_and!; [done..|]. by rewrite Hc.
Qed.
End Backgrounds.
