(* ===== verification/PdfProps.v ===== *)
(** * What the PDF generator shows

    Which models opening a document leaves, that the cache of backgrounds never
    changes what a page shows as long as the settings stay, that preloads and
    thumbnails leave the renderer alone; and that the cache outlives a change of the
    settings. *)

From Stdlib Require Import Floats.SpecFloat.
From S2P Require Import Prelude Ieee Xstream Bound V3dData V3dLoad LoadSafety.
From S2P Require Import IblName IblPath Renderer Model Manager PageView HitTest Input Render IblDownload Session.
From S2P Require Import Gunzip V3dGenerator PdfGenerator Generators.
Import Stdio.

Section Opening.
Context {glm : Glm} {libm : Libm} {img : Images} {growth : Growth} {poppler : Poppler} {zlib : Zlib}.

(** The models of a page. *)
Definition page_models (m : Manager) (p : nat) : list V3dModel := default [] (m_Models m !! p).

Lemma default_grow {A} p (L : list (list A)) q : default [] (grow [] p L !! q) = default [] (L !! q).
Proof.
  destruct (grow_spec [] p L) as [Hpre _]. destruct (L !! q) as [l|] eqn:E.
  - by rewrite (prefix_lookup_Some _ _ _ _ E Hpre).
  - destruct (grow [] p L !! q) as [x|] eqn:Ex; [|done]. by apply grow_lookup in Ex as [Ex| ->]; [rewrite E in Ex|].
Qed.

Lemma AddModel_page fe vk x p m m' : AddModel fe vk x p m = Ret m' ->
  exists y, initProjection x = Ret y /\
    forall q, page_models m' q = page_models m q ++ (if decide (q = Z.to_nat p) then [y] else []).
Proof.
  intros (m0 & page & row & ep & y & -> & Hinit & _ & Hpage & _ & _ & ->)%AddModel_Ret.
  exists y. split; [done|]. intros q. unfold page_models.
  change (default [] (<[Z.to_nat p := page ++ [y]]> (grow [] p (m_Models m)) !! q) =
    default [] (m_Models m !! q) ++ (if decide (q = Z.to_nat p) then [y] else [])).
  destruct (decide (q = Z.to_nat p)) as [->|Hne].
  - rewrite list_lookup_insert_eq by exact (lookup_lt_Some _ _ _ Hpage). cbn.
    rewrite <- (default_grow p). by rewrite Hpage.
  - rewrite list_lookup_insert_ne by done. by rewrite default_grow, app_nil_r.
Qed.

(** ** What an annotation embeds, told without the loops

    A gzip file starts with two bytes of its own. *)
Definition gzip_file (data : list Byte.byte) : Prop := exists rest, data = Byte.x1f :: Byte.x8b :: rest.
Definition unpacks (data : list Byte.byte) (ok : bool) (out : list Byte.byte) : Prop :=
  exists fuel, decompress fuel default_max data = Ret (ok, out).

(** The v3d file in an asset: there is none unless a gzip file is embedded and unpacks
    to at least a byte. *)
Inductive figure_in : option Asset -> option (list Byte.byte) -> Prop :=
| fi_no_asset : figure_in None None
| fi_no_file : figure_in (Some None) None
| fi_other data : ~ gzip_file data -> figure_in (Some (Some data)) None
| fi_damaged data out : gzip_file data -> unpacks data false out -> figure_in (Some (Some data)) None
| fi_empty data : gzip_file data -> unpacks data true [] -> figure_in (Some (Some data)) None
| fi_figure data bytes : gzip_file data -> unpacks data true bytes -> bytes <> [] ->
    figure_in (Some (Some data)) (Some bytes).

(** The v3d files of the assets from the [i]-th on, up to the first one whose parsing
    throws. *)
Inductive figures_of (throws : nat -> bool) : nat -> list (option Asset) -> list (list Byte.byte) -> Prop :=
| fo_nil i : figures_of throws i [] []
| fo_skip i a assets l : figure_in a None -> figures_of throws (S i) assets l -> figures_of throws i (a :: assets) l
| fo_throw i a assets bytes : figure_in a (Some bytes) -> throws i = true -> figures_of throws i (a :: assets) []
| fo_take i a assets bytes l : figure_in a (Some bytes) -> throws i = false -> figures_of throws (S i) assets l ->
    figures_of throws i (a :: assets) (bytes :: l).

(** Those of the annotations from the [j]-th on, with their places on the page. *)
Inductive annotated (throws : nat -> nat -> bool) : nat -> list Annotation -> list (list Byte.byte * rect) -> Prop :=
| an_nil j : annotated throws j [] []
| an_other j annots es : annotated throws (S j) annots es -> annotated throws j (OtherAnnotation :: annots) es
| an_no_content j bound annots es : annotated throws (S j) annots es ->
    annotated throws j (RichMedia None bound :: annots) es
| an_media j assets bound l annots es : figures_of (throws j) 0 assets l -> annotated throws (S j) annots es ->
    annotated throws j (RichMedia (Some assets) bound :: annots) (((fun b => (b, bound)) <$> l) ++ es).

(** Those of a page. *)
Definition page_figures (throws : nat -> nat -> nat -> bool) (doc : PdfDoc) (p : nat)
    (es : list (list Byte.byte * rect)) : Prop :=
  if (Z.of_nat p <? numPages doc) && pdf_page doc (Z.of_nat p)
  then annotated (throws p) 0 (annotations doc (Z.of_nat p)) es else es = [].

Lemma isGzip_spec data : isGzip data = true <-> gzip_file data.
Proof.
  split.
  - destruct data as [|a [|b rest]]; [done..|]. cbn. intros [Ha%Byte.byte_dec_bl Hb%Byte.byte_dec_bl]%andb_prop.
    exists rest. by subst.
  - by intros [rest ->].
Qed.

Lemma asset_data_figure fuel a o : asset_data fuel a = Ret o -> figure_in a o.
Proof.
  destruct a as [[data|]|]; cbn [asset_data]; [|intros [= <-]; constructor..].
  destruct (isGzip data) eqn:Eg; cbn [negb].
  - apply isGzip_spec in Eg. intros ([ok out] & E & H)%obind_Ret. assert (unpacks data ok out) as Hu by (by exists fuel).
    injection H as <-. destruct ok; cbn [negb]; [|by eapply fi_damaged]. destruct out; [by apply fi_empty|by apply fi_figure].
  - intros [= <-]. apply fi_other. intros H%isGzip_spec. congruence.
Qed.

(** An asset embeds one figure at most. *)
Lemma figure_in_agree fuel a o o' : asset_data fuel a = Ret o -> figure_in a o' -> o = o'.
Proof.
  intros E H. apply asset_data_figure in E.
  assert (forall data ok1 out1 ok2 out2, unpacks data ok1 out1 -> unpacks data ok2 out2 -> (ok1, out1) = (ok2, out2)) as Hu
    by (intros ????? [f1 E1] [f2 E2]; by eapply decompress_agree).
  inversion E; subst; inversion H; subst; try done;
    match goal with U1 : unpacks ?d _ _, U2 : unpacks ?d _ _ |- _ => pose proof (Hu _ _ _ _ _ U1 U2); congruence end.
Qed.

(** The model of an embedded file. *)
Definition model_of (e : list Byte.byte * rect) (x : V3dModel) : Prop :=
  (exists f s, load_file (Some (mkFILE e.1 0 None)) = Ret (f, s) /\ file x = Some f) /\
  m_minBound x = mkVec2 (float_of_double (rleft e.2)) (float_of_double (rtop e.2)) /\
  m_maxBound x = mkVec2 (float_of_double (rright e.2)) (float_of_double (rbottom e.2)).

Lemma initProjection_frame x y : initProjection x = Ret y ->
  file y = file x /\ m_minBound y = m_minBound x /\ m_maxBound y = m_maxBound x.
Proof.
  unfold initProjection. intros E. repeat (apply obind_Ret in E as (? & _ & E)). by injection E as <-.
Qed.

(** The files [es] have been added to page [p], as models. *)
Definition adds (p : nat) (es : list (list Byte.byte * rect)) (m m' : Manager) : Prop :=
  exists xs, Forall2 model_of es xs /\
    forall q, page_models m' q = page_models m q ++ (if decide (q = p) then xs else []).

Lemma adds_nil p m : adds p [] m m.
Proof. exists []. split; [constructor|]. intros q. by destruct (decide _); rewrite app_nil_r. Qed.
Lemma adds_app p es es' m1 m2 m3 : adds p es m1 m2 -> adds p es' m2 m3 -> adds p (es ++ es') m1 m3.
Proof.
  intros (xs & Hx & H1) (ys & Hy & H2). exists (xs ++ ys). split; [by apply Forall2_app|].
  intros q. rewrite H2, H1. destruct (decide _); [by rewrite app_assoc|by rewrite !app_nil_r].
Qed.

Lemma add_assets_adds fe vk fuel throws i bound page assets m m' :
  0 <= page < 2 ^ 31 ->
  add_assets fe vk fuel throws i bound page assets m = Ret m' ->
  exists l, figures_of throws i assets l /\ adds (Z.to_nat page) ((fun b => (b, bound)) <$> l) m m'.
Proof.
  intros Hp. revert i m. induction assets as [|a assets IH]; intros i m; cbn [add_assets].
  { intros [= <-]. exists []. split; [constructor|apply adds_nil]. }
  intros E. ostep E. apply asset_data_figure in E0. destruct r as [bytes|].
  2: { destruct (IH _ _ E) as (l & Hl & Ha). exists l. split; [by constructor|done]. }
  destruct (throws i) eqn:Et.
  { injection E as <-. exists []. split; [by eapply fo_throw|apply adds_nil]. }
  ostep E. ostep E. destruct (IH _ _ E) as (l & Hl & Ha). exists (bytes :: l). split; [by apply fo_take|].
  rewrite fmap_cons. apply (adds_app _ [(bytes, bound)]  _ _ r0); [|done].
  unfold V3dModel_of_bytes, V3dModel_of_file in E1. ostep E1. destruct r1 as [f s].
  apply initProjection_frame in E1 as (Hf & Hmin & Hmax). cbn in Hf, Hmin, Hmax.
  apply AddModel_page in E2 as (y & (Hf' & Hmin' & Hmax')%initProjection_frame & Hq).
  exists [y]. split.
  - constructor; [|constructor]. split; [exists f, s; split; [done|congruence]|]. split; cbn; congruence.
  - intros q. rewrite Hq. unfold size_t, wrapw. by rewrite Z.mod_small by lia.
Qed.

Lemma addAnnotations_adds fe vk fuel throws j page annots m m' :
  0 <= page < 2 ^ 31 ->
  addAnnotations fe vk fuel throws j page annots m = Ret m' ->
  exists es, annotated throws j annots es /\ adds (Z.to_nat page) es m m'.
Proof.
  intros Hp. revert j m. induction annots as [|a annots IH]; intros j m; cbn [addAnnotations].
  { intros [= <-]. exists []. split; [constructor|apply adds_nil]. }
  intros E. ostep E. destruct (IH _ _ E) as (es & He & Ha).
  unfold addV3dModelsFromAnnotation in E0. destruct a as [[assets|] bound|].
  - apply add_assets_adds in E0 as (l & Hl & Hal); [|done]. eexists. split; [by apply an_media|].
    by eapply adds_app.
  - injection E0 as <-. exists es. split; [by constructor|done].
  - injection E0 as <-. exists es. split; [by constructor|done].
Qed.

Lemma loadPages_adds fe vk fuel throws doc i count m m' :
  Z.of_nat (i + count) = numPages doc -> numPages doc < 2 ^ 31 ->
  loadPages fe vk fuel throws doc i count m = Ret m' ->
  forall q, exists es xs, page_models m' q = page_models m q ++ xs /\ Forall2 model_of es xs /\
    if decide (q < i)%nat then es = [] else page_figures throws doc q es.
Proof.
  intros Hn Hlt. revert i m Hn. induction count as [|count IH]; intros i m Hn; cbn [loadPages].
  { intros [= <-] q. exists [], []. rewrite app_nil_r. do 2 (split; [done|]).
    case_decide; [done|]. unfold page_figures. by rewrite (proj2 (Z.ltb_ge _ _)) by lia. }
  intros E q. ostep E. destruct (IH (S i) r ltac:(lia) E q) as (es & xs & Hq & Hxs & Hes).
  assert (exists fs, adds i fs m r /\ page_figures throws doc i fs) as (fs & (ys & Hys & Hr) & Hfs).
  { unfold page_figures. rewrite (proj2 (Z.ltb_lt _ _)) by lia. cbn [andb].
    destruct (pdf_page doc (Z.of_nat i)); [|injection E0 as <-; exists []; split; [apply adds_nil|done]].
    apply addAnnotations_adds in E0 as (fs & Ha & Had); [|lia]. rewrite Nat2Z.id in Had. by exists fs. }
  rewrite Hq, Hr. destruct (decide (q = i)) as [->|Hne].
  - rewrite decide_True in Hes by lia. subst es. apply Forall2_nil_inv_l in Hxs as ->. exists fs, ys.
    rewrite app_nil_r. do 2 (split; [done|]). by rewrite decide_False by lia.
  - exists es, xs. rewrite app_nil_r. do 2 (split; [done|]). case_decide as Hd; case_decide; try lia; done.
Qed.

(** ** Opening ends *)

Context {zok : ZlibOk}.

Lemma asset_data_fuel fuel a : 250000000 < Z.of_nat fuel -> asset_data fuel a <> NoFuel.
Proof.
  intros Hf. destruct a as [[data|]|]; cbn [asset_data]; [|done..].
  destruct (isGzip data) eqn:Eg; [|done]. apply isGzip_spec in Eg as [rest ->]. cbn [negb].
  set (data := Byte.x1f :: Byte.x8b :: rest).
  destruct (decompress fuel default_max data) as [[ok out]| |] eqn:E; [done|done|].
  exfalso. revert E. unfold decompress. destruct (inflateInit2 data) as [z|]; [|done]. destruct (_ || _); [done|].
  assert (2 <= Z.of_nat (length data)) by (unfold data; cbn [length]; lia).
  destruct (decompress_loop_total fuel default_max (Z.of_nat (length data)) z []) as (b & r & -> & _); [lia|done| |done].
  unfold default_max. cbn [length]. nia.
Qed.

Lemma add_assets_fuel fe vk fuel throws i bound page assets m :
  250000000 < Z.of_nat fuel -> add_assets fe vk fuel throws i bound page assets m <> NoFuel.
Proof.
  intros Hf. revert i m. induction assets as [|a assets IH]; intros i m; cbn [add_assets]; [done|].
  apply obind_fuel; [by apply asset_data_fuel|]. intros [bytes|] _; [|apply IH]. destruct (throws i); [done|].
  apply obind_fuel.
  { unfold V3dModel_of_bytes. apply obind_fuel; [apply load_fuel|]. intros [f x] _. apply initProjection_fuel. }
  intros x _. apply obind_fuel; [apply AddModel_fuel|]. intros m1 _. apply IH.
Qed.

Lemma loadPages_fuel fe vk fuel throws doc i count m :
  250000000 < Z.of_nat fuel -> loadPages fe vk fuel throws doc i count m <> NoFuel.
Proof.
  intros Hf. revert i m. induction count as [|count IH]; intros i m; cbn [loadPages]; [done|].
  apply obind_fuel; [|intros m1 _; apply IH]. destruct (pdf_page _ _); [|done].
  generalize 0%nat as j. revert m. induction (annotations doc (Z.of_nat i)) as [|a annots IHa]; intros m j;
    cbn [addAnnotations]; [done|].
  apply obind_fuel; [|intros m1 _; apply IHa]. unfold addV3dModelsFromAnnotation.
  destruct a as [[assets|] bound|]; [by apply add_assets_fuel|done|done].
Qed.
End Opening.

(** C15: Opening a PDF document replaces what the generator had: the caches are empty,
    and every page has exactly the models of the figures embedded in its rich-media
    annotations, in their order and at the places of the annotations.  An asset embeds a
    figure if its file starts with the two bytes of gzip and unpacks to at least one byte;
    every other asset is skipped, and so are those of the same annotation from the first
    one on whose parsing throws.  Opening always ends: with fuel for one round more than a
    file of two bytes may take it does not run out. *)
Theorem open_models {glm : Glm} {libm : Libm} {img : Images} {growth : Growth} {poppler : Poppler} {zlib : Zlib}
    {zok : ZlibOk} fe vk fuel throws document doc st :
  0 <= numPages doc < 2 ^ 31 ->
  let opened := loadDocumentWithPassword fe vk fuel throws (Some document) (Some doc) false st in
  (250000000 < Z.of_nat fuel -> opened <> NoFuel) /\
  forall r st', opened = Ret (r, st') ->
    r = OpenSuccess /\ pdfdoc st' = Some doc /\ m_BackgroundCache st' = ∅ /\ m_LastPageImage st' = noPageImage /\
    forall p, exists es, page_figures throws doc p es /\ Forall2 model_of es (page_models (modelManager st') p).
Proof.
  intros Hn opened. unfold opened, loadDocumentWithPassword. rewrite (proj2 (Z.ltb_ge _ _)) by lia. split.
  { intros Hf. apply obind_fuel; [by apply loadPages_fuel|done]. }
  intros r st' E. ostep E. injection E as <- <-. split_and!; [done..|]. intros p. cbn [modelManager].
  assert (Z.of_nat (0 + Z.to_nat (numPages doc)) = numPages doc) as Hcount by lia.
  destruct (loadPages_adds _ _ _ _ _ _ _ _ _ Hcount (proj2 Hn) E0 p) as (es & xs & Hp & Hxs & Hes).
  rewrite Hp. change (page_models (SetDocument (Some document) (modelManager st)) p) with (@nil V3dModel).
  exists es. split; [by rewrite decide_False in Hes by lia|done].
Qed.

(** ** The cache of backgrounds *)

Section Cache.
Context {glm : Glm} {libm : Libm} {img : Images} {growth : Growth} {poppler : Poppler} {zlib : Zlib}.

(** The generator with an empty cache. *)
Definition no_cache (st : PDFGenerator) : PDFGenerator :=
  mkPDFGenerator (modelManager st) (pdfdoc st) ∅ (m_LastPageImage st) (rectsGenerated st) (objectRects st).

(** The same image, and the same generator apart from the cache. *)
Definition same_page (o o' : outcome (QImage * Globals * PDFGenerator)) : Prop :=
  match o, o' with
  | Ret (i, g, st), Ret (i', g', st') => i = i' /\ g = g' /\ no_cache st = no_cache st'
  | Undef, Undef | NoFuel, NoFuel => True
  | _, _ => False
  end.

Lemma same_page_refl o : same_page o o.
Proof. destruct o as [[[i g] st]| |]; done. Qed.

(** The models are drawn without a look at the cache. *)
Lemma render_same d qm fe vk rd env throws w r im g st st' :
  no_cache st = no_cache st' ->
  same_page (renderV3dModels d qm fe vk rd env throws w r im g st)
            (renderV3dModels d qm fe vk rd env throws w r im g st').
Proof.
  destruct st as [m doc cache last rects set], st' as [m' doc' cache' last' rects' set'].
  unfold no_cache. cbn [modelManager pdfdoc m_BackgroundCache m_LastPageImage rectsGenerated objectRects].
  intros [= <- <- <- <- <-]. unfold renderV3dModels. cbn [modelManager pdfdoc m_BackgroundCache m_LastPageImage
    rectsGenerated objectRects]. cbv zeta.
  destruct (if _ : bool then _ else _) as [[[[b im1] g1] m1]| |]; cbn [obind]; done.
Qed.

(** With and without the cache, poppler's page is the same. *)
Lemma background_same a r doc st : interrupted a = None ->
  fresh_cache (pdfdoc st) (m_BackgroundCache st) -> pdfdoc st = Some doc ->
  match page_background a r doc st, page_background a r doc (no_cache st) with
  | Ret (i, _), Ret (i', _) => i = i'
  | Undef, Undef | NoFuel, NoFuel => True
  | _, _ => False
  end.
Proof.
  intros Ha Hf Hd. unfold page_background. cbv zeta. rewrite Ha.
  assert (cached_background r (no_cache st) = None) as ->
    by (unfold cached_background; cbn [no_cache m_BackgroundCache]; by rewrite lookup_empty).
  destruct (pdf_page doc _) eqn:Hp; cbn [negb]; [|done].
  destruct (isTile r) eqn:Ht; [by destruct (background r doc)|].
  destruct (cached_background r st) as [i|] eqn:Ec; [|by destruct (background r doc)].
  eapply cached_fresh in Ec as (_ & _ & ->); [|done|done|by apply isTile_false]. done.
Qed.
End Cache.

(** C18: Whatever happens in a session of the PDF generator (documents opened, also
    unreadable and locked ones, and closed; events, requests, aborted renderings,
    exceptions, other documents of the process), its manager is in a state of the
    manager's own transition system, at most eight backgrounds are cached, and each of
    them is what poppler would render for the open document, as long as its settings
    stay the same. *)
Theorem pdf_session_invariant {glm : Glm} {libm : Libm} {img : Images} {growth : Growth} {poppler : Poppler}
    {zlib : Zlib} changes g st :
  pdf_session changes g st ->
  reachable (modelManager st) /\ (stdpp.base.size (m_BackgroundCache st) <= 8)%nat /\
  (changes = false -> forall doc r page, pdfdoc st = Some doc -> tile r = None ->
     cached_background r st = Some page -> background r doc = Ret page).
Proof.
  intros (Hr & Hs & Hf)%pdf_session_cache. split; [exact Hr|]. split; [exact Hs|].
  intros Hc doc r page Hd Ht Hp. by eapply cached_fresh in Hp as (_ & _ & H); [|by apply Hf|..].
Qed.

(** C14: The cache of page backgrounds is transparent: in a session in which the
    settings and layers of a document stay as they are, every page that is rendered
    shows the same, and leaves the same generator, as if nothing had been cached.  (A
    preload during a drag may be served from the cache itself.) *)
Theorem cache_transparent {glm : Glm} {libm : Libm} {img : Images} {growth : Growth} {poppler : Poppler}
    {zlib : Zlib} d qm fe vk rd env throws a w r g st :
  pdf_session false g st -> interrupted a = None ->
  isPreload (req r) = false \/ ShouldSuppressPageViewRender (modelManager st) = false ->
  same_page (image d qm fe vk rd env throws a w r g st) (image d qm fe vk rd env throws a w r g (no_cache st)).
Proof.
  intros (_ & _ & Hf)%pdf_session_cache Ha Hp. specialize (Hf eq_refl).
  assert (served_image r (no_cache st) = served_image r st) as Hs.
  { unfold served_image. cbn [no_cache m_LastPageImage modelManager].
    destruct (_ && _ && ShouldSuppressPageViewRender _) eqn:E; [|done].
    apply andb_prop in E as [_ E]. rewrite E in Hp. destruct Hp as [->|]; [|done]. by destruct (_ && _). }
  unfold image. rewrite Hs. cbn [no_cache modelManager rectsGenerated pdfdoc m_LastPageImage objectRects].
  destruct (_ && _ && _); [done|]. destruct (served_image r st); [done|].
  destruct (at_index _ _) as [gen| |]; cbn [obind]; [|done..]. destruct (abort_before a); [done|].
  destruct (pdfdoc st) as [doc|] eqn:Hd; cbn [determined obind]; [|done].
  pose proof (background_same a r doc st Ha) as Hb. rewrite Hd in Hb. specialize (Hb Hf eq_refl).
  change (mkPDFGenerator (modelManager st) _ ∅ _ _ _) with (no_cache st) in *.
  destruct (page_background a r doc st) as [[i c]| |], (page_background a r doc (no_cache st)) as [[i' c']| |];
    try done. subst i'. cbn [obind]. destruct (pdf_page doc _ && _); by apply render_same.
Qed.

(** ** Preloads and thumbnails *)

Section Preloads.
Context {glm : Glm} {libm : Libm} {img : Images} {growth : Growth} {poppler : Poppler} {zlib : Zlib}.

(** The renderer and the models are as before. *)
Definition untouched (m m' : Manager) : Prop :=
  m_HeadlessRenderer m' = m_HeadlessRenderer m /\ m_Models m' = m_Models m /\ m_ModelImages m' = m_ModelImages m.

Lemma untouched_trans m1 m2 m3 : untouched m1 m2 -> untouched m2 m3 -> untouched m1 m3.
Proof. unfold untouched. intuition congruence. Qed.

Lemma draw_models_preload d qm fe vk rd env throws w r i bounds im g m b im' g' m' :
  isThumbnail (req r) || isPreload (req r) = true ->
  draw_models d qm fe vk rd env throws w r i bounds im g m = Ret (b, im', g', m') -> g' = g /\ untouched m m'.
Proof.
  intros Hr. revert i im m. induction bounds as [|[lo hi] bounds IH]; intros i im m; cbn [draw_models].
  { by intros [= _ _ <- <-]. }
  destruct (isThumbnail (req r)); [apply IH|]. cbn [orb] in Hr. rewrite Hr. intros E. do 7 ostep E. cbn [obind] in E.
  assert (untouched m r6) as Hm by (apply rebinds_cacheRequest in E6; by destruct E6).
  destruct (isNull _); [|ostep E; destruct r7 as [x y]]; apply IH in E as [-> Hm']; (split; [done|]);
    by eapply untouched_trans.
Qed.
End Preloads.

(** Preloads and thumbnails never drive the shared renderer: whatever the figures
    on the page, such a request leaves the statics of the process, the renderer, the
    models and their images as they were; it is composed of images that exist. *)
Theorem preloads_do_not_render {glm : Glm} {libm : Libm} {img : Images} {growth : Growth} {poppler : Poppler}
    {zlib : Zlib} d qm fe vk rd env throws a w r g st i g' st' :
  isThumbnail (req r) || isPreload (req r) = true ->
  image d qm fe vk rd env throws a w r g st = Ret (i, g', st') ->
  g' = g /\ untouched (modelManager st) (modelManager st').
Proof.
  intros Hr. unfold image. destruct (_ && _ && _); [by intros [= _ <- <-]|].
  destruct (served_image r st); [by intros [= _ <- <-]|]. intros E. ostep E.
  destruct (abort_before a); [by injection E as _ <- <-|]. do 2 ostep E. destruct r2 as [page cache].
  assert (exists st0, modelManager st0 = modelManager st /\
    renderV3dModels d qm fe vk rd env throws w r page g st0 = Ret (i, g', st')) as (st0 & <- & E3).
  { destruct (pdf_page _ _ && _); eexists; (split; [|exact E]); done. }
  unfold renderV3dModels in E3. cbv zeta in E3. ostep E3. destruct r2 as [[[b im1] g1] m1].
  injection E3 as _ <- <-. cbn [modelManager]. destruct (negb _ && _ && _) in E4.
  - by eapply draw_models_preload.
  - by injection E4 as _ _ <- <-.
Qed.

(** ** Changed settings *)

(** A document without figures: the page is poppler's. *)
Lemma image_plain {glm : Glm} {libm : Libm} {img : Images} {growth : Growth} {poppler : Poppler}
    d qm fe vk rd env throws w r g st doc gen bg :
  m_Models (modelManager st) = [] -> pdfdoc st = Some doc -> served_image r st = None ->
  at_index (rectsGenerated st) (req_pageNumber (req r)) = Ret gen ->
  tile r = None -> pdf_page doc (req_pageNumber (req r)) = true -> isNull bg = false ->
  match cached_background r st with Some i => Some i | None => match background r doc with Ret i => Some i | _ => None end end
    = Some bg ->
  exists st', image d qm fe vk rd env throws (mkAborts false None false) w r g st = Ret (bg, g, st') /\
    modelManager st' = modelManager st /\ pdfdoc st' = pdfdoc st /\
    m_BackgroundCache st' !! key_of r = Some bg /\
    rectsGenerated st' = (if gen then rectsGenerated st
                          else <[Z.to_nat (req_pageNumber (req r)) := true]> (rectsGenerated st)).
Proof.
  intros Hm Hd Hs Hg Ht Hp Hn Hbg. unfold image. unfold Empty. rewrite Hm, bool_decide_eq_true_2 by done.
  cbn [negb]. rewrite andb_false_r, Hs, Hg. cbn [obind abort_before]. rewrite Hd. cbn [determined obind].
  assert (isTile r = false) as Htile by (unfold isTile; by rewrite Ht).
  assert (exists c, page_background (mkAborts false None false) r doc st = Ret (bg, c) /\ c !! key_of r = Some bg)
    as (c & -> & Hc).
  { unfold page_background. cbv zeta. rewrite Htile, Hp. cbn [negb andb interrupted abort_after].
    unfold cached_background in *. destruct (m_BackgroundCache st !! key_of r) as [j|] eqn:Ej.
    - destruct (isNull j) eqn:Hj.
      + destruct (background r doc) as [b| |]; [|done..]. injection Hbg as ->. cbn [obind isSome].
        rewrite Hn. cbn [negb andb]. eexists. split; [done|]. apply lookup_insert_eq.
      + injection Hbg as ->. cbn [obind isSome negb]. rewrite andb_false_r. cbn [andb]. eauto.
    - destruct (background r doc) as [b| |]; [|done..]. injection Hbg as ->. cbn [obind isSome].
      rewrite Hn. cbn [negb andb]. eexists. split; [done|]. apply lookup_insert_eq. }
  cbn [obind]. rewrite Hp. cbn [andb]. unfold renderV3dModels. cbv zeta.
  destruct gen; cbn [negb modelManager pdfdoc m_BackgroundCache m_LastPageImage rectsGenerated objectRects];
    unfold Empty; rewrite Hm, bool_decide_eq_true_2, andb_false_r by done; cbn [obind];
    eexists; (split; [done|]); by split_and!.
Qed.

(** A change of the settings or layers of a PDF does not show.  After a page has
    been rendered whole, the generator is told to render the document differently
    (the paper colour or the render hints of [reparseConfig], the layers of the
    sidebar) and Okular asks for the page again: the answer is the old page, whatever
    poppler would render now.  This holds for documents without any v3d figure too. *)
Theorem settings_ignored {glm : Glm} {libm : Libm} {img : Images} {growth : Growth} {poppler : Poppler}
    d qm fe vk rd env throws w r g st doc gen page change :
  m_Models (modelManager st) = [] -> ShouldSuppressPageViewRender (modelManager st) = false ->
  pdfdoc st = Some doc -> at_index (rectsGenerated st) (req_pageNumber (req r)) = Ret gen ->
  tile r = None -> m_BackgroundCache st !! key_of r = None ->
  pdf_page doc (req_pageNumber (req r)) = true -> pdf_page (change doc) (req_pageNumber (req r)) = true ->
  background r doc = Ret page -> isNull page = false ->
  exists st1 st2,
    image d qm fe vk rd env throws (mkAborts false None false) w r g st = Ret (page, g, st1) /\
    pdfdoc (change_document change st1) = Some (change doc) /\
    image d qm fe vk rd env throws (mkAborts false None false) w r g (change_document change st1) =
      Ret (page, g, st2).
Proof.
  intros Hm Hs Hd Hg Ht Hc Hp Hp' Hb Hn.
  assert (forall s : PDFGenerator, ShouldSuppressPageViewRender (modelManager s) = false -> served_image r s = None)
    as Hserved by (intros s E; unfold served_image; by rewrite E, andb_false_r).
  destruct (image_plain d qm fe vk rd env throws w r g st doc gen page Hm Hd (Hserved st Hs) Hg Ht Hp Hn)
    as (st1 & E1 & Hm1 & Hd1 & Hc1 & Hr1); [unfold cached_background; by rewrite Hc, Hb|].
  assert (exists gen', at_index (rectsGenerated st1) (req_pageNumber (req r)) = Ret gen') as [gen' Hg1].
  { rewrite Hr1. destruct gen; [by rewrite Hg; eauto|]. unfold at_index in *. destruct (_ <? 0); [done|].
    destruct (rectsGenerated st !! _) eqn:El; [|done]. exists true.
    by rewrite list_lookup_insert_eq by (by eapply lookup_lt_Some). }
  destruct (image_plain d qm fe vk rd env throws w r g (change_document change st1) (change doc) gen' page)
    as (st2 & E2 & _); cbn [change_document modelManager pdfdoc rectsGenerated].
  - by rewrite Hm1.
  - by rewrite Hd1, Hd.
  - apply Hserved. cbn [change_document modelManager]. by rewrite Hm1.
  - exact Hg1.
  - done.
  - done.
  - done.
  - unfold cached_background. cbn [change_document m_BackgroundCache]. by rewrite Hc1, Hn.
  - exists st1, st2. split; [exact E1|]. split; [|exact E2]. cbn [change_document pdfdoc]. by rewrite Hd1, Hd.
Qed.

(** ** A document with an embedded figure *)

#[local] Existing Instances glm_token libm_token images_token growth_token.
#[local] Instance one_time : Zlib := stored_zlib 1.
#[local] Instance one_time_ok : ZlibOk := stored_zlib_ok 1.

(** Pages of one hundred by one hundred, all of one shade; the document is its
    annotations and the shade. *)
#[local] Instance poppler_token : Poppler := {|
  PdfDoc := list (list Annotation) * Byte.byte;
  numPages := fun doc => Z.of_nat (length doc.1);
  pdf_page := fun doc i => (0 <=? i) && (i <? Z.of_nat (length doc.1));
  annotations := fun doc i => default [] (doc.1 !! Z.to_nat i);
  okular_size := fun _ _ _ => (double_of_Z 100, double_of_Z 100);
  dpi := (double_of_Z 72, double_of_Z 72);
  renderToImage := fun doc _ _ _ _ => (100, 100, [doc.2]);
  mono := fun w h => (w, h, []);
  isMono := fun i => match i.2 with [] => true | _ => false end;
  drawImage := fun i x y j => (i.1, i.2 ++ j.2)
|}.

Definition figure_annotation : Annotation :=
  RichMedia (Some [None; Some (Some [Byte.x50; Byte.x4b]); Some (Some (Byte.x1f :: Byte.x8b :: sample_data))])
    (mkRect dquarter dquarter dhalf dhalf).
Definition a_document : PdfDoc := ([[OtherAnnotation]; [figure_annotation]], Byte.xff).
Definition new_generator : PDFGenerator :=
  mkPDFGenerator (newManager sample_world (Some 3)) None ∅ noPageImage [] [].
#[local] Abbreviation opening :=
  (loadDocumentWithPassword (fun _ => true) true 5 (fun _ _ _ => false) (Some 3) (Some a_document) false new_generator).

Definition is_Ret {A} (o : outcome A) : bool := match o with Ret _ => true | _ => false end.
Lemma is_Ret_ok {A} (o : outcome A) : is_Ret o = true -> exists a, o = Ret a.
Proof. destruct o; [eauto|done..]. Qed.

Lemma figure_page es : annotated (fun _ _ => false) 0 [figure_annotation] es ->
  es = [(sample_data, mkRect dquarter dquarter dhalf dhalf)].
Proof.
  intros H. inversion H as [| | |? ? ? l ? es' Hl Hn]; subst. inversion Hn; subst.
  assert (forall o, figure_in None o -> o = None) as F0 by (intros o Ho; symmetry; by apply (figure_in_agree 5 None None o)).
  assert (forall o, figure_in (Some (Some [Byte.x50; Byte.x4b])) o -> o = None) as F1
    by (intros o Ho; symmetry; by apply (figure_in_agree 5 (Some (Some [Byte.x50; Byte.x4b])) None o)).
  assert (forall o, figure_in (Some (Some (Byte.x1f :: Byte.x8b :: sample_data))) o -> o = Some sample_data) as F2
    by (intros o Ho; symmetry; apply (figure_in_agree 5 (Some (Some (Byte.x1f :: Byte.x8b :: sample_data))));
        [vm_compute; reflexivity|exact Ho]).
  inversion Hl as [|? ? ? ? _ Hl1|? ? ? ? Hf|? ? ? ? ? Hf]; subst; [|by apply F0 in Hf..].
  inversion Hl1 as [|? ? ? ? _ Hl2|? ? ? ? Hf|? ? ? ? ? Hf]; subst; [|by apply F1 in Hf..].
  inversion Hl2 as [|? ? ? ? Hf|? ? ? ? _ Ht|? ? ? ? ? Hf _ Hl3]; subst; [by apply F2 in Hf|done|].
  inversion Hl3; subst. apply F2 in Hf. by injection Hf as ->.
Qed.

(** The figure on the second page, between a quarter and a half of it. *)
Lemma open_models_witness : exists st x f s,
  opening = Ret (OpenSuccess, st) /\ page_models (modelManager st) 0 = [] /\
  page_models (modelManager st) 1 = [x] /\ file x = Some f /\
  load_file (Some (mkFILE sample_data 0 None)) = Ret (f, s) /\ length (objects f) = 2%nat.
Proof.
  assert (is_Ret opening = true) as H by (vm_compute; reflexivity).
  destruct (is_Ret_ok _ H) as [[r st] E].
  destruct (open_models (fun _ => true) true 5 (fun _ _ _ => false) 3 a_document new_generator
    ltac:(vm_compute; split; [discriminate|reflexivity])) as [_ Ho].
  destruct (Ho r st E) as (-> & _ & _ & _ & Hp).
  destruct (Hp 0%nat) as (es0 & P0 & H0). destruct (Hp 1%nat) as (es1 & P1 & H1).
  assert (es0 = []) as -> by (change (annotated (fun _ _ => false) 0 [OtherAnnotation] es0) in P0;
    inversion P0 as [|? ? ? P0'| |]; subst; by inversion P0').
  change (annotated (fun _ _ => false) 0 [figure_annotation] es1) in P1. apply figure_page in P1 as ->.
  apply Forall2_nil_inv_l in H0. apply Forall2_cons_inv_l in H1 as (x & l & [(f & s & Ef & Hx) _] & Hl & E1).
  apply Forall2_nil_inv_l in Hl. subst l. cbn [fst] in Ef.
  exists st, x, f, s. split; [exact E|]. split; [exact H0|]. split; [exact E1|]. split; [exact Hx|]. split; [exact Ef|].
  assert (match load_file (Some (mkFILE sample_data 0 None)) with Ret (f, _) => length (objects f) | _ => 0%nat end
    = 2%nat) as Hlen by (vm_compute; reflexivity).
  rewrite Ef in Hlen. exact Hlen.
Defined.

(** ** Requests of its pages *)

Definition pdf_request (page prio : Z) : PdfRequest :=
  mkPdfRequest (mkPixmapRequest 40 page 50 100 100 prio) None 0.
Definition opened_state : PDFGenerator := match opening with Ret (_, st) => st | _ => new_generator end.
Lemma opening_ret : exists r, opening = Ret (r, opened_state).
Proof.
  assert (is_Ret opening = true) as H by (vm_compute; reflexivity). unfold opened_state.
  destruct (is_Ret_ok _ H) as [[r st] E]. exists r. rewrite E. reflexivity.
Qed.

#[local] Abbreviation shown prio g st :=
  (image sample_render_device sample_queue (fun _ => true) true (fun _ => false) (mkEnv None []) (fun _ => false)
    (mkAborts false None false) sample_world (pdf_request 1 prio) g st).
Definition shown_state : PDFGenerator :=
  match shown PAGEVIEW_PRIO initialGlobals opened_state with Ret (_, _, st) => st | _ => new_generator end.
Definition shown_globals : Globals :=
  match shown PAGEVIEW_PRIO initialGlobals opened_state with Ret (_, g, _) => g | _ => initialGlobals end.

Lemma no_abort : aborts_ok (mkAborts (img := images_token) false None false).
Proof. discriminate. Qed.

Lemma is_Ret_shown (o : outcome (QImage * Globals * PDFGenerator)) : is_Ret o = true ->
  exists i, o = Ret (i, match o with Ret (_, g, _) => g | _ => initialGlobals end,
                        match o with Ret (_, _, st) => st | _ => new_generator end).
Proof. destruct o as [[[i g] st]| |]; [eauto|done..]. Qed.

Lemma shown_session changes : pdf_session changes shown_globals shown_state.
Proof.
  assert (is_Ret (shown PAGEVIEW_PRIO initialGlobals opened_state) = true) as H by (vm_compute; reflexivity).
  destruct (is_Ret_shown _ H) as [i E]. destruct opening_ret as [r Eo].
  eapply pdf_image; [|exact no_abort|exact E]. eapply pdf_open; [|exact Eo]. apply pdf_new.
Qed.

(** After the second page has been shown once, its background comes from the cache. *)
Lemma cache_transparent_witness :
  pdf_session false shown_globals shown_state /\
  (m_BackgroundCache shown_state !! mkKey 1 100 100 0 = Some (100, 100, [Byte.xff])) /\
  same_page (shown PAGEVIEW_PRIO shown_globals shown_state)
            (shown PAGEVIEW_PRIO shown_globals (no_cache shown_state)).
Proof.
  split; [exact (shown_session false)|]. split; [vm_compute; reflexivity|].
  exact (cache_transparent sample_render_device sample_queue (fun _ => true) true (fun _ => false) (mkEnv None [])
    (fun _ => false) (mkAborts false None false) sample_world (pdf_request 1 PAGEVIEW_PRIO) shown_globals shown_state
    (shown_session false) eq_refl (or_introl eq_refl)).
Defined.

(** A preload of the page with the figure. *)
Lemma preloads_do_not_render_witness : exists i g st,
  shown PAGEVIEW_PRELOAD_PRIO shown_globals shown_state = Ret (i, g, st) /\
  g = shown_globals /\ untouched (modelManager shown_state) (modelManager st).
Proof.
  assert (is_Ret (shown PAGEVIEW_PRELOAD_PRIO shown_globals shown_state) = true) as H by (vm_compute; reflexivity).
  destruct (is_Ret_ok _ H) as [[[i g] st] E]. exists i, g, st. split; [exact E|].
  exact (preloads_do_not_render sample_render_device sample_queue (fun _ => true) true (fun _ => false)
    (mkEnv None []) (fun _ => false) (mkAborts false None false) sample_world (pdf_request 1 PAGEVIEW_PRELOAD_PRIO)
    shown_globals shown_state i g st eq_refl E).
Defined.

(** A white document without figures, that is to be black. *)
Definition plain_document : PdfDoc := ([[]], Byte.xff).
Definition blacken (doc : PdfDoc) : PdfDoc := (doc.1, Byte.x00).
Definition plain_state : PDFGenerator :=
  mkPDFGenerator (newManager sample_world (Some 3)) (Some plain_document) ∅ noPageImage [false] [].
#[local] Abbreviation plain_page g st :=
  (image sample_render_device sample_queue (fun _ => true) true (fun _ => false) (mkEnv None []) (fun _ => false)
    (mkAborts false None false) sample_world (pdf_request 0 PAGEVIEW_PRIO) g st).

Lemma settings_ignored_witness : exists st1 st2,
  plain_page initialGlobals plain_state = Ret ((100, 100, [Byte.xff]), initialGlobals, st1) /\
  background (pdf_request 0 PAGEVIEW_PRIO) (blacken plain_document) = Ret (100, 100, [Byte.x00]) /\
  plain_page initialGlobals (change_document blacken st1) = Ret ((100, 100, [Byte.xff]), initialGlobals, st2).
Proof.
  destruct (settings_ignored sample_render_device sample_queue (fun _ => true) true (fun _ => false)
    (mkEnv None []) (fun _ => false) sample_world (pdf_request 0 PAGEVIEW_PRIO) initialGlobals plain_state
    plain_document false (100, 100, [Byte.xff]) blacken eq_refl eq_refl eq_refl eq_refl eq_refl eq_refl eq_refl eq_refl
    eq_refl eq_refl) as (st1 & st2 & E1 & _ & E2).
  exists st1, st2. split; [exact E1|]. split; [vm_compute; reflexivity|exact E2].
Defined.

Lemma pdf_session_invariant_witness :
  reachable (modelManager shown_state) /\
  background (pdf_request 1 PAGEVIEW_PRIO) a_document = Ret (100, 100, [Byte.xff]).
Proof.
  destruct (pdf_session_invariant false shown_globals shown_state (shown_session false)) as (Hr & _ & Hb).
  split; [exact Hr|]. refine (Hb eq_refl a_document (pdf_request 1 PAGEVIEW_PRIO) _ _ eq_refl _);
    vm_compute; reflexivity.
Defined.
