(* ===== verification/Workgroup.v ===== *)
(** * Compute shaders: memory, invocations and barriers

    A buffer is a list, with an access out of its range [Undef].  Between two
    barriers the invocations of a workgroup run as [threads]: each reads the memory
    of before and gives its result or its writes, which the barrier makes visible
    ([stores]).  The shaders are free of races (no invocation reads what another one
    writes before the same barrier), so that this is what any interleaving gives.
    Below: tables, sums over ranges modulo 2^32, and the two parallel patterns the
    shaders use, the reduction by halves and the scan by doubling shifts. *)

From S2P Require Import Prelude Ieee Xstream Bound V3dData Model Mesh Tess Objects.

(** ** Memory *)

Definition at_ {A} (l : list A) (i : nat) : outcome A := determined (l !! i).
Definition store {A} (i : nat) (v : A) (l : list A) : outcome (list A) :=
  if (i <? length l)%nat then Ret (<[i := v]> l) else Undef.
Definition stores {A} (ws : list (nat * A)) (l : list A) : outcome (list A) :=
  ofold (fun w l => store w.1 w.2 l) ws l.

(** The invocations [0 .. n-1]. *)
Definition threads {A} (n : nat) (body : nat -> outcome A) : outcome (list A) := omapM body (seq 0 n).

(** [atomicAdd], [+] on [uint]. *)
Definition add32 (a b : Z) : Z := wrapw 32 (a + b).

(** ** Tables *)

Definition tab {A} (n : nat) (f : nat -> A) : list A := map f (seq 0 n).

Lemma length_tab {A} n (f : nat -> A) : length (tab n f) = n.
Proof. unfold tab. by rewrite length_map, length_seq. Qed.
#[export] Hint Rewrite @length_tab : v3d.

Lemma tab_lookup {A} n (f : nat -> A) i : (i < n)%nat -> tab n f !! i = Some (f i).
Proof. intros H. unfold tab. by rewrite list_lookup_fmap, lookup_seq_lt. Qed.

Lemma tab_ext {A} n (f g : nat -> A) : (forall i, (i < n)%nat -> f i = g i) -> tab n f = tab n g.
Proof. intros H. apply map_ext_in. intros i Hi%in_seq. apply H. lia. Qed.

(** Every list is a table. *)
Definition val {A} (d : A) (l : list A) (i : nat) : A := default d (l !! i).

Lemma tab_val {A} (d : A) l : l = tab (length l) (val d l).
Proof.
  apply list_eq. intros i. destruct (decide (i < length l)%nat) as [H|H].
  - rewrite tab_lookup by done. unfold val. destruct (lookup_lt_is_Some_2 _ _ H) as [x ->]. done.
  - rewrite !lookup_ge_None_2; [done|rewrite length_tab; lia|lia].
Qed.

Lemma val_lookup {A} (d : A) l i x : l !! i = Some x -> val d l i = x.
Proof. unfold val. by intros ->. Qed.

Lemma at_val {A} (d : A) l i : (i < length l)%nat -> at_ l i = Ret (val d l i).
Proof. intros H. unfold at_, val. by destruct (lookup_lt_is_Some_2 _ _ H) as [x ->]. Qed.

Lemma at_Some {A} (l : list A) i x : l !! i = Some x -> at_ l i = Ret x.
Proof. unfold at_. by intros ->. Qed.

Lemma at_tab {A} n (f : nat -> A) i : (i < n)%nat -> at_ (tab n f) i = Ret (f i).
Proof. intros H. apply at_Some. by apply tab_lookup. Qed.

Lemma at_tab_app {A} n (f : nat -> A) l i : (i < n)%nat -> at_ (tab n f ++ l) i = Ret (f i).
Proof.
  intros H. apply at_Some. rewrite lookup_app_l by (rewrite length_tab; lia). by apply tab_lookup.
Qed.

Lemma imap_tab {A C} (h : nat -> A -> C) n f : imap h (tab n f) = tab n (fun i => h i (f i)).
Proof.
  apply list_eq. intros i. rewrite list_lookup_imap. destruct (decide (i < n)%nat).
  - by rewrite !tab_lookup by done.
  - by rewrite !lookup_ge_None_2 by (rewrite length_tab; lia).
Qed.
Lemma map_tab {A C} (h : A -> C) n f : map h (tab n f) = tab n (fun i => h (f i)).
Proof. unfold tab. by rewrite map_map. Qed.
Lemma tab_S {A} n (f : nat -> A) : tab (S n) f = f 0%nat :: tab n (fun i => f (S i)).
Proof. unfold tab. cbn. f_equal. by rewrite <- seq_shift, map_map. Qed.

(** The writes of an invocation given by a table. *)
Lemma Forall_tab {A} (P : A -> Prop) n f : (forall i, (i < n)%nat -> P (f i)) -> Forall P (tab n f).
Proof. intros H. apply Forall_map, Forall_forall. intros i Hi%elem_of_seq. apply H. lia. Qed.
Lemma elem_of_tab {A} n (f : nat -> A) a i : (i < n)%nat -> a = f i -> a ∈ tab n f.
Proof. intros H ->. apply list_elem_of_In, in_map, in_seq. lia. Qed.
Lemma fst_tab {A} n (f : nat -> nat) (g : nat -> A) : (tab n (fun i => (f i, g i))).*1 = tab n f.
Proof. change (map fst (tab n (fun i => (f i, g i))) = tab n f). by rewrite map_tab. Qed.

Lemma omapM_Ret {A B} (body : A -> outcome B) (f : A -> B) l :
  (forall a, a ∈ l -> body a = Ret (f a)) -> omapM body l = Ret (map f l).
Proof.
  induction l as [|a l IH]; intros H; [done|]. cbn [omapM map].
  rewrite H by apply list_elem_of_here. cbn [obind]. rewrite IH; [done|].
  intros b Hb. apply H. by apply list_elem_of_further.
Qed.

Lemma threads_Ret {A} n (body : nat -> outcome A) f :
  (forall i, (i < n)%nat -> body i = Ret (f i)) -> threads n body = Ret (tab n f).
Proof. intros H. apply omapM_Ret. intros i Hi%elem_of_seq. apply H. lia. Qed.

Lemma threads_length {A} n (body : nat -> outcome A) l : threads n body = Ret l -> length l = n.
Proof.
  unfold threads. rewrite <- (length_seq n 0) at 2. generalize (seq 0 n) as ids. intros ids.
  revert l. induction ids as [|i ids IH]; intros l; cbn [omapM]; [by intros [= <-]|].
  destruct (body i) as [b| |]; [|done..]. cbn [obind].
  destruct (omapM body ids) as [bs| |]; [|done..]. cbn [obind]. intros [= <-]. cbn. by rewrite (IH bs).
Qed.

(** ** Writes

    The writes of a phase whose values depend on the address only. *)

Lemma store_lt {A} i (v : A) l : (i < length l)%nat -> store i v l = Ret (<[i := v]> l).
Proof. unfold store. intros H%Nat.ltb_lt. by rewrite H. Qed.

Lemma store_app {A} (l1 l2 : list A) x v :
  store (length l1) v (l1 ++ x :: l2) = Ret (l1 ++ v :: l2).
Proof.
  rewrite store_lt by (rewrite length_app; cbn; lia).
  by rewrite insert_app_r_alt, Nat.sub_diag by lia.
Qed.

Lemma stores_spec {A} (V : nat -> A) ws l :
  Forall (fun w => (w.1 < length l)%nat /\ w.2 = V w.1) ws ->
  exists l', stores ws l = Ret l' /\ length l' = length l /\
    (forall i, i ∈ ws.*1 -> l' !! i = Some (V i)) /\ (forall i, i ∉ ws.*1 -> l' !! i = l !! i).
Proof.
  unfold stores. revert l. induction ws as [|[i v] ws IH]; intros l H; cbn [ofold].
  { exists l. split_and!; [done|done|by intros i ?%elem_of_nil|done]. }
  apply Forall_cons in H as [[Hi Hv] H]. cbn in Hi, Hv. subst v. cbn [fst snd].
  rewrite store_lt by done. cbn [obind].
  destruct (IH (<[i := V i]> l)) as (l' & -> & Hl & H1 & H2).
  { eapply Forall_impl; [exact H|]. intros w [? ?]. by rewrite length_insert. }
  exists l'. rewrite length_insert in Hl. split_and!; [done|done| |].
  - intros j. destruct (decide (j ∈ ws.*1)) as [Hj|Hj]; [auto|].
    intros [->|?]%elem_of_cons; [|done]. rewrite (H2 _ Hj). by apply list_lookup_insert_eq.
  - intros j [Hj Hn]%not_elem_of_cons. rewrite (H2 j Hn). by apply list_lookup_insert_ne.
Qed.

(** The writes of all invocations cover the addresses of [P]. *)
Lemma stores_tab {A} (V : nat -> A) (P : nat -> Prop) n (ws : nat -> list (nat * A)) l :
  (forall i, (i < n)%nat -> Forall (fun w => (w.1 < length l)%nat /\ w.2 = V w.1 /\ P w.1) (ws i)) ->
  (forall a, P a -> exists i, (i < n)%nat /\ a ∈ (ws i).*1) ->
  exists l', stores (concat (tab n ws)) l = Ret l' /\ length l' = length l /\
    (forall a, P a -> l' !! a = Some (V a)) /\ (forall a, ~ P a -> l' !! a = l !! a).
Proof.
  intros H1 H2.
  assert (Forall (fun w => (w.1 < length l)%nat /\ w.2 = V w.1 /\ P w.1) (concat (tab n ws))) as Hw.
  { apply Forall_concat, Forall_map, Forall_forall. intros i Hi%elem_of_seq. apply H1. lia. }
  destruct (stores_spec V (concat (tab n ws)) l) as (l' & E & Hl & Ha & Hb).
  { eapply Forall_impl; [exact Hw|]. by intros w (? & ? & ?). }
  exists l'. split_and!; [done|done| |].
  - intros a Pa. apply Ha. destruct (H2 a Pa) as (i & Hi & (w & -> & Hin)%list_elem_of_fmap).
    apply list_elem_of_fmap. exists w. split; [done|]. apply list_elem_of_In, in_concat. exists (ws i).
    split; [|by apply list_elem_of_In]. apply in_map, in_seq. lia.
  - intros a Na. apply Hb. intros (w & -> & Hin)%list_elem_of_fmap.
    rewrite Forall_forall in Hw. by destruct (Hw w Hin) as (_ & _ & ?).
Qed.

(** ** Sums over ranges *)

Fixpoint wsum (f : nat -> Z) (a n : nat) : Z :=
  match n with O => 0 | S n => f a + wsum f (S a) n end.

(** Reduced modulo 2^32. *)
Definition sum32 (f : nat -> Z) (a n : nat) : Z := wrapw 32 (wsum f a n).

Lemma wsum_app f a n m : wsum f a (n + m) = wsum f a n + wsum f (a + n) m.
Proof.
  revert a. induction n as [|n IH]; intros a; cbn [wsum Nat.add]; [by rewrite Nat.add_0_r|].
  rewrite IH. replace (S a + n)%nat with (a + S n)%nat by lia. lia.
Qed.
Lemma wsum_S f a n : wsum f a (S n) = wsum f a n + f (a + n)%nat.
Proof. replace (S n) with (n + 1)%nat by lia. rewrite wsum_app. cbn [wsum]. lia. Qed.

Lemma wsum_ext f g a n : (forall i, (a <= i < a + n)%nat -> f i = g i) -> wsum f a n = wsum g a n.
Proof.
  revert a. induction n as [|n IH]; intros a H; cbn [wsum]; [done|].
  rewrite (H a) by lia. rewrite (IH (S a)); [done|]. intros i Hi. apply H. lia.
Qed.
Lemma wsum_shift f a b n : wsum (fun i => f (b + i)%nat) a n = wsum f (b + a) n.
Proof.
  revert a. induction n as [|n IH]; intros a; cbn [wsum]; [done|]. rewrite IH.
  by replace (b + S a)%nat with (S (b + a)) by lia.
Qed.
Lemma wsum_add f g a n : wsum (fun i => f i + g i) a n = wsum f a n + wsum g a n.
Proof. revert a. induction n as [|n IH]; intros a; cbn [wsum]; [done|]. rewrite IH. lia. Qed.
Lemma wsum_0 a n : wsum (fun _ => 0) a n = 0.
Proof. revert a. induction n as [|n IH]; intros a; cbn [wsum]; [done|]. rewrite IH. lia. Qed.

(** A range in blocks of [m], and by columns. *)
Lemma wsum_blocks f m n : wsum (fun k => wsum f (k * m) m) 0 n = wsum f 0 (n * m).
Proof.
  induction n as [|n IH]; [done|]. rewrite wsum_S, IH, Nat.add_0_l.
  replace (S n * m)%nat with (n * m + m)%nat by lia. by rewrite wsum_app.
Qed.
Lemma wsum_exchange (h : nat -> nat -> Z) n m :
  wsum (fun j => wsum (h j) 0 m) 0 n = wsum (fun k => wsum (fun j => h j k) 0 n) 0 m.
Proof.
  induction m as [|m IH]; [apply wsum_0|]. rewrite wsum_S, Nat.add_0_l, <- IH, <- wsum_add.
  apply wsum_ext. intros j _. by rewrite wsum_S.
Qed.
Lemma wsum_columns f m n : wsum (fun j => wsum (fun k => f (j + k * n)%nat) 0 m) 0 n = wsum f 0 (m * n).
Proof.
  rewrite wsum_exchange, <- wsum_blocks. apply wsum_ext. intros k _.
  rewrite <- (Nat.add_0_r (k * n)), <- wsum_shift. apply wsum_ext. intros j _. f_equal. lia.
Qed.

Lemma wsum_nonneg f a n : (forall i, 0 <= f i) -> 0 <= wsum f a n.
Proof. intros H. revert a. induction n as [|n IH]; intros a; cbn [wsum]; [lia|]. specialize (H a). specialize (IH (S a)). lia. Qed.
Lemma wsum_mono f n m : (forall i, 0 <= f i) -> (n <= m)%nat -> wsum f 0 n <= wsum f 0 m.
Proof.
  intros H Hn. replace m with (n + (m - n))%nat by lia. rewrite wsum_app.
  pose proof (wsum_nonneg f (0 + n) (m - n) H). lia.
Qed.

(** Modular sums add up. *)
Lemma wrapw_add_l a b : wrapw 32 (wrapw 32 a + b) = wrapw 32 (a + b).
Proof. apply Zplus_mod_idemp_l. Qed.
Lemma wrapw_add_r a b : wrapw 32 (a + wrapw 32 b) = wrapw 32 (a + b).
Proof. apply Zplus_mod_idemp_r. Qed.
Lemma add32_wrap a b : add32 (wrapw 32 a) (wrapw 32 b) = wrapw 32 (a + b).
Proof. unfold add32. by rewrite wrapw_add_l, wrapw_add_r. Qed.
Lemma add32_wrap_l a b : add32 (wrapw 32 a) b = wrapw 32 (a + b).
Proof. apply wrapw_add_l. Qed.
Lemma add32_assoc a b c : add32 a (add32 b c) = add32 (add32 a b) c.
Proof. unfold add32. rewrite wrapw_add_l, wrapw_add_r. f_equal. lia. Qed.
Lemma add32_comm a b : add32 a b = add32 b a.
Proof. unfold add32. f_equal. lia. Qed.
Lemma sum32_app f a n m : add32 (sum32 f a n) (sum32 f (a + n) m) = sum32 f a (n + m).
Proof. unfold sum32. by rewrite add32_wrap, wsum_app. Qed.
Lemma sum32_range f a n : in_range 32 (sum32 f a n).
Proof. by apply wrapw_range. Qed.
Lemma sum32_ext f g a n : (forall i, (a <= i < a + n)%nat -> f i = g i) -> sum32 f a n = sum32 g a n.
Proof. intros H. unfold sum32. by rewrite (wsum_ext f g). Qed.

(** A sum of reduced values, reduced. *)
Lemma sum32_wrapped f a n : sum32 (fun i => wrapw 32 (f i)) a n = sum32 f a n.
Proof.
  unfold sum32. revert a. induction n as [|n IH]; intros a; cbn [wsum]; [done|].
  by rewrite wrapw_add_l, <- wrapw_add_r, IH, wrapw_add_r.
Qed.

(** ** The reduction by halves *)

(** [for (s = s0; s > 0; s >>= 1) { if (id < s) g[id] += g[id+s]; barrier(); }] *)
Fixpoint reduce (fuel s n : nat) (g : list Z) : outcome (list Z) :=
  match fuel with
  | O => NoFuel
  | S fuel =>
      if (0 <? s)%nat then
        g <~ threads n (fun id =>
               x <~ at_ g id;;
               if (id <? s)%nat then y <~ at_ g (id + s);; Ret (add32 x y) else Ret x);;
        reduce fuel (s / 2) n g
      else Ret g
  end.

Lemma reduce_0 fuel n g : reduce (S fuel) 0 n g = Ret g.
Proof. done. Qed.

Lemma reduce_step fuel s n (f : nat -> Z) :
  (0 < s)%nat -> (2 * s <= n)%nat ->
  reduce (S fuel) s n (tab n f) =
  reduce fuel (s / 2) n (tab n (fun id => if (id <? s)%nat then add32 (f id) (f (id + s)%nat) else f id)).
Proof.
  intros Hs Hn. cbn [reduce]. rewrite (proj2 (Nat.ltb_lt 0 s)) by done.
  rewrite (threads_Ret _ _ (fun id => if (id <? s)%nat then add32 (f id) (f (id + s)%nat) else f id)); [done|].
  intros i Hi. rewrite at_tab by done. cbn [obind]. destruct (Nat.ltb_spec i s); [|done].
  by rewrite at_tab by lia.
Qed.

Lemma reduce_spec k : forall fuel n (f : nat -> Z),
  (k < fuel)%nat -> (2 ^ k <= n)%nat ->
  exists g, reduce fuel (2 ^ k / 2) n (tab n (fun i => wrapw 32 (f i))) = Ret g /\ g !! 0%nat = Some (sum32 f 0 (2 ^ k)).
Proof.
  induction k as [|k IH]; intros fuel n f Hf Hn; (destruct fuel as [|fuel]; [lia|]).
  { eexists. split; [done|]. rewrite tab_lookup by (cbn in Hn; lia). unfold sum32. cbn [wsum Nat.pow].
    by rewrite Z.add_0_r. }
  assert (2 ^ S k / 2 = 2 ^ k)%nat as -> by (cbn [Nat.pow]; rewrite Nat.mul_comm; by apply Nat.div_mul).
  cbn [Nat.pow] in Hn. assert (0 < 2 ^ k)%nat by (apply Nat.neq_0_lt_0, Nat.pow_nonzero; lia).
  rewrite reduce_step by lia.
  rewrite (tab_ext _ _ (fun i => wrapw 32 (if (i <? 2 ^ k)%nat then f i + f (i + 2 ^ k)%nat else f i)))
    by (intros i _; destruct (_ <? _)%nat; [apply add32_wrap|done]).
  destruct (IH fuel n (fun i => if (i <? 2 ^ k)%nat then f i + f (i + 2 ^ k)%nat else f i)) as (g & E & Eg);
    [lia|lia|].
  exists g. split; [done|]. rewrite Eg. f_equal. unfold sum32. f_equal.
  rewrite (wsum_ext _ (fun i => f i + f (2 ^ k + i)%nat)).
  - rewrite wsum_add, wsum_shift, Nat.add_0_r. replace (2 ^ S k)%nat with (2 ^ k + 2 ^ k)%nat by (cbn; lia).
    by rewrite wsum_app.
  - intros i Hi. rewrite (proj2 (Nat.ltb_lt _ _)) by lia. by rewrite (Nat.add_comm i).
Qed.

(** ** The scan by doubling shifts *)

(** Hillis and Steele: [for (shift = 1; shift < n; shift *= 2) { if (shift <= id) read =
    g[id] op g[id-shift]; barrier(); if (shift <= id) g[id] = read; barrier(); }], on
    the first [n] elements. *)
Fixpoint hillis (op : Z -> Z -> Z) (fuel shift n : nat) (g : list Z) : outcome (list Z) :=
  match fuel with
  | O => NoFuel
  | S fuel =>
      if (shift <? n)%nat then
        g' <~ threads n (fun id =>
                x <~ at_ g id;;
                if (shift <=? id)%nat then y <~ at_ g (id - shift);; Ret (op x y) else Ret x);;
        hillis op fuel (shift * 2) n (g' ++ drop n g)
      else Ret g
  end.

Section Hillis.
Context (op : Z -> Z -> Z) (op_assoc : forall x y z, op x (op y z) = op (op x y) z)
  (op_comm : forall x y, op x y = op y x).

(** The [k+1] elements from [a]. *)
Fixpoint win (f : nat -> Z) (a k : nat) : Z :=
  match k with O => f a | S k => op (f a) (win f (S a) k) end.

Lemma win_app f a k m : win f a (k + S m) = op (win f a k) (win f (a + S k) m).
Proof.
  revert a. induction k as [|k IH]; intros a; cbn [win Nat.add]; [by rewrite Nat.add_1_r|].
  rewrite IH, op_assoc. by replace (S a + S k)%nat with (a + S (S k))%nat by lia.
Qed.

(** Before the step by [shift], the element [id] covers the [shift] ones that end at it. *)
Definition covered (f : nat -> Z) (shift id : nat) : Z :=
  win f (S id - Nat.min shift (S id)) (Nat.min shift (S id) - 1).

Lemma covered_step f shift id :
  (0 < shift)%nat -> (shift <= id)%nat ->
  op (covered f shift id) (covered f shift (id - shift)) = covered f (shift * 2) id.
Proof.
  intros Hs Hi. unfold covered. rewrite op_comm. set (m := Nat.min shift (S (id - shift))).
  rewrite (Nat.min_l shift (S id)) by lia.
  replace (Nat.min (shift * 2) (S id)) with (shift + m)%nat by lia.
  replace (shift + m - 1)%nat with ((m - 1) + S (shift - 1))%nat by lia.
  rewrite win_app. f_equal; f_equal; lia.
Qed.
Lemma covered_ge f shift id : (id < shift)%nat -> covered f (shift * 2) id = covered f shift id.
Proof. intros H. unfold covered. by rewrite !Nat.min_r by lia. Qed.

Lemma hillis_steps f fuel shift n rest :
  (0 < shift)%nat -> (n - shift < fuel)%nat ->
  hillis op fuel shift n (tab n (covered f shift) ++ rest) = Ret (tab n (win f 0) ++ rest).
Proof.
  revert shift. induction fuel as [|fuel IH]; intros shift Hs Hf; [lia|]. cbn [hillis].
  destruct (Nat.ltb_spec shift n) as [Hn|Hn].
  - rewrite (threads_Ret _ _ (covered f (shift * 2))).
    + cbn [obind]. rewrite drop_app_length' by (by rewrite length_tab). apply IH; lia.
    + intros i Hi. rewrite at_tab_app by done. cbn [obind]. destruct (Nat.leb_spec shift i).
      * rewrite at_tab_app by lia. cbn [obind]. by rewrite covered_step.
      * by rewrite covered_ge.
  - do 2 f_equal. apply tab_ext. intros i Hi. unfold covered. rewrite Nat.min_r by lia.
    f_equal; lia.
Qed.

Lemma hillis_spec f fuel n rest :
  (n <= fuel)%nat -> (0 < fuel)%nat -> hillis op fuel 1 n (tab n f ++ rest) = Ret (tab n (win f 0) ++ rest).
Proof.
  intros Hf Hf0. destruct n as [|n].
  { destruct fuel; [lia|done]. }
  rewrite <- (hillis_steps f fuel 1 (S n) rest) by lia. f_equal. f_equal. apply tab_ext. intros i _.
  unfold covered. rewrite Nat.min_l by lia. by replace (S i - 1)%nat with i by lia.
Qed.
End Hillis.

(** With [+]: the sums of the prefixes; with [max]: bounded by what bounds the elements. *)
Lemma win_add f a k : win add32 (fun i => wrapw 32 (f i)) a k = sum32 f a (S k).
Proof.
  revert a. induction k as [|k IH]; intros a; cbn [win].
  - unfold sum32. cbn [wsum]. by rewrite Z.add_0_r.
  - rewrite IH. unfold sum32. by rewrite add32_wrap.
Qed.
Lemma win_max f m a k : (forall i, (a <= i <= a + k)%nat -> f i <= m) -> win Z.max f a k <= m.
Proof.
  revert a. induction k as [|k IH]; intros a H; cbn [win]; [apply H; lia|].
  apply Z.max_lub; [apply H; lia|]. apply IH. intros i Hi. apply H. lia.
Qed.
