(* ===== verification/PrefixSum.v ===== *)
(** * The sums of the fragment counts

    The compute pass of the transparent fragments: [recordComputeCommandBuffer] of
    [v3d-Common/Rendering/renderheadless.cpp] with the three shaders it dispatches,
    [asymptote/base/shaders/sum1.glsl], [sum2.glsl] and [sum3.glsl].  The count pass
    leaves in [countBuffer] how many fragments each pixel has; the sums give every
    pixel the place of its fragments in one list.

    [LOCALSIZE] and [BLOCKSIZE] are what the shaders are compiled with; the
    workgroups of a dispatch are independent, but for the cell [maxDepth], and those
    of [sum3] take effect in any order. *)

From S2P Require Import Prelude Ieee Xstream Bound V3dData Model Renderer Mesh Tess Objects Workgroup.

(** The buffers of the compute pass; [feedback] is what the host reads back. *)
Record Sums := mkSums {
  countBuffer : list Z; maxDepthCell : Z; globalSumBuffer : list Z; offsetBuffer : list Z;
  feedbackSize : Z; feedbackFragments : Z
}.

Section Shaders.
Context (LOCALSIZE BLOCKSIZE : nat).
#[local] Abbreviation L := LOCALSIZE.
#[local] Abbreviation B := BLOCKSIZE.

Definition group_size : nat := LOCALSIZE * BLOCKSIZE.

(** ** sum1: the sum of each workgroup *)

(** [for (i = start; ...; i += step) sum += count[i]], [n] rounds. *)
Fixpoint strided (c : list Z) (start step n : nat) (sum : Z) : outcome Z :=
  match n with
  | O => Ret sum
  | S n => x <~ at_ c start;; strided c (start + step) step n (add32 sum x)
  end.

Definition sum1 (count : list Z) (w : nat) : outcome Z :=
  groupSum <~ threads LOCALSIZE (fun id =>
                strided count (w * group_size + id) LOCALSIZE BLOCKSIZE 0);;
  groupSum <~ reduce (S LOCALSIZE) (LOCALSIZE / 2) LOCALSIZE groupSum;;
  at_ groupSum 0.

(** ** sum2: the sums before each workgroup *)

(** [localSum[i] = sum; sum += globalSum[a+i]]. *)
Fixpoint local_sums (g : list Z) (a n : nat) (sum : Z) : outcome (list Z * Z) :=
  match n with
  | O => Ret ([], sum)
  | S n => x <~ at_ g a;; '(ls, total) <~ local_sums g (S a) n (add32 sum x);; Ret (sum :: ls, total)
  end.

Definition sum2 (block : nat) (g : list Z) : outcome (list Z) :=
  if (group_size <? block)%nat then Undef  (* uint localSum[groupSize] *)
  else
    rs <~ threads LOCALSIZE (fun id => local_sums g (block * id) block 0);;
    groupSum <~ hillis add32 (S LOCALSIZE) 1 LOCALSIZE (map snd rs);;
    ws <~ threads LOCALSIZE (fun id =>
            shift <~ (if (0 <? id)%nat then at_ groupSum (id - 1) else Ret 0);;
            r <~ at_ rs id;;
            Ret (imap (fun i x => (block * id + i, add32 x shift)%nat) r.1));;
    stores (concat ws) g.

(** ** sum3: the sum before each pixel, and its count *)

Definition stride : nat := LOCALSIZE / BLOCKSIZE + LOCALSIZE.

(** The coalesced reads, spread out to avoid bank conflicts, and their maximum. *)
Definition load_counts (count : list Z) (w id : nat) : outcome (list (nat * option Z) * Z) :=
  cs <~ threads BLOCKSIZE (fun i => at_ count (w * group_size + id + i * LOCALSIZE));;
  Ret (imap (fun i c => (id / BLOCKSIZE + id + i * stride, Some c)%nat) cs,
       foldl (fun localMax c => if localMax <? c then c else localMax) 0 cs).

Definition shuffled (sh : list (option Z)) (i : nat) : outcome Z := x <~ at_ sh i;; determined x.

(** [shuffle[i] = sum += shuffle[i]] from [a]. *)
Fixpoint block_sums (sh : list (option Z)) (a n : nat) (sum : Z) : outcome (list (nat * option Z) * Z) :=
  match n with
  | O => Ret ([], sum)
  | S n =>
      x <~ shuffled sh a;;
      let sum := add32 sum x in
      '(ws, total) <~ block_sums sh (S a) n sum;;
      Ret ((a, Some sum) :: ws, total)
  end.

(** What one invocation writes to [offset]. *)
Definition offsets (sh : list (option Z)) (groupSum : list Z) (base : Z) (w id : nat) : outcome (list (nat * Z)) :=
  threads BLOCKSIZE (fun i =>
    x <~ shuffled sh (id / BLOCKSIZE + id + i * stride);;
    y <~ at_ groupSum ((i * LOCALSIZE + id) / BLOCKSIZE);;
    Ret (w * group_size + id + i * LOCALSIZE, add32 (add32 x y) base)%nat).

(** The invocation that has written [offset[final]] reports. *)
Definition report (final : Z) (w id : nat) (s : Sums) : outcome Sums :=
  let diff := wrapw 32 (final - Z.of_nat (w * group_size + id)) in
  if (diff <? Z.of_nat group_size) && (diff mod Z.of_nat LOCALSIZE =? 0) then
    x <~ at_ (offsetBuffer s) (Z.to_nat final);;
    o <~ store (Z.to_nat (wrapw 32 (final + 1))) x (offsetBuffer s);;
    Ret (mkSums (countBuffer s) 0 (globalSumBuffer s) o (maxDepthCell s) x)
  else Ret s.

Definition sum3 (final : Z) (w : nat) (s : Sums) : outcome Sums :=
  r <~ threads LOCALSIZE (load_counts (countBuffer s) w);;
  sh <~ stores (concat (map fst r)) (replicate (group_size + LOCALSIZE - 1) None);;
  p <~ threads LOCALSIZE (fun id => block_sums sh (id * BLOCKSIZE + id) BLOCKSIZE 0);;
  sh <~ stores (concat (map fst p)) sh;;
  groupSum <~ hillis add32 (S LOCALSIZE) 1 LOCALSIZE (0 :: map snd p);;
  maxSum <~ hillis Z.max (S LOCALSIZE) 1 LOCALSIZE (0 :: map snd r);;
  m <~ at_ maxSum (LOCALSIZE - 1);;
  base <~ at_ (globalSumBuffer s) w;;
  ws <~ threads LOCALSIZE (offsets sh groupSum base w);;
  o <~ stores (concat ws) (offsetBuffer s);;
  ofold (report final w) (seq 0 LOCALSIZE)
    (mkSums (countBuffer s) (Z.max (maxDepthCell s) m) (globalSumBuffer s) o (feedbackSize s) (feedbackFragments s)).

(** ** The dispatches *)

(** [ceilquotient] of [uint32_t]. *)
Definition ceilquotient (a b : Z) : Z := wrapw 32 (wrapw 32 (a + b) - 1) / b.

(** The number of workgroups, the elements rounded up, and the push constants
    [blockSize] and [final]. *)
Definition dispatch_sizes (maxComputeWorkGroupCountX elements : Z) : Z * Z * Z * Z :=
  let g := Z.min (ceilquotient elements (Z.of_nat group_size)) maxComputeWorkGroupCountX in
  let elements := wrapw 32 (Z.of_nat group_size * g) in
  (g, elements, ceilquotient g (Z.of_nat LOCALSIZE), wrapw 32 (elements - 1)).

Definition compute (maxComputeWorkGroupCountX : Z) (order : list nat) (elements : Z) (s : Sums) : outcome Sums :=
  let '(g, _, block, final) := dispatch_sizes maxComputeWorkGroupCountX elements in
  sums <~ threads (Z.to_nat g) (sum1 (countBuffer s));;
  global <~ stores (imap pair sums) (globalSumBuffer s);;
  global <~ sum2 (Z.to_nat block) global;;
  ofold (sum3 final) order
    (mkSums (countBuffer s) (maxDepthCell s) global (offsetBuffer s) (feedbackSize s) (feedbackFragments s)).

End Shaders.

(** ** The shaders compute sums *)

Definition ceil_groups (n m : nat) : nat := (n + m - 1) / m.

Lemma ceilquotient_nat a b : (0 < b)%nat -> (0 < a)%nat -> Z.of_nat (a + b) <= 2 ^ 32 ->
  ceilquotient (Z.of_nat a) (Z.of_nat b) = Z.of_nat (ceil_groups a b).
Proof.
  intros Hb Ha H. unfold ceilquotient, ceil_groups.
  assert (wrapw 32 (wrapw 32 (Z.of_nat a + Z.of_nat b) - 1) = Z.of_nat (a + b - 1)) as ->.
  { unfold wrapw. rewrite Zminus_mod_idemp_l, Z.mod_small by lia. lia. }
  by rewrite Nat2Z.inj_div.
Qed.
Lemma ceil_groups_bounds n m : (0 < m)%nat -> (0 < n)%nat ->
  (0 < ceil_groups n m /\ n <= ceil_groups n m * m < n + m)%nat.
Proof.
  intros Hm Hn. unfold ceil_groups. pose proof (Nat.div_mod (n + m - 1) m). 
  pose proof (Nat.mod_upper_bound (n + m - 1) m).
  set (d := ((n + m - 1) / m)%nat) in *. assert (0 < d)%nat; [|nia].
  apply Nat.div_str_pos. lia.
Qed.

Section Correct.
Context (LOCALSIZE BLOCKSIZE k q : nat).
Context (HL : LOCALSIZE = (2 ^ k)%nat) (HB : (0 < BLOCKSIZE)%nat) (Hq : LOCALSIZE = (q * BLOCKSIZE)%nat).
#[local] Abbreviation L := LOCALSIZE.
#[local] Abbreviation B := BLOCKSIZE.
#[local] Abbreviation gs := (group_size LOCALSIZE BLOCKSIZE).

Lemma local_pos : (0 < L)%nat.
Proof. rewrite HL. apply Nat.neq_0_lt_0, Nat.pow_nonzero. lia. Qed.

Section Group.
Context (c : list Z).
#[local] Abbreviation C := (val 0 c).

Lemma strided_spec a step n x :
  (forall j, (j < n)%nat -> (a + j * step < length c)%nat) ->
  strided c a step n (wrapw 32 x) = Ret (wrapw 32 (x + wsum (fun j => C (a + j * step)%nat) 0 n)).
Proof.
  revert a x. induction n as [|n IH]; intros a x H; cbn [strided wsum]; [by rewrite Z.add_0_r|].
  rewrite (at_val 0) by (specialize (H 0%nat); lia). cbn [obind]. rewrite add32_wrap_l, IH.
  - rewrite <- (wsum_shift (fun j => C (a + j * step)%nat) 0 1).
    rewrite (wsum_ext (fun j => C (a + step + j * step)%nat) (fun j => C (a + (1 + j) * step)%nat))
      by (intros j _; f_equal; lia).
    do 2 f_equal. rewrite Nat.mul_0_l, Nat.add_0_r. lia.
  - intros j Hj. specialize (H (S j)). lia.
Qed.

Lemma sum1_spec w : ((w + 1) * gs <= length c)%nat -> sum1 L B c w = Ret (sum32 C (w * gs) gs).
Proof.
  intros Hw. unfold sum1. pose proof local_pos.
  rewrite (threads_Ret _ _ (fun id => wrapw 32 (wsum (fun j => C (w * gs + id + j * L)%nat) 0 B))).
  2: { intros id Hid. apply (strided_spec _ _ _ 0). unfold group_size in *. intros j Hj. nia. }
  cbn [obind]. rewrite HL at 2.
  destruct (reduce_spec k (S L) L (fun id => wsum (fun j => C (w * gs + id + j * L)%nat) 0 B)) as (g & -> & Eg).
  { rewrite HL. pose proof (Nat.pow_gt_lin_r 2 k). lia. }
  { by rewrite HL. }
  cbn [obind]. rewrite (at_Some _ _ _ Eg). f_equal. unfold sum32. f_equal. rewrite <- HL.
  rewrite (wsum_ext _ (fun id => wsum (fun j => (fun e => C (w * gs + e)%nat) (id + j * L)%nat) 0 B)).
  - rewrite (wsum_columns (fun e => C (w * gs + e)%nat)), wsum_shift, Nat.add_0_r. f_equal.
    unfold group_size. lia.
  - intros id _. apply wsum_ext. intros j _. f_equal. lia.
Qed.
End Group.

Lemma local_sums_spec g a n x :
  (a + n <= length g)%nat ->
  local_sums g a n (wrapw 32 x) =
    Ret (tab n (fun i => wrapw 32 (x + wsum (val 0%Z g) a i)), wrapw 32 (x + wsum (val 0%Z g) a n)).
Proof.
  revert a x. induction n as [|n IH]; intros a x H; cbn [local_sums]; [by cbn; rewrite Z.add_0_r|].
  rewrite (at_val 0) by lia. cbn [obind]. rewrite add32_wrap_l, IH by lia. cbn [obind].
  rewrite tab_S. cbn [wsum]. rewrite Z.add_0_r. do 2 f_equal; [f_equal|f_equal; lia].
  apply tab_ext. intros i _. f_equal. lia.
Qed.

Lemma sum2_spec block g :
  (block <= gs)%nat -> (L * block <= length g)%nat ->
  exists g', sum2 L B block g = Ret g' /\ length g' = length g /\
    forall p, (p < L * block)%nat -> g' !! p = Some (sum32 (val 0%Z g) 0 p).
Proof.
  intros Hb Hg. unfold sum2. rewrite (proj2 (Nat.ltb_ge _ _)) by done. pose proof local_pos.
  rewrite (threads_Ret _ _ (fun id => (tab block (fun i => sum32 (val 0%Z g) (block * id) i),
                                       sum32 (val 0%Z g) (block * id) block))).
  2: { intros id Hid. apply (local_sums_spec _ _ _ 0). nia. }
  cbn [obind]. rewrite map_tab. cbn [snd]. rewrite <- (app_nil_r (tab L _)).
  rewrite (hillis_spec add32 add32_assoc add32_comm) by lia. cbn [obind]. rewrite app_nil_r.
  rewrite (threads_Ret _ _ (fun id => tab block (fun i => (block * id + i, sum32 (val 0%Z g) 0 (block * id + i))%nat))).
  2: { intros id Hid.
    assert ((if (0 <? id)%nat then at_ (tab L (win add32 (fun i => sum32 (val 0%Z g) (block * i) block) 0)) (id - 1) else Ret 0)
             = Ret (sum32 (val 0%Z g) 0 (block * id))) as ->.
    { destruct (Nat.ltb_spec 0 id); [|by replace (block * id)%nat with 0%nat by lia].
      rewrite at_tab by lia. f_equal. unfold sum32 at 1. rewrite win_add.
      replace (S (id - 1)) with id by lia. unfold sum32. f_equal.
      rewrite (wsum_ext _ (fun i => wsum (val 0%Z g) (i * block) block)) by (intros i _; f_equal; lia).
      rewrite wsum_blocks. f_equal. lia. }
    cbn [obind]. rewrite at_tab by done. cbn [obind fst]. rewrite imap_tab. f_equal. apply tab_ext.
    intros i Hi. f_equal. rewrite add32_comm. apply (sum32_app _ 0). }
  cbn [obind].
  destruct (stores_tab (sum32 (val 0%Z g) 0) (fun p => p < L * block)%nat L
    (fun id => tab block (fun i => (block * id + i, sum32 (val 0%Z g) 0 (block * id + i))%nat)) g) as (g' & E & Hl & H1 & _).
  - intros id Hid. apply Forall_tab. intros i Hi. cbn. split_and!; [nia|done|nia].
  - intros p Hp. exists (p / block)%nat. assert (block <> 0)%nat by lia. split.
    { apply Nat.Div0.div_lt_upper_bound; lia. }
    rewrite fst_tab. apply (elem_of_tab _ _ _ (p mod block)); [by apply Nat.mod_upper_bound|].
    apply Nat.div_mod. lia.
  - exists g'. auto.
Qed.

(** Where [sum3] keeps the element [e] of the group, and back. *)
Definition spread (e : nat) : nat := e / B + e.
Definition unspread (p : nat) : nat := p / S B * B + p mod S B.

Lemma spread_parts a j : (j < B)%nat -> spread (a * B + j) = (a * S B + j)%nat.
Proof. intros Hj. unfold spread. rewrite Nat.div_add_l, Nat.div_small by lia. lia. Qed.
Lemma unspread_parts a j : (j < B)%nat -> ((a * S B + j) / S B = a /\ (a * S B + j) mod S B = j)%nat.
Proof.
  intros Hj. rewrite Nat.div_add_l, Nat.div_small by lia. split; [lia|].
  rewrite (Nat.add_comm (a * S B)), Nat.Div0.mod_add. apply Nat.mod_small. lia.
Qed.
Lemma unspread_spread e : unspread (spread e) = e.
Proof.
  rewrite (Nat.div_mod e B) by lia. pose proof (Nat.mod_upper_bound e B).
  rewrite (Nat.mul_comm B), spread_parts by lia. unfold unspread.
  destruct (unspread_parts (e / B) (e mod B)) as [-> ->]; lia.
Qed.
Lemma spread_lt e : (e < gs)%nat -> (spread e < gs + L - 1)%nat.
Proof.
  intros He. unfold spread, group_size in *. pose proof local_pos.
  assert (e / B < L)%nat by (apply Nat.Div0.div_lt_upper_bound; lia). lia.
Qed.

(** The strided addresses of an invocation. *)
Lemma spread_stride id i : (id / B + id + i * stride L B)%nat = spread (id + i * L).
Proof.
  unfold spread, stride. assert (L / B = q)%nat as -> by (rewrite Hq; apply Nat.div_mul; lia).
  assert ((id + i * L) / B = id / B + i * q)%nat as ->; [|lia].
  replace (i * L)%nat with (i * q * B)%nat by (rewrite Hq; lia). apply Nat.div_add. lia.
Qed.
Lemma column_lt id i : (id < L)%nat -> (i < B)%nat -> (id + i * L < gs)%nat.
Proof. unfold group_size. intros. nia. Qed.
Lemma column_of e : (e < gs)%nat -> exists id i, (id < L)%nat /\ (i < B)%nat /\ e = (id + i * L)%nat.
Proof.
  intros He. pose proof local_pos. exists (e mod L)%nat, (e / L)%nat. split_and!.
  - apply Nat.mod_upper_bound. lia.
  - apply Nat.Div0.div_lt_upper_bound. unfold group_size in He. lia.
  - rewrite Nat.add_comm, (Nat.mul_comm (e / L)). apply Nat.div_mod. lia.
Qed.

Definition max_of (cs : list Z) : Z := foldl (fun localMax c => if localMax <? c then c else localMax) 0 cs.
Lemma max_of_le m cs : 0 <= m -> Forall (fun c => c <= m) cs -> max_of cs <= m.
Proof.
  unfold max_of. generalize 0 as x. induction cs as [|c cs IH]; intros x Hx H; cbn [foldl]; [done|].
  apply Forall_cons in H as [Hc H]. apply IH; [|done]. by destruct (x <? c).
Qed.

Section Sum3.
Context (c : list Z) (w : nat) (Hw : ((w + 1) * gs <= length c)%nat).
#[local] Abbreviation C := (val 0%Z c).
#[local] Abbreviation D := (fun e => val 0%Z c (w * gs + e)%nat).

Definition column (id : nat) : list Z := tab B (fun i => D (id + i * L)%nat).

Lemma load_counts_spec id :
  (id < L)%nat ->
  load_counts L B c w id =
    Ret (tab B (fun i => (spread (id + i * L), Some (D (id + i * L)%nat))), max_of (column id)).
Proof.
  intros Hid. unfold load_counts.
  rewrite (threads_Ret _ _ (fun i => D (id + i * L)%nat)).
  2: { intros i Hi. pose proof (column_lt id i Hid Hi). rewrite (at_val 0) by lia. do 2 f_equal. lia. }
  cbn [obind]. rewrite imap_tab. do 2 f_equal. apply tab_ext. intros i _. by rewrite spread_stride.
Qed.

(** After the loads. *)
Lemma loaded_shuffle :
  exists sh, stores (concat (tab L (fun id => tab B (fun i => (spread (id + i * L), Some (D (id + i * L)%nat))))))
      (replicate (gs + L - 1) None) = Ret sh /\ length sh = (gs + L - 1)%nat /\
    forall e, (e < gs)%nat -> sh !! spread e = Some (Some (D e)).
Proof.
  destruct (stores_tab (fun p => Some (D (unspread p))) (fun p => exists e, (e < gs)%nat /\ p = spread e) L
    (fun id => tab B (fun i => (spread (id + i * L), Some (D (id + i * L)%nat)))) (replicate (gs + L - 1) None))
    as (sh & E & Hl & H1 & _).
  - intros id Hid. apply Forall_tab. intros i Hi. cbn [fst snd]. rewrite length_replicate, unspread_spread.
    pose proof (column_lt id i Hid Hi). split_and!; [by apply spread_lt|done|eauto].
  - intros p (e & He & ->). destruct (column_of e He) as (id & i & Hid & Hi & ->).
    exists id. split; [done|]. rewrite fst_tab. by eapply elem_of_tab.
  - exists sh. rewrite length_replicate in Hl. split_and!; [done|done|].
    intros e He. rewrite (H1 (spread e)) by eauto. by rewrite unspread_spread.
Qed.

Lemma block_sums_spec sh a d n x :
  (forall j, (j < n)%nat -> sh !! (a + j)%nat = Some (Some (D (d + j)%nat))) ->
  block_sums sh a n (wrapw 32 x) =
    Ret (tab n (fun j => (a + j, Some (wrapw 32 (x + wsum D d (S j))))%nat), wrapw 32 (x + wsum D d n)).
Proof.
  revert a d x. induction n as [|n IH]; intros a d x H; cbn [block_sums]; [by cbn; rewrite Z.add_0_r|].
  unfold shuffled. pose proof (H 0%nat ltac:(lia)) as H0. rewrite !Nat.add_0_r in H0.
  rewrite (at_Some _ _ _ H0). cbn [obind determined]. cbv zeta. rewrite add32_wrap_l, (IH _ (S d)).
  - cbn [obind]. rewrite tab_S. cbn [wsum]. rewrite Nat.add_0_r, Z.add_0_r. do 2 f_equal; [f_equal|f_equal; lia].
    apply tab_ext. intros i _. f_equal; [lia|]. do 2 f_equal. lia.
  - intros j Hj. replace (S a + j)%nat with (a + S j)%nat by lia. rewrite H by lia. do 3 f_equal. lia.
Qed.

(** After the sums of the blocks. *)
Definition block_total (e : nat) : Z := sum32 D (e / B * B) (S (e mod B)).

Lemma parts_lt a j : (a < L)%nat -> (j < B)%nat -> (a * B + j < gs)%nat.
Proof. unfold group_size. intros. nia. Qed.
Lemma parts_of e : (e < gs)%nat -> exists a j, (a < L)%nat /\ (j < B)%nat /\ e = (a * B + j)%nat.
Proof.
  intros He. exists (e / B)%nat, (e mod B)%nat. split_and!.
  - apply Nat.Div0.div_lt_upper_bound. unfold group_size in He. lia.
  - apply Nat.mod_upper_bound. lia.
  - rewrite (Nat.mul_comm (e / B)). apply Nat.div_mod. lia.
Qed.
Lemma block_total_parts a j : (j < B)%nat -> block_total (a * B + j) = sum32 D (a * B) (S j).
Proof.
  intros Hj. unfold block_total. rewrite Nat.div_add_l, Nat.div_small by lia.
  rewrite (Nat.add_comm (a * B) j), Nat.Div0.mod_add, Nat.mod_small by lia. by rewrite Nat.add_0_r.
Qed.

Lemma summed_shuffle sh :
  length sh = (gs + L - 1)%nat -> (forall e, (e < gs)%nat -> sh !! spread e = Some (Some (D e))) ->
  exists sh', threads L (fun id => block_sums sh (id * B + id) B 0) =
      Ret (tab L (fun id => (tab B (fun j => (id * B + id + j, Some (sum32 D (id * B) (S j)))%nat), sum32 D (id * B) B))) /\
    stores (concat (tab L (fun id => tab B (fun j => (id * B + id + j, Some (sum32 D (id * B) (S j)))%nat)))) sh = Ret sh' /\
    forall e, (e < gs)%nat -> sh' !! spread e = Some (Some (block_total e)).
Proof.
  intros Hl H.
  destruct (stores_tab (fun p => Some (block_total (unspread p))) (fun p => exists e, (e < gs)%nat /\ p = spread e) L
    (fun id => tab B (fun j => (id * B + id + j, Some (sum32 D (id * B) (S j)))%nat)) sh) as (sh' & E & _ & H1 & _).
  - intros id Hid. apply Forall_tab. intros j Hj. cbn [fst snd]. rewrite Hl.
    replace (id * B + id + j)%nat with (spread (id * B + j)) by (rewrite spread_parts by done; lia).
    pose proof (parts_lt id j Hid Hj). rewrite unspread_spread, block_total_parts by done.
    split_and!; [by apply spread_lt|done|eauto].
  - intros p (e & He & ->). destruct (parts_of e He) as (a & j & Ha & Hj & ->). exists a. split; [done|].
    rewrite fst_tab. apply (elem_of_tab _ _ _ j); [done|]. rewrite spread_parts by done. lia.
  - exists sh'. split_and!; [|done|intros e He; rewrite (H1 (spread e)) by eauto; by rewrite unspread_spread].
    apply threads_Ret. intros id Hid. rewrite (block_sums_spec sh _ (id * B) B 0).
    + done.
    + intros j Hj. rewrite <- H by (by apply parts_lt). f_equal. rewrite spread_parts by done. lia.
Qed.

Lemma offsets_spec sh groupSum base id :
  (forall e, (e < gs)%nat -> sh !! spread e = Some (Some (block_total e))) ->
  (forall a, (a < L)%nat -> groupSum !! a = Some (sum32 D 0 (a * B))) ->
  base = sum32 C 0 (w * gs) -> (id < L)%nat ->
  offsets L B sh groupSum base w id =
    Ret (tab B (fun i => (w * gs + (id + i * L), sum32 C 0 (S (w * gs + (id + i * L))))%nat)).
Proof.
  intros H1 H2 -> Hid. unfold offsets. apply threads_Ret. intros i Hi.
  pose proof (column_lt id i Hid Hi) as He. rewrite spread_stride. unfold shuffled.
  rewrite (at_Some _ _ _ (H1 _ He)). cbn [obind determined].
  rewrite (Nat.add_comm (i * L) id). set (e := (id + i * L)%nat) in *.
  destruct (parts_of e He) as (a & j & Ha & Hj & Ee).
  replace (e / B)%nat with a by (rewrite Ee, Nat.div_add_l, Nat.div_small by lia; lia).
  rewrite (at_Some _ _ _ (H2 a Ha)). cbn [obind]. do 2 f_equal; [unfold e; lia|].
  rewrite Ee, block_total_parts by done. rewrite (add32_comm (sum32 D _ _)).
  rewrite (sum32_app D 0 (a * B)). rewrite add32_comm.
  unfold sum32 at 2. rewrite (wsum_shift C), Nat.add_0_r. fold (sum32 C (w * gs) (a * B + S j)).
  rewrite (sum32_app C 0). f_equal. lia.
Qed.
End Sum3.

(** ** The report of the last element *)

Definition reported (n : nat) (s s' : Sums) : Prop :=
  countBuffer s' = countBuffer s /\ globalSumBuffer s' = globalSumBuffer s /\
  (exists x, offsetBuffer s !! (n - 1)%nat = Some x /\ offsetBuffer s' = <[n := x]> (offsetBuffer s) /\
             feedbackFragments s' = x) /\
  feedbackSize s' = maxDepthCell s /\ maxDepthCell s' = 0.

Lemma report_diff g w id :
  (w < g)%nat -> (id < L)%nat -> Z.of_nat (g * gs) <= 2 ^ 32 ->
  wrapw 32 (Z.of_nat (g * gs) - 1 - Z.of_nat (w * gs + id)) = Z.of_nat (g * gs - 1 - (w * gs + id)) /\
  (g * gs - 1 - (w * gs + id) = (g - 1 - w) * gs + (L * (B - 1) + (L - 1 - id)))%nat.
Proof.
  intros Hw Hid Hg. assert (gs = L * (B - 1) + L)%nat as E by (unfold group_size; nia).
  assert (g * gs = (g - 1 - w) * gs + w * gs + gs)%nat as E2
    by (replace g with ((g - 1 - w) + w + 1)%nat at 1 by lia; rewrite !Nat.mul_add_distr_r; lia).
  revert Hg E2 E. generalize (g * gs)%nat as x, (w * gs)%nat as y, ((g - 1 - w) * gs)%nat as z.
  generalize (L * (B - 1))%nat as t, gs as u. intros u t z y x Hx E2 E. split; [|lia].
  rewrite wrapw_id; [lia|]. unfold in_range. lia.
Qed.

Lemma report_other g w id s :
  (w < g)%nat -> (id < L)%nat -> Z.of_nat (g * gs) <= 2 ^ 32 ->
  ~ (w = (g - 1)%nat /\ id = (L - 1)%nat) ->
  report L B (Z.of_nat (g * gs) - 1) w id s = Ret s.
Proof.
  intros Hw Hid Hg Hn. unfold report. destruct (report_diff g w id Hw Hid Hg) as [-> ->].
  set (r := (L * (B - 1) + (L - 1 - id))%nat). cbv zeta.
  destruct (Z.ltb_spec (Z.of_nat ((g - 1 - w) * gs + r)) (Z.of_nat gs)) as [Hlt|]; [|done].
  assert (w = g - 1)%nat as -> by (destruct (g - 1 - w)%nat eqn:E; [lia|nia]).
  destruct (Z.eqb_spec (Z.of_nat ((g - 1 - (g - 1)) * gs + r) mod Z.of_nat L) 0) as [Hm|]; [|done].
  exfalso. rewrite Nat.sub_diag, Nat.mul_0_l, Nat.add_0_l, <- Nat2Z.inj_mod in Hm. unfold r in Hm.
  assert ((L * (B - 1) + (L - 1 - id)) mod L = L - 1 - id)%nat as E; [|rewrite E in Hm; lia].
  rewrite (Nat.mul_comm L), Nat.add_comm, Nat.Div0.mod_add. apply Nat.mod_small. lia.
Qed.

Lemma report_last g s :
  (0 < g)%nat -> Z.of_nat (g * gs) <= 2 ^ 32 - 1 -> (g * gs < length (offsetBuffer s))%nat ->
  exists s', report L B (Z.of_nat (g * gs) - 1) (g - 1) (L - 1) s = Ret s' /\ reported (g * gs) s s'.
Proof.
  intros Hg Hs Hl. pose proof local_pos.
  assert (0 < gs)%nat as Hgs by (unfold group_size; nia). assert (0 < g * gs)%nat by nia.
  unfold report. destruct (report_diff g (g - 1) (L - 1)) as [-> ->]; [lia|lia|lia|].
  replace (g - 1 - (g - 1))%nat with 0%nat by lia. replace (L - 1 - (L - 1))%nat with 0%nat by lia.
  rewrite Nat.mul_0_l, Nat.add_0_l, Nat.add_0_r. cbv zeta.
  rewrite (proj2 (Z.ltb_lt _ _)) by (unfold group_size in *; nia).
  rewrite Nat2Z.inj_mul, (Z.mul_comm (Z.of_nat L)), Z.mod_mul by lia. cbn [Z.eqb andb].
  replace (Z.to_nat (Z.of_nat (g * gs) - 1)) with (g * gs - 1)%nat by lia.
  destruct (lookup_lt_is_Some_2 (offsetBuffer s) (g * gs - 1)) as [x Ex]; [lia|].
  rewrite (at_Some _ _ _ Ex). cbn [obind].
  rewrite Z.sub_add, wrapw_id by (unfold in_range; lia). rewrite Nat2Z.id, store_lt by done. cbn [obind].
  eexists. split; [done|]. repeat split. cbn. eauto.
Qed.

Lemma ofold_app {A S} (f : A -> S -> outcome S) l1 l2 s :
  ofold f (l1 ++ l2) s = (s <~ ofold f l1 s;; ofold f l2 s).
Proof.
  revert s. induction l1 as [|a l1 IH]; intros s; cbn [ofold app]; [done|].
  destruct (f a s) as [s'| |]; [apply IH|done..].
Qed.
Lemma ofold_skip {A S} (f : A -> S -> outcome S) l s : Forall (fun a => f a s = Ret s) l -> ofold f l s = Ret s.
Proof. induction 1 as [|a l Ha _ IH]; cbn [ofold]; [done|]. by rewrite Ha. Qed.

Lemma report_all g w s :
  (w < g)%nat -> Z.of_nat (g * gs) <= 2 ^ 32 - 1 -> (g * gs < length (offsetBuffer s))%nat ->
  exists s', ofold (report L B (Z.of_nat (g * gs) - 1) w) (seq 0 L) s = Ret s' /\
    if decide (w = g - 1)%nat then reported (g * gs) s s' else s' = s.
Proof.
  intros Hw Hg Hl. pose proof local_pos. destruct (decide (w = g - 1)%nat) as [->|Hn].
  - replace (seq 0 L) with (seq 0 (L - 1) ++ [L - 1]%nat)
      by (rewrite <- (Nat.add_0_l (L - 1)) at 2; rewrite <- seq_S; f_equal; lia).
    rewrite ofold_app.
    rewrite ofold_skip; [|apply Forall_forall; intros id Hid%elem_of_seq; apply report_other; lia].
    cbn [obind ofold]. destruct (report_last g s) as (s' & -> & H'); [lia|done|done|].
    cbn [obind]. eauto.
  - exists s. split; [|done]. apply ofold_skip, Forall_forall. intros id Hid%elem_of_seq.
    apply report_other; lia.
Qed.

(** ** A workgroup of [sum3] *)

(** Bounds of all counts but those of the last invocation's column. *)
Definition others_below (c : list Z) (m : Z) : Prop :=
  forall e x, c !! e = Some x -> (e mod L <> L - 1)%nat -> x <= m.

Lemma columns_below c m w id :
  0 <= m -> others_below c m -> (id < L - 1)%nat -> max_of (column c w id) <= m.
Proof.
  intros Hm H Hid. apply max_of_le; [done|]. unfold column. apply Forall_tab. intros i _.
  unfold val. destruct (c !! _) as [x|] eqn:E; cbn; [|done]. eapply H; [exact E|].
  unfold group_size. replace (w * (L * B) + (id + i * L))%nat with (id + (w * B + i) * L)%nat by lia.
  rewrite Nat.Div0.mod_add, Nat.mod_small; lia.
Qed.

Definition group_done (c : list Z) (g w : nat) (s s' : Sums) : Prop :=
  countBuffer s' = countBuffer s /\ globalSumBuffer s' = globalSumBuffer s /\
  length (offsetBuffer s') = length (offsetBuffer s) /\
  (forall p, (w * gs <= p < (w + 1) * gs)%nat -> offsetBuffer s' !! p = Some (sum32 (val 0%Z c) 0 (S p))) /\
  (forall p, (p < g * gs)%nat -> ~ (w * gs <= p < (w + 1) * gs)%nat ->
     offsetBuffer s' !! p = offsetBuffer s !! p) /\
  (if decide (w = g - 1)%nat
   then offsetBuffer s' !! (g * gs)%nat = Some (sum32 (val 0%Z c) 0 (g * gs)) /\
        feedbackFragments s' = sum32 (val 0%Z c) 0 (g * gs)
   else offsetBuffer s' !! (g * gs)%nat = offsetBuffer s !! (g * gs)%nat /\
        feedbackFragments s' = feedbackFragments s) /\
  (forall m, 0 <= m -> others_below c m -> maxDepthCell s <= m ->
     maxDepthCell s' <= m /\
     if decide (w = g - 1)%nat then feedbackSize s' <= m else feedbackSize s' = feedbackSize s).

(** The scans over the invocations of a workgroup, and the element after them. *)
Lemma cons_tab {A} (x : A) n f : (0 < n)%nat ->
  x :: tab n f = tab n (fun i => match i with O => x | S i => f i end) ++ [f (n - 1)%nat].
Proof.
  intros Hn. destruct n as [|n]; [lia|]. rewrite (tab_S n (fun i => match i with O => x | S i => f i end)).
  cbn [app]. f_equal. unfold tab. rewrite seq_S, map_app. cbn [map Nat.add].
  by replace (S n - 1)%nat with n by lia.
Qed.

Lemma group_sums (D : nat -> Z) :
  exists l, hillis add32 (S L) 1 L (0 :: tab L (fun id => sum32 D (id * B) B)) = Ret l /\
    forall a, (a < L)%nat -> l !! a = Some (sum32 D 0 (a * B)).
Proof.
  pose proof local_pos. rewrite cons_tab by done. eexists. split.
  { apply (hillis_spec add32 add32_assoc add32_comm); lia. }
  intros a Ha. rewrite lookup_app_l by (rewrite length_tab; lia). rewrite tab_lookup by done. f_equal.
  set (F := fun i => match i with O => 0 | S i => wsum D (i * B) B end).
  assert (forall n k, win add32 (fun i => match i with O => 0 | S i => sum32 D (i * B) B end) n k
          = win add32 (fun i => wrapw 32 (F i)) n k) as ->.
  { intros n j. revert n. induction j as [|j IH]; intros n; cbn [win]; [by destruct n|].
    rewrite IH. f_equal. by destruct n. }
  rewrite win_add. unfold sum32. f_equal. cbn [wsum F]. rewrite Z.add_0_l, <- wsum_blocks.
  by rewrite <- (wsum_shift F 0 1).
Qed.

Lemma group_max c w :
  exists l x, hillis Z.max (S L) 1 L (0 :: tab L (fun id => max_of (column c w id))) = Ret l /\
    l !! (L - 1)%nat = Some x /\ forall m, 0 <= m -> others_below c m -> x <= m.
Proof.
  pose proof local_pos. rewrite cons_tab by done. eexists _, _. split.
  { apply (hillis_spec Z.max Z.max_assoc Z.max_comm); lia. }
  rewrite lookup_app_l by (rewrite length_tab; lia). rewrite tab_lookup by lia. split; [done|].
  intros m Hm H'. apply win_max. intros [|i] Hi; [done|]. apply columns_below; [done|done|lia].
Qed.

(** The offsets of a workgroup are written. *)
Lemma group_offsets c w o :
  ((w + 1) * gs <= length o)%nat ->
  exists o', stores (concat (tab L (fun id => tab B (fun i =>
      (w * gs + (id + i * L), sum32 (val 0%Z c) 0 (S (w * gs + (id + i * L))))%nat)))) o = Ret o' /\
    length o' = length o /\
    (forall p, (w * gs <= p < (w + 1) * gs)%nat -> o' !! p = Some (sum32 (val 0%Z c) 0 (S p))) /\
    (forall p, ~ (w * gs <= p < (w + 1) * gs)%nat -> o' !! p = o !! p).
Proof.
  intros Hl. apply (stores_tab (fun p => sum32 (val 0%Z c) 0 (S p)) (fun p => w * gs <= p < (w + 1) * gs)%nat).
  - intros id Hid. apply Forall_tab. intros i Hi. cbn [fst snd]. pose proof (column_lt id i Hid Hi).
    split_and!; [lia|done|lia|lia].
  - intros p Hp. destruct (column_of (p - w * gs)) as (id & i & Hid & Hi & E); [lia|].
    exists id. split; [done|]. rewrite fst_tab. apply (elem_of_tab _ _ _ i); [done|]. lia.
Qed.

Lemma group_reported c g w s x o s' :
  (w < g)%nat -> (g * gs < length (offsetBuffer s))%nat -> length o = length (offsetBuffer s) ->
  (forall p, (w * gs <= p < (w + 1) * gs)%nat -> o !! p = Some (sum32 (val 0%Z c) 0 (S p))) ->
  (forall p, ~ (w * gs <= p < (w + 1) * gs)%nat -> o !! p = offsetBuffer s !! p) ->
  (forall m, 0 <= m -> others_below c m -> maxDepthCell s <= m -> Z.max (maxDepthCell s) x <= m) ->
  (let s1 := mkSums c (Z.max (maxDepthCell s) x) (globalSumBuffer s) o (feedbackSize s) (feedbackFragments s) in
   if decide (w = g - 1)%nat then reported (g * gs) s1 s' else s' = s1) ->
  countBuffer s = c -> group_done c g w s s'.
Proof.
  intros Hw Hl Ho H4 H5 Hm H' Ec. pose proof local_pos.
  assert (0 < gs)%nat by (unfold group_size; nia).
  assert ((w + 1) * gs <= g * gs)%nat by (apply Nat.mul_le_mono_r; lia).
  cbv zeta in H'. unfold group_done. destruct (decide (w = g - 1)%nat) as [->|Hn].
  - destruct H' as (E1 & E2 & (y & Ey & E3 & E4) & E5 & E6). cbn in E1, E2, Ey, E3, E4, E5, E6.
    replace (g - 1 + 1)%nat with g in * by lia.
    assert (y = sum32 (val 0%Z c) 0 (g * gs)) as ->.
    { rewrite H4 in Ey by nia. injection Ey as <-. f_equal. lia. }
    rewrite E1, E2, E3, E5, E6, length_insert. split_and!; [done|done|done| | | |done|].
    + intros p Hp. rewrite list_lookup_insert_ne by lia. by apply H4.
    + intros p Hp Hn. rewrite list_lookup_insert_ne by lia. by apply H5.
    + apply list_lookup_insert_eq. lia.
    + intros m Hm0 Hb Hd. split; [done|]. by apply Hm.
  - subst s'. cbn. split_and!; [done|done|done|done| | |done|].
    + intros p _ Hp. by apply H5.
    + apply H5. assert ((w + 1 + 1) * gs <= g * gs)%nat by (apply Nat.mul_le_mono_r; lia). lia.
    + intros m Hm0 Hb Hd. split; [|done]. by apply Hm.
Qed.

Lemma sum3_spec c g w s (Hw : (w < g)%nat) (Hg : (g * gs <= length c)%nat)
    (Hs : Z.of_nat (g * gs) <= 2 ^ 32 - 1) (Hl : (g * gs < length (offsetBuffer s))%nat) :
  countBuffer s = c -> globalSumBuffer s !! w = Some (sum32 (val 0%Z c) 0 (w * gs)) ->
  exists s', sum3 L B (Z.of_nat (g * gs) - 1) w s = Ret s' /\ group_done c g w s s'.
Proof.
  intros Ec Eg. assert ((w + 1) * gs <= g * gs)%nat as Hwg by (apply Nat.mul_le_mono_r; lia).
  assert ((w + 1) * gs <= length c)%nat as Hwc by lia. unfold sum3. rewrite Ec.
  rewrite (threads_Ret _ _ _ (load_counts_spec c w Hwc)). cbn [obind]. rewrite !map_tab. cbn [fst snd].
  destruct (loaded_shuffle c w) as (sh & -> & Hsh & H1). cbn [obind].
  destruct (summed_shuffle c w Hwc sh Hsh H1) as (sh' & -> & E2 & H2). cbn [obind]. rewrite !map_tab. cbn [fst snd].
  rewrite E2. cbn [obind].
  destruct (group_sums (fun e => val 0%Z c (w * gs + e)%nat)) as (gsum & -> & H3). cbn [obind].
  destruct (group_max c w) as (gmax & x & -> & Ex & Hmax). cbn [obind]. rewrite (at_Some _ _ _ Ex). cbn [obind].
  rewrite (at_Some _ _ _ Eg). cbn [obind].
  rewrite (threads_Ret _ _ _ (fun id Hid => offsets_spec c w Hwc sh' gsum _ id H2 H3 eq_refl Hid)). cbn [obind].
  destruct (group_offsets c w (offsetBuffer s)) as (o & -> & Ho & H4 & H5); [lia|]. cbn [obind].
  set (s1 := mkSums _ _ _ _ _ _).
  destruct (report_all g w s1 Hw Hs) as (s' & -> & H'); [cbn; lia|].
  exists s'. split; [done|]. eapply (group_reported c g w s x o s'); try done.
  intros m Hm Hb Hd. apply Z.max_lub; [done|]. by apply Hmax.
Qed.

(** ** The whole dispatch *)

Section Dispatch.
Context (c gl : list Z) (g : nat) (s0 : Sums).
Context (Hg : (g * gs <= length c)%nat) (Hg0 : (0 < g)%nat).
Context (Hs : Z.of_nat (g * gs) <= 2 ^ 32 - 1) (Hl : (g * gs < length (offsetBuffer s0))%nat).
Context (Hgl : forall w, (w < g)%nat -> gl !! w = Some (sum32 (val 0%Z c) 0 (w * gs))).

(** After the workgroups in [ws] have taken effect. *)
Definition progress (ws : list nat) (s : Sums) : Prop :=
  countBuffer s = c /\ globalSumBuffer s = gl /\ length (offsetBuffer s) = length (offsetBuffer s0) /\
  (forall w p, w ∈ ws -> (w * gs <= p < (w + 1) * gs)%nat ->
     offsetBuffer s !! p = Some (sum32 (val 0%Z c) 0 (S p))) /\
  ((g - 1)%nat ∈ ws -> offsetBuffer s !! (g * gs)%nat = Some (sum32 (val 0%Z c) 0 (g * gs)) /\
     feedbackFragments s = sum32 (val 0%Z c) 0 (g * gs)) /\
  (forall m, 0 <= m -> others_below c m -> maxDepthCell s0 <= m ->
     maxDepthCell s <= m /\ ((g - 1)%nat ∈ ws -> feedbackSize s <= m)).

Lemma progress_step ws w s s' :
  (forall v, v ∈ ws -> (v < g)%nat) -> (w < g)%nat ->
  progress ws s -> group_done c g w s s' -> progress (ws ++ [w]) s'.
Proof.
  intros Hv Hw (E1 & E2 & E3 & H4 & H5 & H6) (F1 & F2 & F3 & G4 & G4' & G5 & G6).
  split_and!; [congruence..| | |].
  - intros v p Hin Hp. destruct (decide (w * gs <= p < (w + 1) * gs)%nat) as [Hd|Hd]; [by apply G4|].
    apply elem_of_app in Hin as [Hin| ->%list_elem_of_singleton]; [|done].
    assert ((v + 1) * gs <= g * gs)%nat by (apply Nat.mul_le_mono_r; specialize (Hv v Hin); lia).
    rewrite G4' by (done || lia). by eapply H4.
  - intros Hin. destruct (decide (w = g - 1)%nat) as [Hd|Hd]; [done|].
    destruct G5 as [-> ->]. apply H5. by apply elem_of_app in Hin as [?|?%list_elem_of_singleton].
  - intros m Hm Hb Hd0. destruct (H6 m Hm Hb Hd0) as [Hd Hf]. destruct (G6 m Hm Hb Hd) as [Hd' Hf'].
    split; [done|]. intros Hin. destruct (decide (w = g - 1)%nat) as [Hdw|Hdw]; [done|]. rewrite Hf'.
    apply Hf. by apply elem_of_app in Hin as [?|?%list_elem_of_singleton].
Qed.

Lemma sum3_all order ws s :
  (forall v, v ∈ ws ++ order -> (v < g)%nat) -> progress ws s ->
  exists s', ofold (sum3 L B (Z.of_nat (g * gs) - 1)) order s = Ret s' /\ progress (ws ++ order) s'.
Proof.
  revert ws s. induction order as [|w order IH]; intros ws s Hv H; cbn [ofold].
  { exists s. by rewrite app_nil_r. }
  assert (w < g)%nat as Hw by (apply Hv, elem_of_app; right; apply list_elem_of_here).
  destruct H as (E1 & E2 & E3 & H').
  destruct (sum3_spec c g w s Hw Hg Hs) as (s1 & -> & H1); [by rewrite E3|done|by rewrite E2, Hgl|].
  cbn [obind]. replace (ws ++ w :: order) with ((ws ++ [w]) ++ order) in * by (by rewrite <- app_assoc).
  apply IH; [done|]. apply (progress_step ws w s); [|done|done|done].
  intros v Hin. apply Hv. rewrite <- app_assoc. apply elem_of_app. by left.
Qed.
End Dispatch.

(** The groups' sums, then those before each group. *)
Lemma global_sums c gl g :
  (g * gs <= length c)%nat -> (0 < g)%nat ->
  (g <= L * ceil_groups g L)%nat -> (ceil_groups g L <= gs)%nat -> (L * ceil_groups g L <= length gl)%nat ->
  exists sums gl' gl'', threads g (sum1 L B c) = Ret sums /\ stores (imap pair sums) gl = Ret gl' /\
    sum2 L B (ceil_groups g L) gl' = Ret gl'' /\ length gl'' = length gl /\
    forall w, (w < g)%nat -> gl'' !! w = Some (sum32 (val 0%Z c) 0 (w * gs)).
Proof.
  intros Hg Hg0 H1 H2 H3. pose proof local_pos as Hpos.
  exists (tab g (fun w => sum32 (val 0%Z c) (w * gs) gs)).
  destruct (stores_spec (fun w => sum32 (val 0%Z c) (w * gs) gs)
    (imap pair (tab g (fun w => sum32 (val 0%Z c) (w * gs) gs))) gl) as (gl' & E1 & Hl & Hv & _).
  { rewrite imap_tab. apply Forall_tab. intros w Hw. cbn [fst snd]. split; [lia|done]. }
  destruct (sum2_spec (ceil_groups g L) gl') as (gl'' & E2 & Hl2 & H); [done|lia|].
  exists gl', gl''. split_and!; [|done|done|congruence|].
  - apply threads_Ret. intros w Hw. apply sum1_spec.
    assert ((w + 1) * gs <= g * gs)%nat by (apply Nat.mul_le_mono_r; lia). lia.
  - intros w Hw. rewrite H by lia. f_equal.
    rewrite (sum32_ext _ (fun v => sum32 (val 0%Z c) (v * gs) gs)).
    + unfold sum32 at 2. rewrite sum32_wrapped. unfold sum32. by rewrite wsum_blocks.
    + intros v Hv'. apply val_lookup, Hv. rewrite imap_tab, fst_tab.
      by eapply (elem_of_tab _ _ _ v); [lia|].
Qed.

Lemma compute_spec maxX order px s (g := ceil_groups px gs) :
  (0 < px)%nat -> Z.of_nat (px + gs) <= 2 ^ 32 -> (px <= gs * gs * L)%nat -> Z.of_nat g <= maxX ->
  order ≡ₚ seq 0 g ->
 length (countBuffer s) = (g * gs)%nat ->
  (L * ceil_groups g L <= length (globalSumBuffer s))%nat -> (g * gs < length (offsetBuffer s))%nat ->
  exists s' gl, compute L B maxX order (Z.of_nat px) s = Ret s' /\ length gl = length (globalSumBuffer s) /\
    progress (countBuffer s) gl g s order s'.
Proof.
  intros Hpx Hp Hp2 Hmax Ho Hlc Hlg Hlo. pose proof local_pos as Hpos.
  assert (0 < gs)%nat as Hgs by (unfold group_size; nia).
  destruct (ceil_groups_bounds px gs Hgs Hpx) as (Hg0 & Hg1 & Hg2). fold g in Hg0, Hg1, Hg2.
  assert (L <= gs)%nat as HLg by (unfold group_size; nia).
  assert (g + L <= g * gs + 1)%nat as Hgg by nia.
  destruct (ceil_groups_bounds g L) as (Hb0 & Hb1 & Hb2); [done..|].
  assert (ceil_groups g L <= gs)%nat as Hbg.
  { apply Nat.lt_succ_r, (Nat.mul_lt_mono_pos_r L); [done|].
    assert (g < gs * L + 1)%nat; [|rewrite Nat.mul_succ_l; lia].
    apply (Nat.mul_lt_mono_pos_r gs); [done|]. replace ((gs * L + 1) * gs)%nat with (gs * gs * L + gs)%nat by lia. lia. }
  unfold compute, dispatch_sizes.
  rewrite (ceilquotient_nat px gs) by (done || lia). fold g. rewrite Z.min_l by done.
  rewrite (ceilquotient_nat g L) by (done || lia). rewrite !Nat2Z.id.
  rewrite (wrapw_id _ (_ * _)) by (unfold in_range; lia).
  rewrite wrapw_id by (unfold in_range; lia).
  replace (Z.of_nat gs * Z.of_nat g - 1) with (Z.of_nat (g * gs) - 1) by lia.
  destruct (global_sums (countBuffer s) (globalSumBuffer s) g) as (sums & gl & gl' & -> & E1 & E2 & Hgl & H');
    [lia|done|lia|done|lia|].
  cbn [obind]. rewrite E1. cbn [obind]. rewrite E2. cbn [obind].
  set (s1 := mkSums _ _ _ _ _ _).
  destruct (sum3_all (countBuffer s) gl' g s1) with (order := order) (ws := @nil nat) (s := s1) as (s' & E & H1);
    [lia|done|lia|cbn; lia|done| | |].
  - intros v Hv. rewrite Ho in Hv. apply elem_of_seq in Hv. lia.
  - unfold progress. cbn. split_and!; try done; [by intros ? ? ?%elem_of_nil|by intros ?%elem_of_nil|].
    intros m _ _ Hm. split; [done|by intros ?%elem_of_nil].
  - exists s', gl'. by split_and!.
Qed.
End Correct.

(** ** With the sizes of the renderer

    The buffers are those that [createTransparencyBuffers] allocates for an image of
    [width] by [height]: four bytes for each cell, the count buffer with [maxDepth]
    in front. *)

Definition LOCALSIZE : nat := Z.to_nat localSize.
Definition BLOCKSIZE : nat := Z.to_nat blockSize.
Definition cells (A : Type) (l : list A) : Z := 4 * Z.of_nat (length l).

Definition allocated (width height : Z) (gpu : Gpu) (s : Sums) : Prop :=
  take 3 (transparency_sizes width height gpu) =
  [4 + cells Z (countBuffer s); cells Z (globalSumBuffer s); cells Z (offsetBuffer s)].

Definition pixel_count (width height : Z) : Z := (width + 1) * (height + 1).
Definition groups (width height : Z) : nat :=
  ceil_groups (Z.to_nat (pixel_count width height)) (group_size LOCALSIZE BLOCKSIZE).

Lemma group_size_2048 : Z.of_nat (group_size LOCALSIZE BLOCKSIZE) = groupSize.
Proof. reflexivity. Qed.

Section Renderer.
Context (width height : Z) (gpu : Gpu) (s : Sums) (maxComputeWorkGroupCountX : Z) (order : list nat).
Context (Hw : 0 <= width) (Hh : 0 <= height).
Context (Hpixels : pixel_count width height <= 2 ^ 30) (Hs : allocated width height gpu s).
Context (Hmax : Z.of_nat (groups width height) <= maxComputeWorkGroupCountX).
Context (Horder : order ≡ₚ seq 0 (groups width height)).
#[local] Abbreviation gs := (group_size LOCALSIZE BLOCKSIZE).
#[local] Abbreviation C := (val 0%Z (countBuffer s)).

Lemma groups_bounds :
  Z.of_nat (groups width height) * 2048 < pixel_count width height + 2048 /\ (0 < groups width height)%nat /\
  pixel_count width height <= Z.of_nat (groups width height) * 2048.
Proof.
  assert (0 < pixel_count width height) by (unfold pixel_count; nia).
  pose proof group_size_2048 as E. change groupSize with 2048 in E. unfold groups.
  destruct (ceil_groups_bounds (Z.to_nat (pixel_count width height)) gs) as (H1 & H2 & H3); [lia|lia|].
  rewrite <- E. lia.
Qed.

Lemma groups_quotient :
  ceilquotient (pixel_count width height) groupSize = Z.of_nat (groups width height).
Proof.
  assert (0 < pixel_count width height) by (unfold pixel_count; nia).
  pose proof group_size_2048 as E. rewrite <- E. change groupSize with 2048 in E.
  unfold groups. rewrite <- ceilquotient_nat by lia. f_equal. lia.
Qed.

Lemma allocated_lengths :
  length (countBuffer s) = (groups width height * gs)%nat /\
  length (globalSumBuffer s) = (LOCALSIZE * ceil_groups (groups width height) LOCALSIZE)%nat /\
  length (offsetBuffer s) = (groups width height * gs + 2)%nat.
Proof.
  pose proof Hs as Ha. unfold allocated, transparency_sizes in Ha. cbn [take] in Ha.
  assert (width + 1 <= 2 ^ 30 /\ height + 1 <= 2 ^ 30) as [H1 H2] by (unfold pixel_count in Hpixels; nia).
  rewrite (wrapw_id 32 (width + 1)), (wrapw_id 32 (height + 1)) in Ha by (unfold in_range; lia).
  fold (pixel_count width height) in Ha.
  assert (0 < pixel_count width height) by (unfold pixel_count; nia).
  rewrite (wrapw_id 32 (pixel_count width height)) in Ha by (unfold in_range; lia).
  fold (ceilquotient (pixel_count width height) groupSize) in Ha. rewrite groups_quotient in Ha.
  destruct groups_bounds as (H3 & H4 & _).
  pose proof group_size_2048 as E. change groupSize with 2048 in *.
  rewrite (wrapw_id 32 (2048 * _)) in Ha by (unfold in_range; lia).
  set (g := groups width height) in *.
  replace localSize with (Z.of_nat LOCALSIZE) in Ha by reflexivity.
  fold (ceilquotient (Z.of_nat g) (Z.of_nat LOCALSIZE)) in Ha.
  assert (Z.of_nat LOCALSIZE = 256) as EL by reflexivity.
  rewrite (ceilquotient_nat g LOCALSIZE) in Ha by lia.
  destruct (ceil_groups_bounds g LOCALSIZE) as (H5 & H6 & H7); [lia|lia|].
  rewrite !wrapw_id in Ha by (unfold in_range; lia).
  unfold cells in Ha. clear - Ha E. revert Ha E.
  generalize (ceil_groups g LOCALSIZE) as b. generalize gs as u. generalize LOCALSIZE as l.
  intros l u b [= Hc Hg Ho] E.
  split_and!; apply Nat2Z.inj; rewrite ?Nat2Z.inj_add, Nat2Z.inj_mul, ?E; lia.
Qed.

Lemma compute_progress :
  exists s' gl, compute LOCALSIZE BLOCKSIZE maxComputeWorkGroupCountX order (pixel_count width height) s = Ret s' /\
    length gl = length (globalSumBuffer s) /\ progress LOCALSIZE BLOCKSIZE (countBuffer s) gl (groups width height) s order s'.
Proof.
  destruct allocated_lengths as (H1 & H2 & H3). destruct groups_bounds as (H4 & H5 & _).
  assert (0 < pixel_count width height) by (unfold pixel_count; nia).
  pose proof group_size_2048 as E. change groupSize with 2048 in E.
  assert (Z.of_nat LOCALSIZE = 256) as EL by reflexivity.
  rewrite <- (Z2Nat.id (pixel_count width height)) by lia.
  apply (compute_spec LOCALSIZE BLOCKSIZE 8 32); [reflexivity|by apply Nat.ltb_lt|reflexivity|
    lia|lia|nia|done|done|done|by rewrite H2|rewrite H3; unfold groups; lia].
Qed.

Lemma last_group : (groups width height - 1)%nat ∈ order.
Proof. rewrite Horder. apply elem_of_seq. destruct groups_bounds. lia. Qed.

Lemma compute_sums :
  exists s', compute LOCALSIZE BLOCKSIZE maxComputeWorkGroupCountX order (pixel_count width height) s = Ret s' /\
    countBuffer s' = countBuffer s /\ length (globalSumBuffer s') = length (globalSumBuffer s) /\
    length (offsetBuffer s') = length (offsetBuffer s) /\
    (forall p, (p <= length (countBuffer s))%nat -> offsetBuffer s' !! p = Some (sum32 C 0 (S p))) /\
    feedbackFragments s' = sum32 C 0 (length (countBuffer s)).
Proof.
  destruct compute_progress as (s' & gl & E & Hgl & E1 & E2 & E3 & H1 & H2 & _). exists s'.
  destruct allocated_lengths as (Hl & _). destruct (H2 last_group) as [H3 H4]. rewrite Hl.
  split_and!; [done|done|by rewrite E2|done| |done]. intros p Hp.
  destruct (decide (p = groups width height * gs)%nat) as [->|Hn].
  - rewrite H3. f_equal. unfold sum32. rewrite wsum_S. unfold val at 3.
    rewrite lookup_ge_None_2 by (rewrite Hl; lia). cbn. by rewrite Z.add_0_r.
  - assert (Z.of_nat gs = 2048) as E4 by apply group_size_2048.
    apply (H1 (p / gs)%nat).
    + rewrite Horder. apply elem_of_seq. split; [lia|]. apply Nat.Div0.div_lt_upper_bound. lia.
    + pose proof (Nat.div_mod p gs ltac:(lia)). pose proof (Nat.mod_upper_bound p gs ltac:(lia)). lia.
Qed.

(** C10: The compute pass of the renderer gives every pixel the number of fragments of
    all pixels up to it, for the buffers of any size that holds at most 2^30 elements and
    needs no more workgroups than one dispatch may have: whatever the counts of the
    pixels, whatever the buffers held before, and in whatever order the workgroups of the
    last dispatch take effect, no access is out of bounds, the offset of each element is
    the sum of the counts up to it, modulo 2^32, also one past the last element, and the
    number of fragments that the host reads back is the sum of all counts.  (With more
    workgroups than that the code leaves the rest of the pixels unsummed.) *)
Theorem compute_gives_prefix_sums :
  exists s', compute LOCALSIZE BLOCKSIZE maxComputeWorkGroupCountX order (pixel_count width height) s = Ret s' /\
    countBuffer s' = countBuffer s /\ length (globalSumBuffer s') = length (globalSumBuffer s) /\
    length (offsetBuffer s') = length (offsetBuffer s) /\
    (forall p, (p <= length (countBuffer s))%nat -> offsetBuffer s' !! p = Some (sum32 C 0 (S p))) /\
    feedbackFragments s' = sum32 C 0 (length (countBuffer s)).
Proof. apply compute_sums. Qed.

(** The greatest count that the host reads back leaves out the last invocation of
    each workgroup: the scan of the maxima is shifted by one like that of the sums, and
    its last element is read as if it were not.  If all pixels but those with a number
    of 255 modulo 256 have at most [m] fragments, at most [m] is reported, however many
    the others have. *)
Theorem max_depth_misses_last_column m :
  0 <= m -> others_below LOCALSIZE (countBuffer s) m -> maxDepthCell s <= m ->
  exists s', compute LOCALSIZE BLOCKSIZE maxComputeWorkGroupCountX order (pixel_count width height) s = Ret s' /\
    feedbackSize s' <= m.
Proof.
  intros Hm Hb Hd. destruct compute_progress as (s' & gl & E & _ & _ & _ & _ & _ & _ & H). exists s'. split; [done|].
  by apply (H m Hm Hb Hd), last_group.
Qed.
End Renderer.

(** ** An image of one pixel, whose buffers have one workgroup *)

Definition deep_counts : list Z := <[255%nat := 40]> (replicate 2048 0).
Definition sample_sums : Sums := mkSums deep_counts 0 (replicate 256 7) (replicate 2050 9) 0 0.

Lemma sample_allocated : allocated 1 1 (newGpu false) sample_sums.
Proof. vm_compute. reflexivity. Qed.
Lemma sample_groups : groups 1 1 = 1%nat.
Proof. vm_compute. reflexivity. Qed.
Lemma sample_others : others_below LOCALSIZE deep_counts 0.
Proof.
  intros e x. unfold deep_counts. destruct (decide (e = 255%nat)) as [->|Hn].
  - intros _ H. exfalso. by apply H.
  - rewrite list_lookup_insert_ne by done. intros [-> _]%lookup_replicate _. done.
Qed.
Lemma sample_order : [0%nat] ≡ₚ seq 0 (groups 1 1).
Proof. by rewrite sample_groups. Qed.
Lemma sample_limit : Z.of_nat (groups 1 1) <= 65535.
Proof. by rewrite sample_groups. Qed.

Lemma compute_gives_prefix_sums_witness : exists s',
  compute LOCALSIZE BLOCKSIZE 65535 [0%nat] (pixel_count 1 1) sample_sums = Ret s' /\
  offsetBuffer s' !! 2047%nat = Some 40 /\ feedbackFragments s' = 40.
Proof.
  destruct (compute_gives_prefix_sums 1 1 (newGpu false) sample_sums 65535 [0%nat] ltac:(lia) ltac:(lia)
    ltac:(done) sample_allocated sample_limit sample_order) as (s' & E & _ & _ & _ & H & Hf).
  exists s'. split; [exact E|]. split.
  - rewrite H by (apply Nat.leb_le; vm_compute; reflexivity). vm_compute. reflexivity.
  - rewrite Hf. vm_compute. reflexivity.
Defined.

Lemma max_depth_misses_last_column_witness : exists s',
  compute LOCALSIZE BLOCKSIZE 65535 [0%nat] (pixel_count 1 1) sample_sums = Ret s' /\ feedbackSize s' <= 0.
Proof.
  exact (max_depth_misses_last_column 1 1 (newGpu false) sample_sums 65535 [0%nat] ltac:(lia) ltac:(lia)
    ltac:(done) sample_allocated sample_limit sample_order 0 ltac:(done) sample_others ltac:(done)).
Defined.
