(* ===== verification/Transparency.v ===== *)
(** * The transparent fragments

    Order-independent transparency: what the fragment shaders of
    [asymptote/base/shaders] do with the buffers that [PrefixSum] describes, and the
    host's part of it in [v3d-Common/Rendering/renderheadless.cpp].  The count pass
    ([count.glsl]) counts the fragments of every pixel; after the sums, and after the
    host has made the fragment buffer large enough ([Renderer.readFeedback]), the
    transparent pass (end of [fragment.glsl]) puts each fragment into a slot of its
    pixel; [blend.glsl] sorts the fragments of a pixel by depth and blends them.

    The invocations of the two geometry passes and of the blend pass come in any
    order: they are lists.  [fragment] and [depth], two buffers of the same size that
    are always written at the same index, are one list of pairs.  The arithmetic of
    [mix] and [pow] is the device's. *)

From S2P Require Import Prelude Ieee Xstream Bound V3dData Model Renderer Mesh Tess Objects Workgroup PrefixSum.

Class Glsl := { mix : vec4 -> vec4 -> float32 -> vec4; pow : float32 -> float32 -> float32 }.

(** A fragment of a transparent surface: [gl_FragCoord] and its colour. *)
Record Fragment := mkFragment { fx : Z; fy : Z; fcolor : vec4; fdepth : float32 }.
Abbreviation slot := (vec4 * float32)%type.

(** [uint(gl_FragCoord.y)*push.constants[1]+uint(gl_FragCoord.x)] *)
Definition pixel_at (width x y : Z) : nat := Z.to_nat (wrapw 32 (wrapw 32 (y * width) + x)).
Definition pixel (width : Z) (f : Fragment) : nat := pixel_at width (fx f) (fy f).

(** [count.glsl]: [atomicAdd(index[pixel], 1u)] *)
Definition count_fragment (width : Z) (f : Fragment) (count : list Z) : outcome (list Z) :=
  c <~ at_ count (pixel width f);; store (pixel width f) (add32 c 1) count.

(** [fragment.glsl]: [listIndex = atomicAdd(offset[element], -1u) - 1u]. *)
Definition put_fragment (width : Z) (f : Fragment) (s : list Z * list slot) : outcome (list Z * list slot) :=
  o <~ at_ s.1 (pixel width f);;
  offset <~ store (pixel width f) (wrapw 32 (o - 1)) s.1;;
  let listIndex := wrapw 32 (o - 1) in
  fragment <~ store (Z.to_nat listIndex) (fcolor f, fdepth f) s.2;;
  Ret (offset, fragment).

(** ** blend.glsl *)

Section Blend.
Context {glsl : Glsl}.

Definition blend (outColor color : vec4) : vec4 := mix outColor color (v4a color).

Definition invGamma : float32 := fdiv f1 (f32_of_bits 0x400CCCCD).
Definition linearToPerceptual (c : vec4) : vec4 :=
  mkVec4 (pow (v4r c) invGamma) (pow (v4g c) invGamma) (pow (v4b c) invGamma) (v4a c).

(** The last step: to perceptual space when a flag of [push.constants[3]] asks for it. *)
Definition tone (flags : Z) (c : vec4) : vec4 := if Z.land flags 10 =? 0 then c else linearToPerceptual c.

Definition nonzero (d : float32) : bool := negb (SFeqb d f0).

(** [while(k < size && depth[listIndex+k] >= OpaqueDepth) ++k;] *)
Fixpoint skip_behind (fuel : nat) (od : float32) (fb : list slot) (listIndex size k : nat) : outcome nat :=
  match fuel with
  | O => NoFuel
  | S fuel =>
      if (k <? size)%nat then
        x <~ at_ fb (listIndex + k);;
        if SFleb od x.2 then skip_behind fuel od fb listIndex size (S k) else Ret k
      else Ret k
  end.

(** [while(k < size && d >= OpaqueDepth) { ++k; d = depth[listIndex+k]; }]: the last
    read may be one past the list; its value is not used, but past the buffer it is
    undefined. *)
Fixpoint skip_hidden (fuel : nat) (od : float32) (fb : list slot) (listIndex size k : nat) (d : float32) :
    outcome (nat * float32) :=
  match fuel with
  | O => NoFuel
  | S fuel =>
      if (k <? size)%nat && SFleb od d then
        x <~ at_ fb (listIndex + S k);; skip_hidden fuel od fb listIndex size (S k) x.2
      else Ret (k, d)
  end.

(** [while(j > 0u && d > E[j-1u].depth) { E[j] = E[j-1u]; --j; } E[j] = x;] at [base]. *)
Fixpoint insert_at {A} (key : A -> float32) (E : list A) (base j : nat) (x : A) : outcome (list A) :=
  match j with
  | O => store base x E
  | S j' =>
      e <~ at_ E (base + j');;
      if SFltb (key e) (key x) then E <~ store (base + j) e E;; insert_at key E base j' x
      else store (base + j) x E
  end.

(** The loop [while(++k < size)] over the array [E], with [i] elements so far. *)
Fixpoint collect (fuel : nat) (od : float32) (fb : list slot) (listIndex size k i : nat)
    (E : list (nat * float32)) : outcome (nat * list (nat * float32)) :=
  match fuel with
  | O => NoFuel
  | S fuel =>
      let k := S k in
      if (k <? size)%nat then
        x <~ at_ fb (listIndex + k);;
        '(k, d) <~ (if nonzero od then skip_hidden (S size) od fb listIndex size k x.2 else Ret (k, x.2));;
        if nonzero od && (k =? size)%nat then Ret (i, E)
        else E <~ insert_at snd E 0 i (k, d);; collect fuel od fb listIndex size k (S i) E
      else Ret (i, E)
  end.

(** At most [ARRAYSIZE] fragments: through an array of indices. *)
Definition blend_array (ARRAYSIZE : nat) (od : float32) (fb : list slot) (listIndex size k : nat) (outColor : vec4) :
    outcome vec4 :=
  let n := (size - k)%nat in
  if (n =? 1)%nat then x <~ at_ fb (listIndex + k);; Ret (blend outColor x.1)
  else if (0 <? n)%nat then
    x <~ at_ fb (listIndex + k);;
    E <~ store 0 (k, x.2) (replicate ARRAYSIZE (0%nat, f0));;
    '(i, E) <~ collect (S size) od fb listIndex size k 1 E;;
    ofold (fun j outColor =>
      e <~ at_ E j;; x <~ at_ fb (listIndex + e.1);; Ret (blend outColor x.1)) (seq 0 i) outColor
  else Ret outColor.

(** More: in place. *)
Definition sort_in_place (listIndex size k : nat) (fb : list slot) : outcome (list slot) :=
  ofold (fun i fb => x <~ at_ fb (listIndex + i);; insert_at snd fb listIndex i x) (seq (S k) (size - S k)) fb.

Definition blend_in_place (od : float32) (fb : list slot) (listIndex size k : nat) (outColor : vec4) :
    outcome (vec4 * list slot) :=
  fb <~ sort_in_place listIndex size k fb;;
  c <~ ofold (fun i outColor =>
         x <~ at_ fb i;;
         Ret (if nonzero od && negb (SFltb x.2 od) then outColor else blend outColor x.1))
       (seq (listIndex + k) (size - k)) outColor;;
  Ret (c, fb).

(** The buffers of the blend pass, and the image: [None] where nothing was written. *)
Record Canvas := mkCanvas {
  counts : list Z; offset_ : list Z; fragments_ : list slot;
  opaqueColor : list vec4; opaqueDepth : list float32; image_ : list (option vec4)
}.

(** [main] for one pixel; [flags] is [push.constants[3]]. *)
Definition blend_pixel (ARRAYSIZE : nat) (flags : Z) (background : vec4) (p : nat) (s : Canvas) : outcome Canvas :=
  od <~ at_ (opaqueDepth s) p;;
  listIndex <~ at_ (offset_ s) p;;
  next <~ at_ (offset_ s) (S p);;
  let size := Z.to_nat (wrapw 32 (next - listIndex)) in
  let listIndex := Z.to_nat listIndex in
  depths <~ (if nonzero od then store p f0 (opaqueDepth s) else Ret (opaqueDepth s));;
  if (size =? 0)%nat then
    Ret (mkCanvas (counts s) (offset_ s) (fragments_ s) (opaqueColor s) depths (image_ s))
  else
    outColor <~ (if nonzero od then at_ (opaqueColor s) p else Ret background);;
    k <~ (if nonzero od then skip_behind (S size) od (fragments_ s) listIndex size 0 else Ret 0%nat);;
    '(c, fb) <~ (if (size - k <=? ARRAYSIZE)%nat
                 then c <~ blend_array ARRAYSIZE od (fragments_ s) listIndex size k outColor;; Ret (c, fragments_ s)
                 else blend_in_place od (fragments_ s) listIndex size k outColor);;
    cs <~ store p 0 (counts s);;
    im <~ store p (Some (tone flags c)) (image_ s);;
    Ret (mkCanvas cs (offset_ s) fb (opaqueColor s) depths im).
End Blend.
