(* ===== verification/BlendSort.v ===== *)
(** * Blending in the order of depth

    [blend.glsl] sorts in two ways, through an array of indices or in place in the
    fragment buffer, and skips what lies behind the opaque surface in two ways.
    Both blend the visible fragments in the order of a stable sort by descending
    depth ([by_depth]), which is the only order when the depths differ. *)

From S2P Require Import Prelude Ieee Xstream Bound V3dData Model Renderer Mesh Tess Objects Workgroup PrefixSum.
From S2P Require Import Transparency.
From stdpp Require Import sorting.
#[local] Open Scope Z_scope.

(** ** Insertion from the back *)

Section Insert.
Context {A : Type} (key : A -> float32).

Fixpoint ins_rev (x : A) (r : list A) : list A :=
  match r with
  | [] => [x]
  | e :: r => if SFltb (key e) (key x) then e :: ins_rev x r else x :: e :: r
  end.
Definition ins (x : A) (s : list A) : list A := rev (ins_rev x (rev s)).
Definition by_depth (l : list A) : list A := foldl (fun s x => ins x s) [] l.

Lemma ins_snoc x s e :
  ins x (s ++ [e]) = if SFltb (key e) (key x) then ins x s ++ [e] else s ++ [e; x].
Proof.
  unfold ins. rewrite rev_app_distr. cbn [rev app ins_rev]. destruct (SFltb _ _); cbn [rev]; [done|].
  by rewrite rev_involutive, <- app_assoc.
Qed.

Lemma ins_perm x s : ins x s ≡ₚ x :: s.
Proof.
  induction s as [|e s IH] using rev_ind; [done|]. rewrite ins_snoc. destruct (SFltb _ _).
  - rewrite IH. done.
  - rewrite (Permutation_app_comm s [e; x]), (Permutation_app_comm s [e]). cbn. by constructor.
Qed.
Lemma length_ins x s : length (ins x s) = S (length s).
Proof. by rewrite ins_perm. Qed.

Lemma foldl_ins_perm l s : foldl (fun s x => ins x s) s l ≡ₚ l ++ s.
Proof.
  revert s. induction l as [|x l IH]; intros s; cbn [foldl app]; [done|].
  rewrite IH, ins_perm. by rewrite Permutation_middle.
Qed.
Lemma by_depth_perm l : by_depth l ≡ₚ l.
Proof. unfold by_depth. by rewrite foldl_ins_perm, app_nil_r. Qed.

(** Descending. *)
Definition deeper (x y : A) : Prop := SFleb (key y) (key x) = true.
Definition numeric (l : list A) : Prop := Forall (fun x => sf_nan (key x) = false) l.

Lemma snoc_sorted s x :
  StronglySorted deeper s -> Forall (fun e => deeper e x) s -> StronglySorted deeper (s ++ [x]).
Proof.
  induction 1 as [|e s Hs IH He]; intros Hx; cbn; [by repeat constructor|].
  apply Forall_cons in Hx as [Hx Hs']. constructor; [by apply IH|]. apply Forall_app. split; [done|].
  by constructor.
Qed.
Lemma sorted_snoc s x : StronglySorted deeper (s ++ [x]) -> StronglySorted deeper s /\ Forall (fun e => deeper e x) s.
Proof.
  induction s as [|e s IH]; cbn; [by repeat constructor|]. intros [H He]%StronglySorted_inv.
  destruct (IH H) as [H1 H2]. apply Forall_app in He as [He1 He2]. split; [by constructor|].
  constructor; [|done]. by inversion He2.
Qed.

Lemma not_less x y : sf_nan (key x) = false -> sf_nan (key y) = false ->
  SFltb (key x) (key y) = false -> deeper x y.
Proof. intros Hx Hy. rewrite SFltb_SFleb by done. by intros ?%negb_false_iff. Qed.
Lemma less x y : sf_nan (key x) = false -> sf_nan (key y) = false ->
  SFltb (key x) (key y) = true -> deeper y x.
Proof.
  intros Hx Hy. rewrite SFltb_SFleb by done. intros H%negb_true_iff.
  destruct (sf_le_total (key x) (key y) Hx Hy) as [?|Ht]; [done|]. unfold sf_le in Ht. congruence.
Qed.
Lemma deeper_trans x y z : deeper x y -> deeper y z -> deeper x z.
Proof. unfold deeper. intros H1 H2. by apply (sf_le_trans _ _ _ H2 H1). Qed.

Lemma ins_sorted x s :
  numeric (x :: s) -> StronglySorted deeper s -> StronglySorted deeper (ins x s).
Proof.
  induction s as [|e s IH] using rev_ind; intros Hn Hs; [by repeat constructor|].
  apply Forall_cons in Hn as [Hx [Hn He]%Forall_app]. apply Forall_cons in He as [He _].
  apply sorted_snoc in Hs as [Hs Hes]. rewrite ins_snoc. destruct (SFltb (key e) (key x)) eqn:E.
  - apply snoc_sorted; [apply IH; [by constructor|done]|]. rewrite ins_perm. constructor; [by apply less|done].
  - change [e; x] with ([e] ++ [x]). rewrite app_assoc.
    apply snoc_sorted; [by apply snoc_sorted|]. apply not_less in E; [|done..].
    apply Forall_app. split; [|by constructor]. eapply Forall_impl; [exact Hes|].
    intros y Hy. exact (deeper_trans _ _ _ Hy E).
Qed.

Lemma by_depth_sorted l : numeric l -> StronglySorted deeper (by_depth l).
Proof.
  unfold by_depth. assert (StronglySorted deeper []) as H0 by constructor.
  assert (numeric []) as N0 by constructor. revert H0 N0. generalize (@nil A) as s.
  induction l as [|x l IH]; intros s Hs Ns Hn; cbn [foldl]; [done|]. apply Forall_cons in Hn as [Hx Hn].
  apply IH; [|unfold numeric; rewrite ins_perm; by constructor|done]. apply ins_sorted; [by constructor|done].
Qed.

(** The sort is the only order when no two depths are equal. *)
Definition strictly_deeper (x y : A) : Prop := SFltb (key y) (key x) = true.

Lemma by_depth_unique l s :
  numeric l -> s ≡ₚ l -> StronglySorted strictly_deeper s -> by_depth l = s.
Proof.
  intros Hn Hp Hs. assert (numeric s) as Ns by (unfold numeric; by rewrite Hp).
  apply (StronglySorted_unique_strong deeper).
  - intros x1 x2 H1 H2 D1 D2. rewrite by_depth_perm, <- Hp in H1. clear Hp Hn l.
    induction Hs as [|e s Hs IH He]; [by apply elem_of_nil in H1|].
    apply Forall_cons in Ns as [Ne Ns].
    assert (forall y, y ∈ s -> deeper y e -> False) as Hno.
    { intros y Hy D. rewrite Forall_forall in He. specialize (He y Hy). unfold strictly_deeper in He.
      unfold numeric in Ns. rewrite Forall_forall in Ns.
      rewrite SFltb_SFleb in He by (done || by apply Ns). unfold deeper in D. by rewrite D in He. }
    apply elem_of_cons in H1 as [->|H1], H2 as [->|H2]; [done|exfalso; eauto|exfalso; eauto|eauto].
  - by apply by_depth_sorted.
  - clear Hp Hn l. induction Hs as [|e s Hs IH He]; [by constructor|].
    apply Forall_cons in Ns as [Ne Ns]. constructor; [by apply IH|]. rewrite Forall_forall in *.
    intros y Hy. apply less; [by apply Ns|done|by apply He].
  - by rewrite by_depth_perm.
Qed.
End Insert.

(** Keys are all that counts. *)
Lemma ins_map {A C} (ka : A -> float32) (kc : C -> float32) (h : A -> C) x s :
  (forall a, kc (h a) = ka a) -> map h (ins ka x s) = ins kc (h x) (map h s).
Proof.
  intros Hk. induction s as [|e s IH] using rev_ind; [done|].
  rewrite map_app. cbn [map]. rewrite !ins_snoc, !Hk. destruct (SFltb _ _); rewrite map_app; [by rewrite IH|done].
Qed.
Lemma foldl_ins_map {A C} (ka : A -> float32) (kc : C -> float32) (h : A -> C) l s :
  (forall a, kc (h a) = ka a) ->
  map h (foldl (fun s x => ins ka x s) s l) = foldl (fun s x => ins kc x s) (map h s) (map h l).
Proof.
  intros Hk. revert s. induction l as [|x l IH]; intros s; cbn [foldl map]; [done|].
  by rewrite IH, (ins_map ka kc h).
Qed.

(** ** The shader's insertion *)

Lemma insert_at_spec {A} (key : A -> float32) pre s y post x :
  insert_at key (pre ++ s ++ y :: post) (length pre) (length s) x = Ret (pre ++ ins key x s ++ post).
Proof.
  revert y post. induction s as [|e s IH] using rev_ind; intros y post.
  - cbn [length insert_at app]. by rewrite store_app.
  - rewrite length_app. cbn [length]. rewrite Nat.add_1_r. cbn [insert_at].
    assert (at_ (pre ++ (s ++ [e]) ++ y :: post) (length pre + length s) = Ret e) as ->.
    { apply at_Some. rewrite <- app_assoc. rewrite lookup_app_r by lia.
      rewrite Nat.add_comm, Nat.add_sub. by apply list_lookup_middle. }
    cbn [obind]. rewrite ins_snoc.
    assert (forall v, store (length pre + S (length s)) v (pre ++ (s ++ [e]) ++ y :: post)
             = Ret (pre ++ (s ++ [e]) ++ v :: post)) as Hst.
    { intros v. rewrite !(app_assoc pre). rewrite <- (store_app ((pre ++ s) ++ [e]) post y v).
      f_equal. rewrite !length_app. cbn. lia. }
    destruct (SFltb (key e) (key x)).
    + rewrite Hst. cbn [obind]. rewrite <- !app_assoc. cbn [app]. by rewrite IH.
    + rewrite Hst. by rewrite <- !app_assoc.
Qed.

(** ** What is visible *)

Section Visible.
Context {glsl : Glsl} (od : float32) (Hod : sf_nan od = false).

Definition hidden {A} (x : A * float32) : bool := nonzero od && SFleb od x.2.
Definition visible {A} (x : A * float32) : bool := negb (hidden x).

(** The colours in the order of depth, over [background]. *)
Definition over (c : vec4) (l : list slot) : vec4 := foldl (fun c x => blend c x.1) c l.
Definition composite (background : vec4) (l : list slot) : vec4 :=
  over background (by_depth snd (List.filter visible l)).

Lemma visible_before {A} (x y : A * float32) :
  sf_nan x.2 = false -> sf_nan y.2 = false -> hidden x = true -> visible y = true -> SFltb y.2 x.2 = true.
Proof.
  intros Nx Ny [Hn Hx]%andb_prop Hy%negb_true_iff. unfold hidden in Hy. rewrite Hn in Hy. cbn in Hy.
  rewrite SFltb_SFleb by done. apply negb_true_iff, not_true_iff_false. intros H.
  by rewrite (sf_le_trans _ _ _ Hx H) in Hy.
Qed.
Lemma hidden_after {A} (x y : A * float32) :
  sf_nan x.2 = false -> sf_nan y.2 = false -> hidden x = true -> visible y = true -> SFltb x.2 y.2 = false.
Proof.
  intros Nx Ny Hx Hy. pose proof (visible_before x y Nx Ny Hx Hy) as H.
  rewrite SFltb_SFleb in * by done. apply negb_true_iff in H. apply negb_false_iff.
  destruct (sf_le_total x.2 y.2 Nx Ny) as [Ht|Ht]; [unfold sf_le in Ht; congruence|done].
Qed.

Lemma filter_none {A} (f : A -> bool) l : Forall (fun x => f x = false) l -> List.filter f l = [].
Proof. induction 1 as [|x l Hx _ IH]; cbn; [done|]. by rewrite Hx. Qed.
Lemma filter_all {A} (f : A -> bool) l : Forall (fun x => f x = true) l -> List.filter f l = l.
Proof. induction 1 as [|x l Hx _ IH]; cbn; [done|]. by rewrite Hx, IH. Qed.
Lemma filter_map_comm {A C} (f : C -> bool) (h : A -> C) l :
  List.filter f (map h l) = map h (List.filter (fun x => f (h x)) l).
Proof. induction l as [|x l IH]; cbn; [done|]. rewrite IH. by destruct (f (h x)). Qed.

(** ** Sorting in place, with hidden fragments about *)

Lemma ins_pass {A} (x : A * float32) (a b : list (A * float32)) :
  Forall (fun e : A * float32 => SFltb e.2 x.2 = true) b -> ins snd x (a ++ b) = ins snd x a ++ b.
Proof.
  induction b as [|e b IH] using rev_ind; intros H; [by rewrite !app_nil_r|].
  apply Forall_app in H as [Hb He]. apply Forall_cons in He as [He _].
  cbv beta in He. rewrite app_assoc, ins_snoc, He, IH by done. by rewrite app_assoc.
Qed.
Lemma ins_stop {A} (x : A * float32) (a b : list (A * float32)) :
  Forall (fun e : A * float32 => SFltb e.2 x.2 = false) a -> ins snd x (a ++ b) = a ++ ins snd x b.
Proof.
  intros H. induction b as [|e b IH] using rev_ind.
  - rewrite app_nil_r. destruct a as [|e a] using rev_ind; [done|]. apply Forall_app in H as [_ He].
    apply Forall_cons in He as [He _]. cbv beta in He. by rewrite ins_snoc, He, <- app_assoc.
  - rewrite app_assoc, !ins_snoc. destruct (SFltb _ _); rewrite ?IH, <- ?app_assoc; done.
Qed.

Lemma sort_hidden {A} (todo a b : list (A * float32)) :
  numeric snd (a ++ b ++ todo) -> Forall (fun x => hidden x = true) a -> Forall (fun x => visible x = true) b ->
  exists a', foldl (fun s x => ins snd x s) (a ++ b) todo =
      a' ++ foldl (fun s x => ins snd x s) b (List.filter visible todo) /\
    (length a <= length a')%nat /\ Forall (fun x => hidden x = true) a' /\ numeric snd a'.
Proof.
  revert a b. induction todo as [|x todo IH]; intros a b Hn Ha Hb; cbn [foldl List.filter].
  { exists a. split_and!; [done|done|done|]. by apply Forall_app in Hn as [? _]. }
  assert (numeric snd (a ++ b ++ x :: todo)) as Hn' by done.
  unfold numeric in Hn. rewrite !Forall_app, Forall_cons in Hn. destruct Hn as (Na & Nb & Nx & Nt).
  destruct (visible x) eqn:Ev.
  - rewrite ins_stop.
    + apply (IH a (ins snd x b)); [|done|].
      * unfold numeric. rewrite !Forall_app, ins_perm, Forall_cons. done.
      * rewrite ins_perm. by constructor.
    + rewrite Forall_forall in *. intros e He. by apply hidden_after; [apply Na|done|apply Ha|].
  - unfold visible in Ev. apply negb_false_iff in Ev. rewrite ins_pass.
    + destruct (IH (ins snd x a) b) as (a' & E & Hl & H1 & H2); [|rewrite ins_perm; by constructor|done|].
      * unfold numeric. rewrite !Forall_app, ins_perm, Forall_cons. done.
      * exists a'. rewrite length_ins in Hl. split_and!; [done|lia|done|done].
    + rewrite Forall_forall in *. intros e He. apply visible_before; [done|by apply Nb|done|by apply Hb].
Qed.

(** ** The slots of a pixel *)

Definition reads (fb : list slot) (li : nat) (l : list slot) : Prop :=
  forall j x, l !! j = Some x -> fb !! (li + j)%nat = Some x.

Lemma reads_split fb li l : l <> [] -> reads fb li l ->
  fb = take li fb ++ l ++ drop (li + length l) fb /\ length (take li fb) = li.
Proof.
  intros Hne H. assert (0 < length l)%nat as Hl by (destruct l; cbn; [done|lia]).
  assert (li + length l <= length fb)%nat as Hlen.
  { destruct (lookup_lt_is_Some_2 l (length l - 1)) as [x Ex]; [lia|]. apply H in Ex.
    apply lookup_lt_Some in Ex. lia. }
  split; [|rewrite length_take; lia]. rewrite <- (take_drop li fb) at 1. f_equal.
  rewrite <- (take_drop (length l) (drop li fb)) at 1. rewrite drop_drop. f_equal.
  apply list_eq. intros j. destruct (decide (j < length l)%nat) as [Hj|Hj].
  - rewrite lookup_take_lt, lookup_drop by done. destruct (lookup_lt_is_Some_2 _ _ Hj) as [x Ex].
    by rewrite (H _ _ Ex), Ex.
  - by rewrite (lookup_ge_None_2 l), lookup_take_ge by lia.
Qed.

Lemma ofold_array {A T} (f : A -> T -> outcome T) (g : T -> A -> T) p s rest c :
  (forall e c, e ∈ s -> f e c = Ret (g c e)) ->
  ofold (fun j c => e <~ at_ (p ++ s ++ rest) j;; f e c) (seq (length p) (length s)) c = Ret (foldl g c s).
Proof.
  revert p c. induction s as [|e s IH]; intros p c H; cbn [length seq ofold foldl]; [done|].
  rewrite (at_Some _ _ e) by (rewrite lookup_app_r by lia; by rewrite Nat.sub_diag).
  cbn [obind]. rewrite H by apply list_elem_of_here. cbn [obind].
  specialize (IH (p ++ [e]) (g c e)). rewrite <- app_assoc in IH. cbn [app] in IH.
  replace (length (p ++ [e])) with (S (length p)) in IH by (rewrite length_app; cbn; lia).
  apply IH. intros. apply H. by apply list_elem_of_further.
Qed.

Lemma sort_steps (pre s todo post : list slot) :
  ofold (fun i fb => x <~ at_ fb (length pre + i);; insert_at snd fb (length pre) i x)
    (seq (length s) (length todo)) (pre ++ s ++ todo ++ post) =
  Ret (pre ++ foldl (fun s x => ins snd x s) s todo ++ post).
Proof.
  revert s. induction todo as [|x todo IH]; intros s; cbn [length seq ofold foldl app]; [done|].
  rewrite (at_Some _ _ x).
  2: { rewrite lookup_app_r by lia. rewrite Nat.add_comm, Nat.add_sub. by apply list_lookup_middle. }
  cbn [obind]. rewrite (insert_at_spec snd). cbn [obind].
  specialize (IH (ins snd x s)). rewrite length_ins in IH. exact IH.
Qed.
Lemma sort_in_place_spec pre l post k :
  (k < length l)%nat ->
  sort_in_place (length pre) (length l) k (pre ++ l ++ post) =
  Ret (pre ++ foldl (fun s x => ins snd x s) (take (S k) l) (drop (S k) l) ++ post).
Proof.
  intros Hk. rewrite <- sort_steps, length_take, length_drop, Nat.min_l by lia.
  by rewrite (app_assoc (take _ _)), take_drop.
Qed.

(** ** The loops over the list *)

(** From [k] on, a run of [h] hidden ones. *)
Definition run {A} (l : list (A * float32)) (k h : nat) : Prop :=
  (k + h <= length l)%nat /\ Forall (fun x => hidden x = true) (take h (drop k l)) /\
  (forall x, l !! (k + h)%nat = Some x -> visible x = true).

Lemma run_exists {A} (l : list (A * float32)) k : (k <= length l)%nat -> exists h, run l k h.
Proof.
  intros Hk. remember (length l - k)%nat as n eqn:En. revert k Hk En.
  induction n as [|n IH]; intros k Hk En.
  - exists 0%nat. split_and!; [lia|by constructor|]. intros x Hx%lookup_lt_Some. lia.
  - destruct (lookup_lt_is_Some_2 l k) as [x Ex]; [lia|]. destruct (hidden x) eqn:Eh.
    + destruct (IH (S k)) as (h & H1 & H2 & H3); [lia|lia|]. exists (S h). split_and!; [lia| |].
      * rewrite (drop_S _ _ _ Ex). cbn [take]. by constructor.
      * intros y. replace (k + S h)%nat with (S k + h)%nat by lia. apply H3.
    + exists 0%nat. unfold run. rewrite Nat.add_0_r. split_and!; [lia|by constructor|]. intros y Hy.
      unfold visible. rewrite Ex in Hy. injection Hy as <-. by rewrite Eh.
Qed.

Lemma run_filter {A} (l : list (A * float32)) k h :
  run l k h -> List.filter visible (drop k l) = List.filter visible (drop (k + h) l).
Proof.
  intros (_ & H & _). rewrite <- (take_drop h (drop k l)) at 1. rewrite List.filter_app, drop_drop.
  rewrite filter_none; [done|]. eapply Forall_impl; [exact H|]. unfold visible. by intros x ->.
Qed.
Lemma run_step {A} (l : list (A * float32)) k h :
  run l k (S h) -> exists x, l !! k = Some x /\ hidden x = true /\ run l (S k) h.
Proof.
  intros (H1 & H2 & H3). destruct (lookup_lt_is_Some_2 l k) as [x Ex]; [lia|].
  rewrite (drop_S _ _ _ Ex) in H2. cbn [take] in H2. apply Forall_cons in H2 as [Hx H2].
  exists x. split_and!; [done|done|]. unfold run. replace (S k + h)%nat with (k + S h)%nat by lia. done.
Qed.

Context (fb : list slot) (li : nat) (l : list slot) (Hr : reads fb li l).

Lemma skip_behind_spec fuel k h :
  nonzero od = true -> run l k h -> (h < fuel)%nat ->
  skip_behind fuel od fb li (length l) k = Ret (k + h)%nat.
Proof.
  intros Hn. revert k fuel. induction h as [|h IH]; intros k fuel H Hf; (destruct fuel as [|fuel]; [lia|]);
    cbn [skip_behind].
  - destruct H as (H1 & _ & H3). rewrite Nat.add_0_r in *. destruct (Nat.ltb_spec k (length l)) as [Hk|]; [|done].
    destruct (lookup_lt_is_Some_2 l k Hk) as [x Ex]. rewrite (at_Some _ _ _ (Hr _ _ Ex)). cbn [obind].
    specialize (H3 x Ex). unfold visible, hidden in H3. rewrite Hn in H3. cbn in H3.
    by apply negb_true_iff in H3 as ->.
  - apply run_step in H as (x & Ex & Hx & H). pose proof (lookup_lt_Some _ _ _ Ex) as Hk.
    rewrite (proj2 (Nat.ltb_lt _ _)) by done. rewrite (at_Some _ _ _ (Hr _ _ Ex)). cbn [obind].
    apply andb_prop in Hx as [_ ->]. rewrite IH by (done || lia). f_equal. lia.
Qed.

(** The fragments as the array sees them: their index and depth. *)
Definition items : list (nat * float32) := imap (fun j x => (j, x.2)) l.

Lemma items_lookup j : items !! j = (fun x => (j, x.2)) <$> l !! j.
Proof. unfold items. by rewrite list_lookup_imap. Qed.
Lemma items_run k h : run l k h -> run items k h.
Proof.
  intros (H1 & H2 & H3). unfold run, items. rewrite length_imap. split_and!; [done| |].
  - apply Forall_forall. intros e He. apply list_elem_of_lookup in He as (j & Ej).
    apply lookup_take_Some in Ej as [Ej Hj]. rewrite lookup_drop in Ej. fold items in Ej.
    rewrite items_lookup in Ej. destruct (l !! (k + j)%nat) as [x|] eqn:Ex; [|done].
    injection Ej as <-. rewrite Forall_forall in H2. apply (H2 x), list_elem_of_lookup. exists j.
    by rewrite lookup_take_lt, lookup_drop by done.
  - intros e. fold items. rewrite items_lookup. destruct (l !! (k + h)%nat) as [x|] eqn:Ex; [|done].
    intros [= <-]. exact (H3 x eq_refl).
Qed.

Lemma no_depth_run {A} (m : list (A * float32)) k : nonzero od = false -> (k <= length m)%nat -> run m k 0.
Proof.
  intros Hn Hk. split_and!; [lia|by constructor|]. intros x _. unfold visible, hidden. by rewrite Hn.
Qed.

Lemma skip_hidden_inside fuel k h x :
  nonzero od = true -> l !! k = Some x -> run l k h -> (k + h < length l)%nat -> (h < fuel)%nat ->
  exists d, skip_hidden fuel od fb li (length l) k x.2 = Ret ((k + h)%nat, d) /\
    forall y, l !! (k + h)%nat = Some y -> d = y.2.
Proof.
  intros Hn. revert k fuel x. induction h as [|h IH]; intros k fuel x Ex H Hin Hf; (destruct fuel as [|fuel]; [lia|]);
    cbn [skip_hidden]; rewrite (proj2 (Nat.ltb_lt k (length l))) by lia.
  - destruct H as (_ & _ & H3). rewrite Nat.add_0_r in *.
    pose proof (H3 x Ex) as Hv. unfold visible, hidden in Hv. rewrite Hn in Hv. cbn in Hv.
    apply negb_true_iff in Hv as ->. cbn [andb]. exists x.2. split; [done|]. intros y Hy. congruence.
  - apply run_step in H as (x' & Ex' & Hx & H). assert (x' = x) as -> by congruence.
    apply andb_prop in Hx as [_ ->]. cbn [andb]. replace (k + S h)%nat with (S k + h)%nat by lia.
    destruct (lookup_lt_is_Some_2 l (S k)) as [y Ey]; [lia|]. rewrite (at_Some _ _ _ (Hr _ _ Ey)). cbn [obind].
    apply IH; done || lia.
Qed.

(** Without another slot behind the list, the read past it is out of bounds. *)
Section Overrun.
Context (Hfull : fb !! (li + length l)%nat = None) (Hnz : nonzero od = true).

Lemma skip_hidden_overrun fuel k h x :
  l !! k = Some x -> run l k (S h) -> (k + S h = length l)%nat -> (S h < fuel)%nat ->
  skip_hidden fuel od fb li (length l) k x.2 = Undef.
Proof.
  revert k fuel x. induction h as [|h IH]; intros k fuel x Ex H He Hf; (destruct fuel as [|fuel]; [lia|]);
    cbn [skip_hidden]; rewrite (proj2 (Nat.ltb_lt k (length l))) by lia;
    apply run_step in H as (x' & Ex' & Hx & H); assert (x' = x) as -> by congruence;
    apply andb_prop in Hx as [_ ->]; cbn [andb].
  - replace (li + S k)%nat with (li + length l)%nat by lia. unfold at_, determined. by rewrite Hfull.
  - destruct (lookup_lt_is_Some_2 l (S k)) as [y Ey]; [lia|]. rewrite (at_Some _ _ _ (Hr _ _ Ey)). cbn [obind].
    apply IH; [done|done|lia|lia].
Qed.

Lemma collect_overrun fuel k s rest z y :
  last l = Some z -> hidden z = true -> l !! k = Some y -> visible y = true -> (length l - k < fuel)%nat ->
  (length (List.filter visible (drop (S k) items)) <= length rest)%nat ->
  collect fuel od fb li (length l) k (length s) (s ++ rest) = Undef.
Proof.
  intros Hz Hh. revert k s rest y. induction fuel as [|fuel IH]; intros k s rest y Ey Hv Hf Hrest; [lia|].
  cbn [collect]. cbv zeta. rewrite last_lookup in Hz. pose proof (lookup_lt_Some _ _ _ Ey) as Hk.
  assert (S k < length l)%nat as Hk'.
  { destruct (decide (S k < length l)%nat); [done|]. replace (Nat.pred (length l)) with k in Hz by lia.
    assert (y = z) as -> by congruence. unfold visible in Hv. by rewrite Hh in Hv. }
  rewrite (proj2 (Nat.ltb_lt _ _)) by done. destruct (lookup_lt_is_Some_2 l (S k) Hk') as [x Ex].
  rewrite (at_Some _ _ _ (Hr _ _ Ex)), Hnz. cbn [obind andb]. destruct (run_exists l (S k)) as [h Hrun]; [lia|].
  destruct (decide (S k + h = length l)%nat) as [He|He].
  - destruct h as [|h]; [lia|]. rewrite (skip_hidden_overrun _ _ h x Ex Hrun He) by lia. done.
  - pose proof Hrun as (H1 & _ & H3). destruct (lookup_lt_is_Some_2 l (S k + h)) as [w Ew]; [lia|].
    destruct (skip_hidden_inside (S (length l)) (S k) h x Hnz Ex Hrun) as (d & -> & Hd); [lia|lia|].
    cbn [obind]. rewrite (proj2 (Nat.eqb_neq _ _)) by done. rewrite (Hd w Ew).
    rewrite (run_filter items (S k) h) in Hrest by (by apply items_run).
    assert (items !! (S k + h)%nat = Some ((S k + h)%nat, w.2)) as Ei by (by rewrite items_lookup, Ew).
    rewrite (drop_S _ _ _ Ei) in Hrest. cbn [List.filter] in Hrest.
    assert (visible ((S k + h)%nat, w.2) = true) as Hw by exact (H3 w Ew). rewrite Hw in Hrest.
    destruct rest as [|r rest]; cbn [length] in Hrest; [lia|].
    rewrite (insert_at_spec snd [] s r rest). cbn [obind app].
    specialize (IH (S k + h)%nat (ins snd ((S k + h)%nat, w.2) s) rest w Ew (H3 w Ew)).
    rewrite length_ins in IH. apply IH; lia.
Qed.

(** A list with something visible whose last fragment is hidden, through the array. *)
Lemma blend_array_overrun ARRAYSIZE k c y z :
  l !! k = Some y -> visible y = true -> last l = Some z -> hidden z = true ->
  (length l - k <= ARRAYSIZE)%nat ->
  blend_array ARRAYSIZE od fb li (length l) k c = Undef.
Proof.
  intros Ey Hv Hz Hh Hn. pose proof (lookup_lt_Some _ _ _ Ey) as Hk. unfold blend_array. cbv zeta.
  assert (S k < length l)%nat as Hk'.
  { destruct (decide (S k < length l)%nat); [done|]. rewrite last_lookup in Hz.
    replace (Nat.pred (length l)) with k in Hz by lia. assert (y = z) as -> by congruence.
    unfold visible in Hv. by rewrite Hh in Hv. }
  rewrite (proj2 (Nat.eqb_neq _ _)), (proj2 (Nat.ltb_lt _ _)) by lia. rewrite (at_Some _ _ _ (Hr _ _ Ey)). cbn [obind].
  destruct ARRAYSIZE as [|n]; [lia|]. cbn [replicate].
  change (store 0 (k, y.2) ((0%nat, f0) :: replicate n (0%nat, f0))) with
    (store (length (@nil (nat * float32))) (k, y.2) ([] ++ (0%nat, f0) :: replicate n (0%nat, f0))).
  rewrite store_app. cbn [obind app].
  rewrite (collect_overrun _ k [(k, y.2)] (replicate n (0%nat, f0)) z y); try done; [lia|].
  rewrite length_replicate. etrans; [apply filter_length_le|]. rewrite length_drop. unfold items. rewrite length_imap. lia.
Qed.
End Overrun.

(** If the list ends behind the surface, the buffer goes on. *)
Definition spare : Prop :=
  forall x, last l = Some x -> hidden x = true -> is_Some (fb !! (li + length l)%nat).
Context (Hspare : spare).

Lemma skip_hidden_spec fuel k h x :
  nonzero od = true -> l !! k = Some x -> run l k h -> (h < fuel)%nat ->
  exists d, skip_hidden fuel od fb li (length l) k x.2 = Ret ((k + h)%nat, d) /\
    forall y, l !! (k + h)%nat = Some y -> d = y.2.
Proof.
  intros Hn. revert k fuel x. induction h as [|h IH]; intros k fuel x Ex H Hf; (destruct fuel as [|fuel]; [lia|]);
    cbn [skip_hidden]; pose proof (lookup_lt_Some _ _ _ Ex) as Hk; rewrite (proj2 (Nat.ltb_lt _ _)) by done.
  - destruct H as (_ & _ & H3). rewrite Nat.add_0_r in *.
    pose proof (H3 x Ex) as Hv. unfold visible, hidden in Hv. rewrite Hn in Hv. cbn in Hv.
    apply negb_true_iff in Hv as ->. cbn [andb]. exists x.2. split; [done|]. intros y Hy. congruence.
  - apply run_step in H as (x' & Ex' & Hx & H). assert (x' = x) as -> by congruence.
    pose proof Hx as [_ ->]%andb_prop. cbn [andb]. replace (k + S h)%nat with (S k + h)%nat by lia.
    destruct (decide (S k < length l)%nat) as [Hk'|Hk'].
    + destruct (lookup_lt_is_Some_2 l (S k) Hk') as [y Ey]. rewrite (at_Some _ _ _ (Hr _ _ Ey)). cbn [obind].
      by apply IH; [|done|lia].
    + destruct H as (H1 & _). assert (h = 0%nat) as -> by lia. destruct fuel as [|fuel]; [lia|].
      destruct (Hspare x) as [z Ez]; [|done|].
      { rewrite last_lookup. by replace (Nat.pred (length l)) with k by lia. }
      replace (li + S k)%nat with (li + length l)%nat by lia. rewrite (at_Some _ _ _ Ez). cbn [obind].
      cbn [skip_hidden]. rewrite (proj2 (Nat.ltb_ge _ _)) by lia. cbn [andb]. eexists. rewrite Nat.add_0_r.
      split; [done|]. intros y Hy%lookup_lt_Some. lia.
Qed.

(** One round finds the next visible one. *)
Lemma next_visible k x :
  l !! k = Some x ->
  exists h d, run l k h /\
    (if nonzero od then skip_hidden (S (length l)) od fb li (length l) k x.2 else Ret (k, x.2)) = Ret ((k + h)%nat, d) /\
    nonzero od && (k + h =? length l)%nat = (k + h =? length l)%nat /\
    (forall y, l !! (k + h)%nat = Some y -> d = y.2).
Proof.
  intros Ex. pose proof (lookup_lt_Some _ _ _ Ex) as Hk. destruct (nonzero od) eqn:Hn.
  - destruct (run_exists l k) as [h Hh]; [lia|]. exists h.
    destruct (skip_hidden_spec (S (length l)) k h x Hn Ex Hh) as (d & E & Hd); [destruct Hh; lia|]. eauto.
  - exists 0%nat, x.2. rewrite Nat.add_0_r. split_and!; [apply no_depth_run; [done|lia]|done| |].
    + symmetry. apply Nat.eqb_neq. lia.
    + intros y Hy. congruence.
Qed.

Lemma collect_spec fuel k s rest :
  (length l - k < fuel)%nat -> (length (List.filter visible (drop (S k) items)) <= length rest)%nat ->
  exists rest', let s' := foldl (fun s x => ins snd x s) s (List.filter visible (drop (S k) items)) in
    collect fuel od fb li (length l) k (length s) (s ++ rest) = Ret (length s', s' ++ rest').
Proof.
  revert k s rest. induction fuel as [|fuel IH]; intros k s rest Hf Hrest; [lia|]. cbn [collect]. cbv zeta.
  destruct (Nat.ltb_spec (S k) (length l)) as [Hk|Hk].
  2: { rewrite drop_ge in * by (unfold items; rewrite length_imap; lia). exists rest. done. }
  destruct (lookup_lt_is_Some_2 l (S k) Hk) as [x Ex]. rewrite (at_Some _ _ _ (Hr _ _ Ex)). cbn [obind].
  destruct (next_visible (S k) x Ex) as (h & d & Hh & -> & Eb & Hd). cbn [obind]. rewrite Eb. clear Eb.
  rewrite (run_filter items (S k) h) in * by (by apply items_run).
  destruct (Nat.eqb_spec (S k + h) (length l)) as [He|He].
  { rewrite drop_ge in * by (unfold items; rewrite length_imap; lia). exists rest. done. }
  destruct (lookup_lt_is_Some_2 l (S k + h)) as [y Ey]; [destruct Hh; lia|].
  assert (items !! (S k + h)%nat = Some ((S k + h)%nat, y.2)) as Ei by (by rewrite items_lookup, Ey).
  rewrite (drop_S _ _ _ Ei) in *. cbn [List.filter] in *.
  assert (visible ((S k + h)%nat, y.2) = true) as Hv.
  { destruct Hh as (_ & _ & H3). exact (H3 y Ey). }
  rewrite Hv in *. cbn [length foldl] in *. rewrite (Hd y Ey).
  destruct rest as [|r rest]; cbn [length] in Hrest; [lia|].
  rewrite (insert_at_spec snd [] s r rest). cbn [obind app].
  destruct (IH (S k + h)%nat (ins snd ((S k + h)%nat, y.2) s) rest) as (rest' & E); [lia|lia|].
  rewrite length_ins in E. exists rest'. exact E.
Qed.

(** ** Both ways blend in the order of depth *)

Definition item_slot (e : nat * float32) : slot := (default black (fst <$> l !! e.1), e.2).

Lemma items_slots : map item_slot items = l.
Proof.
  apply list_eq. intros j. change (map item_slot items) with (item_slot <$> items).
  rewrite list_lookup_fmap, items_lookup. destruct (l !! j) as [x|] eqn:E; [|done].
  cbn. unfold item_slot. cbn. rewrite E. by destruct x.
Qed.
Lemma visible_slots k :
  map item_slot (List.filter visible (drop k items)) = List.filter visible (drop k l).
Proof.
  rewrite <- (filter_map_comm visible item_slot), <- (skipn_map item_slot). by rewrite items_slots.
Qed.
Lemma over_slots c s : foldl (fun c e => blend c (item_slot e).1) c s = over c (map item_slot s).
Proof. revert c. induction s as [|e s IH]; intros c; cbn [foldl map]; [done|]. by rewrite IH. Qed.

Lemma run_from_start k : run l 0 k -> List.filter visible (drop k l) = List.filter visible l.
Proof. intros H. symmetry. exact (run_filter l 0 k H). Qed.

Lemma over_by_depth c k :
  foldl (fun c e => blend c (item_slot e).1) c (by_depth snd (List.filter visible (drop k items))) =
  over c (by_depth snd (List.filter visible (drop k l))).
Proof.
  rewrite over_slots. unfold by_depth. by rewrite (foldl_ins_map snd snd item_slot), visible_slots.
Qed.

Lemma item_read e c k :
  e ∈ by_depth snd (List.filter visible (drop k items)) ->
  (x <~ at_ fb (li + e.1);; Ret (blend c x.1)) = Ret (blend c (item_slot e).1).
Proof.
  rewrite by_depth_perm. intros (j & Ej)%list_elem_of_In%filter_In%proj1%list_elem_of_In%list_elem_of_lookup.
  rewrite lookup_drop, items_lookup in Ej. destruct (l !! (k + j)%nat) as [x|] eqn:Ex; [|done].
  injection Ej as <-. cbn [fst]. rewrite (at_Some _ _ _ (Hr _ _ Ex)). cbn [obind]. unfold item_slot.
  cbn [fst]. by rewrite Ex.
Qed.

Lemma blend_array_spec ARRAYSIZE k c :
  run l 0 k -> (length l - k <= ARRAYSIZE)%nat ->
  blend_array ARRAYSIZE od fb li (length l) k c = Ret (composite c l).
Proof.
  intros Hk Hn. unfold blend_array, composite. cbv zeta. rewrite <- (run_from_start k Hk).
  destruct (decide (k < length l)%nat) as [Hlt|Hge].
  2: { rewrite drop_ge by lia. replace (length l - k)%nat with 0%nat by lia. done. }
  destruct (lookup_lt_is_Some_2 l k Hlt) as [x Ex]. rewrite (at_Some _ _ _ (Hr _ _ Ex)).
  assert (visible x = true) as Hv by (destruct Hk as (_ & _ & H3); exact (H3 x Ex)).
  destruct (Nat.eqb_spec (length l - k) 1) as [E1|N1].
  { rewrite (drop_S _ _ _ Ex), drop_ge by lia. cbn [List.filter]. by rewrite Hv. }
  rewrite (proj2 (Nat.ltb_lt _ _)) by lia. destruct ARRAYSIZE as [|n]; [lia|]. cbn [replicate].
  cbn [obind]. change (store 0 (k, x.2) ((0%nat, f0) :: replicate n (0%nat, f0))) with
    (store (length (@nil (nat * float32))) (k, x.2) ([] ++ (0%nat, f0) :: replicate n (0%nat, f0))).
  rewrite store_app. cbn [obind app].
  assert (items !! k = Some (k, x.2)) as Ei by (by rewrite items_lookup, Ex).
  destruct (collect_spec (S (length l)) k [(k, x.2)] (replicate n (0%nat, f0))) as (rest' & E); [lia| |].
  { rewrite length_replicate. etrans; [apply filter_length_le|]. rewrite length_drop. unfold items.
    rewrite length_imap. lia. }
  cbn [length app] in E. rewrite E. cbn [obind]. clear E. rewrite <- over_by_depth.
  rewrite (drop_S _ _ _ Ei). cbn [List.filter]. assert (visible (k, x.2) = true) as -> by exact Hv.
  cbn [by_depth foldl]. change (ins snd (k, x.2) []) with [(k, x.2)].
  apply (ofold_array _ (fun c e => blend c (item_slot e).1) []). intros e c' He. apply (item_read e c' k).
  rewrite (drop_S _ _ _ Ei). cbn [List.filter]. by assert (visible (k, x.2) = true) as -> by exact Hv.
Qed.

Lemma skip_or_over c (x : slot) :
  sf_nan x.2 = false ->
  (if nonzero od && negb (SFltb x.2 od) then c else blend c x.1) = (if visible x then blend c x.1 else c).
Proof.
  intros Hx. unfold visible, hidden. rewrite SFltb_SFleb by done. rewrite negb_involutive.
  by destruct (nonzero od), (SFleb od x.2).
Qed.
Lemma over_visible c (m : list slot) :
  foldl (fun c x => if visible x then blend c x.1 else c) c m = over c (List.filter visible m).
Proof. revert c. induction m as [|x m IH]; intros c; cbn [foldl List.filter]; [done|]. rewrite IH. by destruct (visible x). Qed.

Lemma sorted_visible k (a : list slot) :
  run l 0 k -> numeric snd l -> Forall (fun x => hidden x = true) a -> (k <= length a)%nat ->
  List.filter visible (drop k (a ++ by_depth snd (List.filter visible l))) = by_depth snd (List.filter visible l).
Proof.
  intros Hk Hn Ha Hl. rewrite drop_app_le, List.filter_app by lia.
  rewrite filter_none, filter_all; [done| |].
  - apply Forall_forall. intros x. rewrite by_depth_perm. by intros H%list_elem_of_In%filter_In%proj2.
  - apply Forall_drop. eapply Forall_impl; [exact Ha|]. unfold visible. by intros x ->.
Qed.

Lemma sorted_list k :
  run l 0 k -> (k < length l)%nat -> numeric snd l ->
  exists a, foldl (fun s x => ins snd x s) (take (S k) l) (drop (S k) l) = a ++ by_depth snd (List.filter visible l) /\
    Forall (fun x => hidden x = true) a /\ (k <= length a)%nat /\ numeric snd a.
Proof.
  intros Hk Hlt Hn. destruct (lookup_lt_is_Some_2 l k Hlt) as [x Ex].
  assert (visible x = true) as Hv by (destruct Hk as (_ & _ & H3); exact (H3 x Ex)).
  rewrite (take_S_r _ _ _ Ex).
  destruct (sort_hidden (drop (S k) l) (take k l) [x]) as (a & E & Hl & Ha & Na).
  - cbn [app]. rewrite <- (drop_S _ _ _ Ex). by rewrite take_drop.
  - destruct Hk as (_ & H2 & _). exact H2.
  - by constructor.
  - exists a. rewrite E. split_and!; [|done|rewrite length_take in Hl; lia|done]. f_equal.
    rewrite <- (run_from_start k Hk), (drop_S _ _ _ Ex). cbn [List.filter]. rewrite Hv. done.
Qed.

Lemma blend_in_place_spec k c :
  run l 0 k -> (k < length l)%nat -> numeric snd l ->
  exists fb', blend_in_place od fb li (length l) k c = Ret (composite c l, fb') /\ length fb' = length fb /\
    forall i, (i < li \/ li + length l <= i)%nat -> fb' !! i = fb !! i.
Proof.
  intros Hk Hlt Hn. destruct (reads_split fb li l) as [Es Hpre]; [by intros ->; cbn in Hlt; lia|done|].
  destruct (sorted_list k Hk Hlt Hn) as (a & Ea & Ha & Hla & Na).
  set (pre := take li fb) in *. set (post := drop (li + length l) fb) in *.
  set (m := a ++ by_depth snd (List.filter visible l)) in *.
  assert (length m = length l) as Hm.
  { rewrite <- Ea, foldl_ins_perm, (Permutation_app_comm (drop _ _)). by rewrite take_drop. }
  exists (pre ++ m ++ post). unfold blend_in_place. rewrite Es at 1. rewrite <- Hpre.
  rewrite sort_in_place_spec by done. rewrite Ea. fold m. cbn [obind].
  split_and!.
  - assert (numeric snd m) as Nm.
    { apply Forall_app. split; [done|]. unfold numeric. rewrite by_depth_perm. apply Forall_forall.
      intros x Hx%list_elem_of_In%filter_In%proj1%list_elem_of_In. unfold numeric in Hn.
      rewrite Forall_forall in Hn. by apply Hn. }
    assert (pre ++ m ++ post = (pre ++ take k m) ++ drop k m ++ post) as Em
      by (by rewrite <- app_assoc, (app_assoc (take k m)), take_drop).
    rewrite Em.
    assert (length pre + k = length (pre ++ take k m))%nat as -> by (rewrite length_app, length_take; lia).
    replace (length l - k)%nat with (length (drop k m)) by (by rewrite length_drop, Hm).
    rewrite (ofold_array _ (fun c x => if visible x then blend c x.1 else c)).
    + cbn [obind]. unfold composite. rewrite over_visible. unfold m. by rewrite sorted_visible.
    + intros x c' Hx. rewrite skip_or_over; [done|]. unfold numeric in Nm. rewrite Forall_forall in Nm. apply Nm.
      rewrite <- (take_drop k m). apply elem_of_app. by right.
  - transitivity (length (pre ++ l ++ post)); [by rewrite !length_app, Hm|by rewrite <- Es].
  - intros i Hi. transitivity ((pre ++ l ++ post) !! i); [|by rewrite <- Es]. destruct Hi as [Hi|Hi].
    + by rewrite !lookup_app_l by lia.
    + by rewrite !(lookup_app_r pre), !lookup_app_r, Hm by lia.
Qed.
End Visible.

(** ** One pixel of the blend pass *)

Section Pixel.
Context {glsl : Glsl} (ARRAYSIZE : nat) (flags : Z) (background : vec4).

(** What is behind the fragments of a pixel, and the depth that is left. *)
Definition base_color (od : float32) (opaque : vec4) : vec4 := if nonzero od then opaque else background.
Definition cleared (od : float32) : float32 := if nonzero od then f0 else od.

(** A canvas and the fragments [l] of its pixel [p], from the slot [li]. *)
Record at_pixel_ (s : Canvas) (p li : nat) (l : list slot) (od : float32) (opaque : vec4) : Prop := mkAtPixel {
  ap_depth : opaqueDepth s !! p = Some od;
  ap_number : sf_nan od = false;
  ap_color : opaqueColor s !! p = Some opaque;
  ap_first : offset_ s !! p = Some (Z.of_nat li);
  ap_next : offset_ s !! S p = Some (Z.of_nat (li + length l));
  ap_range : Z.of_nat (li + length l) < 2 ^ 32;
  ap_slots : reads (fragments_ s) li l;
  ap_numeric : numeric snd l;
  ap_count : (p < length (counts s))%nat;
  ap_image : (p < length (image_ s))%nat
}.

Definition pixel_done (s s' : Canvas) (p li : nat) (l : list slot) (od : float32) (opaque : vec4) : Prop :=
  offset_ s' = offset_ s /\ opaqueColor s' = opaqueColor s /\
  opaqueDepth s' = <[p := cleared od]> (opaqueDepth s) /\
  length (fragments_ s') = length (fragments_ s) /\
  (forall i, (i < li \/ li + length l <= i)%nat -> fragments_ s' !! i = fragments_ s !! i) /\
  (counts s', image_ s') =
    match l with
    | [] => (counts s, image_ s)
    | _ => (<[p := 0]> (counts s), <[p := Some (tone flags (composite od (base_color od opaque) l))]> (image_ s))
    end.

Lemma blend_pixel_spec s p li l od opaque :
  at_pixel_ s p li l od opaque -> spare od (fragments_ s) li l ->
  exists s', blend_pixel ARRAYSIZE flags background p s = Ret s' /\ pixel_done s s' p li l od opaque.
Proof.
  intros [Hd Hn Hc H1 H2 H3 Hr Hnum Hcnt Him] Hsp. unfold blend_pixel.
  rewrite (at_Some _ _ _ Hd), (at_Some _ _ _ H1), (at_Some _ _ _ H2). cbn [obind]. cbv zeta.
  rewrite Nat2Z.id. assert (Z.to_nat (wrapw 32 (Z.of_nat (li + length l) - Z.of_nat li)) = length l) as ->.
  { rewrite wrapw_id by (unfold in_range; lia). lia. }
  assert ((if nonzero od then store p f0 (opaqueDepth s) else Ret (opaqueDepth s))
          = Ret (<[p := cleared od]> (opaqueDepth s))) as ->.
  { unfold cleared. destruct (nonzero od); [apply store_lt; by eapply lookup_lt_Some|].
    by rewrite list_insert_id. }
  cbn [obind]. destruct l as [|x0 l0] eqn:El.
  { eexists. split; [done|]. by repeat split. }
  rewrite <- El in *. assert (l <> []) as Hne by (by rewrite El).
  assert (0 < length l)%nat as Hlen by (destruct l; cbn; [done|lia]).
  rewrite (proj2 (Nat.eqb_neq _ _)) by lia.
  assert ((if nonzero od then at_ (opaqueColor s) p else Ret background) = Ret (base_color od opaque)) as ->.
  { unfold base_color. destruct (nonzero od); [by apply at_Some|done]. }
  cbn [obind].
  assert (exists k, (if nonzero od then skip_behind (S (length l)) od (fragments_ s) li (length l) 0 else Ret 0%nat)
            = Ret k /\ run od l 0 k) as (k & -> & Hk).
  { destruct (nonzero od) eqn:En; [|exists 0%nat; split; [done|by apply no_depth_run; [done|lia]]].
    destruct (run_exists od l 0) as [h Hh]; [lia|]. exists h.
    split; [|done]. apply (skip_behind_spec od (fragments_ s) li l Hr (S (length l)) 0 h); [done|done|]. destruct Hh. lia. }
  cbn [obind].
  assert (exists fb', (if (length l - k <=? ARRAYSIZE)%nat
      then c <~ blend_array ARRAYSIZE od (fragments_ s) li (length l) k (base_color od opaque);; Ret (c, fragments_ s)
      else blend_in_place od (fragments_ s) li (length l) k (base_color od opaque))
      = Ret (composite od (base_color od opaque) l, fb') /\ length fb' = length (fragments_ s) /\
    forall i, (i < li \/ li + length l <= i)%nat -> fb' !! i = fragments_ s !! i) as (fb' & -> & Hfl & Hfb).
  { destruct (Nat.leb_spec (length l - k) ARRAYSIZE).
    - exists (fragments_ s). by rewrite (blend_array_spec od (fragments_ s) li l Hr Hsp).
    - apply blend_in_place_spec; [done|done|done|lia|done]. }
  cbn [obind]. rewrite !store_lt by done. cbn [obind]. eexists. split; [done|].
  unfold pixel_done. cbn. split_and!; [done|done|done|done|done|]. by rewrite El.
Qed.
(** C11: For one pixel, [blend.glsl] blends the fragments that are not behind the opaque
    surface over its colour, or over the background, in the order of a stable sort by
    descending depth.  It is the same through the array, of whatever size, as in
    place, and with the fragments behind the surface skipped one way or the other; the
    slots of the other pixels stay as they are, and the count and the opaque depth of
    the pixel are cleared for the next frame.  The buffers must hold the pixel, its
    fragments have depths that are numbers, and if the last one of its list is behind the
    surface the fragment buffer must go on behind the list, since the shader reads
    there. *)
Theorem blend_composites s p li l od opaque :
  at_pixel_ s p li l od opaque -> spare od (fragments_ s) li l ->
  exists s', blend_pixel ARRAYSIZE flags background p s = Ret s' /\ pixel_done s s' p li l od opaque.
Proof. apply blend_pixel_spec. Qed.

(** C31: The shader reads out of bounds when the last list fills the fragment buffer: if a
    pixel has at most ARRAYSIZE fragments, some in front of the opaque surface but not the
    last one of its list, and the buffer ends with the list, the depth one past the
    buffer is read. *)
Theorem full_buffer_reads_past s p li l od opaque x z :
  at_pixel_ s p li l od opaque -> x ∈ l -> visible od x = true -> last l = Some z -> hidden od z = true ->
  (length l <= ARRAYSIZE)%nat -> length (fragments_ s) = (li + length l)%nat ->
  blend_pixel ARRAYSIZE flags background p s = Undef.
Proof.
  intros [Hd Hn Hc H1 H2 H3 Hr _ _ _] Hx Hv Hz Hh Hl Hfull. pose proof Hh as [Hnz _]%andb_prop.
  unfold blend_pixel. rewrite (at_Some _ _ _ Hd), (at_Some _ _ _ H1), (at_Some _ _ _ H2). cbn [obind]. cbv zeta.
  rewrite Nat2Z.id. assert (Z.to_nat (wrapw 32 (Z.of_nat (li + length l) - Z.of_nat li)) = length l) as ->.
  { rewrite wrapw_id by (unfold in_range; lia). lia. }
  rewrite Hnz, store_lt by (by eapply lookup_lt_Some). cbn [obind].
  assert (0 < length l)%nat as Hlen by (destruct l; cbn; [done|lia]).
  rewrite (proj2 (Nat.eqb_neq _ _)), (at_Some _ _ _ Hc) by lia. cbn [obind].
  destruct (run_exists od l 0) as [k Hk]; [lia|].
  rewrite (skip_behind_spec od (fragments_ s) li l Hr (S (length l)) 0 k Hnz Hk) by (destruct Hk; lia).
  cbn [obind]. rewrite (proj2 (Nat.leb_le _ _)) by lia.
  assert (k < length l)%nat as Hlt.
  { destruct Hk as (Hle & Hhid & _). destruct (decide (k < length l)%nat); [done|]. rewrite Nat.add_0_l in Hle.
    rewrite drop_0, take_ge, Forall_forall in Hhid by lia. specialize (Hhid x Hx).
    unfold visible in Hv. cbv beta in Hhid. by rewrite Hhid in Hv. }
  destruct (lookup_lt_is_Some_2 l k Hlt) as [y Ey].
  rewrite (blend_array_overrun od (fragments_ s) li l Hr) with (y := y) (z := z); try done; [|..|lia].
  - apply lookup_ge_None_2. lia.
  - destruct Hk as (_ & _ & H). by apply H.
Qed.
End Pixel.

(** ** Three fragments in front of an opaque surface, one behind *)

#[global] Instance plain_glsl : Glsl := {| mix := fun _ c _ => c; pow := fun x _ => x |}.

Definition depth_of (n : Z) : float32 := fdiv (float_of_Z n) (float_of_Z 8).
Definition gray (n : Z) : vec4 := mkVec4 (float_of_Z n) (float_of_Z n) (float_of_Z n) f1.
Definition sample_slots : list slot := map (fun n => (gray n, depth_of n)) [7; 2; 4; 3].
Definition sample_canvas : Canvas :=
  mkCanvas [4] [1; 5] ((gray 0, f0) :: sample_slots) [gray 9] [depth_of 6] [None].

Lemma sample_spare fb : spare (depth_of 6) fb 1 sample_slots.
Proof. intros x [= <-]. by vm_compute. Qed.
Lemma sample_at_pixel : at_pixel_ sample_canvas 0 1 sample_slots (depth_of 6) (gray 9).
Proof.
  constructor; try (vm_compute; reflexivity); try (cbn; lia).
  - intros j x H. exact H.
  - repeat (apply Forall_cons; split; [vm_compute; reflexivity|]). apply Forall_nil. exact I.
Qed.

Lemma blend_composites_witness : exists s',
  blend_pixel 1 0 (gray 1) 0 sample_canvas = Ret s' /\ image_ s' = [Some (gray 2)] /\ counts s' = [0].
Proof.
  destruct (blend_composites 1 0 (gray 1) sample_canvas 0 1 sample_slots (depth_of 6) (gray 9) sample_at_pixel (sample_spare _))
    as (s' & E & _ & _ & _ & _ & _ & Hi).
  exists s'. split; [exact E|]. cbn in Hi. injection Hi as -> ->. split; vm_compute; reflexivity.
Defined.

(** The same list with a hidden fragment at its end. *)
Definition full_slots : list slot := map (fun n => (gray n, depth_of n)) [2; 7].
Definition full_canvas : Canvas := mkCanvas [2] [1; 3] ((gray 0, f0) :: full_slots) [gray 9] [depth_of 6] [None].

Lemma full_buffer_reads_past_witness : blend_pixel 16 0 (gray 1) 0 full_canvas = Undef.
Proof.
  refine (full_buffer_reads_past 16 0 (gray 1) full_canvas 0 1 full_slots (depth_of 6) (gray 9)
    (gray 2, depth_of 2) (gray 7, depth_of 7) _ (list_elem_of_here _ _) _ _ _ _ _);
    try (vm_compute; reflexivity); [|cbn; lia].
  constructor; try (vm_compute; reflexivity); try (cbn; lia); [intros j x H; exact H|].
  repeat (apply Forall_cons; split; [vm_compute; reflexivity|]). apply Forall_nil. exact I.
Defined.
