(* ===== verification/TransparentFrame.v ===== *)
(** * A frame of transparent fragments

    The passes of [PrefixSum] and [Transparency] in the order of [render] in
    [v3d-Common/Rendering/renderheadless.cpp]: [recordCountCommandBuffer] and
    [recordComputeCommandBuffer], [readFeedback], and the two last subpasses.  The
    image does not depend on the order in which the device runs the invocations of a
    pass, and the buffers are left as the next frame needs them. *)

From S2P Require Import Prelude Ieee Xstream Bound V3dData Model Renderer Mesh Tess Objects Workgroup PrefixSum.
From S2P Require Import Transparency BlendSort.
From stdpp Require Import sorting.
#[local] Open Scope Z_scope.

Definition blendBigSize : Z := 128.
Definition array_size (gpu : Gpu) : nat := Z.to_nat (if blendBig gpu then blendBigSize else blendSmallSize).

(** The buffers between two frames. *)
Record Layers := mkLayers {
  gpu_ : Gpu; sums_ : Sums; slots_ : list slot; opaque_ : list vec4; depth_ : list float32; picture_ : list (option vec4)
}.

Section Frame.
Context {glsl : Glsl}.

(** One frame: [d] answers the allocations, [fresh n] is a new fragment buffer of [n];
    [counting] and [drawing] are the fragments in the orders of the two geometry passes,
    [order] and [blending] those of the last dispatch and of the blend pass.  [None]: the
    fragment buffer could not grow. *)
Definition transparent_frame (d : Device) (width height maxX flags : Z) (background : vec4) (fresh : Z -> list slot)
    (order : list nat) (counting drawing : list Fragment) (blending : list nat) (s : Layers) : outcome (option Layers) :=
  let u := sums_ s in
  count <~ ofold (count_fragment width) counting (countBuffer u);;
  u <~ compute LOCALSIZE BLOCKSIZE maxX order (pixel_count width height)
         (mkSums count (maxDepthCell u) (globalSumBuffer u) (offsetBuffer u) (feedbackSize u) (feedbackFragments u));;
  let d := mkDevice (maxFramebufferWidth d) (maxFramebufferHeight d) (attachments_ok d) (alloc_ok d) (exr_ok d)
             (feedbackSize u) (feedbackFragments u) (vulkan_error d) (image d) in
  let '(ok, gpu) := readFeedback d (gpu_ s) in
  if negb ok then Ret None
  else
    let fragment := if maxFragments (gpu_ s) <? feedbackFragments u then fresh (maxFragments gpu) else slots_ s in
    '(offset, fragment) <~ ofold (put_fragment width) drawing (offsetBuffer u, fragment);;
    c <~ ofold (blend_pixel (array_size gpu) flags background) blending
           (mkCanvas (countBuffer u) offset fragment (opaque_ s) (depth_ s) (picture_ s));;
    Ret (Some (mkLayers gpu
           (mkSums (counts c) (maxDepthCell u) (globalSumBuffer u) (offset_ c) (feedbackSize u) (feedbackFragments u))
           (fragments_ c) (opaqueColor c) (opaqueDepth c) (image_ c))).
End Frame.

(** ** The fragments of a pixel *)

Section Pixels.
Context (width : Z).
#[local] Abbreviation px := (pixel width).

Definition frags (p : nat) (fs : list Fragment) : list Fragment := List.filter (fun f => (px f =? p)%nat) fs.
Definition nfrags (p : nat) (fs : list Fragment) : nat := length (frags p fs).
(** The slots of a pixel: the last fragment comes first. *)
Definition slots_of (p : nat) (fs : list Fragment) : list slot := rev (map (fun f => (fcolor f, fdepth f)) (frags p fs)).
(** The number of fragments of the pixels before. *)
Definition start (fs : list Fragment) (p : nat) : nat := length (List.filter (fun f => (px f <? p)%nat) fs).

Lemma length_slots_of p fs : length (slots_of p fs) = nfrags p fs.
Proof. unfold slots_of, nfrags. by rewrite length_rev, length_map. Qed.

Lemma start_S fs p : start fs (S p) = (start fs p + nfrags p fs)%nat.
Proof.
  unfold start, nfrags, frags. induction fs as [|f fs IH]; cbn [List.filter]; [done|].
  destruct (Nat.ltb_spec (px f) (S p)), (Nat.ltb_spec (px f) p), (Nat.eqb_spec (px f) p); cbn [length]; lia.
Qed.
Lemma start_mono fs p q : (p <= q)%nat -> (start fs p <= start fs q)%nat.
Proof. induction 1 as [|q _ IH]; [done|]. rewrite start_S. lia. Qed.
Lemma start_le fs p : (start fs p <= length fs)%nat.
Proof. apply filter_length_le. Qed.
Lemma start_all fs n : Forall (fun f => (px f < n)%nat) fs -> start fs n = length fs.
Proof.
  intros H. unfold start. rewrite filter_all; [done|]. eapply Forall_impl; [exact H|].
  intros f Hf. by apply Nat.ltb_lt.
Qed.
Lemma start_0 fs : start fs 0 = 0%nat.
Proof. unfold start. rewrite filter_none; [done|]. by apply Forall_forall. Qed.

Lemma frags_perm p fs fs' : fs ≡ₚ fs' -> frags p fs ≡ₚ frags p fs'.
Proof.
  unfold frags. induction 1 as [|f l l' _ IH|f g l|l1 l2 l3 _ IH1 _ IH2]; cbn [List.filter]; [done| | |by rewrite IH1].
  - destruct (_ =? _)%nat; [by constructor|done].
  - destruct (px g =? p)%nat, (px f =? p)%nat; by constructor || done.
Qed.
Lemma nfrags_perm p fs fs' : fs ≡ₚ fs' -> nfrags p fs = nfrags p fs'.
Proof. intros H. unfold nfrags. by rewrite (frags_perm p fs fs' H). Qed.
Lemma start_perm fs fs' p : fs ≡ₚ fs' -> start fs p = start fs' p.
Proof.
  intros H. induction p as [|p IH]; [by rewrite !start_0|]. by rewrite !start_S, IH, (nfrags_perm p fs fs').
Qed.
Lemma nfrags_app p l l' : nfrags p (l ++ l') = (nfrags p l + nfrags p l')%nat.
Proof. unfold nfrags, frags. by rewrite List.filter_app, length_app. Qed.

(** ** The count pass *)

Lemma wsum_start (c : nat -> Z) fs n :
  (forall p, (p < n)%nat -> c p = Z.of_nat (nfrags p fs)) -> wsum c 0 n = Z.of_nat (start fs n).
Proof.
  induction n as [|n IH]; intros H; [by rewrite start_0|].
  rewrite wsum_S, Nat.add_0_l, start_S, H, IH by (lia || (intros; apply H; lia)). lia.
Qed.

Lemma count_pass fs : forall cs,
  Forall (fun f => (px f < length cs)%nat) fs ->
  (forall p, 0 <= val 0 cs p /\ val 0 cs p + Z.of_nat (length fs) < 2 ^ 32) ->
  exists cs', ofold (count_fragment width) fs cs = Ret cs' /\ length cs' = length cs /\
    forall p, val 0 cs' p = val 0 cs p + Z.of_nat (nfrags p fs).
Proof.
  induction fs as [|f fs IH]; intros cs Hf Hc; cbn [ofold].
  { exists cs. split_and!; [done|done|]. intros p. cbn. lia. }
  apply Forall_cons in Hf as [Hf Hfs]. unfold count_fragment at 1. rewrite (at_val 0) by done. cbn [obind].
  rewrite store_lt by done. cbn [obind].
  assert (add32 (val 0 cs (px f)) 1 = val 0 cs (px f) + 1) as ->.
  { unfold add32. apply wrapw_id. specialize (Hc (px f)). cbn [length] in Hc. unfold in_range. lia. }
  assert (forall p, val 0 (<[px f := val 0 cs (px f) + 1]> cs) p
            = val 0 cs p + (if (px f =? p)%nat then 1 else 0)) as Hv.
  { intros p. unfold val at 1. destruct (Nat.eqb_spec (px f) p) as [<-|Hn].
    - by rewrite list_lookup_insert_eq.
    - rewrite list_lookup_insert_ne by done. fold (val 0 cs p). lia. }
  destruct (IH (<[px f := val 0 cs (px f) + 1]> cs)) as (cs' & E & Hl & H').
  - by rewrite length_insert.
  - intros p. rewrite Hv. specialize (Hc p). cbn [length] in Hc. destruct (_ =? _)%nat; lia.
  - exists cs'. rewrite length_insert in Hl. split_and!; [done|done|].
    intros p. rewrite H', Hv. unfold nfrags, frags. cbn [List.filter]. destruct (_ =? _)%nat; cbn [length]; lia.
Qed.

(** ** The transparent pass *)

Section Transparent.
Context (F : list Fragment) (n : nat) (HF : Forall (fun f => (px f < n)%nat) F) (H32 : Z.of_nat (length F) < 2 ^ 32).
#[local] Abbreviation first p done := (start F (S p) - nfrags p done)%nat.

(** After the fragments of [done]. *)
Definition placed (done : list Fragment) (s : list Z * list slot) : Prop :=
  (forall p, (p <= n)%nat -> s.1 !! p = Some (Z.of_nat (first p done))) /\
  (length F <= length s.2)%nat /\
  (forall p, (p <= n)%nat -> reads s.2 (first p done) (slots_of p done)).

Lemma place_step fs f rest s :
  F = fs ++ f :: rest -> placed fs s ->
  exists s', put_fragment width f s = Ret s' /\ placed (fs ++ [f]) s' /\ length s'.1 = length s.1 /\ length s'.2 = length s.2.
Proof.
  intros EF (H1 & H2 & H3).
  assert (px f < n)%nat as Hp by (rewrite EF in HF; apply Forall_app in HF as [_ HF']; by inversion HF').
  assert (forall p, nfrags p fs + (if (px f =? p)%nat then 1 else 0) <= nfrags p F)%nat as Hle.
  { intros p. rewrite EF, nfrags_app. unfold nfrags at 3. unfold frags. cbn [List.filter].
    destruct (_ =? _)%nat; cbn [length]; lia. }
  assert (forall p, nfrags p (fs ++ [f]) = nfrags p fs + (if (px f =? p)%nat then 1 else 0))%nat as Hsn.
  { intros p. rewrite nfrags_app. f_equal. unfold nfrags, frags. cbn [List.filter]. by destruct (_ =? _)%nat. }
  pose proof (Hle (px f)) as Hlf. rewrite Nat.eqb_refl in Hlf.
  pose proof (start_S F (px f)) as Hst. pose proof (start_le F (S (px f))) as Hsl.
  unfold put_fragment. rewrite (at_Some _ _ _ (H1 (px f) ltac:(lia))). cbn [obind]. cbv zeta.
  set (i := (first (px f) fs - 1)%nat).
  rewrite (wrapw_id 32 (_ - 1)) by (unfold in_range; lia).
  replace (Z.of_nat (first (px f) fs) - 1) with (Z.of_nat i) by lia. rewrite Nat2Z.id.
  rewrite store_lt by (by eapply lookup_lt_Some, (H1 (px f)); lia). cbn [obind].
  rewrite store_lt by lia. cbn [obind]. eexists. split; [done|]. cbn [fst snd].
  split; [|by rewrite !length_insert]. split_and!.
  - intros p Hpn. cbn [fst]. rewrite Hsn. destruct (Nat.eqb_spec (px f) p) as [<-|Hne].
    + rewrite list_lookup_insert_eq by (by eapply lookup_lt_Some, (H1 (px f)); lia). do 2 f_equal. lia.
    + rewrite list_lookup_insert_ne, H1 by done. do 2 f_equal. lia.
  - cbn [snd]. by rewrite length_insert.
  - intros p Hpn j x Hx. cbn [snd]. unfold slots_of, frags in Hx. rewrite List.filter_app in Hx. cbn [List.filter] in Hx.
    rewrite Hsn. specialize (H3 p Hpn). destruct (Nat.eqb_spec (px f) p) as [Hfp|Hne].
    + subst p. rewrite map_app, rev_app_distr in Hx. cbn [map rev app] in Hx. destruct j as [|j].
      * injection Hx as <-. replace (first (px f) fs - 1 + 0)%nat with i by lia.
        replace (start F (S (px f)) - (nfrags (px f) fs + 1) + 0)%nat with i by lia.
        rewrite list_lookup_insert_eq by lia. done.
      * cbn in Hx. rewrite list_lookup_insert_ne by lia.
        replace (start F (S (px f)) - (nfrags (px f) fs + 1) + S j)%nat with (first (px f) fs + j)%nat by lia.
        by apply H3.
    + rewrite app_nil_r in Hx. rewrite Nat.add_0_r. rewrite list_lookup_insert_ne; [by apply H3|].
      apply lookup_lt_Some in Hx. change (j < length (slots_of p fs))%nat in Hx. rewrite length_slots_of in Hx.
      pose proof (Hle p) as Hlp. pose proof (start_S F p).
      destruct (Nat.lt_total (px f) p) as [Hlt|[Heq|Hgt]]; [|done|].
      * pose proof (start_mono F (S (px f)) p ltac:(lia)). lia.
      * pose proof (start_mono F (S p) (px f) ltac:(lia)). lia.
Qed.

Lemma place_all rest fs s :
  F = fs ++ rest -> placed fs s ->
  exists s', ofold (put_fragment width) rest s = Ret s' /\ placed F s' /\ length s'.1 = length s.1 /\ length s'.2 = length s.2.
Proof.
  revert fs s. induction rest as [|f rest IH]; intros fs s EF H; cbn [ofold].
  { exists s. rewrite app_nil_r in EF. by subst fs. }
  destruct (place_step fs f rest s EF H) as (s1 & -> & H1 & L1 & L2). cbn [obind].
  destruct (IH (fs ++ [f]) s1) as (s2 & -> & H2 & L3 & L4); [by rewrite <- app_assoc|done|].
  exists s2. split_and!; [done|done|congruence|congruence].
Qed.

(** All fragments are in place. *)
Lemma place_pass offset fragment :
  (forall p, (p <= n)%nat -> offset !! p = Some (Z.of_nat (start F (S p)))) -> (length F <= length fragment)%nat ->
  exists offset' fragment', ofold (put_fragment width) F (offset, fragment) = Ret (offset', fragment') /\
    length offset' = length offset /\ length fragment' = length fragment /\
    (forall p, (p <= n)%nat -> offset' !! p = Some (Z.of_nat (start F p))) /\
    (forall p, (p <= n)%nat -> reads fragment' (start F p) (slots_of p F)).
Proof.
  intros Ho Hl. destruct (place_all F [] (offset, fragment)) as ([o' f'] & E & (H1 & H2 & H3) & L1 & L2); [done| |].
  { split_and!; [|done|].
    - intros p Hp. cbn. by rewrite Nat.sub_0_r, Ho.
    - by intros p _ j x. }
  exists o', f'. split_and!; [done|done|done| |].
  - intros p Hp. specialize (H1 p Hp). cbn in H1. rewrite H1. do 2 f_equal. rewrite start_S. lia.
  - intros p Hp. specialize (H3 p Hp). cbn [snd] in H3.
    replace (first p F) with (start F p) in H3; [done|]. rewrite start_S. lia.
Qed.
End Transparent.
End Pixels.

(** ** The blend pass *)

Section BlendPass.
Context {glsl : Glsl} (width : Z) (ARRAYSIZE : nat) (flags : Z) (background : vec4) (F : list Fragment).
Context (od : nat -> float32) (oc : nat -> vec4).

Definition slots_ready (s : Canvas) (p : nat) : Prop :=
  at_pixel_ s p (start width F p) (slots_of width p F) (od p) (oc p) /\
  spare (od p) (fragments_ s) (start width F p) (slots_of width p F).

(** The colour of a pixel with fragments. *)
Definition pixel_color (p : nat) : vec4 :=
  tone flags (composite (od p) (base_color background (od p) (oc p)) (slots_of width p F)).

Definition drawn_pixel (s s' : Canvas) (p : nat) : Prop :=
  image_ s' !! p = (if decide (frags width p F = []) then image_ s !! p else Some (Some (pixel_color p))) /\
  counts s' !! p = (if decide (frags width p F = []) then counts s !! p else Some 0) /\
  opaqueDepth s' !! p = Some (cleared (od p)).
Definition same_pixel (s s' : Canvas) (p : nat) : Prop :=
  image_ s' !! p = image_ s !! p /\ counts s' !! p = counts s !! p /\ opaqueDepth s' !! p = opaqueDepth s !! p.

Definition sizes_of (s : Canvas) :=
  (length (counts s), length (offset_ s), length (fragments_ s), length (image_ s), length (opaqueDepth s), opaqueColor s).

Lemma slots_nil p : slots_of width p F = [] <-> frags width p F = [].
Proof.
  split; intros H; [|unfold slots_of; by rewrite H]. apply nil_length_inv.
  change (nfrags width p F = 0%nat). by rewrite <- length_slots_of, H.
Qed.

Lemma one_pixel s p :
  slots_ready s p ->
  exists s', blend_pixel ARRAYSIZE flags background p s = Ret s' /\ sizes_of s' = sizes_of s /\ drawn_pixel s s' p /\
    (forall q, q <> p -> same_pixel s s' q /\ (slots_ready s q -> slots_ready s' q)).
Proof.
  intros [H Hsp].
  destruct (blend_pixel_spec ARRAYSIZE flags background s p _ _ _ _ H Hsp) as (s' & E & E1 & E2 & E3 & E4 & E5 & E6).
  exists s'. split; [done|].
  assert (forall q, q <> p -> image_ s' !! q = image_ s !! q /\ counts s' !! q = counts s !! q) as Hq.
  { intros q Hq. destruct (slots_of width p F); injection E6 as Ec Ei; rewrite ?Ec, ?Ei; [done|].
    by rewrite !list_lookup_insert_ne. }
  assert (length (counts s') = length (counts s) /\ length (image_ s') = length (image_ s)) as [Lc Li].
  { destruct (slots_of width p F); injection E6 as Ec Ei; rewrite ?Ec, ?Ei; [done|]. by rewrite !length_insert. }
  destruct H as [Hd Hn Hc H1 H2 H3 Hr Hnum Hcnt Him]. split_and!.
  - unfold sizes_of. by rewrite Lc, Li, E1, E2, E3, E4, length_insert.
  - unfold drawn_pixel. split_and!; [| |rewrite E3; apply list_lookup_insert_eq; by eapply lookup_lt_Some];
      destruct (decide (frags width p F = [])) as [Hf|Hf];
      rewrite <- slots_nil in Hf; unfold pixel_color;
      destruct (slots_of width p F) eqn:El; try done; injection E6 as Ec Ei; rewrite ?Ec, ?Ei; try done.
    + by rewrite list_lookup_insert_eq.
    + by rewrite list_lookup_insert_eq.
  - intros q Hne. destruct (Hq q Hne) as [Hi Hcq]. split.
    { split_and!; [done|done|]. rewrite E3. by apply list_lookup_insert_ne. }
    intros [[Gd Gn Gc G1 G2 G3 Gr Gnum Gcnt Gim] Gsp]. split.
    2: { intros x Hx Hh. apply lookup_lt_is_Some. rewrite E4. by apply lookup_lt_is_Some, (Gsp x). }
    split; try congruence; [|].
    + rewrite E3. by rewrite list_lookup_insert_ne.
    + intros j x Hj. rewrite E5; [by apply Gr|]. pose proof (lookup_lt_Some _ _ _ Hj) as Hlt.
      rewrite length_slots_of in *. pose proof (start_S width F q). pose proof (start_S width F p).
      destruct (Nat.lt_total q p) as [Hlt'|[Heq|Hgt]]; [left|done|right].
      * pose proof (start_mono width F (S q) p ltac:(lia)). lia.
      * pose proof (start_mono width F (S p) q ltac:(lia)). lia.
Qed.

Lemma blend_pass ps s :
  NoDup ps -> (forall p, p ∈ ps -> slots_ready s p) ->
  exists s', ofold (blend_pixel ARRAYSIZE flags background) ps s = Ret s' /\ sizes_of s' = sizes_of s /\
    (forall p, p ∈ ps -> drawn_pixel s s' p) /\ (forall p, p ∉ ps -> same_pixel s s' p).
Proof.
  revert s. induction ps as [|p ps IH]; intros s Hnd H; cbn [ofold].
  { exists s. split_and!; [done|done|by intros p ?%elem_of_nil|done]. }
  apply NoDup_cons in Hnd as [Hp Hnd].
  destruct (one_pixel s p (H p (list_elem_of_here _ _))) as (s1 & -> & H0 & H1 & H2). cbn [obind].
  destruct (IH s1) as (s2 & E & H5 & H3 & H4); [done| |].
  { intros q Hq. destruct (H2 q) as [_ H2']; [by intros ->|]. apply H2', H. by apply list_elem_of_further. }
  exists s2. split_and!; [done|congruence| |].
  - intros q [->|Hq]%elem_of_cons.
    + destruct (H4 p Hp) as (K1 & K2 & K3). unfold drawn_pixel. by rewrite K1, K2, K3.
    + destruct (H2 q) as [(G1 & G2 & G3) _]; [by intros ->|]. destruct (H3 q Hq) as (K1 & K2 & K3).
      unfold drawn_pixel. by rewrite K1, K2, K3, G1, G2.
  - intros q [Hq Hn]%not_elem_of_cons. destruct (H2 q Hq) as [(G1 & G2 & G3) _].
    destruct (H4 q Hn) as (K1 & K2 & K3). unfold same_pixel. by rewrite K1, K2, K3.
Qed.
End BlendPass.

(** ** The frame *)

(** What holds between two frames. *)
Record steady (width height : Z) (s : Layers) : Prop := mkSteady {
  st_allocated : allocated width height (gpu_ s) (sums_ s);
  st_counts : Forall (fun c => c = 0) (countBuffer (sums_ s));
  st_room : maxFragments (gpu_ s) = Z.of_nat (length (slots_ s));
  st_opaque : length (opaque_ s) = Z.to_nat (pixel_count width height);
  st_depth : length (depth_ s) = Z.to_nat (pixel_count width height);
  st_numbers : Forall (fun d : float32 => sf_nan d = false) (depth_ s);
  st_picture : length (picture_ s) = Z.to_nat (width * height)
}.

(** A fragment that the rasteriser can give. *)
Definition inside (width height : Z) (f : Fragment) : Prop :=
  0 <= fx f < width /\ 0 <= fy f < height /\ sf_nan (fdepth f) = false.

Section Spec.
Context {glsl : Glsl}.
Context (d : Device) (width height maxX flags : Z) (background : vec4) (fresh : Z -> list slot).
Context (order : list nat) (counting drawing : list Fragment) (blending : list nat).
Context (Hw : 0 < width) (Hh : 0 < height) (Hpixels : pixel_count width height <= 2 ^ 30).
Context (Hmax : Z.of_nat (groups width height) <= maxX) (Horder : order ≡ₚ seq 0 (groups width height)).
Context (Halloc : forall n, alloc_ok d n = true) (Hfresh : forall n, 0 <= n -> Z.of_nat (length (fresh n)) = n).
Context (Hinside : Forall (inside width height) counting) (Hdrawing : drawing ≡ₚ counting).
Context (H32 : Z.of_nat (length counting) * 11 < 2 ^ 32).
Context (Hblending : blending ≡ₚ seq 0 (Z.to_nat (width * height))).

Lemma length_drawing : length drawing = length counting.
Proof. by apply Permutation_length. Qed.

Lemma area_bounds : 0 < width * height < pixel_count width height.
Proof. unfold pixel_count. nia. Qed.

Lemma pixel_inside f : inside width height f -> (pixel width f < Z.to_nat (width * height))%nat.
Proof.
  intros (Hx & Hy & _). pose proof area_bounds. unfold pixel, pixel_at.
  assert (fy f * width + fx f < width * height) by nia. assert (0 <= fy f * width) by nia.
  rewrite (wrapw_id 32 (_ * _)), wrapw_id by (unfold in_range; lia). lia.
Qed.
Lemma pixels_inside n :
  (Z.to_nat (width * height) <= n)%nat -> Forall (fun f => (pixel width f < n)%nat) counting.
Proof. intros Hn. eapply Forall_impl; [exact Hinside|]. intros f Hf%pixel_inside. lia. Qed.
Lemma no_frags p : (Z.to_nat (width * height) <= p)%nat -> frags width p counting = [].
Proof.
  intros Hp. apply filter_none. pose proof (pixels_inside p Hp) as H. eapply Forall_impl; [exact H|].
  intros f Hf. apply Nat.eqb_neq. cbn in Hf. lia.
Qed.

(** The buffer is not exactly full: it is larger than needed, or it grows by a slot at
    least. *)
Definition room_left (gpu : Gpu) : Prop :=
  Z.of_nat (length counting) < maxFragments gpu \/
  maxFragments gpu < Z.of_nat (length counting) /\ 10 <= Z.of_nat (length counting).

(** The fragment buffer is large enough. *)
Lemma feedback_room size gpu (slots : list slot) :
  maxFragments gpu = Z.of_nat (length slots) -> room_left gpu ->
  let d := mkDevice (maxFramebufferWidth d) (maxFramebufferHeight d) (attachments_ok d) (alloc_ok d) (exr_ok d)
             size (Z.of_nat (length counting)) (vulkan_error d) (image d) in
  let fragment := if maxFragments gpu <? Z.of_nat (length counting)
                  then fresh (maxFragments (readFeedback d gpu).2) else slots in
  (readFeedback d gpu).1 = true /\ (length counting < length fragment)%nat /\
  maxFragments (readFeedback d gpu).2 = Z.of_nat (length fragment).
Proof.
  intros Hg Hroom. cbv zeta. unfold readFeedback. unfold room_left in Hroom. cbn [Renderer.maxDepth counted alloc_ok].
  set (g := switchBlendPipeline size gpu).
  assert (maxFragments g = maxFragments gpu) as Eg
    by (unfold g, switchBlendPipeline; destruct (blendBig gpu); split_ifs; done).
  rewrite Eg. destruct (Z.ltb_spec (maxFragments gpu) (Z.of_nat (length counting))) as [Hlt|Hge].
  - cbn [fst snd]. rewrite !Halloc. split; [done|].
    rewrite wrapw_id by (unfold in_range; lia).
    assert (Z.of_nat (length counting) + 1 <= Z.of_nat (length counting) * 11 / 10)
      by (apply Z.div_le_lower_bound; lia).
    set (wanted := Z.of_nat (length counting) * 11 / 10) in *.
    change (maxFragments (g <| maxFragments := wanted |>)) with wanted.
    pose proof (Hfresh wanted ltac:(lia)). split; lia.
  - cbn [fst snd]. rewrite Eg. split_and!; [done|lia|done].
Qed.

Lemma zero_val (cs : list Z) p : Forall (fun c => c = 0) cs -> val 0 cs p = 0.
Proof.
  intros H. unfold val. destruct (cs !! p) as [c|] eqn:E; [|done]. rewrite Forall_lookup in H. by apply (H p).
Qed.

Lemma counts_room s :
  allocated width height (gpu_ s) (sums_ s) ->
  (Z.to_nat (width * height) < length (countBuffer (sums_ s)))%nat /\
  length (offsetBuffer (sums_ s)) = (length (countBuffer (sums_ s)) + 2)%nat.
Proof.
  intros Ha. pose proof area_bounds.
  destruct (allocated_lengths width height (gpu_ s) (sums_ s) ltac:(lia) ltac:(lia) Hpixels Ha) as (H1 & _ & H3).
  destruct (groups_bounds width height ltac:(lia) ltac:(lia)) as (_ & _ & H4).
  assert (Z.of_nat (group_size LOCALSIZE BLOCKSIZE) = 2048) as E by apply group_size_2048.
  split; [rewrite H1; nia|by rewrite H3, H1].
Qed.

(** The count pass and the sums. *)
Lemma counted_and_summed s :
  steady width height s ->
  let s0 := sums_ s in
  exists cs u, ofold (count_fragment width) counting (countBuffer s0) = Ret cs /\
    compute LOCALSIZE BLOCKSIZE maxX order (pixel_count width height)
      (mkSums cs (maxDepthCell s0) (globalSumBuffer s0) (offsetBuffer s0) (feedbackSize s0) (feedbackFragments s0)) = Ret u /\
    countBuffer u = cs /\ length cs = length (countBuffer s0) /\
    length (globalSumBuffer u) = length (globalSumBuffer s0) /\ length (offsetBuffer u) = length (offsetBuffer s0) /\
    (forall p, val 0 cs p = Z.of_nat (nfrags width p counting)) /\
    (forall p, (p <= length cs)%nat -> offsetBuffer u !! p = Some (Z.of_nat (start width counting (S p)))) /\
    feedbackFragments u = Z.of_nat (length counting).
Proof.
  intros [Ha Hz _ _ _ _ _] s0. destruct (counts_room s Ha) as [Hn _]. fold s0 in Ha, Hz, Hn.
  destruct (count_pass width counting (countBuffer s0)) as (cs & Ec & Lc & Hc).
  { apply pixels_inside. lia. }
  { intros p. rewrite zero_val by done. lia. }
  assert (forall p, val 0 cs p = Z.of_nat (nfrags width p counting)) as Hv by (intros p; by rewrite Hc, zero_val).
  set (s1 := mkSums cs (maxDepthCell s0) (globalSumBuffer s0) (offsetBuffer s0) (feedbackSize s0) (feedbackFragments s0)).
  assert (allocated width height (gpu_ s) s1) as Ha1 by (unfold allocated, cells in *; cbn; by rewrite Lc).
  destruct (compute_sums width height (gpu_ s) s1 maxX order ltac:(lia) ltac:(lia) Hpixels Ha1 Hmax Horder)
    as (u & Eu & E1 & E2 & E3 & Ho & Hf).
  cbn [countBuffer globalSumBuffer offsetBuffer s1] in E1, E2, E3, Ho, Hf.
  assert (forall n, sum32 (val 0 cs) 0 n = Z.of_nat (start width counting n)) as Hsum.
  { intros n. unfold sum32. rewrite (wsum_start width _ counting) by (intros; apply Hv).
    apply wrapw_id. pose proof (start_le width counting n). unfold in_range. lia. }
  exists cs, u. split_and!; try done.
  - intros p Hp. by rewrite Ho, Hsum.
  - rewrite Hf, Hsum. f_equal. apply start_all, pixels_inside. lia.
Qed.

(** The canvas is ready for the blend pass. *)
Lemma canvas_ready s cs offset fragment p :
  steady width height s -> length cs = length (countBuffer (sums_ s)) ->
  (forall p, (p <= length cs)%nat -> offset !! p = Some (Z.of_nat (start width drawing p))) ->
  (forall p, (p <= length cs)%nat -> reads fragment (start width drawing p) (slots_of width p drawing)) ->
  (length counting < length fragment)%nat -> (p < Z.to_nat (width * height))%nat ->
  slots_ready width drawing (val f0 (depth_ s)) (val black (opaque_ s))
    (mkCanvas cs offset fragment (opaque_ s) (depth_ s) (picture_ s)) p.
Proof.
  intros [Ha _ _ Lo Ld Hnum Lp] Lc Hoff Hread Hroom Hp. destruct (counts_room s Ha) as [Hn _]. pose proof area_bounds.
  assert (forall {A} (x : A) l, length l = Z.to_nat (pixel_count width height) -> l !! p = Some (val x l p)) as Hlook.
  { intros A x l Hl. unfold val. destruct (lookup_lt_is_Some_2 l p) as [y ->]; [lia|done]. }
  split.
  2: { intros x _ _. apply lookup_lt_is_Some. cbn. rewrite length_slots_of, <- start_S.
       pose proof (start_le width drawing (S p)) as Hle. rewrite length_drawing in Hle. lia. }
  split; cbn; [by apply Hlook| |by apply Hlook|apply Hoff; lia| | |apply Hread; lia| |lia|lia].
  - rewrite Forall_lookup in Hnum. apply (Hnum p). by apply Hlook.
  - rewrite length_slots_of, <- start_S. apply Hoff. lia.
  - rewrite length_slots_of, <- start_S. pose proof (start_le width drawing (S p)) as Hle.
    rewrite length_drawing in Hle. lia.
  - unfold numeric, slots_of. apply Forall_rev, Forall_map, Forall_forall.
    intros f Hf%list_elem_of_In%filter_In%proj1%list_elem_of_In. rewrite Hdrawing in Hf.
    rewrite Forall_forall in Hinside. by destruct (Hinside f Hf) as (_ & _ & ?).
Qed.

(** The buffers after the blend pass. *)
Lemma steady_again s cs canvas c gl gpu m size total :
  steady width height s ->
  canvas = mkCanvas cs (offset_ canvas) (fragments_ canvas) (opaque_ s) (depth_ s) (picture_ s) ->
  length cs = length (countBuffer (sums_ s)) -> length (offset_ canvas) = length (offsetBuffer (sums_ s)) ->
  length gl = length (globalSumBuffer (sums_ s)) ->
  maxFragments gpu = Z.of_nat (length (fragments_ canvas)) ->
  (forall p, val 0 cs p = Z.of_nat (nfrags width p counting)) ->
  sizes_of c = sizes_of canvas ->
  (forall p, (p < Z.to_nat (width * height))%nat ->
     drawn_pixel width flags background drawing (val f0 (depth_ s)) (val black (opaque_ s)) canvas c p) ->
  (forall p, ~ (p < Z.to_nat (width * height))%nat -> same_pixel canvas c p) ->
  steady width height (mkLayers gpu
    (mkSums (counts c) m gl (offset_ c) size total)
    (fragments_ c) (opaqueColor c) (opaqueDepth c) (image_ c)).
Proof.
  intros [Ha Hz Hroom Lo Ld Hnum Lp] -> Lc Lof Lg Hroom' Hv Hsz Hdr Hsame. injection Hsz as S1 S2 S3 S4 S5 S6.
  cbn in *. split; cbn.
  - unfold allocated, cells in *. cbn. by rewrite S1, S2, Lc, Lof, Lg.
  - apply Forall_lookup. intros p x Hx. destruct (decide (p < Z.to_nat (width * height))%nat) as [Hp|Hp].
    + destruct (Hdr p Hp) as (_ & H & _). rewrite Hx in H. destruct (decide (frags width p drawing = [])) as [Hf|Hf].
      * assert (x = val 0 cs p) as -> by (symmetry; by apply val_lookup). rewrite Hv.
        rewrite (nfrags_perm width p counting drawing) by done. unfold nfrags. by rewrite Hf.
      * by injection H.
    + destruct (Hsame p Hp) as (_ & H & _). rewrite Hx in H.
      assert (x = val 0 cs p) as -> by (symmetry; by apply val_lookup). rewrite Hv. unfold nfrags.
      by rewrite no_frags by lia.
  - by rewrite S3.
  - by rewrite S6.
  - by rewrite S5.
  - apply Forall_lookup. intros p x Hx. destruct (decide (p < Z.to_nat (width * height))%nat) as [Hp|Hp].
    + destruct (Hdr p Hp) as (_ & _ & H). rewrite Hx in H. injection H as ->. unfold cleared.
      destruct (nonzero _); [done|]. unfold val. destruct (depth_ s !! p) as [y|] eqn:E; [|done].
      rewrite Forall_lookup in Hnum. by apply (Hnum p).
    + destruct (Hsame p Hp) as (_ & _ & H). rewrite Hx in H. rewrite Forall_lookup in Hnum. by apply (Hnum p).
  - by rewrite S4.
Qed.

(** The colour that the frame gives to a pixel. *)
Definition frame_color (s : Layers) (p : nat) : vec4 :=
  pixel_color width flags background drawing (val f0 (depth_ s)) (val black (opaque_ s)) p.

Lemma passes_spec s :
  steady width height s -> room_left (gpu_ s) ->
  exists s', transparent_frame d width height maxX flags background fresh order counting drawing blending s =
      Ret (Some s') /\
    steady width height s' /\
    forall p, (p < Z.to_nat (width * height))%nat ->
      picture_ s' !! p = (if decide (frags width p drawing = []) then picture_ s !! p
                          else Some (Some (frame_color s p))) /\
      depth_ s' !! p = Some (cleared (val f0 (depth_ s) p)).
Proof.
  intros Hs Hspare. destruct (counted_and_summed s Hs) as (cs & u & Ec & Eu & E1 & Lc & Lg & Lo & Hv & Ho & Ef).
  pose proof Hs as [Ha Hz Hroom Lop Ld Hnum Lp]. destruct (counts_room s Ha) as [Hn Hno].
  unfold transparent_frame. cbv zeta. rewrite Ec. cbn [obind]. rewrite Eu. cbn [obind].
  rewrite Ef. destruct (feedback_room (feedbackSize u) (gpu_ s) (slots_ s) Hroom Hspare) as (Hok & Hlen & Hroom').
  revert Hok Hlen Hroom'. destruct (readFeedback _ _) as [ok gpu]. cbn [fst snd]. intros -> Hlen Hroom'. cbn [negb].
  set (fragment := if _ <? _ then _ else _) in *.
  destruct (place_pass width drawing (length cs)) with (offset := offsetBuffer u) (fragment := fragment)
    as (offset' & fragment' & -> & L1 & L2 & Hoff & Hread).
  { rewrite Hdrawing. apply pixels_inside. lia. }
  { rewrite length_drawing. lia. }
  { intros p Hp. rewrite Ho by done. by rewrite (start_perm width drawing counting). }
  { rewrite length_drawing. lia. }
  cbn [obind]. rewrite E1. set (canvas := mkCanvas _ _ _ _ _ _).
  destruct (blend_pass width (array_size gpu) flags background drawing (val f0 (depth_ s)) (val black (opaque_ s))
    blending canvas) as (c & -> & Hsz & Hdr & Hsame).
  { rewrite Hblending. apply NoDup_seq. }
  { intros p Hp. rewrite Hblending in Hp. apply elem_of_seq in Hp. apply (canvas_ready s); done || lia. }
  cbn [obind]. eexists. split; [done|].
  assert (forall p, (p < Z.to_nat (width * height))%nat -> p ∈ blending) as Hin.
  { intros p Hp. rewrite Hblending. apply elem_of_seq. lia. }
  split.
  - apply (steady_again s cs canvas); try done; [cbn; congruence|cbn; congruence| |].
    { intros p Hp. by apply Hdr, Hin. }
    intros p Hp. apply Hsame. rewrite Hblending. intros H%elem_of_seq. lia.
  - intros p Hp. destruct (Hdr p (Hin p Hp)) as (H1 & _ & H2). split; [exact H1|exact H2].
Qed.
(** C6: A frame of transparent fragments, on a device that grants every allocation.
    Whatever order the device runs the invocations of the passes in, no access is out of
    bounds; each pixel gets its fragments in front of the opaque surface, blended in the
    order of depth over what is behind them, and a pixel without fragments keeps its
    colour; and what the next frame relies on, empty counts and cleared opaque depths
    among it, holds again.  The conditions: the buffers of the size hold at most 2^30
    elements and need no more workgroups than one dispatch may have, eleven times the
    number of fragments is below 2^32, no depth is a NaN, and the fragments do not fill
    the fragment buffer to its last slot (it is larger, or it grows, and there are ten of
    them at least). *)
Theorem transparent_frame_spec s :
  steady width height s -> room_left (gpu_ s) ->
  exists s', transparent_frame d width height maxX flags background fresh order counting drawing blending s =
      Ret (Some s') /\
    steady width height s' /\
    forall p, (p < Z.to_nat (width * height))%nat ->
      picture_ s' !! p = (if decide (frags width p drawing = []) then picture_ s !! p
                          else Some (Some (frame_color s p))) /\
      depth_ s' !! p = Some (cleared (val f0 (depth_ s) p)).
Proof. apply passes_spec. Qed.
End Spec.

(** ** The order of the invocations does not matter *)

(** No two fragments of the pixel have the same depth. *)
Definition depths_differ (width : Z) (fs : list Fragment) (p : nat) : Prop :=
  StronglySorted (strictly_deeper snd) (by_depth snd (slots_of width p fs)).

Lemma sorted_filter {A} (R : A -> A -> Prop) (f : A -> bool) l :
  StronglySorted R l -> StronglySorted R (List.filter f l).
Proof.
  induction 1 as [|x l Hs IH Hx]; cbn [List.filter]; [constructor|]. destruct (f x); [|done].
  constructor; [done|]. rewrite Forall_forall in *. intros y Hy%list_elem_of_In%filter_In%proj1%list_elem_of_In.
  by apply Hx.
Qed.
Lemma filter_perm {A} (f : A -> bool) l l' : l ≡ₚ l' -> List.filter f l ≡ₚ List.filter f l'.
Proof.
  induction 1 as [|x l l' _ IH|x y l|l1 l2 l3 _ IH1 _ IH2]; cbn [List.filter]; [done| | |by rewrite IH1].
  - destruct (f x); [by constructor|done].
  - destruct (f x), (f y); by constructor || done.
Qed.
Lemma slots_of_perm width p fs fs' : fs ≡ₚ fs' -> slots_of width p fs ≡ₚ slots_of width p fs'.
Proof. intros H. unfold slots_of. by rewrite (frags_perm width p fs fs' H). Qed.

Lemma numeric_slots width height p fs : Forall (inside width height) fs -> numeric snd (slots_of width p fs).
Proof.
  intros H. unfold numeric, slots_of. apply Forall_rev, Forall_map, Forall_forall.
  intros f Hf%list_elem_of_In%filter_In%proj1%list_elem_of_In. rewrite Forall_forall in H.
  by destruct (H f Hf) as (_ & _ & ?).
Qed.

Lemma composite_perm {glsl : Glsl} width height p fs fs' od c :
  Forall (inside width height) fs -> fs ≡ₚ fs' -> depths_differ width fs p ->
  composite od c (slots_of width p fs) = composite od c (slots_of width p fs').
Proof.
  intros Hi Hp Hd. unfold composite. f_equal.
  assert (forall gs, gs ≡ₚ fs -> by_depth snd (List.filter (visible od) (slots_of width p gs)) =
            List.filter (visible od) (by_depth snd (slots_of width p fs))) as H; [|by rewrite (H fs), (H fs')].
  intros gs Hg. apply by_depth_unique.
  - apply Forall_forall. intros x Hx%list_elem_of_In%filter_In%proj1%list_elem_of_In.
    rewrite (slots_of_perm width p gs fs Hg) in Hx. pose proof (numeric_slots width height p fs Hi) as Hn.
    unfold numeric in Hn. rewrite Forall_forall in Hn. by apply Hn.
  - apply filter_perm. rewrite by_depth_perm. symmetry. by apply slots_of_perm.
  - by apply sorted_filter.
Qed.

(** C9: The image of the transparent fragments is independent of order.  Two frames with
    the same fragments, no two of one pixel at the same depth, give the same image,
    however the device has ordered the invocations of the count pass, of the dispatches,
    of the transparent pass and of the blend pass, and whichever of the two blend
    pipelines the host has chosen.  The conditions are those of a frame: allocations
    succeed, at most 2^30 elements and no more workgroups than one dispatch may have,
    eleven times the number of fragments below 2^32, no NaN among the depths, and a
    fragment buffer that is not filled to its last slot. *)
Theorem picture_order_independent {glsl : Glsl} d width height maxX flags background fresh
    order counting drawing blending order' counting' drawing' blending' s :
  0 < width -> 0 < height -> pixel_count width height <= 2 ^ 30 -> Z.of_nat (groups width height) <= maxX ->
  (forall n, alloc_ok d n = true) -> (forall n, 0 <= n -> Z.of_nat (length (fresh n)) = n) ->
  Forall (inside width height) counting -> Z.of_nat (length counting) * 11 < 2 ^ 32 ->
  (forall p, depths_differ width counting p) -> steady width height s -> room_left counting (gpu_ s) ->
  order ≡ₚ seq 0 (groups width height) -> order' ≡ₚ order -> counting' ≡ₚ counting ->
  drawing ≡ₚ counting -> drawing' ≡ₚ counting ->
  blending ≡ₚ seq 0 (Z.to_nat (width * height)) -> blending' ≡ₚ blending ->
  exists s1 s2,
    transparent_frame d width height maxX flags background fresh order counting drawing blending s = Ret (Some s1) /\
    transparent_frame d width height maxX flags background fresh order' counting' drawing' blending' s = Ret (Some s2) /\
    picture_ s1 = picture_ s2.
Proof.
  intros Hw Hh Hpx Hmax Ha Hfr Hin H32 Hdd Hs Hroom Ho Ho' Hc' Hd Hd' Hb Hb'.
  assert (Forall (inside width height) counting') as Hin' by (by rewrite Hc').
  assert (room_left counting' (gpu_ s)) as Hroom' by (unfold room_left; by rewrite (Permutation_length Hc')).
  destruct (passes_spec d width height maxX flags background fresh order counting drawing blending
    Hw Hh Hpx Hmax Ho Ha Hfr Hin Hd H32 Hb s Hs Hroom) as (s1 & E1 & St1 & H1).
  destruct (passes_spec d width height maxX flags background fresh order' counting' drawing' blending'
    Hw Hh Hpx Hmax) with (s := s) as (s2 & E2 & St2 & H2);
    [by rewrite Ho'|done|done|done|by rewrite Hc'|by rewrite (Permutation_length Hc')|by rewrite Hb'|done|done|].
  exists s1, s2. split_and!; [done|done|]. apply list_eq. intros p.
  destruct (decide (p < Z.to_nat (width * height))%nat) as [Hp|Hp].
  - destruct (H1 p Hp) as [-> _]. destruct (H2 p Hp) as [-> _].
    assert (frags width p drawing ≡ₚ frags width p drawing') as Hf by (apply frags_perm; by rewrite Hd, Hd').
    destruct (decide (frags width p drawing = [])) as [E|E], (decide (frags width p drawing' = [])) as [E'|E'];
      [done|rewrite E in Hf; by apply Permutation_nil_l in Hf|rewrite E' in Hf; by apply Permutation_nil_r in Hf|].
    do 2 f_equal. unfold frame_color, pixel_color. f_equal.
    rewrite <- (composite_perm width height p counting drawing) by done.
    by rewrite <- (composite_perm width height p counting drawing') by done.
  - destruct St1 as [_ _ _ _ _ _ L1], St2 as [_ _ _ _ _ _ L2]. rewrite !lookup_ge_None_2 by lia. done.
Qed.

(** ** Two pixels *)

Definition sample_fragments : list Fragment :=
  map (fun '(x, n) => mkFragment x 0 (gray n) (depth_of n)) [(0, 7); (1, 2); (0, 3); (0, 2)].
Definition plain_device : Device :=
  mkDevice 16384 16384 true (fun _ => true) (fun _ => false) 0 0 false (mkFrame [] 0 0).
Definition sample_gpu : Gpu :=
  mkGpu false false (0, 0) DRAWMODE_NORMAL DRAWMODE_NORMAL [] [] false [] 0 5 false.
Definition sample_layers : Layers :=
  mkLayers sample_gpu (mkSums (replicate 2048 0) 0 (replicate 256 7) (replicate 2050 9) 0 0) (replicate 5 (gray 0, f0))
    (replicate 6 (gray 9)) [depth_of 6; f0; f0; f0; f0; f0] [None; None].
Definition new_slots (n : Z) : list slot := replicate (Z.to_nat n) (gray 0, f0).

Lemma sample_steady : steady 2 1 sample_layers.
Proof.
  split; try (vm_compute; reflexivity); [apply Forall_forall; by intros x [-> _]%elem_of_replicate|].
  repeat (apply Forall_cons; split; [vm_compute; reflexivity|]). by apply Forall_nil.
Qed.
Lemma sample_inside : Forall (inside 2 1) sample_fragments.
Proof. repeat (apply Forall_cons; split; [split_and!; vm_compute; done|]). by apply Forall_nil. Qed.
Lemma new_slots_length n : 0 <= n -> Z.of_nat (length (new_slots n)) = n.
Proof. intros H. unfold new_slots. rewrite length_replicate. lia. Qed.
Lemma two_pixels_groups : groups 2 1 = 1%nat.
Proof. vm_compute. reflexivity. Qed.
Lemma sample_limit_ : Z.of_nat (groups 2 1) <= 65535.
Proof. by rewrite two_pixels_groups. Qed.
Lemma sample_order_ : [0%nat] ≡ₚ seq 0 (groups 2 1).
Proof. by rewrite two_pixels_groups. Qed.
Lemma sample_depths p : depths_differ 2 sample_fragments p.
Proof.
  unfold depths_differ. destruct p as [|[|p]].
  - assert (by_depth snd (slots_of 2 0 sample_fragments) = map (fun n => (gray n, depth_of n)) [7; 3; 2]) as ->
      by (vm_compute; reflexivity).
    repeat (constructor; [|repeat (apply Forall_cons; split; [vm_compute; reflexivity|]); by apply Forall_nil]).
    constructor.
  - assert (by_depth snd (slots_of 2 1 sample_fragments) = [(gray 2, depth_of 2)]) as -> by (vm_compute; reflexivity).
    constructor; [constructor|by apply Forall_nil].
  - assert (slots_of 2 (S (S p)) sample_fragments = []) as -> by (vm_compute; reflexivity). constructor.
Qed.

Lemma sample_room : room_left sample_fragments (gpu_ sample_layers).
Proof. by left. Qed.

#[local] Abbreviation sample_frame counting drawing blending :=
  (transparent_frame plain_device 2 1 65535 0 (gray 1) new_slots [0%nat] counting drawing blending sample_layers).

Lemma transparent_frame_spec_witness : exists s',
  sample_frame sample_fragments sample_fragments [0; 1]%nat = Ret (Some s') /\ steady 2 1 s' /\
  picture_ s' !! 0%nat = Some (Some (gray 2)) /\ picture_ s' !! 1%nat = Some (Some (gray 2)).
Proof.
  destruct (transparent_frame_spec plain_device 2 1 65535 0 (gray 1) new_slots [0%nat] sample_fragments sample_fragments
    [0; 1]%nat ltac:(lia) ltac:(lia) ltac:(done) sample_limit_ sample_order_ ltac:(done) new_slots_length sample_inside
    ltac:(reflexivity) ltac:(done) ltac:(reflexivity) sample_layers sample_steady sample_room) as (s' & E & St & H).
  exists s'. split; [exact E|]. split; [exact St|]. split.
  - destruct (H 0%nat) as [-> _]; [vm_compute; lia|]. vm_compute. reflexivity.
  - destruct (H 1%nat) as [-> _]; [vm_compute; lia|]. vm_compute. reflexivity.
Defined.

Lemma picture_order_independent_witness : exists s1 s2,
  sample_frame sample_fragments sample_fragments [0; 1]%nat = Ret (Some s1) /\
  sample_frame (rev sample_fragments) (rev sample_fragments) [1; 0]%nat = Ret (Some s2) /\ picture_ s1 = picture_ s2.
Proof.
  assert (rev sample_fragments ≡ₚ sample_fragments) as Hr by (symmetry; apply Permutation_rev).
  exact (picture_order_independent plain_device 2 1 65535 0 (gray 1) new_slots [0%nat] sample_fragments
    sample_fragments [0; 1]%nat [0%nat] (rev sample_fragments) (rev sample_fragments) [1; 0]%nat sample_layers
    ltac:(lia) ltac:(lia) ltac:(done) sample_limit_ ltac:(done) new_slots_length sample_inside ltac:(done)
    sample_depths sample_steady sample_room sample_order_ ltac:(reflexivity) Hr ltac:(reflexivity) Hr ltac:(reflexivity)
    (perm_swap 0%nat 1%nat [])).
Defined.
